(** * VPP dispatch game: asset models, dispatch strategies, simulation engine

    A shallow embedding of the TypeScript sources
      - AssetModels            (per-asset physical models, [updateAsset]),
      - DispatchStrategies     (the composable dispatch engine),
      - SimulationEngine       (the tick orchestrator),
      - ScenarioGenerator      (the random scenario generator),
      - types                  (records, presets),
    followed by the properties proved about them.

    Numbers.  A JavaScript [number] is modelled by a real number.  [NaN]
    and the infinities are not represented, and the real-number library
    takes [x / 0 = 0]; the statements below carry the hypotheses that keep
    the divisions and powers they depend on where JavaScript computes a
    finite number, and where a result of the source holds [NaN] the model
    says so ([NotNumeric]) instead of giving a number.  The rounding of IEEE
    doubles is represented where a statement depends on it: by a rounding
    function with a relative error bound ([RoundedBattery]), and by binary64
    arithmetic itself for computations on concrete inputs.

    Errors.  Reading a property of [undefined] raises a [TypeError]; a
    function of the source that can raise one returns an [option] here, and
    [None] is the exception.

    Randomness.  [Math.random()] is the global, unseeded source of the
    program.  It is modelled by the infinite sequence of its future outcomes,
    threaded through every function that draws from it, in the order in
    which the source draws. *)

From Stdlib Require Import PrimFloat.
From Stdlib Require Import Reals Lra Lia ZArith Psatz.
From stdpp Require Import gmap strings list fin_maps pretty.

(** A decimal literal denotes the closest double, as it does in JavaScript. *)
Set Warnings "-inexact-float".

Open Scope R_scope.

(** ** Numbers and the [Math] object *)

Definition Rltb (x y : R) : bool := if Rlt_dec x y then true else false.
Definition Rleb (x y : R) : bool := if Rle_dec x y then true else false.
Definition Reqb (x y : R) : bool := if Req_dec_T x y then true else false.

Infix "<?" := Rltb (at level 70, no associativity) : R_scope.
Infix "<=?" := Rleb (at level 70, no associativity) : R_scope.
Infix "=?" := Reqb (at level 70, no associativity) : R_scope.
Notation "x >? y" := (Rltb y x) (at level 70, no associativity) : R_scope.
Notation "x >=? y" := (Rleb y x) (at level 70, no associativity) : R_scope.

Definition Math_max : R -> R -> R := Rmax.
Definition Math_min : R -> R -> R := Rmin.
Definition Math_abs : R -> R := Rabs.
Definition Math_exp : R -> R := exp.
Definition Math_sin : R -> R := sin.

(** [Math.floor], [Math.ceil] and [Math.round] (half-way cases round up). *)
Definition Math_floor (x : R) : R := IZR (Int_part x).
Definition Zceil (x : R) : Z := (- Int_part (- x))%Z.
Definition Math_ceil (x : R) : R := IZR (Zceil x).
Definition Math_round (x : R) : R := IZR (Int_part (x + / 2)).

(** [Math.pow]: [x ** 0 = 1]; for [x > 0] the real power [exp (y * ln x)];
    [0 ** y = 0] for [y > 0]; for [x < 0] and a whole exponent the signed
    power, [|x| ** y] for an even [y] and [- (|x| ** y)] for an odd one.  On
    the remaining arguments (0 to a negative power, a negative base to a
    fractional power) JavaScript yields [Infinity] or [NaN], which are not
    numbers of the model; it yields 0 there. *)
Definition is_whole (y : R) : bool := IZR (Int_part y) =? y.

Definition Math_pow (x y : R) : R :=
  if y =? 0 then 1
  else if 0 <? x then Rpower x y
  else if (x <? 0) && is_whole y then
    if Z.even (Int_part y) then Rpower (- x) y else - Rpower (- x) y
  else 0.

(** The remainder operator [%] on numbers: the sign follows the dividend. *)
Definition js_trunc (x : R) : Z :=
  if 0 <=? x then Int_part x else (- Int_part (- x))%Z.
Definition js_rem (x m : R) : R := x - m * IZR (js_trunc (x / m)).

(** ** The random source *)

(** The outcomes [Math.random()] is going to return, first one at index 0. *)
Definition Rng : Type := nat -> R.

(** Every outcome of [Math.random()] lies in [0, 1). *)
Definition rng_ok (g : Rng) : Prop := forall n, 0 <= g n < 1.

(** Computations that draw from the random source. *)
Definition Rand (A : Type) : Type := Rng -> A * Rng.

Definition ret {A : Type} (a : A) : Rand A := fun g => (a, g).
Definition bind {A B : Type} (m : Rand A) (k : A -> Rand B) : Rand B :=
  fun g => let (a, g') := m g in k a g'.

Notation "x <- m ;; k" := (bind m (fun x => k))
  (at level 100, m at next level, right associativity).

Definition Math_random : Rand R :=
  fun g => (g 0%nat, fun n => g (S n)).

(** ** types.ts: scenario configuration *)

Record Weather := { outdoor_temp_f : list R }.

Record Objective := { target_kw : option R }.

Record BaselineError := { sigma_bias : R; sigma_drift : R; rho : R }.

Record MeasurementNoise := { pct_uniform : R }.

Record Noncompliance := { probability : R }.

(** [start_hour] stands for [new Date(start_time).getHours()], the only use
    the models make of [start_time] besides the formatted label of a tick. *)
Record ScenarioConfig := {
  start_hour : R;
  timesteps : Z;
  weather : Weather;
  objective : Objective;
  baseline_error : BaselineError;
  measurement_noise : MeasurementNoise;
  noncompliance : Noncompliance
}.

(** ** types.ts: the five asset variants and their commands *)

Module Hvac.
Inductive Mode := cooling | heating.

Record HvacResiParams := {
  mode : Mode;
  pref_setpoint_f : R;
  comfort_max_f : R;
  comfort_min_f : R;
  alpha : R;
  beta : R;
  hvac_kw : R;
  deadband_f : R
}.

Record HvacResiState := {
  tin_f : R;
  hvac_on : bool;
  setpoint_f : R;
  dropped : bool;
  baseline_bias : R;
  baseline_drift : R
}.

Record HvacResi := { id : string; params : HvacResiParams; state : HvacResiState }.

Record HvacCommand := { delta_setpoint_f : R }.
End Hvac.

Module Battery.
Record BatteryResiParams := {
  e_kwh : R;
  p_dis_kw : R;
  p_ch_kw : R;
  soc_reserve : R
}.

Record BatteryResiState := {
  soc : R;
  dropped : bool;
  baseline_bias : R;
  baseline_drift : R
}.

Record BatteryResi := { id : string; params : BatteryResiParams; state : BatteryResiState }.

Record BatteryCommand := { power_kw : R }.
End Battery.

Module Ev.
Inductive ChargerLevel := L1 | L2.

Record EvResiParams := {
  charger_level : ChargerLevel;
  p_max_kw : R;
  e_req_kwh : R;
  e_capacity_kwh : R;
  t_arrival : Z;
  t_depart : Z
}.

Record EvResiState := {
  e_kwh : R;
  plugged : bool;
  dropped : bool;
  override_active : bool;
  baseline_bias : R;
  baseline_drift : R
}.

Record EvResi := { id : string; params : EvResiParams; state : EvResiState }.

Record EvCommand := { power_kw : R }.
End Ev.

Module Fleet.
Record FleetVehicle := {
  vid : string;
  p_max_kw : R;
  e_req_kwh : R;
  e_capacity_kwh : R;
  t_arrival : Z;
  t_depart : Z
}.

Record FleetVehicleState := { e_kwh : R; plugged : bool }.

Record FleetSiteParams := {
  u_site_max_kw : R;
  vehicles : list FleetVehicle
}.

(** [vehicle_state] is the object keyed by vehicle id. *)
Record FleetSiteState := {
  vehicle_state : gmap string FleetVehicleState;
  dropped : bool;
  baseline_bias : R;
  baseline_drift : R
}.

Record FleetSite := { id : string; params : FleetSiteParams; state : FleetSiteState }.

Record FleetCommand := { site_power_cap_kw : R }.
End Fleet.

Module Ci.
Record BusinessHours := { start_hour : R; end_hour : R }.

Record CiBuildingParams := {
  smax_hvac_kw : R;
  fatigue_k : R;
  fatigue_a : R;
  fatigue_b : R;
  process_load_kw : R;
  max_process_toggles : Z;
  business_hours : BusinessHours
}.

Record CiBuildingState := {
  fatigue : R;
  hvac_shed_kw : R;
  process_on : bool;
  process_toggles_used : Z;
  dropped : bool;
  baseline_bias : R;
  baseline_drift : R
}.

Record CiBuilding := { id : string; params : CiBuildingParams; state : CiBuildingState }.
End Ci.

Module CiCmd.
Record CiBuildingCommand := { hvac_shed_kw : R; process_on : bool }.
End CiCmd.

Inductive AssetType := hvac_resi | battery_resi | ev_resi | fleet_site | ci_building.

Inductive Asset :=
| AHvac (a : Hvac.HvacResi)
| ABattery (a : Battery.BatteryResi)
| AEv (a : Ev.EvResi)
| AFleet (a : Fleet.FleetSite)
| ACi (a : Ci.CiBuilding).

Inductive AssetCommand :=
| CHvac (c : Hvac.HvacCommand)
| CBattery (c : Battery.BatteryCommand)
| CEv (c : Ev.EvCommand)
| CFleet (c : Fleet.FleetCommand)
| CCi (c : CiCmd.CiBuildingCommand).

Record DispatchCommand := { asset_id : string; command : AssetCommand }.

Definition asset_type (a : Asset) : AssetType :=
  match a with
  | AHvac _ => hvac_resi
  | ABattery _ => battery_resi
  | AEv _ => ev_resi
  | AFleet _ => fleet_site
  | ACi _ => ci_building
  end.

Definition asset_ident (a : Asset) : string :=
  match a with
  | AHvac h => Hvac.id h
  | ABattery b => Battery.id b
  | AEv e => Ev.id e
  | AFleet f => Fleet.id f
  | ACi c => Ci.id c
  end.

Definition asset_dropped (a : Asset) : bool :=
  match a with
  | AHvac h => Hvac.dropped (Hvac.state h)
  | ABattery b => Battery.dropped (Battery.state b)
  | AEv e => Ev.dropped (Ev.state e)
  | AFleet f => Fleet.dropped (Fleet.state f)
  | ACi c => Ci.dropped (Ci.state c)
  end.

(** ** AssetModels.ts *)

Definition TIMESTEP_MINUTES : R := 5.
Definition TIMESTEP_HOURS : R := TIMESTEP_MINUTES / 60.

Definition applyMeasurementNoise (value noisePct : R) : Rand R :=
  u <- Math_random ;;
  let noise := 1 + (u * 2 - 1) * noisePct in
  ret (value * noise).

Definition updateBaselineDrift (currentDrift rho sigmaDrift : R) : Rand R :=
  u <- Math_random ;;
  let innovation := (u * 2 - 1) * sigmaDrift in
  ret (rho * currentDrift + innovation).

Definition rollNoncompliance (probability : R) : Rand bool :=
  u <- Math_random ;;
  ret (u <? probability).

(** [command && !rollNoncompliance(p)]: the roll is drawn only when a
    command is present; the result is the command to apply, if any. *)
Definition honoured {C : Type} (command : option C) (config : ScenarioConfig)
  : Rand (option C) :=
  match command with
  | None => ret None
  | Some c =>
      refused <- rollNoncompliance (probability (noncompliance config)) ;;
      ret (if refused then None else Some c)
  end.

Definition drift_step (drift : R) (config : ScenarioConfig) : Rand R :=
  updateBaselineDrift drift (rho (baseline_error config))
                      (sigma_drift (baseline_error config)).

(** *** Residential HVAC *)

Definition updateHvacResi (asset : Hvac.HvacResi) (command : option Hvac.HvacCommand)
    (outdoorTemp : R) (config : ScenarioConfig) : Rand (Hvac.HvacResi * R) :=
  let state := Hvac.state asset in
  let params := Hvac.params asset in
  if Hvac.dropped state then ret (asset, 0) else
  applied <- honoured command config ;;
  let setpoint :=
    match applied with
    | Some c => Hvac.pref_setpoint_f params + Hvac.delta_setpoint_f c
    | None => Hvac.setpoint_f state
    end in
  let leakage := Hvac.alpha params * (outdoorTemp - Hvac.tin_f state) in
  let hvacEffect := if Hvac.hvac_on state then Hvac.beta params else 0 in
  let tin := Hvac.tin_f state + leakage + hvacEffect in
  let isCooling := match Hvac.mode params with Hvac.cooling => true | Hvac.heating => false end in
  let on :=
    if isCooling then
      if tin >? setpoint + Hvac.deadband_f params then true
      else if tin <? setpoint - Hvac.deadband_f params then false
      else Hvac.hvac_on state
    else
      if tin <? setpoint - Hvac.deadband_f params then true
      else if tin >? setpoint + Hvac.deadband_f params then false
      else Hvac.hvac_on state in
  let drop :=
    if isCooling && (tin >? Hvac.comfort_max_f params) then true
    else if negb isCooling && (tin <? Hvac.comfort_min_f params) then true
    else Hvac.dropped state in
  drift <- drift_step (Hvac.baseline_drift state) config ;;
  let actualPower := if on then Hvac.hvac_kw params else 0 in
  let baselinePower := Hvac.hvac_kw params in
  let baselineAdjusted := baselinePower * (1 + Hvac.baseline_bias state + drift) in
  powerDelta <- applyMeasurementNoise (baselineAdjusted - actualPower)
                  (pct_uniform (measurement_noise config)) ;;
  ret ({| Hvac.id := Hvac.id asset;
          Hvac.params := params;
          Hvac.state := {| Hvac.tin_f := tin;
                           Hvac.hvac_on := on;
                           Hvac.setpoint_f := setpoint;
                           Hvac.dropped := drop;
                           Hvac.baseline_bias := Hvac.baseline_bias state;
                           Hvac.baseline_drift := drift |} |},
       Math_max 0 powerDelta).

(** *** Residential battery *)

(** The power the battery delivers (negative when charging) and the state
    of charge it reaches, for a command that is applied. *)
Definition battery_apply (params : Battery.BatteryResiParams) (soc requestedPower : R)
  : R * R :=
  if requestedPower >? 0 then
    let maxDischarge :=
      Math_min (Battery.p_dis_kw params)
               ((soc - Battery.soc_reserve params) * Battery.e_kwh params / TIMESTEP_HOURS) in
    let powerOutput := Math_min requestedPower (Math_max 0 maxDischarge) in
    (powerOutput, soc - (powerOutput * TIMESTEP_HOURS) / Battery.e_kwh params)
  else if requestedPower <? 0 then
    let maxCharge :=
      Math_min (Battery.p_ch_kw params)
               ((1 - soc) * Battery.e_kwh params / TIMESTEP_HOURS) in
    let chargeRate := Math_min (- requestedPower) maxCharge in
    (- chargeRate, soc + (chargeRate * TIMESTEP_HOURS) / Battery.e_kwh params)
  else (0, soc).

Definition updateBatteryResi (asset : Battery.BatteryResi)
    (command : option Battery.BatteryCommand) (config : ScenarioConfig)
  : Rand (Battery.BatteryResi * R) :=
  let state := Battery.state asset in
  let params := Battery.params asset in
  if Battery.dropped state then ret (asset, 0) else
  applied <- honoured command config ;;
  let '(powerOutput, soc') :=
    match applied with
    | Some c => battery_apply params (Battery.soc state) (Battery.power_kw c)
    | None => (0, Battery.soc state)
    end in
  drift <- drift_step (Battery.baseline_drift state) config ;;
  let powerDelta0 := if powerOutput >? 0 then powerOutput else 0 in
  powerDelta <- applyMeasurementNoise powerDelta0
                  (pct_uniform (measurement_noise config)) ;;
  ret ({| Battery.id := Battery.id asset;
          Battery.params := params;
          Battery.state := {| Battery.soc := soc';
                              Battery.dropped := Battery.dropped state;
                              Battery.baseline_bias := Battery.baseline_bias state;
                              Battery.baseline_drift := drift |} |},
       powerDelta).

(** *** The battery in rounded arithmetic *)

(** The battery model with the result of every arithmetic operation rounded
    by [rnd], as IEEE arithmetic rounds it to a double; [Math.min],
    [Math.max], the comparisons and the change of sign are exact.
    [TIMESTEP_HOURS] is the rounded quotient [5 / 60]. *)
Definition battery_apply_rounded (rnd : R -> R) (params : Battery.BatteryResiParams)
    (soc requestedPower : R) : R * R :=
  let timestep_hours := rnd (TIMESTEP_MINUTES / 60) in
  if requestedPower >? 0 then
    let maxDischarge :=
      Math_min (Battery.p_dis_kw params)
               (rnd (rnd (rnd (soc - Battery.soc_reserve params) * Battery.e_kwh params)
                     / timestep_hours)) in
    let powerOutput := Math_min requestedPower (Math_max 0 maxDischarge) in
    (powerOutput,
     rnd (soc - rnd (rnd (powerOutput * timestep_hours) / Battery.e_kwh params)))
  else if requestedPower <? 0 then
    let maxCharge :=
      Math_min (Battery.p_ch_kw params)
               (rnd (rnd (rnd (1 - soc) * Battery.e_kwh params) / timestep_hours)) in
    let chargeRate := Math_min (- requestedPower) maxCharge in
    (- chargeRate,
     rnd (soc + rnd (rnd (chargeRate * timestep_hours) / Battery.e_kwh params)))
  else (0, soc).

Definition applyMeasurementNoise_rounded (rnd : R -> R) (value noisePct : R) : Rand R :=
  u <- Math_random ;;
  let noise := rnd (1 + rnd (rnd (rnd (u * 2) - 1) * noisePct)) in
  ret (rnd (value * noise)).

Definition updateBaselineDrift_rounded (rnd : R -> R) (currentDrift rho sigmaDrift : R)
  : Rand R :=
  u <- Math_random ;;
  let innovation := rnd (rnd (rnd (u * 2) - 1) * sigmaDrift) in
  ret (rnd (rnd (rho * currentDrift) + innovation)).

Definition updateBatteryResi_rounded (rnd : R -> R) (asset : Battery.BatteryResi)
    (command : option Battery.BatteryCommand) (config : ScenarioConfig)
  : Rand (Battery.BatteryResi * R) :=
  let state := Battery.state asset in
  let params := Battery.params asset in
  if Battery.dropped state then ret (asset, 0) else
  applied <- honoured command config ;;
  let '(powerOutput, soc') :=
    match applied with
    | Some c => battery_apply_rounded rnd params (Battery.soc state) (Battery.power_kw c)
    | None => (0, Battery.soc state)
    end in
  drift <- updateBaselineDrift_rounded rnd (Battery.baseline_drift state)
             (rho (baseline_error config)) (sigma_drift (baseline_error config)) ;;
  let powerDelta0 := if powerOutput >? 0 then powerOutput else 0 in
  powerDelta <- applyMeasurementNoise_rounded rnd powerDelta0
                  (pct_uniform (measurement_noise config)) ;;
  ret ({| Battery.id := Battery.id asset;
          Battery.params := params;
          Battery.state := {| Battery.soc := soc';
                              Battery.dropped := Battery.dropped state;
                              Battery.baseline_bias := Battery.baseline_bias state;
                              Battery.baseline_drift := drift |} |},
       powerDelta).

(** *** The battery in binary64 arithmetic *)

(** [Math.min] and [Math.max] on doubles that are numbers. *)
Definition double_min (x y : float) : float := if PrimFloat.ltb y x then y else x.
Definition double_max (x y : float) : float := if PrimFloat.ltb x y then y else x.

(** The arithmetic of [updateBatteryResi] on an applied command, computed
    on IEEE doubles as JavaScript computes it: the power delivered and the
    state of charge reached. *)
Definition battery_apply_double (e_kwh p_dis_kw p_ch_kw soc_reserve soc requestedPower : float)
  : float * float :=
  let timestep_hours := (5 / 60)%float in
  if PrimFloat.ltb 0 requestedPower then
    let maxDischarge :=
      double_min p_dis_kw ((soc - soc_reserve) * e_kwh / timestep_hours)%float in
    let powerOutput := double_min requestedPower (double_max 0 maxDischarge) in
    (powerOutput, (soc - (powerOutput * timestep_hours) / e_kwh)%float)
  else if PrimFloat.ltb requestedPower 0 then
    let maxCharge :=
      double_min p_ch_kw ((1 - soc) * e_kwh / timestep_hours)%float in
    let chargeRate := double_min (- requestedPower)%float maxCharge in
    ((- chargeRate)%float, (soc + (chargeRate * timestep_hours) / e_kwh)%float)
  else (0%float, soc).

(** *** Residential EV *)

(** The charge rate of a plugged EV for the tick: the maximum rate when the
    override is active (no roll is drawn then), the commanded rate clamped to
    [0, p_max_kw] when a command is honoured, the maximum rate otherwise. *)
Definition ev_chargePower (params : Ev.EvResiParams) (override : bool)
    (command : option Ev.EvCommand) (config : ScenarioConfig) : Rand R :=
  if override then ret (Ev.p_max_kw params)
  else
    applied <- honoured command config ;;
    ret (match applied with
         | Some c => Math_max 0 (Math_min (Ev.power_kw c) (Ev.p_max_kw params))
         | None => Ev.p_max_kw params
         end).

Definition updateEvResi (asset : Ev.EvResi) (command : option Ev.EvCommand)
    (currentTimestep : Z) (config : ScenarioConfig) : Rand (Ev.EvResi * R) :=
  let state := Ev.state asset in
  let params := Ev.params asset in
  let with_state s :=
    {| Ev.id := Ev.id asset; Ev.params := params; Ev.state := s |} in
  if Ev.dropped state then ret (asset, 0) else
  let plugged1 :=
    if (Ev.t_arrival params <=? currentTimestep)%Z && negb (Ev.plugged state)
    then true else Ev.plugged state in
  if (Ev.t_depart params <=? currentTimestep)%Z then
    ret (with_state {| Ev.e_kwh := Ev.e_kwh state;
                       Ev.plugged := false;
                       Ev.dropped := true;
                       Ev.override_active := Ev.override_active state;
                       Ev.baseline_bias := Ev.baseline_bias state;
                       Ev.baseline_drift := Ev.baseline_drift state |}, 0)
  else if negb plugged1 then
    ret (with_state {| Ev.e_kwh := Ev.e_kwh state;
                       Ev.plugged := plugged1;
                       Ev.dropped := Ev.dropped state;
                       Ev.override_active := Ev.override_active state;
                       Ev.baseline_bias := Ev.baseline_bias state;
                       Ev.baseline_drift := Ev.baseline_drift state |}, 0)
  else
  let remainingSteps := IZR (Ev.t_depart params - currentTimestep) in
  let remainingEnergy := Ev.e_req_kwh params - Ev.e_kwh state in
  let maxPossibleEnergy := Ev.p_max_kw params * remainingSteps * TIMESTEP_HOURS in
  let override :=
    if (remainingEnergy >? 0) && (maxPossibleEnergy <=? remainingEnergy * 1.1)
    then true else Ev.override_active state in
  chargePower <- ev_chargePower params override command config ;;
  let chargeEnergy := chargePower * TIMESTEP_HOURS in
  let e' := Math_min (Ev.e_kwh state + chargeEnergy) (Ev.e_capacity_kwh params) in
  drift <- drift_step (Ev.baseline_drift state) config ;;
  let baselinePower := Ev.p_max_kw params * (1 + Ev.baseline_bias state + drift) in
  powerDelta <- applyMeasurementNoise (baselinePower - chargePower)
                  (pct_uniform (measurement_noise config)) ;;
  ret (with_state {| Ev.e_kwh := e';
                     Ev.plugged := plugged1;
                     Ev.dropped := Ev.dropped state;
                     Ev.override_active := override;
                     Ev.baseline_bias := Ev.baseline_bias state;
                     Ev.baseline_drift := drift |},
       Math_max 0 powerDelta).

(** *** Fleet site *)

(** First loop of [updateFleetSite]: plug status of every vehicle.  Reading
    the state of a vehicle that has no entry raises a [TypeError]: [None]. *)
Fixpoint fleet_plug (vehicles : list Fleet.FleetVehicle) (currentTimestep : Z)
    (vs : gmap string Fleet.FleetVehicleState)
  : option (gmap string Fleet.FleetVehicleState) :=
  match vehicles with
  | [] => Some vs
  | v :: rest =>
      match vs !! Fleet.vid v with
      | None => None
      | Some s =>
          let p1 := if (Fleet.t_arrival v <=? currentTimestep)%Z && negb (Fleet.plugged s)
                    then true else Fleet.plugged s in
          let p2 := if (Fleet.t_depart v <=? currentTimestep)%Z then false else p1 in
          fleet_plug rest currentTimestep
            (<[Fleet.vid v := {| Fleet.e_kwh := Fleet.e_kwh s; Fleet.plugged := p2 |}]> vs)
      end
  end.

(** The filter that selects the plugged vehicles still in need of energy. *)
Definition fleet_needy (currentTimestep : Z) (vs : gmap string Fleet.FleetVehicleState)
    (v : Fleet.FleetVehicle) : bool :=
  match vs !! Fleet.vid v with
  | Some s => Fleet.plugged s && (Fleet.e_kwh s <? Fleet.e_req_kwh v)
              && (currentTimestep <? Fleet.t_depart v)%Z
  | None => false
  end.

(** Second loop: the urgency of each selected vehicle and their total. *)
Definition fleet_urgencies (currentTimestep : Z) (vs : gmap string Fleet.FleetVehicleState)
    (pluggedVehicles : list Fleet.FleetVehicle) : gmap string R * R :=
  fold_left
    (fun (acc : gmap string R * R) v =>
       let e := match vs !! Fleet.vid v with Some s => Fleet.e_kwh s | None => 0 end in
       let remainingEnergy := Fleet.e_req_kwh v - e in
       let remainingTime :=
         Math_max 1 (IZR (Fleet.t_depart v - currentTimestep)) * TIMESTEP_HOURS in
       let urgency := remainingEnergy / remainingTime in
       (<[Fleet.vid v := urgency]> (fst acc), snd acc + urgency))
    pluggedVehicles (∅, 0).

(** Third loop: proportional allocation under the site cap. *)
Definition fleet_allocate (sitePowerCap : R) (urgencies : gmap string R) (totalUrgency : R)
    (pluggedVehicles : list Fleet.FleetVehicle) (vs : gmap string Fleet.FleetVehicleState)
  : gmap string Fleet.FleetVehicleState * R :=
  fold_left
    (fun (acc : gmap string Fleet.FleetVehicleState * R) v =>
       let u := match urgencies !! Fleet.vid v with Some u => u | None => 0 end in
       let proportion :=
         if totalUrgency >? 0 then u / totalUrgency
         else 1 / INR (length pluggedVehicles) in
       let allocatedPower := Math_min (Fleet.p_max_kw v) (proportion * sitePowerCap) in
       let chargeEnergy := allocatedPower * TIMESTEP_HOURS in
       let vs' :=
         match fst acc !! Fleet.vid v with
         | Some s =>
             <[Fleet.vid v :=
                 {| Fleet.e_kwh := Math_min (Fleet.e_kwh s + chargeEnergy)
                                            (Fleet.e_capacity_kwh v);
                    Fleet.plugged := Fleet.plugged s |}]> (fst acc)
         | None => fst acc
         end in
       (vs', snd acc + allocatedPower))
    pluggedVehicles (vs, 0).

Definition updateFleetSite (asset : Fleet.FleetSite) (command : option Fleet.FleetCommand)
    (currentTimestep : Z) (config : ScenarioConfig)
  : Rng -> option ((Fleet.FleetSite * R) * Rng) :=
  fun g =>
  let state := Fleet.state asset in
  let params := Fleet.params asset in
  if Fleet.dropped state then Some ((asset, 0), g) else
  match fleet_plug (Fleet.vehicles params) currentTimestep (Fleet.vehicle_state state) with
  | None => None
  | Some vs1 =>
      Some ((
        applied <- honoured command config ;;
        let sitePowerCap :=
          match applied with
          | Some c => Math_max 0 (Math_min (Fleet.site_power_cap_kw c)
                                           (Fleet.u_site_max_kw params))
          | None => Fleet.u_site_max_kw params
          end in
        let pluggedVehicles :=
          List.filter (fleet_needy currentTimestep vs1) (Fleet.vehicles params) in
        let '(urgencies, totalUrgency) :=
          fleet_urgencies currentTimestep vs1 pluggedVehicles in
        let '(vs2, actualSitePower) :=
          fleet_allocate sitePowerCap urgencies totalUrgency pluggedVehicles vs1 in
        drift <- drift_step (Fleet.baseline_drift state) config ;;
        let baselinePower :=
          Fleet.u_site_max_kw params * 0.7 * (1 + Fleet.baseline_bias state + drift) in
        powerDelta <- applyMeasurementNoise (baselinePower - actualSitePower)
                        (pct_uniform (measurement_noise config)) ;;
        ret ({| Fleet.id := Fleet.id asset;
                Fleet.params := params;
                Fleet.state := {| Fleet.vehicle_state := vs2;
                                  Fleet.dropped := Fleet.dropped state;
                                  Fleet.baseline_bias := Fleet.baseline_bias state;
                                  Fleet.baseline_drift := drift |} |},
             Math_max 0 powerDelta)) g)
  end.

(** *** C&I building *)

Definition updateCiBuilding (asset : Ci.CiBuilding)
    (command : option CiCmd.CiBuildingCommand)
    (currentTimestep : Z) (startHour : R) (config : ScenarioConfig)
  : Rand (Ci.CiBuilding * R) :=
  let state := Ci.state asset in
  let params := Ci.params asset in
  let with_state s :=
    {| Ci.id := Ci.id asset; Ci.params := params; Ci.state := s |} in
  if Ci.dropped state then ret (asset, 0) else
  let currentHour :=
    js_rem (startHour + IZR currentTimestep * (TIMESTEP_MINUTES / 60)) 24 in
  let isBusinessHours :=
    (currentHour >=? Ci.start_hour (Ci.business_hours params))
    && (currentHour <? Ci.end_hour (Ci.business_hours params)) in
  applied <- honoured command config ;;
  let targetHvacShed :=
    match applied with Some c => CiCmd.hvac_shed_kw c | None => 0 end in
  let targetProcessOn :=
    match applied with Some c => CiCmd.process_on c | None => Ci.process_on state end in
  let availableCapacity :=
    Ci.smax_hvac_kw params * Math_exp (- Ci.fatigue_k params * Ci.fatigue state) in
  let actualShed := Math_min targetHvacShed availableCapacity in
  let shedRatio := actualShed / Ci.smax_hvac_kw params in
  let fatigue' :=
    Math_max 0 (Ci.fatigue state + Ci.fatigue_a params * shedRatio
                - Ci.fatigue_b params * (1 - shedRatio)) in
  if fatigue' >? 2 then
    ret (with_state {| Ci.fatigue := fatigue';
                       Ci.hvac_shed_kw := actualShed;
                       Ci.process_on := Ci.process_on state;
                       Ci.process_toggles_used := Ci.process_toggles_used state;
                       Ci.dropped := true;
                       Ci.baseline_bias := Ci.baseline_bias state;
                       Ci.baseline_drift := Ci.baseline_drift state |}, 0)
  else
  let toggles :=
    negb (eqb targetProcessOn (Ci.process_on state))
    && (Ci.process_toggles_used state <? Ci.max_process_toggles params)%Z
    && (negb isBusinessHours || (0 <? Ci.process_toggles_used state)%Z) in
  let process_on' := if toggles then targetProcessOn else Ci.process_on state in
  let toggles_used' :=
    if toggles then (Ci.process_toggles_used state + 1)%Z
    else Ci.process_toggles_used state in
  let processLoadDelta := if negb process_on' then Ci.process_load_kw params else 0 in
  drift <- drift_step (Ci.baseline_drift state) config ;;
  powerDelta <- applyMeasurementNoise (actualShed + processLoadDelta)
                  (pct_uniform (measurement_noise config)) ;;
  ret (with_state {| Ci.fatigue := fatigue';
                     Ci.hvac_shed_kw := actualShed;
                     Ci.process_on := process_on';
                     Ci.process_toggles_used := toggles_used';
                     Ci.dropped := Ci.dropped state;
                     Ci.baseline_bias := Ci.baseline_bias state;
                     Ci.baseline_drift := drift |},
       Math_max 0 powerDelta).

(** *** The fatigue of a C&I building in binary64 arithmetic *)

(** [Math.max] on doubles: [NaN] when an argument is [NaN]. *)
Definition Math_max_double (x y : float) : float :=
  if PrimFloat.is_nan x || PrimFloat.is_nan y then PrimFloat.nan
  else if PrimFloat.ltb x y then y else x.

(** The fatigue that [updateCiBuilding] stores, computed on IEEE doubles as
    JavaScript computes it, from the shed [actualShed] of the tick. *)
Definition ci_fatigue_double (smax_hvac_kw fatigue_a fatigue_b fatigue actualShed : float)
  : float :=
  let shedRatio := (actualShed / smax_hvac_kw)%float in
  Math_max_double 0 (fatigue + fatigue_a * shedRatio - fatigue_b * (1 - shedRatio))%float.

(** *** The unified update *)

(** The result of [updateAsset].  [Updated asset powerDelta] is a result all
    of whose numbers are finite.  [NotNumeric asset] is a result in which a
    state field or the power delta is [NaN], because the model computed with
    a field that the command object does not have; such a result has the id,
    the type and the params of [asset], which is the asset as it was handed
    to the update. *)
Inductive UpdateResult :=
| Updated (asset : Asset) (powerDelta : R)
| NotNumeric (asset : Asset).

Definition result_asset (r : UpdateResult) : Asset :=
  match r with
  | Updated a _ => a
  | NotNumeric a => a
  end.

(** [command as XCommand | null] does nothing at run time: the model that
    the asset's type selects reads, by name, the fields it needs from
    whatever command object it is handed.  The functions below give the
    command as the selected model reads it.  A battery command and an EV
    command both carry [power_kw], so each is read as the other.  In the
    remaining mismatched pairs the field read is [undefined]: [None], except
    for the battery, whose only use of [power_kw] is in the tests
    [requestedPower > 0] and [requestedPower < 0]; [undefined] fails both,
    as 0 does, and the command is read as one of 0 kW. *)
Definition as_HvacCommand (c : AssetCommand) : option Hvac.HvacCommand :=
  match c with CHvac h => Some h | _ => None end.

Definition as_BatteryCommand (c : AssetCommand) : Battery.BatteryCommand :=
  match c with
  | CBattery b => b
  | CEv e => {| Battery.power_kw := Ev.power_kw e |}
  | _ => {| Battery.power_kw := 0 |}
  end.

Definition as_EvCommand (c : AssetCommand) : option Ev.EvCommand :=
  match c with
  | CEv e => Some e
  | CBattery b => Some {| Ev.power_kw := Battery.power_kw b |}
  | _ => None
  end.

Definition as_FleetCommand (c : AssetCommand) : option Fleet.FleetCommand :=
  match c with CFleet f => Some f | _ => None end.

Definition as_CiBuildingCommand (c : AssetCommand) : option CiCmd.CiBuildingCommand :=
  match c with CCi b => Some b | _ => None end.

(** The command handed to a model: [Some None] for [null], [Some (Some c)]
    for a command whose fields the model can read, [None] for a command
    object that lacks them. *)
Definition cast_command {C : Type} (view : AssetCommand -> option C)
    (command : option AssetCommand) : option (option C) :=
  match command with
  | None => Some None
  | Some c => match view c with Some c' => Some (Some c') | None => None end
  end.

Definition lift_result {A : Type} (inj : A -> Asset) (m : Rand (A * R))
  : Rng -> option (UpdateResult * Rng) :=
  fun g => let '((a, p), g') := m g in Some (Updated (inj a) p, g').

(** The rest of an update whose numbers are [NaN]: the baseline drift and
    the measurement noise are still drawn. *)
Definition not_numeric (asset : Asset) (drift : R) (config : ScenarioConfig)
  : Rand UpdateResult :=
  _ <- drift_step drift config ;;
  _ <- applyMeasurementNoise 0 (pct_uniform (measurement_noise config)) ;;
  ret (NotNumeric asset).

(** A model that tests [command && !rollNoncompliance(p)] first thing after
    the dropped check (HVAC, C&I building), handed a command object without
    the fields it reads: the object is truthy, so the roll is drawn; when the
    roll refuses the command the update goes on as without a command, and
    otherwise it computes with [undefined]. *)
Definition unreadable_command {A : Type} (inj : A -> Asset) (asset : A)
    (dropped : bool) (drift : R) (config : ScenarioConfig)
    (uncommanded : Rand (A * R)) : Rng -> option (UpdateResult * Rng) :=
  fun g =>
  if dropped then Some (Updated (inj asset) 0, g) else
  let '(refused, g1) := rollNoncompliance (probability (noncompliance config)) g in
  if refused then lift_result inj uncommanded g1
  else Some (not_numeric (inj asset) drift config g1).

(** [updateEvResi] reaches the test of the command only for an EV that has
    not dropped, is on site before its departure, and is not under override
    (active already, or triggered at this tick). *)
Definition ev_reads_command (asset : Ev.EvResi) (currentTimestep : Z) : bool :=
  let state := Ev.state asset in
  let params := Ev.params asset in
  let plugged1 :=
    if (Ev.t_arrival params <=? currentTimestep)%Z && negb (Ev.plugged state)
    then true else Ev.plugged state in
  let remainingSteps := IZR (Ev.t_depart params - currentTimestep) in
  let remainingEnergy := Ev.e_req_kwh params - Ev.e_kwh state in
  let maxPossibleEnergy := Ev.p_max_kw params * remainingSteps * TIMESTEP_HOURS in
  let override :=
    if (remainingEnergy >? 0) && (maxPossibleEnergy <=? remainingEnergy * 1.1)
    then true else Ev.override_active state in
  negb (Ev.dropped state) && negb (Ev.t_depart params <=? currentTimestep)%Z
  && plugged1 && negb override.

(** An EV handed a command object without [power_kw]: where the update
    reaches the command and the roll accepts it, the charge rate
    [Math.max(0, Math.min(undefined, p_max_kw))] is [NaN]. *)
Definition updateEvResi_unreadable (asset : Ev.EvResi) (currentTimestep : Z)
    (config : ScenarioConfig) : Rng -> option (UpdateResult * Rng) :=
  if ev_reads_command asset currentTimestep then
    unreadable_command AEv asset false (Ev.baseline_drift (Ev.state asset)) config
      (updateEvResi asset None currentTimestep config)
  else lift_result AEv (updateEvResi asset None currentTimestep config).

(** A fleet site handed a command object without [site_power_cap_kw]: the
    site cap is [NaN] when the roll accepts the command, and so is the power
    allocated to every vehicle that charges; without such a vehicle the cap
    is not used. *)
Definition updateFleetSite_unreadable (asset : Fleet.FleetSite) (currentTimestep : Z)
    (config : ScenarioConfig) : Rng -> option (UpdateResult * Rng) :=
  fun g =>
  let state := Fleet.state asset in
  let params := Fleet.params asset in
  if Fleet.dropped state then Some (Updated (AFleet asset) 0, g) else
  match fleet_plug (Fleet.vehicles params) currentTimestep (Fleet.vehicle_state state) with
  | None => None
  | Some vs1 =>
      let '(refused, g1) := rollNoncompliance (probability (noncompliance config)) g in
      let nobody :=
        match List.filter (fleet_needy currentTimestep vs1) (Fleet.vehicles params) with
        | [] => true
        | _ :: _ => false
        end in
      if refused || nobody then
        '(r, g2) ← updateFleetSite asset None currentTimestep config g1;
        Some (Updated (AFleet (fst r)) (snd r), g2)
      else Some (not_numeric (AFleet asset) (Fleet.baseline_drift state) config g1)
  end.

(** [updateAsset] selects the model by the type of the asset alone and
    hands it the command as it is.  The result is [None] where the source
    raises a [TypeError] (a fleet vehicle without a state entry, see
    [fleet_plug]); the [default] branch of the source is unreachable for the
    five variants of [Asset]. *)
Definition updateAsset (asset : Asset) (command : option AssetCommand)
    (currentTimestep : Z) (outdoorTemp startHour : R) (config : ScenarioConfig)
  : Rng -> option (UpdateResult * Rng) :=
  match asset with
  | AHvac a =>
      match cast_command as_HvacCommand command with
      | Some c => lift_result AHvac (updateHvacResi a c outdoorTemp config)
      | None =>
          unreadable_command AHvac a (Hvac.dropped (Hvac.state a))
            (Hvac.baseline_drift (Hvac.state a)) config
            (updateHvacResi a None outdoorTemp config)
      end
  | ABattery a =>
      lift_result ABattery (updateBatteryResi a (as_BatteryCommand <$> command) config)
  | AEv a =>
      match cast_command as_EvCommand command with
      | Some c => lift_result AEv (updateEvResi a c currentTimestep config)
      | None => updateEvResi_unreadable a currentTimestep config
      end
  | AFleet a =>
      match cast_command as_FleetCommand command with
      | Some c =>
          fun g =>
          '(r, g') ← updateFleetSite a c currentTimestep config g;
          Some (Updated (AFleet (fst r)) (snd r), g')
      | None => updateFleetSite_unreadable a currentTimestep config
      end
  | ACi a =>
      match cast_command as_CiBuildingCommand command with
      | Some c => lift_result ACi (updateCiBuilding a c currentTimestep startHour config)
      | None =>
          unreadable_command ACi a (Ci.dropped (Ci.state a))
            (Ci.baseline_drift (Ci.state a)) config
            (updateCiBuilding a None currentTimestep startHour config)
      end
  end.

(** ** types.ts: the strategy taxonomy *)

Inductive DecisionFramework :=
  deterministic_policy | greedy_myopic | stochastic | feedback_control.

(** [FrameworkSubtype] is the union of the subtypes of the four frameworks. *)
Inductive FrameworkSubtype :=
| static_priority | threshold_triggered | state_machine | scenario_tree
| max_capacity_now | min_risk_now | best_efficiency_now
| expected_value | chance_constrained | monte_carlo_weighted
| error_correction | adaptive_weighting | pid_like_control.

Inductive ObjectiveFunction :=
  capacity | risk_minimization | efficiency | regret_minimization | learning_oriented.

Inductive SelectionOrdering :=
| batteries_first | hvac_first | high_load_reduction_first | balanced_weighting
| highest_trust_score | lowest_variance | best_historical_delivery
| highest_headroom | lowest_marginal_comfort_cost | highest_soc_buffer
| least_recently_dispatched | round_robin | fatigue_balanced.

Inductive RiskPosture := risk_averse | neutral | opportunity_seeking | deadline_aware.

Inductive FeedbackMode := none | closed_loop | post_event_learning.

Module Strategy.
Record StrategyConfig := {
  decisionFramework : DecisionFramework;
  frameworkSubtype : FrameworkSubtype;
  objective : ObjectiveFunction;
  selectionOrderings : list SelectionOrdering;
  riskPosture : RiskPosture;
  feedbackMode : FeedbackMode
}.
End Strategy.

Record RiskPostureParams := {
  reserveMargin : R;
  dispatchTiming : R;
  rampUpSpeed : R;
  conservationFactor : R
}.

Definition RISK_POSTURE_PARAMS (p : RiskPosture) : RiskPostureParams :=
  match p with
  | risk_averse =>
      {| reserveMargin := 0.4; dispatchTiming := -0.5; rampUpSpeed := 0.3;
         conservationFactor := 0.7 |}
  | neutral =>
      {| reserveMargin := 0.25; dispatchTiming := 0; rampUpSpeed := 0.5;
         conservationFactor := 0.5 |}
  | opportunity_seeking =>
      {| reserveMargin := 0.15; dispatchTiming := 0.3; rampUpSpeed := 0.6;
         conservationFactor := 0.3 |}
  | deadline_aware =>
      {| reserveMargin := 0.35; dispatchTiming := 0; rampUpSpeed := 0.25;
         conservationFactor := 0.6 |}
  end.

Definition DEFAULT_STRATEGY_CONFIG : Strategy.StrategyConfig :=
  {| Strategy.decisionFramework := feedback_control;
     Strategy.frameworkSubtype := error_correction;
     Strategy.objective := capacity;
     Strategy.selectionOrderings := [balanced_weighting; highest_headroom];
     Strategy.riskPosture := neutral;
     Strategy.feedbackMode := closed_loop |}.

(** [isValidSubtypeForFramework]: the subtype is a key of
    [DECISION_FRAMEWORK_INFO[framework].subtypes]. *)
Definition isValidSubtypeForFramework (framework : DecisionFramework)
    (subtype : FrameworkSubtype) : bool :=
  match framework, subtype with
  | deterministic_policy,
    (static_priority | threshold_triggered | state_machine | scenario_tree) => true
  | greedy_myopic, (max_capacity_now | min_risk_now | best_efficiency_now) => true
  | stochastic, (expected_value | chance_constrained | monte_carlo_weighted) => true
  | feedback_control, (error_correction | adaptive_weighting | pid_like_control) => true
  | _, _ => false
  end.

Inductive DifficultyLevel := easy | medium | hard.

Record DifficultyPreset := {
  target_mw : R;
  preset_noncompliance : R;
  response_variability : R;
  headroom_multiplier : R;
  penalty_exponent : R;
  over_performance_penalty_ratio : R
}.

Definition DIFFICULTY_PRESETS (d : DifficultyLevel) : DifficultyPreset :=
  match d with
  | easy =>
      {| target_mw := 5; preset_noncompliance := 0.05; response_variability := 0.1;
         headroom_multiplier := 4.0; penalty_exponent := 1.5;
         over_performance_penalty_ratio := 0.3 |}
  | medium =>
      {| target_mw := 50; preset_noncompliance := 0.15; response_variability := 0.25;
         headroom_multiplier := 2.5; penalty_exponent := 2.0;
         over_performance_penalty_ratio := 0.5 |}
  | hard =>
      {| target_mw := 300; preset_noncompliance := 0.25; response_variability := 0.4;
         headroom_multiplier := 1.5; penalty_exponent := 3.0;
         over_performance_penalty_ratio := 0.7 |}
  end.

(** ** DispatchStrategies.ts *)

(** [DispatchIntensitySettings], as [context.dispatchIntensity[asset.type]
    ?? 50] reads it: a number per asset type (0-100, say the comments of
    the source); a missing entry is read as 50. *)
Definition DispatchIntensitySettings : Type := AssetType -> option R.

Definition intensity_of (settings : DispatchIntensitySettings) (t : AssetType) : R :=
  match settings t with Some v => v | None => 50 end.

(** The context object handed to the strategy.  The interface declares
    [dispatchIntensity] as a required property, but a type annotation does
    nothing at run time: the property of an object that was built without it
    is [undefined] ([None]), and indexing it raises a [TypeError]. *)
Module Ctx.
Record StrategyContext := {
  assets : list Asset;
  targetKw : R;
  currentTimestep : Z;
  totalTimesteps : Z;
  config : ScenarioConfig;
  strategyConfig : Strategy.StrategyConfig;
  dispatchIntensity : option DispatchIntensitySettings;
  previousAchievedKw : option R;
  previouslyDispatchedAssetIds : gset string;
  accumulatedError : R;
  assetPerformanceScores : gmap string R
}.
End Ctx.

Definition getRiskParams (riskPosture : RiskPosture) : RiskPostureParams :=
  RISK_POSTURE_PARAMS riskPosture.

Definition getAvailableCapacity (asset : Asset) (timestep : Z) : R :=
  match asset with
  | AHvac a =>
      if Hvac.dropped (Hvac.state a) then 0 else Hvac.hvac_kw (Hvac.params a)
  | ABattery a =>
      if Battery.dropped (Battery.state a) then 0 else
      let availableSoc := Battery.soc (Battery.state a) - Battery.soc_reserve (Battery.params a) in
      Math_min (Battery.p_dis_kw (Battery.params a))
               (availableSoc * Battery.e_kwh (Battery.params a) * 12)
  | AEv a =>
      if Ev.dropped (Ev.state a) || Ev.override_active (Ev.state a)
         || negb (Ev.plugged (Ev.state a))
      then 0 else Ev.p_max_kw (Ev.params a)
  | AFleet a =>
      if Fleet.dropped (Fleet.state a) then 0
      else Fleet.u_site_max_kw (Fleet.params a) * 0.7
  | ACi a =>
      if Ci.dropped (Ci.state a) then 0 else
      let hvacAvail :=
        Ci.smax_hvac_kw (Ci.params a)
        * Math_exp (- Ci.fatigue_k (Ci.params a) * Ci.fatigue (Ci.state a)) in
      let processAvail :=
        if Ci.process_on (Ci.state a) then Ci.process_load_kw (Ci.params a) else 0 in
      hvacAvail + processAvail
  end.

Definition hvac_tempMargin (hvac : Hvac.HvacResi) : R :=
  match Hvac.mode (Hvac.params hvac) with
  | Hvac.cooling => Hvac.comfort_max_f (Hvac.params hvac) - Hvac.tin_f (Hvac.state hvac)
  | Hvac.heating => Hvac.tin_f (Hvac.state hvac) - Hvac.comfort_min_f (Hvac.params hvac)
  end.

Definition estimateDropRisk (asset : Asset) (riskParams : RiskPostureParams) : R :=
  let conservationFactor := conservationFactor riskParams in
  match asset with
  | AHvac hvac =>
      let tempMargin := hvac_tempMargin hvac in
      Math_max 0 (Math_min 1 ((1 - tempMargin / 4) * (1 - conservationFactor * 0.5)))
  | ABattery bat =>
      let socMargin := Battery.soc (Battery.state bat) - Battery.soc_reserve (Battery.params bat) in
      Math_max 0 (Math_min 1 ((1 - socMargin) * 0.5))
  | AEv ev =>
      if Ev.override_active (Ev.state ev) then 1 else
      let energyNeeded := Ev.e_req_kwh (Ev.params ev) - Ev.e_kwh (Ev.state ev) in
      if energyNeeded >? 20 then 0.6 else if energyNeeded >? 10 then 0.3 else 0.1
  | ACi ci => Math_min 1 (Ci.fatigue (Ci.state ci) * 0.8)
  | AFleet _ => 0.2
  end.

Definition calculateComfortCost (asset : Asset) : R :=
  match asset with
  | AHvac hvac => Math_max 0 (4 - hvac_tempMargin hvac)
  | AEv ev =>
      let chargeNeeded := Ev.e_req_kwh (Ev.params ev) - Ev.e_kwh (Ev.state ev) in
      let timeRemaining := IZR (Ev.t_depart (Ev.params ev) - Ev.t_arrival (Ev.params ev)) in
      chargeNeeded / Math_max 1 timeRemaining
  | ACi ci => Ci.fatigue (Ci.state ci) * 2
  | ABattery _ | AFleet _ => 0.5
  end.

Definition calculateHeadroom (asset : Asset) : R :=
  match asset with
  | ABattery bat =>
      (Battery.soc (Battery.state bat) - Battery.soc_reserve (Battery.params bat))
      * Battery.e_kwh (Battery.params bat)
  | AEv ev =>
      if negb (Ev.plugged (Ev.state ev)) then 0
      else Ev.e_kwh (Ev.state ev) - Ev.e_req_kwh (Ev.params ev) * 0.2
  | AHvac hvac => hvac_tempMargin hvac
  | ACi ci => (1 - Ci.fatigue (Ci.state ci)) * Ci.smax_hvac_kw (Ci.params ci)
  | AFleet a => Fleet.u_site_max_kw (Fleet.params a) * 0.5
  end.

(** [progress] is [currentTimestep / totalTimesteps]: for a context with
    [totalTimesteps = 0] the source computes [NaN] or an infinity, and the
    properties that depend on the ramp assume [totalTimesteps > 0]. *)
Definition calculateRampUpPercentage (context : Ctx.StrategyContext) : R :=
  let posture := Strategy.riskPosture (Ctx.strategyConfig context) in
  let riskParams := getRiskParams posture in
  let progress := IZR (Ctx.currentTimestep context) / IZR (Ctx.totalTimesteps context) in
  let initialPct := rampUpSpeed riskParams in
  match posture with
  | deadline_aware =>
      let urgency := Math_pow progress 0.5 in
      Math_min 1 (initialPct + (1 - initialPct) * urgency)
  | _ =>
      let rampDuration :=
        match posture with
        | risk_averse => 0.7
        | opportunity_seeking => 0.4
        | _ => 0.5
        end in
      let rampProgress := Math_min 1 (progress / rampDuration) in
      Math_min 1 (initialPct + (1 - initialPct) * rampProgress)
  end.

Module Scored.
Record ScoredAsset := { asset : Asset; capacity : R; score : R }.
End Scored.

(** [parseInt(id.replace(/\D/g, ''), 10)]: the number written by the decimal
    digits of the id, [None] when the id has no digit ([NaN]). *)
Fixpoint digits_value (s : string) (acc : option Z) : option Z :=
  match s with
  | EmptyString => acc
  | String c rest =>
      let n := Z.of_nat (Ascii.nat_of_ascii c) in
      if (48 <=? n)%Z && (n <=? 57)%Z
      then digits_value rest (Some (10 * default 0%Z acc + (n - 48))%Z)
      else digits_value rest acc
  end.

(** The score of one ordering criterion ([switch (ordering)]).  For
    [round_robin] an id without digits gives [NaN] in the source and 0 here. *)
Definition orderScore (asset : Asset) (ordering : SelectionOrdering)
    (context : Ctx.StrategyContext) : R :=
  let riskParams := getRiskParams (Strategy.riskPosture (Ctx.strategyConfig context)) in
  let trust :=
    default 0.5 (Ctx.assetPerformanceScores context !! asset_ident asset) in
  match ordering with
  | batteries_first =>
      match asset with ABattery _ => 1 | _ => 0.3 end
  | hvac_first =>
      match asset with AHvac _ => 1 | _ => 0.3 end
  | high_load_reduction_first =>
      match asset with AEv _ | AFleet _ => 1 | _ => 0.3 end
  | balanced_weighting => 0.5
  | highest_trust_score => trust
  | lowest_variance => 1 - estimateDropRisk asset riskParams
  | best_historical_delivery => trust
  | highest_headroom =>
      let headroom := calculateHeadroom asset in
      let capacity := getAvailableCapacity asset (Ctx.currentTimestep context) in
      if capacity >? 0 then Math_min 1 (headroom / capacity) else 0
  | lowest_marginal_comfort_cost =>
      1 - Math_min 1 (calculateComfortCost asset / 5)
  | highest_soc_buffer =>
      match asset with
      | ABattery bat => Battery.soc (Battery.state bat)
      | AEv ev =>
          if Ev.plugged (Ev.state ev)
          then Ev.e_kwh (Ev.state ev) / Ev.e_capacity_kwh (Ev.params ev)
          else 0.5
      | _ => 0.5
      end
  | least_recently_dispatched =>
      if decide (asset_ident asset ∈ Ctx.previouslyDispatchedAssetIds context)
      then 0.2 else 0.8
  | round_robin =>
      match digits_value (asset_ident asset) None with
      | Some v => IZR (v mod 100) / 100
      | None => 0
      end
  | fatigue_balanced =>
      match asset with
      | ACi ci => 1 - Ci.fatigue (Ci.state ci)
      | _ => 0.8
      end
  end.

(** The [forEach] of [calculateOrderingScore]: the weighted total and the
    sum of the weights [1 / (index + 1)], from position [index] on. *)
Fixpoint ordering_totals (asset : Asset) (orderings : list SelectionOrdering)
    (context : Ctx.StrategyContext) (index : nat) (totalScore weightSum : R) : R * R :=
  match orderings with
  | [] => (totalScore, weightSum)
  | ordering :: rest =>
      let weight := 1 / (INR index + 1) in
      ordering_totals asset rest context (S index)
        (totalScore + orderScore asset ordering context * weight)
        (weightSum + weight)
  end.

(** The intensity is read before the [forEach].  For an empty list of
    orderings the quotient is 0 / 0, [NaN] in the source; [NaN] scores all
    compare equal in the sort that follows, as the equal scores of the model
    do. *)
Definition calculateOrderingScore (asset : Asset) (orderings : list SelectionOrdering)
    (context : Ctx.StrategyContext) : option R :=
  settings ← Ctx.dispatchIntensity context;
  let intensity := intensity_of settings (asset_type asset) / 100 in
  let intensityMultiplier := 0.5 + intensity in
  let '(totalScore, weightSum) := ordering_totals asset orderings context 0 0 0 in
  Some ((totalScore / weightSum) * intensityMultiplier).

(** [Array.prototype.sort] with a comparator: a stable sort; [cmp a b <= 0]
    keeps [a] before [b]. *)
Fixpoint insert_by {A : Type} (cmp : A -> A -> R) (x : A) (l : list A) : list A :=
  match l with
  | [] => [x]
  | y :: l' => if cmp x y <=? 0 then x :: y :: l' else y :: insert_by cmp x l'
  end.

Definition sort_by {A : Type} (cmp : A -> A -> R) (l : list A) : list A :=
  foldr (insert_by cmp) [] l.

Definition previously_dispatched (context : Ctx.StrategyContext)
    (sa : Scored.ScoredAsset) : bool :=
  bool_decide (asset_ident (Scored.asset sa) ∈ Ctx.previouslyDispatchedAssetIds context).

(** The entry that the [map] of [selectAndOrderAssets] builds for an asset
    that has not dropped. *)
Definition score_asset (context : Ctx.StrategyContext) (a : Asset)
  : option Scored.ScoredAsset :=
  score ← calculateOrderingScore a
             (Strategy.selectionOrderings (Ctx.strategyConfig context)) context;
  Some {| Scored.asset := a;
          Scored.capacity := getAvailableCapacity a (Ctx.currentTimestep context);
          Scored.score := score |}.

Definition selectAndOrderAssets (context : Ctx.StrategyContext)
  : option (list Scored.ScoredAsset) :=
  let rampPercentage := calculateRampUpPercentage context in
  scored ← mapM (score_asset context)
              (List.filter (fun a => negb (asset_dropped a)) (Ctx.assets context));
  let scoredAssets := List.filter (fun sa => Scored.capacity sa >? 0) scored in
  let sorted := sort_by (fun a b => Scored.score b - Scored.score a) scoredAssets in
  let previouslyDispatched := List.filter (previously_dispatched context) sorted in
  let notPreviouslyDispatched :=
    List.filter (fun sa => negb (previously_dispatched context sa)) sorted in
  let targetCount :=
    Z.max 1 (Zceil (INR (length sorted) * rampPercentage)) in
  Some (previouslyDispatched
        ++ take (Z.to_nat (Z.max 0 (targetCount - Z.of_nat (length previouslyDispatched))))
                notPreviouslyDispatched).

(** The selection of [selectAndOrderAssets] from the scored entries on: the
    value it returns once every score has been computed. *)
Definition selection_of (context : Ctx.StrategyContext) (scored : list Scored.ScoredAsset)
  : list Scored.ScoredAsset :=
  let scoredAssets := List.filter (fun sa => Scored.capacity sa >? 0) scored in
  let sorted := sort_by (fun a b => Scored.score b - Scored.score a) scoredAssets in
  let previouslyDispatched := List.filter (previously_dispatched context) sorted in
  let notPreviouslyDispatched :=
    List.filter (fun sa => negb (previously_dispatched context sa)) sorted in
  let targetCount :=
    Z.max 1 (Zceil (INR (length sorted) * calculateRampUpPercentage context)) in
  previouslyDispatched
  ++ take (Z.to_nat (Z.max 0 (targetCount - Z.of_nat (length previouslyDispatched))))
          notPreviouslyDispatched.

Definition adjustTargetForObjective (context : Ctx.StrategyContext) (baseTarget : R) : R :=
  let riskParams := getRiskParams (Strategy.riskPosture (Ctx.strategyConfig context)) in
  match Strategy.objective (Ctx.strategyConfig context) with
  | capacity => baseTarget * (1 + reserveMargin riskParams * 0.5)
  | risk_minimization => baseTarget * (1 + reserveMargin riskParams)
  | efficiency => baseTarget
  | regret_minimization => baseTarget * (1 + reserveMargin riskParams * 1.5)
  | learning_oriented =>
      let variance := Math_sin (IZR (Ctx.currentTimestep context) * 0.5) * 0.1 in
      baseTarget * (1 + variance)
  end.

(** *** Command synthesis *)

Definition createDispatchCommand (asset : Asset) (targetKw : R)
    (riskParams : RiskPostureParams) (intensity : R) : option DispatchCommand :=
  let intensityFactor := intensity / 100 in
  let conservationFactor := conservationFactor riskParams * (1.5 - intensityFactor) in
  match asset with
  | ABattery bat =>
      let effectiveReserve :=
        Battery.soc_reserve (Battery.params bat) * (1 + conservationFactor * 0.3) in
      let availSoc := Battery.soc (Battery.state bat) - effectiveReserve in
      let maxPower :=
        Math_min (Battery.p_dis_kw (Battery.params bat))
                 (availSoc * Battery.e_kwh (Battery.params bat) * 12) in
      let power := Math_min targetKw maxPower in
      Some {| asset_id := Battery.id bat;
              command := CBattery {| Battery.power_kw := Math_max 0 power |} |}
  | AHvac hvac =>
      let maxShift := (1 + intensityFactor * 2) * (1 - conservationFactor * 0.3) in
      let shift :=
        match Hvac.mode (Hvac.params hvac) with
        | Hvac.cooling => Math_min maxShift (targetKw / Hvac.hvac_kw (Hvac.params hvac) * 2)
        | Hvac.heating => - Math_min maxShift (targetKw / Hvac.hvac_kw (Hvac.params hvac) * 2)
        end in
      Some {| asset_id := Hvac.id hvac;
              command := CHvac {| Hvac.delta_setpoint_f := Math_round shift |} |}
  | AEv ev =>
      if negb (Ev.plugged (Ev.state ev)) || Ev.override_active (Ev.state ev) then None else
      let maxReduction := Ev.p_max_kw (Ev.params ev) * (0.5 + intensityFactor * 0.5) in
      let reduction := Math_min maxReduction targetKw in
      let newChargeRate := Ev.p_max_kw (Ev.params ev) - reduction in
      Some {| asset_id := Ev.id ev;
              command := CEv {| Ev.power_kw := Math_max 0 newChargeRate |} |}
  | AFleet fleet =>
      let maxReduction :=
        Fleet.u_site_max_kw (Fleet.params fleet) * (0.4 + intensityFactor * 0.4) in
      let reduction := Math_min maxReduction targetKw in
      let capPower := Fleet.u_site_max_kw (Fleet.params fleet) - reduction in
      Some {| asset_id := Fleet.id fleet;
              command := CFleet {| Fleet.site_power_cap_kw := Math_max 0 capPower |} |}
  | ACi ci =>
      let availableHvac :=
        Ci.smax_hvac_kw (Ci.params ci)
        * Math_exp (- Ci.fatigue_k (Ci.params ci) * Ci.fatigue (Ci.state ci)) in
      let shedAmount := Math_min availableHvac targetKw * (1 - conservationFactor * 0.3) in
      let remainingForProcess := targetKw - shedAmount in
      let curtailProcess :=
        (remainingForProcess >? 0) && Ci.process_on (Ci.state ci)
        && (intensityFactor >? 0.4) in
      Some {| asset_id := Ci.id ci;
              command := CCi {| CiCmd.hvac_shed_kw := shedAmount;
                                CiCmd.process_on := negb curtailProcess |} |}
  end.

(** [getCommandContribution] is only applied to the command that
    [createDispatchCommand] built for the same asset; on another pairing the
    source reads an absent field and the model gives 0. *)
Definition getCommandContribution (asset : Asset) (cmd : DispatchCommand)
    (riskParams : RiskPostureParams) : R :=
  match asset, command cmd with
  | ABattery _, (CBattery {| Battery.power_kw := p |} | CEv {| Ev.power_kw := p |}) => p
  | AHvac hvac, CHvac c =>
      let shift := Math_abs (Hvac.delta_setpoint_f c) in
      Hvac.hvac_kw (Hvac.params hvac) * shift / 2
  | AEv ev, (CEv {| Ev.power_kw := p |} | CBattery {| Battery.power_kw := p |}) =>
      Ev.p_max_kw (Ev.params ev) - p
  | AFleet fleet, CFleet c =>
      Fleet.u_site_max_kw (Fleet.params fleet) - Fleet.site_power_cap_kw c
  | ACi ci, CCi c =>
      CiCmd.hvac_shed_kw c
      + (if negb (CiCmd.process_on c) && Ci.process_on (Ci.state ci)
         then Ci.process_load_kw (Ci.params ci) else 0)
  | _, _ => 0
  end.

Fixpoint dispatchToTarget (assets : list Scored.ScoredAsset) (remainingTarget : R)
    (context : Ctx.StrategyContext) (riskParams : RiskPostureParams)
  : option (list DispatchCommand) :=
  match assets with
  | [] => Some []
  | sa :: rest =>
      if remainingTarget <=? 0 then Some [] else
      let asset := Scored.asset sa in
      settings ← Ctx.dispatchIntensity context;
      let intensity := intensity_of settings (asset_type asset) in
      let capacityMultiplier := 0.5 + (intensity / 100) * 0.5 in
      let effectiveCapacity := Scored.capacity sa * capacityMultiplier in
      let dispatchAmount := Math_min effectiveCapacity remainingTarget in
      match createDispatchCommand asset dispatchAmount riskParams intensity with
      | Some cmd =>
          commands ← dispatchToTarget rest
                        (remainingTarget - getCommandContribution asset cmd riskParams)
                        context riskParams;
          Some (cmd :: commands)
      | None => dispatchToTarget rest remainingTarget context riskParams
      end
  end.

Fixpoint maintainPreviousDispatch (context : Ctx.StrategyContext)
    (assets : list Scored.ScoredAsset) : list DispatchCommand :=
  let riskParams := getRiskParams (Strategy.riskPosture (Ctx.strategyConfig context)) in
  match assets with
  | [] => []
  | sa :: rest =>
      if previously_dispatched context sa then
        let capacity := getAvailableCapacity (Scored.asset sa) (Ctx.currentTimestep context) in
        match createDispatchCommand (Scored.asset sa) (capacity * 0.5) riskParams 50 with
        | Some cmd => cmd :: maintainPreviousDispatch context rest
        | None => maintainPreviousDispatch context rest
        end
      else maintainPreviousDispatch context rest
  end.

(** *** Decision frameworks *)

Definition progress_of (context : Ctx.StrategyContext) : R :=
  IZR (Ctx.currentTimestep context) / IZR (Ctx.totalTimesteps context).

Definition deterministicDispatch (context : Ctx.StrategyContext)
  : option (list DispatchCommand) :=
  let subtype := Strategy.frameworkSubtype (Ctx.strategyConfig context) in
  selectedAssets ← selectAndOrderAssets context;
  let riskParams := getRiskParams (Strategy.riskPosture (Ctx.strategyConfig context)) in
  let effectiveTarget0 := adjustTargetForObjective context (Ctx.targetKw context) in
  let effectiveTarget :=
    match subtype with
    | state_machine =>
        let progress := progress_of context in
        if progress <? 0.15 then effectiveTarget0 * 0.7
        else if progress >? 0.85
             then effectiveTarget0 * (0.8 + 0.2 * (1 - progress) / 0.15)
             else effectiveTarget0
    | _ => effectiveTarget0
    end in
  let maintain :=
    match subtype, Ctx.previousAchievedKw context with
    | threshold_triggered, Some previous =>
        let deviation := Ctx.targetKw context - previous in
        deviation <? Ctx.targetKw context * 0.05
    | _, _ => false
    end in
  if maintain then Some (maintainPreviousDispatch context selectedAssets)
  else dispatchToTarget selectedAssets effectiveTarget context riskParams.

Definition greedyDispatch (context : Ctx.StrategyContext)
  : option (list DispatchCommand) :=
  let subtype := Strategy.frameworkSubtype (Ctx.strategyConfig context) in
  let riskParams := getRiskParams (Strategy.riskPosture (Ctx.strategyConfig context)) in
  selectedAssets0 ← selectAndOrderAssets context;
  let selectedAssets :=
    match subtype with
    | max_capacity_now =>
        sort_by (fun a b => Scored.capacity b - Scored.capacity a) selectedAssets0
    | min_risk_now =>
        sort_by (fun a b => estimateDropRisk (Scored.asset a) riskParams
                            - estimateDropRisk (Scored.asset b) riskParams)
                selectedAssets0
    | best_efficiency_now =>
        sort_by (fun a b =>
                   let effA := Scored.capacity a
                               / Math_max 0.1 (calculateComfortCost (Scored.asset a)) in
                   let effB := Scored.capacity b
                               / Math_max 0.1 (calculateComfortCost (Scored.asset b)) in
                   effB - effA)
                selectedAssets0
    | _ => selectedAssets0
    end in
  let effectiveTarget := adjustTargetForObjective context (Ctx.targetKw context) in
  dispatchToTarget selectedAssets effectiveTarget context riskParams.

(** [n] successive outcomes of [Math.random()]. *)
Fixpoint draws (n : nat) : Rand (list R) :=
  match n with
  | O => ret []
  | S n' => u <- Math_random ;; us <- draws n' ;; ret (u :: us)
  end.

(** One Monte-Carlo sample: the capacity of the assets whose draw exceeds
    the noncompliance probability. *)
Fixpoint sampleCapacity (selectedAssets : list Scored.ScoredAsset) (p : R) : Rand R :=
  match selectedAssets with
  | [] => ret 0
  | sa :: rest =>
      u <- Math_random ;;
      c <- sampleCapacity rest p ;;
      ret ((if u >? p then Scored.capacity sa else 0) + c)
  end.

Fixpoint sampleOutcomes (numSamples : nat) (selectedAssets : list Scored.ScoredAsset)
    (p : R) : Rand (list R) :=
  match numSamples with
  | O => ret []
  | S n' =>
      c <- sampleCapacity selectedAssets p ;;
      cs <- sampleOutcomes n' selectedAssets p ;;
      ret (c :: cs)
  end.

(** The target multiplier of [stochasticDispatch], with its draws. *)
Definition stochastic_targetMultiplier (context : Ctx.StrategyContext)
    (selectedAssets : list Scored.ScoredAsset) : Rand R :=
  let subtype := Strategy.frameworkSubtype (Ctx.strategyConfig context) in
  let riskParams := getRiskParams (Strategy.riskPosture (Ctx.strategyConfig context)) in
  let numSamples := 10%nat in
  let lookaheadSteps :=
    Z.min 6 (Ctx.totalTimesteps context - Ctx.currentTimestep context) in
  let p := probability (noncompliance (Ctx.config context)) in
    match subtype with
    | expected_value =>
        us <- draws (numSamples * Z.to_nat lookaheadSteps) ;;
        let expectedDropoffs :=
          INR (length (List.filter (fun u => u <? p) us)) / INR numSamples in
        ret (1 + (expectedDropoffs / INR (length selectedAssets)) * 0.5)
    | chance_constrained => ret (1 + reserveMargin riskParams * 1.5)
    | monte_carlo_weighted =>
        outcomes <- sampleOutcomes numSamples selectedAssets p ;;
        let sorted := sort_by (fun a b => a - b) outcomes in
        let medianCapacity := nth (length sorted / 2) sorted 0 in
        ret (if medianCapacity >? 0 then Ctx.targetKw context / medianCapacity else 1)
    | _ => ret 1
    end.

Definition stochasticDispatch (context : Ctx.StrategyContext)
  : Rng -> option (list DispatchCommand * Rng) :=
  fun g =>
  let riskParams := getRiskParams (Strategy.riskPosture (Ctx.strategyConfig context)) in
  selectedAssets ← selectAndOrderAssets context;
  let '(targetMultiplier, g1) := stochastic_targetMultiplier context selectedAssets g in
  let effectiveTarget :=
    adjustTargetForObjective context (Ctx.targetKw context) * targetMultiplier in
  commands ← dispatchToTarget selectedAssets effectiveTarget context riskParams;
  Some (commands, g1).

Definition feedbackControlDispatch (context : Ctx.StrategyContext)
  : option (list DispatchCommand) :=
  let subtype := Strategy.frameworkSubtype (Ctx.strategyConfig context) in
  let riskParams := getRiskParams (Strategy.riskPosture (Ctx.strategyConfig context)) in
  selectedAssets ← selectAndOrderAssets context;
  let effectiveTarget0 := adjustTargetForObjective context (Ctx.targetKw context) in
  let effectiveTarget1 :=
    match Ctx.previousAchievedKw context with
    | Some previous =>
        let error := Ctx.targetKw context - previous in
        match subtype with
        | error_correction => Ctx.targetKw context + error * 1.5
        | adaptive_weighting => Ctx.targetKw context + error
        | pid_like_control =>
            let Kp := 1.2 in
            let Ki := 0.1 in
            let Kd := 0.3 in
            let integral := Ctx.accumulatedError context + error in
            let derivative := error - (Ctx.targetKw context - previous) in
            let correction := Kp * error + Ki * integral + Kd * derivative in
            Ctx.targetKw context + correction
        | _ => effectiveTarget0
        end
    | None => effectiveTarget0
    end in
  let effectiveTarget :=
    Math_max 0 (Math_min effectiveTarget1 (Ctx.targetKw context * 2)) in
  dispatchToTarget selectedAssets effectiveTarget context riskParams.

Definition executeComposableStrategy (context : Ctx.StrategyContext)
  : Rng -> option (list DispatchCommand * Rng) :=
  fun g =>
  match Strategy.decisionFramework (Ctx.strategyConfig context) with
  | deterministic_policy => commands ← deterministicDispatch context; Some (commands, g)
  | greedy_myopic => commands ← greedyDispatch context; Some (commands, g)
  | stochastic => stochasticDispatch context g
  | feedback_control => commands ← feedbackControlDispatch context; Some (commands, g)
  end.

(** ** SimulationEngine.ts *)

Module Scn.
Record Scenario := { scenario : ScenarioConfig; assets : list Asset }.
End Scn.

(** A [Record<AssetType, number>] of counters. *)
Record TypeCounts := {
  n_hvac_resi : nat;
  n_battery_resi : nat;
  n_ev_resi : nat;
  n_fleet_site : nat;
  n_ci_building : nat
}.

Definition no_counts : TypeCounts :=
  {| n_hvac_resi := 0; n_battery_resi := 0; n_ev_resi := 0;
     n_fleet_site := 0; n_ci_building := 0 |}.

Definition bump (t : AssetType) (c : TypeCounts) : TypeCounts :=
  match t with
  | hvac_resi =>
      {| n_hvac_resi := S (n_hvac_resi c); n_battery_resi := n_battery_resi c;
         n_ev_resi := n_ev_resi c; n_fleet_site := n_fleet_site c;
         n_ci_building := n_ci_building c |}
  | battery_resi =>
      {| n_hvac_resi := n_hvac_resi c; n_battery_resi := S (n_battery_resi c);
         n_ev_resi := n_ev_resi c; n_fleet_site := n_fleet_site c;
         n_ci_building := n_ci_building c |}
  | ev_resi =>
      {| n_hvac_resi := n_hvac_resi c; n_battery_resi := n_battery_resi c;
         n_ev_resi := S (n_ev_resi c); n_fleet_site := n_fleet_site c;
         n_ci_building := n_ci_building c |}
  | fleet_site =>
      {| n_hvac_resi := n_hvac_resi c; n_battery_resi := n_battery_resi c;
         n_ev_resi := n_ev_resi c; n_fleet_site := S (n_fleet_site c);
         n_ci_building := n_ci_building c |}
  | ci_building =>
      {| n_hvac_resi := n_hvac_resi c; n_battery_resi := n_battery_resi c;
         n_ev_resi := n_ev_resi c; n_fleet_site := n_fleet_site c;
         n_ci_building := S (n_ci_building c) |}
  end.

(** The record appended to the history at each tick.  The label [time]
    (the locale-formatted clock time of the tick) is left out. *)
Module Tick.
Record TimestepResult := {
  timestep : Z;
  target_kw : R;
  achieved_kw : R;
  shortfall_kw : R;
  penalty : R;
  assets_dropped : nat;
  outdoor_temp_f : R;
  dispatches_by_type : TypeCounts;
  new_dispatch_calls : TypeCounts
}.
End Tick.

Module Sim.
Record SimulationState := {
  scenario : Scn.Scenario;
  current_timestep : Z;
  assets : list Asset;
  history : list Tick.TimestepResult;
  total_penalty : R;
  is_running : bool;
  is_complete : bool
}.
End Sim.

(** The fields of the engine object.  The callbacks [onUpdate] and
    [onComplete] and the bookkeeping of the animation-frame timer (frame id,
    last update time, speed multiplier) are left out: they decide when
    [advanceTimestep] is called and who is told, not what it does. *)
Module Engine.
Record SimulationEngine := {
  state : Sim.SimulationState;
  strategyConfig : Strategy.StrategyConfig;
  difficulty : DifficultyLevel;
  previouslyDispatchedAssets : gset string;
  accumulatedError : R;
  assetPerformanceScores : gmap string R
}.
End Engine.

Definition initial_scores (assets : list Asset) : gmap string R :=
  fold_left (fun (m : gmap string R) a => <[asset_ident a := 0.5]> m) assets ∅.

Definition initial_state (scenario : Scn.Scenario) : Sim.SimulationState :=
  {| Sim.scenario := scenario;
     Sim.current_timestep := 0;
     Sim.assets := Scn.assets scenario;
     Sim.history := [];
     Sim.total_penalty := 0;
     Sim.is_running := false;
     Sim.is_complete := false |}.

(** The constructor, without its two callback arguments. *)
Definition SimulationEngine_new (scenario : Scn.Scenario)
    (strategyConfig : Strategy.StrategyConfig) (difficulty : DifficultyLevel)
  : Engine.SimulationEngine :=
  {| Engine.state := initial_state scenario;
     Engine.strategyConfig := strategyConfig;
     Engine.difficulty := difficulty;
     Engine.previouslyDispatchedAssets := ∅;
     Engine.accumulatedError := 0;
     Engine.assetPerformanceScores := initial_scores (Scn.assets scenario) |}.

Definition with_strategy (e : Engine.SimulationEngine) (c : Strategy.StrategyConfig)
  : Engine.SimulationEngine :=
  {| Engine.state := Engine.state e;
     Engine.strategyConfig := c;
     Engine.difficulty := Engine.difficulty e;
     Engine.previouslyDispatchedAssets := Engine.previouslyDispatchedAssets e;
     Engine.accumulatedError := Engine.accumulatedError e;
     Engine.assetPerformanceScores := Engine.assetPerformanceScores e |}.

Definition updateRiskPosture (e : Engine.SimulationEngine) (riskPosture : RiskPosture)
  : Engine.SimulationEngine :=
  let c := Engine.strategyConfig e in
  with_strategy e
    {| Strategy.decisionFramework := Strategy.decisionFramework c;
       Strategy.frameworkSubtype := Strategy.frameworkSubtype c;
       Strategy.objective := Strategy.objective c;
       Strategy.selectionOrderings := Strategy.selectionOrderings c;
       Strategy.riskPosture := riskPosture;
       Strategy.feedbackMode := Strategy.feedbackMode c |}.

(** [Partial<StrategyConfig>]: each field present or not. *)
Module Partial.
Record StrategyConfig := {
  decisionFramework : option DecisionFramework;
  frameworkSubtype : option FrameworkSubtype;
  objective : option ObjectiveFunction;
  selectionOrderings : option (list SelectionOrdering);
  riskPosture : option RiskPosture;
  feedbackMode : option FeedbackMode
}.
End Partial.

(** [{ ...this.strategyConfig, ...config }] *)
Definition updateStrategyConfig (e : Engine.SimulationEngine)
    (config : Partial.StrategyConfig) : Engine.SimulationEngine :=
  let c := Engine.strategyConfig e in
  with_strategy e
    {| Strategy.decisionFramework :=
         default (Strategy.decisionFramework c) (Partial.decisionFramework config);
       Strategy.frameworkSubtype :=
         default (Strategy.frameworkSubtype c) (Partial.frameworkSubtype config);
       Strategy.objective := default (Strategy.objective c) (Partial.objective config);
       Strategy.selectionOrderings :=
         default (Strategy.selectionOrderings c) (Partial.selectionOrderings config);
       Strategy.riskPosture := default (Strategy.riskPosture c) (Partial.riskPosture config);
       Strategy.feedbackMode :=
         default (Strategy.feedbackMode c) (Partial.feedbackMode config) |}.

Definition reset (e : Engine.SimulationEngine) : Engine.SimulationEngine :=
  let scenario := Sim.scenario (Engine.state e) in
  {| Engine.state := initial_state scenario;
     Engine.strategyConfig := Engine.strategyConfig e;
     Engine.difficulty := Engine.difficulty e;
     Engine.previouslyDispatchedAssets := ∅;
     Engine.accumulatedError := 0;
     Engine.assetPerformanceScores := initial_scores (Scn.assets scenario) |}.

(** *** One tick *)

Definition tick_targetKw (e : Engine.SimulationEngine) : R :=
  default 0 (target_kw (objective (Scn.scenario (Sim.scenario (Engine.state e))))).

Definition previous_achieved (e : Engine.SimulationEngine) : option R :=
  Tick.achieved_kw <$> last (Sim.history (Engine.state e)).

(** The accumulated error after the anti-windup update at the start of the
    tick. *)
Definition tick_accumulatedError (e : Engine.SimulationEngine) : R :=
  let targetKw := tick_targetKw e in
  match previous_achieved e with
  | Some previousAchievedKw =>
      let error := targetKw - previousAchievedKw in
      Math_max (- targetKw * 5)
               (Math_min (targetKw * 5) (Engine.accumulatedError e + error))
  | None => Engine.accumulatedError e
  end.

(** The context object that [advanceTimestep] builds: the object literal has
    no [dispatchIntensity] property. *)
Definition tick_context (e : Engine.SimulationEngine) : Ctx.StrategyContext :=
  let st := Engine.state e in
  let config := Scn.scenario (Sim.scenario st) in
  {| Ctx.assets := Sim.assets st;
     Ctx.targetKw := tick_targetKw e;
     Ctx.currentTimestep := Sim.current_timestep st;
     Ctx.totalTimesteps := timesteps config;
     Ctx.config := config;
     Ctx.strategyConfig := Engine.strategyConfig e;
     Ctx.dispatchIntensity := None;
     Ctx.previousAchievedKw := previous_achieved e;
     Ctx.previouslyDispatchedAssetIds := Engine.previouslyDispatchedAssets e;
     Ctx.accumulatedError := tick_accumulatedError e;
     Ctx.assetPerformanceScores := Engine.assetPerformanceScores e |}.

(** The commands the dispatch engine emits for the tick. *)
Definition tick_commands (e : Engine.SimulationEngine)
  : Rng -> option (list DispatchCommand * Rng) :=
  executeComposableStrategy (tick_context e).

Definition build_assetMap (assets : list Asset) : gmap string Asset :=
  fold_left (fun (m : gmap string Asset) a => <[asset_ident a := a]> m) assets ∅.

Definition build_commandMap (commands : list DispatchCommand) : gmap string DispatchCommand :=
  fold_left (fun (m : gmap string DispatchCommand) c => <[asset_id c := c]> m) commands ∅.

Definition dispatched_ids (commands : list DispatchCommand) : gset string :=
  fold_left (fun (s : gset string) c => s ∪ {[asset_id c]}) commands ∅.

Definition count_dispatches (assetMap : gmap string Asset)
    (commands : list DispatchCommand) : TypeCounts :=
  fold_left
    (fun counts c =>
       match assetMap !! asset_id c with
       | Some a => bump (asset_type a) counts
       | None => counts
       end)
    commands no_counts.

Definition count_new_dispatches (assetMap : gmap string Asset)
    (previously : gset string) (commands : list DispatchCommand) : TypeCounts :=
  fold_left
    (fun counts c =>
       match assetMap !! asset_id c with
       | Some a =>
           if decide (asset_id c ∈ previously) then counts
           else bump (asset_type a) counts
       | None => counts
       end)
    commands no_counts.

(** The loop over the assets: each is updated with its command, if any, and
    a response-variability factor is drawn after its update.  The result
    lists, for every asset, the result of its update and its factor. *)
Fixpoint update_assets (assets : list Asset) (commandMap : gmap string DispatchCommand)
    (timestep : Z) (outdoorTemp startHour : R) (config : ScenarioConfig)
    (responseVariability : R)
  : Rng -> option (list (UpdateResult * R) * Rng) :=
  fun g =>
  match assets with
  | [] => Some ([], g)
  | asset :: rest =>
      let cmd := command <$> (commandMap !! asset_ident asset) in
      '(result, g1) ← updateAsset asset cmd timestep outdoorTemp startHour config g;
      let '(u, g2) := Math_random g1 in
      let variabilityFactor := 1 + (u * 2 - 1) * responseVariability in
      '(results, g3) ←
        update_assets rest commandMap timestep outdoorTemp startHour config
          responseVariability g2;
      Some ((result, variabilityFactor) :: results, g3)
  end.

(** [achievedKw]: the power deltas times their factors, added up in the
    order of the loop; [None] when a result is not numeric. *)
Fixpoint achieved_power (results : list (UpdateResult * R)) (achievedKw : R) : option R :=
  match results with
  | [] => Some achievedKw
  | (Updated _ powerDelta, variabilityFactor) :: rest =>
      achieved_power rest (achievedKw + powerDelta * variabilityFactor)
  | (NotNumeric _, _) :: _ => None
  end.

Definition update_scores (updatedAssets : list Asset) (currentlyDispatched : gset string)
    (scores : gmap string R) : gmap string R :=
  fold_left
    (fun (m : gmap string R) a =>
       let currentScore := default 0.5 (m !! asset_ident a) in
       if decide (asset_ident a ∈ currentlyDispatched) then
         if asset_dropped a
         then <[asset_ident a := Math_max 0 (currentScore - 0.1)]> m
         else <[asset_ident a := Math_min 1 (currentScore + 0.02)]> m
       else m)
    updatedAssets scores.

(** The penalty of a tick. *)
Definition tick_penalty (difficultySettings : DifficultyPreset) (targetKw achievedKw : R) : R :=
  let deviation := Math_abs (targetKw - achievedKw) in
  let isOverPerformance := achievedKw >? targetKw in
  let overPerformanceRatio := over_performance_penalty_ratio difficultySettings in
  let epsilon := 0.001 in
  let normalizedDeviation := deviation / (targetKw + epsilon) in
  let basePenalty := Math_pow normalizedDeviation (penalty_exponent difficultySettings) in
  if isOverPerformance then basePenalty * overPerformanceRatio else basePenalty.

(** The penalty as the history records it: rounded to four decimals. *)
Definition recorded_penalty (difficultySettings : DifficultyPreset)
    (targetKw achievedKw : R) : R :=
  Math_round (tick_penalty difficultySettings targetKw achievedKw * 10000) / 10000.

(** [advanceTimestep] from the command list on: the commands are counted,
    the assets updated, the scores adjusted and the tick recorded.  [None]:
    the update of an asset raised a [TypeError], or a result is not numeric,
    and the model does not follow the run further. *)
Definition apply_commands (e : Engine.SimulationEngine) (commands : list DispatchCommand)
  : Rng -> option (Engine.SimulationEngine * Rng) :=
  fun g1 =>
  let st := Engine.state e in
  let config := Scn.scenario (Sim.scenario st) in
  let timestep := Sim.current_timestep st in
  let targetKw := tick_targetKw e in
  let outdoorTemp :=
    default 75 (outdoor_temp_f (weather config) !! Z.to_nat timestep) in
  let startHour := start_hour config in
  let assetMap := build_assetMap (Sim.assets st) in
  let commandMap := build_commandMap commands in
  let dispatchesByType := count_dispatches assetMap commands in
  let newDispatchCalls :=
    count_new_dispatches assetMap (Engine.previouslyDispatchedAssets e) commands in
  let currentlyDispatchedAssets := dispatched_ids commands in
  let difficultySettings := DIFFICULTY_PRESETS (Engine.difficulty e) in
  '(results, g2) ←
    update_assets (Sim.assets st) commandMap timestep outdoorTemp startHour config
      (response_variability difficultySettings) g1;
  achievedKw ← achieved_power results 0;
  let updatedAssets := (fun r => result_asset (fst r)) <$> results in
  let scores :=
    update_scores updatedAssets currentlyDispatchedAssets (Engine.assetPerformanceScores e) in
  let shortfall := Math_max 0 (targetKw - achievedKw) in
  let penalty := tick_penalty difficultySettings targetKw achievedKw in
  let droppedCount := length (List.filter asset_dropped updatedAssets) in
  let result :=
    {| Tick.timestep := timestep;
       Tick.target_kw := targetKw;
       Tick.achieved_kw := Math_round (achievedKw * 10) / 10;
       Tick.shortfall_kw := Math_round (shortfall * 10) / 10;
       Tick.penalty := recorded_penalty difficultySettings targetKw achievedKw;
       Tick.assets_dropped := droppedCount;
       Tick.outdoor_temp_f := Math_round (outdoorTemp * 10) / 10;
       Tick.dispatches_by_type := dispatchesByType;
       Tick.new_dispatch_calls := newDispatchCalls |} in
  Some ({| Engine.state :=
             {| Sim.scenario := Sim.scenario st;
                Sim.current_timestep := (timestep + 1)%Z;
                Sim.assets := updatedAssets;
                Sim.history := Sim.history st ++ [result];
                Sim.total_penalty := Sim.total_penalty st + penalty;
                Sim.is_running := Sim.is_running st;
                Sim.is_complete := Sim.is_complete st |};
           Engine.strategyConfig := Engine.strategyConfig e;
           Engine.difficulty := Engine.difficulty e;
           Engine.previouslyDispatchedAssets := currentlyDispatchedAssets;
           Engine.accumulatedError := tick_accumulatedError e;
           Engine.assetPerformanceScores := scores |}, g2).

(** [None]: the tick raises a [TypeError]. *)
Definition advanceTimestep (e : Engine.SimulationEngine)
  : Rng -> option (Engine.SimulationEngine * Rng) :=
  fun g =>
  let st := Engine.state e in
  let config := Scn.scenario (Sim.scenario st) in
  let timestep := Sim.current_timestep st in
  if (timesteps config <=? timestep)%Z then
    Some ({| Engine.state :=
               {| Sim.scenario := Sim.scenario st;
                  Sim.current_timestep := timestep;
                  Sim.assets := Sim.assets st;
                  Sim.history := Sim.history st;
                  Sim.total_penalty := Sim.total_penalty st;
                  Sim.is_running := false;
                  Sim.is_complete := true |};
             Engine.strategyConfig := Engine.strategyConfig e;
             Engine.difficulty := Engine.difficulty e;
             Engine.previouslyDispatchedAssets := Engine.previouslyDispatchedAssets e;
             Engine.accumulatedError := Engine.accumulatedError e;
             Engine.assetPerformanceScores := Engine.assetPerformanceScores e |}, g)
  else
  '(commands, g1) ← tick_commands e g;
  apply_commands e commands g1.

(** [step()]: one tick on demand. *)
Definition step (e : Engine.SimulationEngine) : Rng -> option (Engine.SimulationEngine * Rng) :=
  fun g => if Sim.is_complete (Engine.state e) then Some (e, g) else advanceTimestep e g.

(** [n] successive calls of [step()]. *)
Fixpoint steps (n : nat) (e : Engine.SimulationEngine)
  : Rng -> option (Engine.SimulationEngine * Rng) :=
  fun g =>
  match n with
  | O => Some (e, g)
  | S n' => '(e', g') ← step e g; steps n' e' g'
  end.

(** ** Runs of a single asset over successive ticks *)

(** A battery updated once per tick with the given commands. *)
Fixpoint battery_steps (asset : Battery.BatteryResi)
    (commands : list (option Battery.BatteryCommand)) (config : ScenarioConfig)
  : Rand Battery.BatteryResi :=
  match commands with
  | [] => ret asset
  | c :: rest =>
      r <- updateBatteryResi asset c config ;;
      battery_steps (fst r) rest config
  end.

(** The same run in rounded arithmetic. *)
Fixpoint battery_steps_rounded (rnd : R -> R) (asset : Battery.BatteryResi)
    (commands : list (option Battery.BatteryCommand)) (config : ScenarioConfig)
  : Rand Battery.BatteryResi :=
  match commands with
  | [] => ret asset
  | c :: rest =>
      r <- updateBatteryResi_rounded rnd asset c config ;;
      battery_steps_rounded rnd (fst r) rest config
  end.

(** The rounding of one arithmetic operation: its relative error is at
    most [u] (2^-53 for IEEE doubles, short of underflow and overflow), it is
    monotone, and it leaves a rounded number as it is. *)
Definition rounding (rnd : R -> R) (u : R) : Prop :=
  (forall x, Rabs (rnd x - x) <= u * Rabs x)
  /\ (forall x y, x <= y -> rnd x <= rnd y)
  /\ (forall x, rnd (rnd x) = rnd x).

(** Conversions between a fraction of the capacity and the power that moves
    it in one tick, as the rounded battery model computes them. *)
Definition timestep_hours_rounded (rnd : R -> R) : R := rnd (TIMESTEP_MINUTES / 60).

Definition to_power (rnd : R -> R) (e_kwh fraction : R) : R :=
  rnd (rnd (rnd fraction * e_kwh) / timestep_hours_rounded rnd).

Definition to_fraction (rnd : R -> R) (e_kwh power : R) : R :=
  rnd (rnd (power * timestep_hours_rounded rnd) / e_kwh).

(** A state of charge that is a rounded number within [10 * u] of the range
    from the reserve to full. *)
Definition soc_within (rnd : R -> R) (u : R) (params : Battery.BatteryResiParams)
    (soc : R) : Prop :=
  rnd soc = soc
  /\ Battery.soc_reserve params - 10 * u <= soc <= 1 + 10 * u.

(** An EV updated at ticks [t], [t + 1], ... with the given commands. *)
Fixpoint ev_steps (asset : Ev.EvResi) (commands : list (option Ev.EvCommand))
    (t : Z) (config : ScenarioConfig) : Rand Ev.EvResi :=
  match commands with
  | [] => ret asset
  | c :: rest =>
      r <- updateEvResi asset c t config ;;
      ev_steps (fst r) rest (t + 1) config
  end.

(** A C&I building updated at ticks [t], [t + 1], ... *)
Fixpoint ci_steps (asset : Ci.CiBuilding) (commands : list (option CiCmd.CiBuildingCommand))
    (t : Z) (startHour : R) (config : ScenarioConfig) : Rand Ci.CiBuilding :=
  match commands with
  | [] => ret asset
  | c :: rest =>
      r <- updateCiBuilding asset c t startHour config ;;
      ci_steps (fst r) rest (t + 1) startHour config
  end.

(** The update of an EV that is on site before its departure and under
    override (already active, or triggered at this tick): the charge rate is
    [p_max_kw] and no noncompliance roll is drawn. *)
Definition ev_override_result (asset : Ev.EvResi) (config : ScenarioConfig) (g : Rng)
  : (Ev.EvResi * R) * Rng :=
  let state := Ev.state asset in
  let params := Ev.params asset in
  let '(drift, g1) := drift_step (Ev.baseline_drift state) config g in
  let baselinePower := Ev.p_max_kw params * (1 + Ev.baseline_bias state + drift) in
  let '(powerDelta, g2) :=
    applyMeasurementNoise (baselinePower - Ev.p_max_kw params)
      (pct_uniform (measurement_noise config)) g1 in
  (({| Ev.id := Ev.id asset;
       Ev.params := params;
       Ev.state := {| Ev.e_kwh := Math_min (Ev.e_kwh state + Ev.p_max_kw params * TIMESTEP_HOURS)
                                           (Ev.e_capacity_kwh params);
                      Ev.plugged := true;
                      Ev.dropped := false;
                      Ev.override_active := true;
                      Ev.baseline_bias := Ev.baseline_bias state;
                      Ev.baseline_drift := drift |} |},
    Math_max 0 powerDelta), g2).

(** A departed EV: dropped and unplugged. *)
Definition ev_gone (asset : Ev.EvResi) : Prop :=
  Ev.dropped (Ev.state asset) = true /\ Ev.plugged (Ev.state asset) = false.

(** The command is [null], or carries the fields that the model selected by
    the asset's type reads (the battery reads any command). *)
Definition command_readable (asset : Asset) (command : option AssetCommand) : Prop :=
  match asset with
  | AHvac _ => is_Some (cast_command as_HvacCommand command)
  | ABattery _ => True
  | AEv _ => is_Some (cast_command as_EvCommand command)
  | AFleet _ => is_Some (cast_command as_FleetCommand command)
  | ACi _ => is_Some (cast_command as_CiBuildingCommand command)
  end.

(** Every vehicle of a fleet site has an entry in [vehicle_state]. *)
Definition vehicle_states_present (asset : Asset) : Prop :=
  match asset with
  | AFleet f =>
      Forall (fun v => is_Some (Fleet.vehicle_state (Fleet.state f) !! Fleet.vid v))
             (Fleet.vehicles (Fleet.params f))
  | _ => True
  end.



(** The engine after the call of [advanceTimestep] that finds the event
    over: the run is complete. *)
Definition finished (e : Engine.SimulationEngine) : Engine.SimulationEngine :=
  let st := Engine.state e in
  {| Engine.state :=
       {| Sim.scenario := Sim.scenario st;
          Sim.current_timestep := Sim.current_timestep st;
          Sim.assets := Sim.assets st;
          Sim.history := Sim.history st;
          Sim.total_penalty := Sim.total_penalty st;
          Sim.is_running := false;
          Sim.is_complete := true |};
     Engine.strategyConfig := Engine.strategyConfig e;
     Engine.difficulty := Engine.difficulty e;
     Engine.previouslyDispatchedAssets := Engine.previouslyDispatchedAssets e;
     Engine.accumulatedError := Engine.accumulatedError e;
     Engine.assetPerformanceScores := Engine.assetPerformanceScores e |}.

(** The record of a tick at which no command is emitted and no asset
    delivers any power, and the engine after such a tick. *)
Definition inert_result (e : Engine.SimulationEngine) : Tick.TimestepResult :=
  let st := Engine.state e in
  let config := Scn.scenario (Sim.scenario st) in
  let targetKw := tick_targetKw e in
  let outdoorTemp :=
    default 75 (outdoor_temp_f (weather config) !! Z.to_nat (Sim.current_timestep st)) in
  {| Tick.timestep := Sim.current_timestep st;
     Tick.target_kw := targetKw;
     Tick.achieved_kw := Math_round (0 * 10) / 10;
     Tick.shortfall_kw := Math_round (Math_max 0 (targetKw - 0) * 10) / 10;
     Tick.penalty := recorded_penalty (DIFFICULTY_PRESETS (Engine.difficulty e)) targetKw 0;
     Tick.assets_dropped := length (List.filter asset_dropped (Sim.assets st));
     Tick.outdoor_temp_f := Math_round (outdoorTemp * 10) / 10;
     Tick.dispatches_by_type := no_counts;
     Tick.new_dispatch_calls := no_counts |}.

Definition inert_tick (e : Engine.SimulationEngine) : Engine.SimulationEngine :=
  let st := Engine.state e in
  {| Engine.state :=
       {| Sim.scenario := Sim.scenario st;
          Sim.current_timestep := (Sim.current_timestep st + 1)%Z;
          Sim.assets := Sim.assets st;
          Sim.history := Sim.history st ++ [inert_result e];
          Sim.total_penalty :=
            Sim.total_penalty st
            + tick_penalty (DIFFICULTY_PRESETS (Engine.difficulty e)) (tick_targetKw e) 0;
          Sim.is_running := Sim.is_running st;
          Sim.is_complete := Sim.is_complete st |};
     Engine.strategyConfig := Engine.strategyConfig e;
     Engine.difficulty := Engine.difficulty e;
     Engine.previouslyDispatchedAssets := ∅;
     Engine.accumulatedError := tick_accumulatedError e;
     Engine.assetPerformanceScores := Engine.assetPerformanceScores e |}.

(** Every asset of the engine has dropped; the event is over. *)
Definition all_dropped (e : Engine.SimulationEngine) : bool :=
  forallb asset_dropped (Sim.assets (Engine.state e)).

Definition event_over (e : Engine.SimulationEngine) : bool :=
  (timesteps (Scn.scenario (Sim.scenario (Engine.state e)))
   <=? Sim.current_timestep (Engine.state e))%Z.

(** ** Vocabulary of the further properties *)

(** [asset.params], whatever the variant. *)
Inductive AssetParams :=
| PHvac (p : Hvac.HvacResiParams)
| PBattery (p : Battery.BatteryResiParams)
| PEv (p : Ev.EvResiParams)
| PFleet (p : Fleet.FleetSiteParams)
| PCi (p : Ci.CiBuildingParams).

Definition asset_params (a : Asset) : AssetParams :=
  match a with
  | AHvac h => PHvac (Hvac.params h)
  | ABattery b => PBattery (Battery.params b)
  | AEv e => PEv (Ev.params e)
  | AFleet f => PFleet (Fleet.params f)
  | ACi c => PCi (Ci.params c)
  end.

(** The sum of a list of numbers ([reduce((a, b) => a + b, 0)]). *)
Definition Rsum (l : list R) : R := fold_left Rplus l 0.

(** The tag of a command ([command.type]), named by the type of asset it
    is built for. *)
Definition command_kind (c : AssetCommand) : AssetType :=
  match c with
  | CHvac _ => hvac_resi
  | CBattery _ => battery_resi
  | CEv _ => ev_resi
  | CFleet _ => fleet_site
  | CCi _ => ci_building
  end.

(** The two filters of [selectAndOrderAssets]: the asset has not dropped and
    its available capacity is > 0. *)
Definition eligible (timestep : Z) (a : Asset) : bool :=
  negb (asset_dropped a) && (getAvailableCapacity a timestep >? 0).

(** What a command is addressed to, and what an asset answers to: the id
    and the type. *)
Definition command_address (c : DispatchCommand) : string * AssetType :=
  (asset_id c, command_kind (command c)).

Definition asset_address (a : Asset) : string * AssetType :=
  (asset_ident a, asset_type a).

(** ** SimulationEngine.ts: the final score *)

Module Score.
Record FinalScore := {
  totalPenalty : R;
  averagePenalty : R;
  percentTargetMet : R;
  assetsDropped : nat;
  grade : string
}.
End Score.

(** The grade of an average penalty. *)
Definition grade_of (avgPenalty : R) : string :=
  if avgPenalty <? 0.01 then "A+"
  else if avgPenalty <? 0.03 then "A"
  else if avgPenalty <? 0.05 then "B+"
  else if avgPenalty <? 0.10 then "B"
  else if avgPenalty <? 0.15 then "C"
  else if avgPenalty <? 0.25 then "D"
  else "F".

Definition calculateFinalScore (state : Sim.SimulationState) : Score.FinalScore :=
  let totalTimesteps := length (Sim.history state) in
  if (totalTimesteps =? 0)%nat then
    {| Score.totalPenalty := 0;
       Score.averagePenalty := 0;
       Score.percentTargetMet := 100;
       Score.assetsDropped := 0;
       Score.grade := "N/A" |}
  else
    let totalTarget :=
      fold_left (fun sum r => sum + Tick.target_kw r) (Sim.history state) 0 in
    let totalAchieved :=
      fold_left (fun sum r => sum + Tick.achieved_kw r) (Sim.history state) 0 in
    let percentMet :=
      if totalTarget >? 0 then (totalAchieved / totalTarget) * 100 else 100 in
    let avgPenalty := Sim.total_penalty state / INR totalTimesteps in
    let assetsDropped := length (List.filter asset_dropped (Sim.assets state)) in
    {| Score.totalPenalty := Math_round (Sim.total_penalty state * 1000) / 1000;
       Score.averagePenalty := Math_round (avgPenalty * 10000) / 10000;
       Score.percentTargetMet := Math_round (percentMet * 10) / 10;
       Score.assetsDropped := assetsDropped;
       Score.grade := grade_of avgPenalty |}.

Module Perf.
Record AssetTypePerformance := {
  assetType : AssetType;
  totalDispatched : nat;
  totalDropped : nat;
  totalKwContributed : R;
  avgKwPerTimestep : R;
  complianceRate : R
}.
End Perf.

(** [basicScore] holds the fields that [...basicScore] spreads into the
    result. *)
Module Enhanced.
Record EnhancedFinalScore := {
  basicScore : Score.FinalScore;
  totalKwShifted : R;
  avgKwVsTarget : R;
  totalAssetsPerformed : nat;
  totalAssetsDropped : nat;
  assetTypePerformance : list Perf.AssetTypePerformance;
  mostDispatchedAssetType : AssetType;
  bestPerformingAssetType : AssetType;
  worstPerformingAssetType : AssetType
}.
End Enhanced.

#[global] Instance AssetType_eq_dec : EqDecision AssetType.
Proof. solve_decision. Defined.

Definition allAssetTypes : list AssetType :=
  [hvac_resi; battery_resi; ev_resi; fleet_site; ci_building].

Definition count_of (t : AssetType) (c : TypeCounts) : nat :=
  match t with
  | hvac_resi => n_hvac_resi c
  | battery_resi => n_battery_resi c
  | ev_resi => n_ev_resi c
  | fleet_site => n_fleet_site c
  | ci_building => n_ci_building c
  end.

(** The loop over the assets that fills [assetsByType]: the number of assets
    of each type, and the number of them that dropped. *)
Definition assetsByType (assets : list Asset) : TypeCounts * TypeCounts :=
  fold_left
    (fun (acc : TypeCounts * TypeCounts) a =>
       (bump (asset_type a) (fst acc),
        if asset_dropped a then bump (asset_type a) (snd acc) else snd acc))
    assets (no_counts, no_counts).

Definition avgKwPerAsset (assetType : AssetType) : R :=
  match assetType with
  | hvac_resi => 3.5
  | battery_resi => 4.0
  | ev_resi => 5.0
  | fleet_site => 75
  | ci_building => 50
  end.

Definition performance_of (stats : TypeCounts * TypeCounts) (totalTimesteps : nat)
    (assetType : AssetType) : Perf.AssetTypePerformance :=
  let total := count_of assetType (fst stats) in
  let dropped := count_of assetType (snd stats) in
  let performed := INR total - INR dropped in
  let estimatedKwContributed :=
    performed * avgKwPerAsset assetType * INR totalTimesteps * 0.7 in
  let complianceRate :=
    if (0 <? total)%nat then ((INR total - INR dropped) / INR total) * 100 else 100 in
  {| Perf.assetType := assetType;
     Perf.totalDispatched := total;
     Perf.totalDropped := dropped;
     Perf.totalKwContributed := Math_round estimatedKwContributed;
     Perf.avgKwPerTimestep :=
       if (0 <? total)%nat
       then Math_round ((estimatedKwContributed / INR totalTimesteps) * 10) / 10
       else 0;
     Perf.complianceRate := Math_round (complianceRate * 10) / 10 |}.

(** [array.reduce(f)] without an initial value, on a non-empty array. *)
Definition reduce1 {A : Type} (f : A -> A -> A) (l : list A) : option A :=
  match l with
  | [] => None
  | x :: rest => Some (fold_left f rest x)
  end.

(** [activePerformance.length > 0 ? activePerformance.reduce(pick).assetType
    : 'hvac_resi'] *)
Definition pick_type (pick : Perf.AssetTypePerformance -> Perf.AssetTypePerformance
                             -> Perf.AssetTypePerformance)
    (activePerformance : list Perf.AssetTypePerformance) : AssetType :=
  match reduce1 pick activePerformance with
  | Some p => Perf.assetType p
  | None => hvac_resi
  end.

Definition calculateEnhancedFinalScore (state : Sim.SimulationState)
  : Enhanced.EnhancedFinalScore :=
  let totalTimesteps := length (Sim.history state) in
  let basicScore := calculateFinalScore state in
  if (totalTimesteps =? 0)%nat then
    let emptyPerformance :=
      List.map (fun assetType =>
                  {| Perf.assetType := assetType;
                     Perf.totalDispatched := 0;
                     Perf.totalDropped := 0;
                     Perf.totalKwContributed := 0;
                     Perf.avgKwPerTimestep := 0;
                     Perf.complianceRate := 100 |})
               allAssetTypes in
    {| Enhanced.basicScore := basicScore;
       Enhanced.totalKwShifted := 0;
       Enhanced.avgKwVsTarget := 0;
       Enhanced.totalAssetsPerformed := 0;
       Enhanced.totalAssetsDropped := 0;
       Enhanced.assetTypePerformance := emptyPerformance;
       Enhanced.mostDispatchedAssetType := hvac_resi;
       Enhanced.bestPerformingAssetType := hvac_resi;
       Enhanced.worstPerformingAssetType := hvac_resi |}
  else
    let totalKwShifted :=
      fold_left (fun sum r => sum + Tick.achieved_kw r) (Sim.history state) 0 in
    let avgAchieved := totalKwShifted / INR totalTimesteps in
    let avgTarget :=
      fold_left (fun sum r => sum + Tick.target_kw r) (Sim.history state) 0
      / INR totalTimesteps in
    let avgKwVsTarget := avgAchieved - avgTarget in
    let stats := assetsByType (Sim.assets state) in
    let assetTypePerformance :=
      List.map (performance_of stats totalTimesteps) allAssetTypes in
    let activePerformance :=
      List.filter (fun p => (0 <? Perf.totalDispatched p)%nat) assetTypePerformance in
    {| Enhanced.basicScore := basicScore;
       Enhanced.totalKwShifted := Math_round totalKwShifted;
       Enhanced.avgKwVsTarget := Math_round (avgKwVsTarget * 10) / 10;
       Enhanced.totalAssetsPerformed :=
         length (List.filter (fun a => negb (asset_dropped a)) (Sim.assets state));
       Enhanced.totalAssetsDropped :=
         length (List.filter asset_dropped (Sim.assets state));
       Enhanced.assetTypePerformance := assetTypePerformance;
       Enhanced.mostDispatchedAssetType :=
         pick_type (fun a b => if (Perf.totalDispatched b <? Perf.totalDispatched a)%nat
                               then a else b)
                   activePerformance;
       Enhanced.bestPerformingAssetType :=
         pick_type (fun a b => if Perf.complianceRate a >? Perf.complianceRate b
                               then a else b)
                   activePerformance;
       Enhanced.worstPerformingAssetType :=
         pick_type (fun a b => if Perf.complianceRate a <? Perf.complianceRate b
                               then a else b)
                   activePerformance |}.

(** The position of a grade on the scale, best first. *)
Definition grade_scale : list string := ["A+"; "A"; "B+"; "B"; "C"; "D"; "F"].

(** ** ScenarioGenerator.ts *)

Definition Math_sqrt : R -> R := sqrt.
Definition Math_log : R -> R := ln.
Definition Math_cos : R -> R := cos.
Definition Math_PI : R := PI.

Definition randomBetween (min max : R) : Rand R :=
  u <- Math_random ;;
  ret (u * (max - min) + min).

(** [Math.floor(randomBetween(min, max + 1))], on whole bounds. *)
Definition randomInt (min max : Z) : Rand Z :=
  x <- randomBetween (IZR min) (IZR max + 1) ;;
  ret (Int_part x).

(** [arr[Math.floor(Math.random() * arr.length)]]: [None] when the index is
    outside the array ([undefined]). *)
Definition randomChoice {T : Type} (arr : list T) : Rand (option T) :=
  u <- Math_random ;;
  let i := Int_part (u * INR (length arr)) in
  ret (if (i <? 0)%Z then None else arr !! Z.to_nat i).

Fixpoint repeat_char (n : nat) (c : Ascii.ascii) : string :=
  match n with
  | O => EmptyString
  | S n' => String c (repeat_char n' c)
  end.

(** [s.padStart(targetLength, c)] for a one-character pad string. *)
Definition padStart (s : string) (targetLength : nat) (c : Ascii.ascii) : string :=
  repeat_char (targetLength - String.length s) c +:+ s.

(** The character ['0']. *)
Definition char_0 : Ascii.ascii := Ascii.ascii_of_nat 48.

(** [String(index)] of a whole number >= 0 is its decimal numeral. *)
Definition generateId (prefix : string) (index : nat) : string :=
  prefix +:+ "_" +:+ padStart (pretty index) 4 char_0.

(** Box-Muller.  For [u1 = 0] JavaScript computes [Infinity]; the model
    follows the real-number library ([ln 0 = 0]). *)
Definition normalRandom (mean std : R) : Rand R :=
  u1 <- Math_random ;;
  u2 <- Math_random ;;
  let z := Math_sqrt (-2 * Math_log u1) * Math_cos (2 * Math_PI * u2) in
  ret (mean + z * std).

(** The loop of [generateWeatherTimeSeries], from tick [t] on. *)
Fixpoint weather_from (n : nat) (t : Z) (startHour : R) (isCooling : bool) : Rand (list R) :=
  match n with
  | O => ret []
  | S n' =>
      let baseTemp := if isCooling then 85 else 35 in
      let amplitude := if isCooling then 15 else 10 in
      let hour := js_rem (startHour + IZR t * (5 / 60)) 24 in
      let dailyCycle := - Math_cos ((hour - 15) * Math_PI / 12) in
      noise <- normalRandom 0 2 ;;
      temps <- weather_from n' (t + 1) startHour isCooling ;;
      ret ((baseTemp + amplitude * dailyCycle * 0.5 + noise) :: temps)
  end.

Definition generateWeatherTimeSeries (timesteps : Z) (startHour : R) (isCooling : bool)
  : Rand (list R) :=
  weather_from (Z.to_nat timesteps) 0 startHour isCooling.

(** The third argument, [outdoorTemp], is not used by the source. *)
Definition generateHvacResi (id : string) (mode : Hvac.Mode) (outdoorTemp : option R)
  : Rand Hvac.HvacResi :=
  let isCooling := match mode with Hvac.cooling => true | Hvac.heating => false end in
  prefSetpoint <- (if isCooling then randomBetween 72 76 else randomBetween 68 72) ;;
  alpha <- randomBetween 0.03 0.08 ;;
  b <- randomBetween 0.3 0.7 ;;
  hvac_kw <- randomBetween 2 6 ;;
  dtin <- normalRandom 0 1 ;;
  u <- Math_random ;;
  bias <- normalRandom 0 0.03 ;;
  ret {| Hvac.id := id;
         Hvac.params :=
           {| Hvac.mode := mode;
              Hvac.pref_setpoint_f := prefSetpoint;
              Hvac.comfort_max_f := if isCooling then 78 else 85;
              Hvac.comfort_min_f := if isCooling then 60 else 66;
              Hvac.alpha := alpha;
              Hvac.beta := if isCooling then - b else b;
              Hvac.hvac_kw := hvac_kw;
              Hvac.deadband_f := 0.5 |};
         Hvac.state :=
           {| Hvac.tin_f := prefSetpoint + dtin;
              Hvac.hvac_on := u >? 0.5;
              Hvac.setpoint_f := prefSetpoint;
              Hvac.dropped := false;
              Hvac.baseline_bias := bias;
              Hvac.baseline_drift := 0 |} |}.

Definition generateBatteryResi (id : string) : Rand Battery.BatteryResi :=
  capacity <- randomBetween 7 13.5 ;;
  maxPower <- randomBetween 3 5 ;;
  soc <- randomBetween 0.4 0.9 ;;
  bias <- normalRandom 0 0.03 ;;
  ret {| Battery.id := id;
         Battery.params :=
           {| Battery.e_kwh := capacity;
              Battery.p_dis_kw := maxPower;
              Battery.p_ch_kw := maxPower;
              Battery.soc_reserve := 0.20 |};
         Battery.state :=
           {| Battery.soc := soc;
              Battery.dropped := false;
              Battery.baseline_bias := bias;
              Battery.baseline_drift := 0 |} |}.

(** [Math.floor(timesteps * x)] *)
Definition floor_of (timesteps : Z) (x : R) : Z := Int_part (IZR timesteps * x).

(** The result is [None] when [randomChoice] yields [undefined] for the
    charger power (no outcome of [Math.random()] in [0, 1) does). *)
Definition generateEvResi (id : string) (timesteps : Z) : Rand (option Ev.EvResi) :=
  arrivalPattern <- Math_random ;;
  tArrival <-
    (if arrivalPattern <? 0.40 then ret 0%Z
     else if arrivalPattern <? 0.70 then randomInt 1 (floor_of timesteps 0.25)
     else if arrivalPattern <? 0.88
          then randomInt (floor_of timesteps 0.25) (floor_of timesteps 0.5)
          else randomInt (floor_of timesteps 0.5) (floor_of timesteps 0.75)) ;;
  departPattern <- Math_random ;;
  tDepart <-
    (if departPattern <? 0.88 then ret (timesteps - 1)%Z
     else if departPattern <? 0.96
          then randomInt (Z.max (tArrival + 12) (floor_of timesteps 0.8)) (timesteps - 1)
          else randomInt (Z.max (tArrival + 10) (floor_of timesteps 0.6)) (timesteps - 1)) ;;
  needPattern <- Math_random ;;
  eReq <-
    (if needPattern <? 0.40 then randomBetween 3 8
     else if needPattern <? 0.85 then randomBetween 8 18
     else randomBetween 18 30) ;;
  u <- Math_random ;;
  let isL2 := u >? 0.25 in
  pMax <- (if isL2 then randomChoice [6.6; 7.2; 9.6] else ret (Some 1.4)) ;;
  capacity <- randomBetween 50 80 ;;
  initialCharge <- randomBetween (capacity * 0.40) (capacity * 0.65) ;;
  bias <- normalRandom 0 0.03 ;;
  ret (match pMax with
       | None => None
       | Some pMax =>
           Some {| Ev.id := id;
                   Ev.params :=
                     {| Ev.charger_level := if isL2 then Ev.L2 else Ev.L1;
                        Ev.p_max_kw := pMax;
                        Ev.e_req_kwh := eReq;
                        Ev.e_capacity_kwh := capacity;
                        Ev.t_arrival := tArrival;
                        Ev.t_depart := tDepart |};
                   Ev.state :=
                     {| Ev.e_kwh := initialCharge;
                        Ev.plugged := (tArrival =? 0)%Z;
                        Ev.dropped := false;
                        Ev.override_active := false;
                        Ev.baseline_bias := bias;
                        Ev.baseline_drift := 0 |} |}
       end).

(** The loop of [generateFleetSite] over the vehicles [i], [i + 1], ... *)
Fixpoint fleet_vehicles_from (n i : nat) (id : string) (timesteps : Z)
    (vehicles : list Fleet.FleetVehicle) (vehicleState : gmap string Fleet.FleetVehicleState)
  : Rand (list Fleet.FleetVehicle * gmap string Fleet.FleetVehicleState) :=
  match n with
  | O => ret (vehicles, vehicleState)
  | S n' =>
      let vehId := id +:+ "_v" +:+ pretty i in
      tArr <- randomInt 0 (floor_of timesteps 0.3) ;;
      tDep <- randomInt (floor_of timesteps 0.7) (timesteps - 1) ;;
      capacity <- randomBetween 60 150 ;;
      p_max <- randomBetween 7 19 ;;
      e_req <- randomBetween 30 100 ;;
      e0 <- randomBetween (capacity * 0.1) (capacity * 0.4) ;;
      fleet_vehicles_from n' (S i) id timesteps
        (vehicles ++ [{| Fleet.vid := vehId;
                         Fleet.p_max_kw := p_max;
                         Fleet.e_req_kwh := e_req;
                         Fleet.e_capacity_kwh := capacity;
                         Fleet.t_arrival := tArr;
                         Fleet.t_depart := tDep |}])
        (<[vehId := {| Fleet.e_kwh := e0; Fleet.plugged := (tArr =? 0)%Z |}]> vehicleState)
  end.

Definition generateFleetSite (id : string) (timesteps : Z) : Rand Fleet.FleetSite :=
  numVehicles <- randomInt 10 60 ;;
  siteMaxPower <- randomBetween 50 300 ;;
  vs <- fleet_vehicles_from (Z.to_nat numVehicles) 0 id timesteps [] ∅ ;;
  bias <- normalRandom 0 0.03 ;;
  ret {| Fleet.id := id;
         Fleet.params := {| Fleet.u_site_max_kw := siteMaxPower; Fleet.vehicles := fst vs |};
         Fleet.state :=
           {| Fleet.vehicle_state := snd vs;
              Fleet.dropped := false;
              Fleet.baseline_bias := bias;
              Fleet.baseline_drift := 0 |} |}.

Definition generateCiBuilding (id : string) : Rand Ci.CiBuilding :=
  smax <- randomBetween 20 150 ;;
  k <- randomBetween 0.5 1.5 ;;
  a <- randomBetween 0.1 0.3 ;;
  b <- randomBetween 0.05 0.15 ;;
  load <- randomBetween 50 200 ;;
  toggles <- randomInt 1 3 ;;
  bias <- normalRandom 0 0.03 ;;
  ret {| Ci.id := id;
         Ci.params :=
           {| Ci.smax_hvac_kw := smax;
              Ci.fatigue_k := k;
              Ci.fatigue_a := a;
              Ci.fatigue_b := b;
              Ci.process_load_kw := load;
              Ci.max_process_toggles := toggles;
              Ci.business_hours := {| Ci.start_hour := 8; Ci.end_hour := 18 |} |};
         Ci.state :=
           {| Ci.fatigue := 0;
              Ci.hvac_shed_kw := 0;
              Ci.process_on := true;
              Ci.process_toggles_used := 0;
              Ci.dropped := false;
              Ci.baseline_bias := bias;
              Ci.baseline_drift := 0 |} |}.

Definition ASSET_AVG_KW (t : AssetType) : R :=
  match t with
  | hvac_resi => 4
  | battery_resi => 5
  | ev_resi => 7
  | fleet_site => 150
  | ci_building => 200
  end.

(** [eventDurationHours] and [startHour] are taken to be whole numbers, so
    that [timesteps] and the hour of [start_time] are whole as well; the
    hour that the engine reads back from [start_time] is [startHour] modulo
    24. *)
Module Gen.
Record ScenarioGeneratorConfig := {
  difficulty : DifficultyLevel;
  assetTypes : list AssetType;
  assetCounts : AssetType -> option R;
  eventDurationHours : option Z;
  startHour : option Z;
  isCoolingSeason : option bool
}.
End Gen.

Definition assetWeights (t : AssetType) : R :=
  match t with
  | hvac_resi => 35
  | battery_resi => 20
  | ev_resi => 15
  | fleet_site => 15
  | ci_building => 15
  end.

(** The [forEach] that fills [assetCounts]. *)
Definition scenario_assetCounts (config : Gen.ScenarioGeneratorConfig) : AssetType -> R :=
  let preset := DIFFICULTY_PRESETS (Gen.difficulty config) in
  let targetKw := target_mw preset * 1000 in
  let requiredCapacityKw := targetKw * headroom_multiplier preset in
  let selectedWeights :=
    fold_left (fun sum type => sum + assetWeights type) (Gen.assetTypes config) 0 in
  fold_left
    (fun (assetCounts : AssetType -> R) type =>
       let count :=
         match Gen.assetCounts config type with
         | Some c => c
         | None =>
             let proportion := assetWeights type / selectedWeights in
             let capacityForType := requiredCapacityKw * proportion in
             let avgKw := ASSET_AVG_KW type in
             Math_max 1 (Math_ceil (capacityForType / avgKw))
         end in
       fun t => if decide (t = type) then count else assetCounts t)
    (Gen.assetTypes config) (fun _ => 0).

(** The number of passes of [for (let i = 0; i < count; i++)]. *)
Definition passes (count : R) : nat := Z.to_nat (Zceil count).

(** One of the five loops that generate the assets of a type. *)
Fixpoint generate_assets (n : nat) (prefix : string) (assetIndex : nat)
    (gen : string -> Rng -> option (Asset * Rng))
  : Rng -> option (list Asset * Rng) :=
  fun g =>
  match n with
  | O => Some ([], g)
  | S n' =>
      '(a, g1) ← gen (generateId prefix assetIndex) g;
      '(rest, g2) ← generate_assets n' prefix (S assetIndex) gen g1;
      Some (a :: rest, g2)
  end.

Definition total_gen {A : Type} (inj : A -> Asset) (m : Rand A)
  : Rng -> option (Asset * Rng) :=
  fun g => let '(a, g') := m g in Some (inj a, g').

Definition generateScenario (config : Gen.ScenarioGeneratorConfig)
  : Rng -> option (Scn.Scenario * Rng) :=
  fun g =>
  let preset := DIFFICULTY_PRESETS (Gen.difficulty config) in
  let eventDurationHours := default 4%Z (Gen.eventDurationHours config) in
  let timesteps := (eventDurationHours * 12)%Z in
  let startHour := default 17%Z (Gen.startHour config) in
  let isCooling := default true (Gen.isCoolingSeason config) in
  let '(outdoor, g0) := generateWeatherTimeSeries timesteps (IZR startHour) isCooling g in
  let assetCounts := scenario_assetCounts config in
  let n1 := passes (assetCounts hvac_resi) in
  let n2 := passes (assetCounts battery_resi) in
  let n3 := passes (assetCounts ev_resi) in
  let n4 := passes (assetCounts fleet_site) in
  let n5 := passes (assetCounts ci_building) in
  '(hvacs, g1) ←
    generate_assets n1 "hvac" 0
      (fun id => total_gen AHvac
                   (generateHvacResi id (if isCooling then Hvac.cooling else Hvac.heating)
                      (head outdoor))) g0;
  '(batteries, g2) ←
    generate_assets n2 "bat" n1 (fun id => total_gen ABattery (generateBatteryResi id)) g1;
  '(evs, g3) ←
    generate_assets n3 "ev" (n1 + n2)
      (fun id g => let '(ev, g') := generateEvResi id timesteps g in
                   a ← ev; Some (AEv a, g')) g2;
  '(fleets, g4) ←
    generate_assets n4 "fleet" (n1 + n2 + n3)
      (fun id => total_gen AFleet (generateFleetSite id timesteps)) g3;
  '(cis, g5) ←
    generate_assets n5 "ci" (n1 + n2 + n3 + n4)
      (fun id => total_gen ACi (generateCiBuilding id)) g4;
  let scenarioTargetKw := target_mw preset * 1000 in
  Some ({| Scn.scenario :=
             {| start_hour := IZR (startHour mod 24);
                timesteps := timesteps;
                weather := {| outdoor_temp_f := outdoor |};
                objective := {| target_kw := Some (Math_round scenarioTargetKw) |};
                baseline_error := {| sigma_bias := 0.03; sigma_drift := 0.01; rho := 0.8 |};
                measurement_noise := {| pct_uniform := 0.05 |};
                noncompliance := {| probability := preset_noncompliance preset |} |};
           Scn.assets := hvacs ++ batteries ++ evs ++ fleets ++ cis |}, g5).

(** [m] returns a value that satisfies [P] and leaves an admissible random
    source, whenever it starts from one. *)
Definition yields {A : Type} (m : Rand A) (P : A -> Prop) : Prop :=
  forall g : Rng, rng_ok g -> P (fst (m g)) /\ rng_ok (snd (m g)).

(** What [generateFleetSite] guarantees of a vehicle and its entry in
    [vehicle_state], for an event of [T] ticks. *)
Definition vehicle_generated (T : Z) (vs : gmap string Fleet.FleetVehicleState)
    (v : Fleet.FleetVehicle) : Prop :=
  (0 <= Fleet.t_arrival v <= floor_of T 0.3)%Z
  /\ (floor_of T 0.7 <= Fleet.t_depart v <= T - 1)%Z
  /\ 60 <= Fleet.e_capacity_kwh v < 150
  /\ 7 <= Fleet.p_max_kw v < 19
  /\ 30 <= Fleet.e_req_kwh v < 100
  /\ exists st : Fleet.FleetVehicleState,
       vs !! Fleet.vid v = Some st
       /\ 0.1 * Fleet.e_capacity_kwh v <= Fleet.e_kwh st < 0.4 * Fleet.e_capacity_kwh v
       /\ Fleet.plugged st = (Fleet.t_arrival v =? 0)%Z.

(** The same with the bounds that also hold of the values computed in
    binary64 arithmetic: for the largest outcomes of [Math.random()]
    [randomBetween] reaches its upper bound and [randomInt] the whole number
    after its upper bound, and [Math.floor(timesteps * 0.7)] can be one less
    than the floor of the exact product. *)
Definition vehicle_within_ranges (T : Z) (vs : gmap string Fleet.FleetVehicleState)
    (v : Fleet.FleetVehicle) : Prop :=
  (0 <= Fleet.t_arrival v <= floor_of T 0.3 + 1)%Z
  /\ (floor_of T 0.7 - 1 <= Fleet.t_depart v <= T)%Z
  /\ (Fleet.t_arrival v < Fleet.t_depart v)%Z
  /\ 60 <= Fleet.e_capacity_kwh v <= 150
  /\ 7 <= Fleet.p_max_kw v <= 19
  /\ 30 <= Fleet.e_req_kwh v <= 100
  /\ exists st : Fleet.FleetVehicleState,
       vs !! Fleet.vid v = Some st
       /\ 0.1 * Fleet.e_capacity_kwh v <= Fleet.e_kwh st <= 0.4 * Fleet.e_capacity_kwh v
       /\ Fleet.plugged st = (Fleet.t_arrival v =? 0)%Z.

(** ** Sample data *)

Definition sample_config : ScenarioConfig :=
  {| start_hour := 14;
     timesteps := 1;
     weather := {| outdoor_temp_f := [90] |};
     objective := {| target_kw := Some 0 |};
     baseline_error := {| sigma_bias := 0.03; sigma_drift := 0.01; rho := 0.8 |};
     measurement_noise := {| pct_uniform := 0.05 |};
     noncompliance := {| probability := 0.15 |} |}.

(** A random source whose every outcome is 1/2: no roll refuses a command,
    the drift innovation is 0 and every noise factor is 1. *)
Definition sample_rng : Rng := fun _ => 0.5.


Definition sample_rng_low : Rng :=
  fun n => match n with 2%nat => 0 | _ => 0.5 end.

Definition sample_battery : Battery.BatteryResi :=
  {| Battery.id := "battery_1";
     Battery.params := {| Battery.e_kwh := 10; Battery.p_dis_kw := 5;
                          Battery.p_ch_kw := 5; Battery.soc_reserve := 0.2 |};
     Battery.state := {| Battery.soc := 0.5; Battery.dropped := false;
                         Battery.baseline_bias := 0; Battery.baseline_drift := 0 |} |}.

(** A battery whose maximum charge power is negative. *)
Definition sample_battery_sagging : Battery.BatteryResi :=
  {| Battery.id := "battery_2";
     Battery.params := {| Battery.e_kwh := 5; Battery.p_dis_kw := 10;
                          Battery.p_ch_kw := -60; Battery.soc_reserve := 0.2 |};
     Battery.state := {| Battery.soc := 0.5; Battery.dropped := false;
                         Battery.baseline_bias := 0; Battery.baseline_drift := 0 |} |}.

Definition sample_battery_commands : list (option Battery.BatteryCommand) :=
  [Some {| Battery.power_kw := 3 |}; Some {| Battery.power_kw := -4 |}; None].

Definition sample_ci : Ci.CiBuilding :=
  {| Ci.id := "ci_1";
     Ci.params := {| Ci.smax_hvac_kw := 100; Ci.fatigue_k := 1; Ci.fatigue_a := 0.2;
                     Ci.fatigue_b := 0.1; Ci.process_load_kw := 50;
                     Ci.max_process_toggles := 2;
                     Ci.business_hours := {| Ci.start_hour := 8; Ci.end_hour := 18 |} |};
     Ci.state := {| Ci.fatigue := 0; Ci.hvac_shed_kw := 0; Ci.process_on := true;
                    Ci.process_toggles_used := 0; Ci.dropped := false;
                    Ci.baseline_bias := 0; Ci.baseline_drift := 0 |} |}.

(** A building that has dropped, with a negative fatigue on record. *)
Definition sample_ci_dropped : Ci.CiBuilding :=
  {| Ci.id := "ci_2";
     Ci.params := Ci.params sample_ci;
     Ci.state := {| Ci.fatigue := -1; Ci.hvac_shed_kw := 0; Ci.process_on := true;
                    Ci.process_toggles_used := 0; Ci.dropped := true;
                    Ci.baseline_bias := 0; Ci.baseline_drift := 0 |} |}.

Definition sample_ci_commands : list (option CiCmd.CiBuildingCommand) :=
  [Some {| CiCmd.hvac_shed_kw := 80; CiCmd.process_on := true |}; None].

(** An EV that arrives at tick 3 and leaves at tick 5, and one with the
    same needs that is plugged in from tick 0. *)
Definition sample_ev_params (arrival : Z) : Ev.EvResiParams :=
  {| Ev.charger_level := Ev.L2; Ev.p_max_kw := 7; Ev.e_req_kwh := 60;
     Ev.e_capacity_kwh := 80; Ev.t_arrival := arrival; Ev.t_depart := 5 |}.

Definition sample_ev_away : Ev.EvResi :=
  {| Ev.id := "ev_1";
     Ev.params := sample_ev_params 3;
     Ev.state := {| Ev.e_kwh := 20; Ev.plugged := false; Ev.dropped := false;
                    Ev.override_active := false;
                    Ev.baseline_bias := 0; Ev.baseline_drift := 0 |} |}.

Definition sample_ev_home : Ev.EvResi :=
  {| Ev.id := "ev_2";
     Ev.params := sample_ev_params 0;
     Ev.state := {| Ev.e_kwh := 20; Ev.plugged := true; Ev.dropped := false;
                    Ev.override_active := false;
                    Ev.baseline_bias := 0; Ev.baseline_drift := 0 |} |}.

Definition sample_fleet : Fleet.FleetSite :=
  {| Fleet.id := "fleet_1";
     Fleet.params :=
       {| Fleet.u_site_max_kw := 100;
          Fleet.vehicles :=
            [{| Fleet.vid := "van_1"; Fleet.p_max_kw := 50; Fleet.e_req_kwh := 60;
                Fleet.e_capacity_kwh := 80; Fleet.t_arrival := 0; Fleet.t_depart := 5 |}] |};
     Fleet.state :=
       {| Fleet.vehicle_state := {[ "van_1" := {| Fleet.e_kwh := 20; Fleet.plugged := true |} ]};
          Fleet.dropped := false;
          Fleet.baseline_bias := 0; Fleet.baseline_drift := 0 |} |}.

(** A plugged EV far from its deadline (no override). *)
Definition sample_ev_flexible : Ev.EvResi :=
  {| Ev.id := "ev_3";
     Ev.params := {| Ev.charger_level := Ev.L2; Ev.p_max_kw := 7; Ev.e_req_kwh := 60;
                     Ev.e_capacity_kwh := 80; Ev.t_arrival := 0; Ev.t_depart := 100 |};
     Ev.state := {| Ev.e_kwh := 20; Ev.plugged := true; Ev.dropped := false;
                    Ev.override_active := false;
                    Ev.baseline_bias := 0; Ev.baseline_drift := 0 |} |}.

Definition sample_hvac : Hvac.HvacResi :=
  {| Hvac.id := "hvac_1";
     Hvac.params := {| Hvac.mode := Hvac.cooling; Hvac.pref_setpoint_f := 74;
                       Hvac.comfort_max_f := 78; Hvac.comfort_min_f := 66;
                       Hvac.alpha := 0.05; Hvac.beta := -0.5; Hvac.hvac_kw := 4;
                       Hvac.deadband_f := 0.5 |};
     Hvac.state := {| Hvac.tin_f := 72; Hvac.hvac_on := false; Hvac.setpoint_f := 74;
                      Hvac.dropped := false;
                      Hvac.baseline_bias := 0; Hvac.baseline_drift := 0 |} |}.

Definition sample_intensity : DispatchIntensitySettings := fun _ => Some 50.

Definition sample_context : Ctx.StrategyContext :=
  {| Ctx.assets := [AHvac sample_hvac];
     Ctx.targetKw := 3;
     Ctx.currentTimestep := 0;
     Ctx.totalTimesteps := 3;
     Ctx.config := sample_config;
     Ctx.strategyConfig := DEFAULT_STRATEGY_CONFIG;
     Ctx.dispatchIntensity := Some sample_intensity;
     Ctx.previousAchievedKw := None;
     Ctx.previouslyDispatchedAssetIds := ∅;
     Ctx.accumulatedError := 0;
     Ctx.assetPerformanceScores := ∅ |}.


(** A scenario of one tick with a zero target and one HVAC unit whose
    thermostat keeps the unit off during that tick; an engine on it at medium
    difficulty. *)
Definition sample_scenario : Scn.Scenario :=
  {| Scn.scenario := sample_config; Scn.assets := [AHvac sample_hvac] |}.


(** The tick of [sample_engine], in terms of the three random outcomes it
    consumes after the dispatch: drift, noise, variability. *)
Definition sample_drift (g : Rng) : R := (g 0%nat * 2 - 1) * 0.01.

Definition sample_delta (g : Rng) : R :=
  Math_max 0 (4 * (1 + sample_drift g) * (1 + (g 1%nat * 2 - 1) * 0.05)).

Definition sample_achieved (g : Rng) : R :=
  sample_delta g * (1 + (g 2%nat * 2 - 1) * 0.25).

Definition sample_hvac_after (g : Rng) : Hvac.HvacResi :=
  {| Hvac.id := "hvac_1";
     Hvac.params := Hvac.params sample_hvac;
     Hvac.state := {| Hvac.tin_f := 72.9; Hvac.hvac_on := false; Hvac.setpoint_f := 74;
                      Hvac.dropped := false;
                      Hvac.baseline_bias := 0; Hvac.baseline_drift := sample_drift g |} |}.

Definition sample_result (g : Rng) : Tick.TimestepResult :=
  {| Tick.timestep := 0;
     Tick.target_kw := 0;
     Tick.achieved_kw := Math_round (sample_achieved g * 10) / 10;
     Tick.shortfall_kw := Math_round (Math_max 0 (0 - sample_achieved g) * 10) / 10;
     Tick.penalty := recorded_penalty (DIFFICULTY_PRESETS medium) 0 (sample_achieved g);
     Tick.assets_dropped := 0;
     Tick.outdoor_temp_f := 90;
     Tick.dispatches_by_type := no_counts;
     Tick.new_dispatch_calls := no_counts |}.

Definition sample_engine_after (strategyConfig : Strategy.StrategyConfig) (g : Rng)
  : Engine.SimulationEngine :=
  {| Engine.state :=
       {| Sim.scenario := sample_scenario;
          Sim.current_timestep := 1;
          Sim.assets := [AHvac (sample_hvac_after g)];
          Sim.history := [sample_result g];
          Sim.total_penalty :=
            0 + tick_penalty (DIFFICULTY_PRESETS medium) 0 (sample_achieved g);
          Sim.is_running := false;
          Sim.is_complete := false |};
     Engine.strategyConfig := strategyConfig;
     Engine.difficulty := medium;
     Engine.previouslyDispatchedAssets := ∅;
     Engine.accumulatedError := 0;
     Engine.assetPerformanceScores := {[ "hvac_1" := 0.5 ]} |}.

(** A configuration that is invalid on both counts: a feedback subtype under
    the greedy framework, and no selection ordering. *)
Definition sample_invalid_config : Strategy.StrategyConfig :=
  {| Strategy.decisionFramework := greedy_myopic;
     Strategy.frameworkSubtype := pid_like_control;
     Strategy.objective := capacity;
     Strategy.selectionOrderings := [];
     Strategy.riskPosture := neutral;
     Strategy.feedbackMode := closed_loop |}.

Definition sample_invalid_update : Partial.StrategyConfig :=
  {| Partial.decisionFramework := Some greedy_myopic;
     Partial.frameworkSubtype := Some pid_like_control;
     Partial.objective := None;
     Partial.selectionOrderings := Some [];
     Partial.riskPosture := None;
     Partial.feedbackMode := None |}.

(** A context with that configuration that carries the intensity settings. *)
Definition sample_invalid_context : Ctx.StrategyContext :=
  {| Ctx.assets := [AHvac sample_hvac];
     Ctx.targetKw := 3;
     Ctx.currentTimestep := 0;
     Ctx.totalTimesteps := 3;
     Ctx.config := sample_config;
     Ctx.strategyConfig := sample_invalid_config;
     Ctx.dispatchIntensity := Some sample_intensity;
     Ctx.previousAchievedKw := None;
     Ctx.previouslyDispatchedAssetIds := ∅;
     Ctx.accumulatedError := 0;
     Ctx.assetPerformanceScores := ∅ |}.

(** [sample_ev_flexible] after one tick of charging at 3 kW. *)
Definition sample_ev_charged : Ev.EvResi :=
  {| Ev.id := "ev_3";
     Ev.params := Ev.params sample_ev_flexible;
     Ev.state := {| Ev.e_kwh := 20.25; Ev.plugged := true; Ev.dropped := false;
                    Ev.override_active := false;
                    Ev.baseline_bias := 0; Ev.baseline_drift := 0 |} |}.

(** The sample battery after it dropped out. *)
Definition sample_battery_dropped : Battery.BatteryResi :=
  {| Battery.id := "battery_1";
     Battery.params := Battery.params sample_battery;
     Battery.state := {| Battery.soc := 0.5; Battery.dropped := true;
                         Battery.baseline_bias := 0; Battery.baseline_drift := 0 |} |}.

(** A scenario of two ticks with a target of 100 kW whose only asset has
    dropped, the same with a zero target, and engines on them at medium
    difficulty. *)
Definition sample_config_long (target : R) : ScenarioConfig :=
  {| start_hour := 14;
     timesteps := 2;
     weather := {| outdoor_temp_f := [90; 88] |};
     objective := {| target_kw := Some target |};
     baseline_error := {| sigma_bias := 0.03; sigma_drift := 0.01; rho := 0.8 |};
     measurement_noise := {| pct_uniform := 0.05 |};
     noncompliance := {| probability := 0.15 |} |}.

Definition sample_scenario_dropped (target : R) : Scn.Scenario :=
  {| Scn.scenario := sample_config_long target;
     Scn.assets := [ABattery sample_battery_dropped] |}.

Definition sample_engine_dropped (target : R) (strategyConfig : Strategy.StrategyConfig)
  : Engine.SimulationEngine :=
  SimulationEngine_new (sample_scenario_dropped target) strategyConfig medium.

Definition sample_generator_config : Gen.ScenarioGeneratorConfig :=
  {| Gen.difficulty := hard;
     Gen.assetTypes := [hvac_resi; battery_resi; fleet_site];
     Gen.assetCounts := fun _ => None;
     Gen.eventDurationHours := Some 1%Z;
     Gen.startHour := None;
     Gen.isCoolingSeason := None |}.

(** * Properties *)

(** ** Comparisons and the [Math] functions *)

Lemma Rltb_true (x y : R) : x < y -> (x <? y) = true.
Proof. intros H. unfold Rltb. destruct (Rlt_dec x y); [reflexivity | contradiction]. Qed.

Lemma Rltb_false (x y : R) : y <= x -> (x <? y) = false.
Proof. intros H. unfold Rltb. destruct (Rlt_dec x y); [lra | reflexivity]. Qed.

Lemma Rleb_true (x y : R) : x <= y -> (x <=? y) = true.
Proof. intros H. unfold Rleb. destruct (Rle_dec x y); [reflexivity | contradiction]. Qed.

Lemma Rleb_false (x y : R) : y < x -> (x <=? y) = false.
Proof. intros H. unfold Rleb. destruct (Rle_dec x y); [lra | reflexivity]. Qed.

Lemma Rltb_spec (x y : R) : reflect (x < y) (x <? y).
Proof. unfold Rltb. destruct (Rlt_dec x y); constructor; assumption. Qed.

Lemma Rleb_spec (x y : R) : reflect (x <= y) (x <=? y).
Proof. unfold Rleb. destruct (Rle_dec x y); constructor; assumption. Qed.


Lemma Math_max_ge_l (x y : R) : x <= Math_max x y.
Proof. apply Rmax_l. Qed.

Lemma Math_min_cases (x y : R) :
  (x <= y /\ Math_min x y = x) \/ (y < x /\ Math_min x y = y).
Proof.
  unfold Math_min, Rmin. destruct (Rle_dec x y); [left | right]; split; lra.
Qed.

Lemma Math_max_cases (x y : R) :
  (x <= y /\ Math_max x y = y) \/ (y < x /\ Math_max x y = x).
Proof.
  unfold Math_max, Rmax. destruct (Rle_dec x y); [left | right]; split; lra.
Qed.

Lemma TIMESTEP_HOURS_val : TIMESTEP_HOURS = / 12.
Proof. unfold TIMESTEP_HOURS, TIMESTEP_MINUTES. lra. Qed.

(** Case analysis on every [Math.min] / [Math.max] of the goal and of the
    hypotheses. *)
Ltac minmax_on a b lem :=
  let H := fresh "Hmm" in
  let H' := fresh "Hmm" in
  destruct (lem a b) as [[H' H] | [H' H]]; rewrite ?H in *; clear H.

Ltac minmax :=
  repeat match goal with
  | |- context [Math_min ?a ?b] => minmax_on a b Math_min_cases
  | |- context [Math_max ?a ?b] => minmax_on a b Math_max_cases
  | _ : context [Math_min ?a ?b] |- _ => minmax_on a b Math_min_cases
  | _ : context [Math_max ?a ?b] |- _ => minmax_on a b Math_max_cases
  end.

(** ** Evaluation on concrete numbers *)

Lemma Math_min_l (x y : R) : x <= y -> Math_min x y = x.
Proof. apply Rmin_left. Qed.

Lemma Math_min_r (x y : R) : y <= x -> Math_min x y = y.
Proof. apply Rmin_right. Qed.

Lemma Math_max_l (x y : R) : y <= x -> Math_max x y = x.
Proof. apply Rmax_left. Qed.

Lemma Math_max_r (x y : R) : x <= y -> Math_max x y = y.
Proof. apply Rmax_right. Qed.

(** Decides the comparisons, minima and maxima of the goal whose arguments
    are numerals. *)
Ltac eval_Z :=
  repeat match goal with
  | |- context [IZR ?z] =>
      lazymatch z with
      | Zpos _ => fail
      | Zneg _ => fail
      | Z0 => fail
      | _ => let z' := eval vm_compute in z in change (IZR z) with (IZR z')
      end
  end.

Ltac eval_R :=
  repeat first
  [ match goal with
    | |- context [?x <? ?y] =>
        first [rewrite (Rltb_true x y) by lra | rewrite (Rltb_false x y) by lra]
    | |- context [?x <=? ?y] =>
        first [rewrite (Rleb_true x y) by lra | rewrite (Rleb_false x y) by lra]
    | |- context [Math_min ?x ?y] =>
        first [rewrite (Math_min_l x y) by lra | rewrite (Math_min_r x y) by lra]
    | |- context [Math_max ?x ?y] =>
        first [rewrite (Math_max_l x y) by lra | rewrite (Math_max_r x y) by lra]
    end
  | progress cbn -[Rltb Rleb Reqb Math_min Math_max Math_abs Math_pow Math_round
                   IZR Rmult Rplus Rminus Rdiv Ropp Rinv TIMESTEP_HOURS] ].

Lemma Math_round_eval (x : R) (z : Z) :
  IZR z - / 2 <= x < IZR z + / 2 -> Math_round x = IZR z.
Proof.
  intros [Hlo Hhi]. unfold Math_round. f_equal. symmetry.
  apply Int_part_spec. lra.
Qed.

(** ** Battery: the state of charge stays within [soc_reserve, 1], up to rounding *)

Lemma Rabs_le_bounds (x a : R) : Rabs x <= a -> - a <= x <= a.
Proof. unfold Rabs. destruct (Rcase_abs x); lra. Qed.

Ltac run_rand :=
  unfold bind, ret, honoured, rollNoncompliance, drift_step, updateBaselineDrift,
    applyMeasurementNoise, Math_random in *; simpl in *.

Section RoundedBattery.
Variable rnd : R -> R.
Variable u : R.
Hypothesis u_small : 0 <= u <= / 100.
Hypothesis rnd_error : forall x, Rabs (rnd x - x) <= u * Rabs x.
Hypothesis rnd_monotone : forall x y, x <= y -> rnd x <= rnd y.
Hypothesis rnd_idempotent : forall x, rnd (rnd x) = rnd x.
Variable params : Battery.BatteryResiParams.
Hypothesis capacity_pos : 0 < Battery.e_kwh params.
Hypothesis charge_rate_nonneg : 0 <= Battery.p_ch_kw params.
Hypothesis reserve_range : 0 <= Battery.soc_reserve params <= 1.

Lemma rnd_pos (x : R) : 0 <= x -> x * (1 - u) <= rnd x <= x * (1 + u).
Proof.
  intros Hx. pose proof (rnd_error x) as H. rewrite (Rabs_right x) in H by lra.
  apply Rabs_le_bounds in H. lra.
Qed.

Lemma rnd_neg (x : R) : x <= 0 -> x * (1 + u) <= rnd x <= x * (1 - u).
Proof.
  intros Hx. pose proof (rnd_error x) as H. rewrite (Rabs_left1 x) in H by lra.
  apply Rabs_le_bounds in H. lra.
Qed.

Lemma rnd_zero : rnd 0 = 0.
Proof. pose proof (rnd_pos 0 ltac:(lra)). lra. Qed.

Lemma rnd_sign_pos (x : R) : 0 <= x -> 0 <= rnd x.
Proof. intros Hx. pose proof (rnd_pos x Hx). nra. Qed.

Lemma rnd_sign_neg (x : R) : x <= 0 -> rnd x <= 0.
Proof. intros Hx. pose proof (rnd_neg x Hx). nra. Qed.


Lemma th_bounds : / 12 * (1 - u) <= timestep_hours_rounded rnd <= / 12 * (1 + u).
Proof.
  unfold timestep_hours_rounded, TIMESTEP_MINUTES. replace (5 / 60) with (/ 12) by lra.
  apply rnd_pos. lra.
Qed.



Lemma round_trip_pos (a p : R) :
  0 <= a -> 0 <= p <= to_power rnd (Battery.e_kwh params) a ->
  0 <= to_fraction rnd (Battery.e_kwh params) p <= a * (1 + 8 * u).
Proof.
  intros Ha [Hp0 Hp].
  pose proof th_bounds as [Ht1 Ht2].
  set (e := Battery.e_kwh params) in *.
  set (th := timestep_hours_rounded rnd) in *.
  assert (Hth : 0 < th) by nra.
  unfold to_power in Hp. unfold to_fraction. fold e th in Hp |- *.
  (* forward *)
  pose proof (rnd_pos a Ha) as [_ H1].
  assert (H1p : 0 <= rnd a) by (apply rnd_sign_pos; assumption).
  assert (H2a : 0 <= rnd a * e) by nra.
  pose proof (rnd_pos _ H2a) as [_ H2].
  assert (H2p : 0 <= rnd (rnd a * e)) by (apply rnd_sign_pos; assumption).
  assert (H3a : 0 <= rnd (rnd a * e) / th).
  { apply Rmult_le_pos; [assumption | left; apply Rinv_0_lt_compat; assumption]. }
  pose proof (rnd_pos _ H3a) as [_ H3].
  (* backward *)
  assert (H4a : 0 <= p * th) by nra.
  pose proof (rnd_pos _ H4a) as [_ H4].
  assert (H4p : 0 <= rnd (p * th)) by (apply rnd_sign_pos; assumption).
  assert (H5a : 0 <= rnd (p * th) / e).
  { apply Rmult_le_pos; [assumption | left; apply Rinv_0_lt_compat; assumption]. }
  pose proof (rnd_pos _ H5a) as [_ H5].
  split; [apply rnd_sign_pos; assumption | ].
  set (w := 1 + u) in *.
  assert (Hw : 1 <= w) by (unfold w; lra).
  assert (E1 : rnd a * e <= a * w * e) by (apply Rmult_le_compat_r; lra).
  assert (E2 : rnd (rnd a * e) <= a * w * e * w).
  { etransitivity; [exact H2 | ]. apply Rmult_le_compat_r; lra. }
  assert (E3 : p * th <= rnd (rnd a * e) * w).
  { replace (rnd (rnd a * e) * w) with (rnd (rnd a * e) / th * w * th) by (field; lra).
    apply Rmult_le_compat_r; lra. }
  assert (E4 : p * th <= a * w * e * w * w).
  { etransitivity; [exact E3 | ]. apply Rmult_le_compat_r; lra. }
  assert (E5 : rnd (p * th) <= a * w * e * w * w * w).
  { etransitivity; [exact H4 | ]. apply Rmult_le_compat_r; lra. }
  assert (E6 : rnd (p * th) / e <= a * w * w * w * w).
  { apply (Rmult_le_reg_r e); [assumption | ].
    replace (rnd (p * th) / e * e) with (rnd (p * th)) by (field; lra). lra. }
  assert (E7 : rnd (rnd (p * th) / e) <= a * w * w * w * w * w).
  { etransitivity; [exact H5 | ]. apply Rmult_le_compat_r; lra. }
  assert (K4 : w * w * w * w * w <= 1 + 8 * u).
  { unfold w.
    assert (Huu : u * u <= u / 100) by nra.
    assert (P2 : (1 + u) * (1 + u) <= 1 + 3 * u) by nra.
    assert (P3 : (1 + u) * (1 + u) * (1 + u) <= 1 + 5 * u) by nra.
    assert (P4 : (1 + u) * (1 + u) * (1 + u) * (1 + u) <= 1 + 7 * u) by nra.
    nra. }
  etransitivity; [exact E7 | ].
  replace (a * w * w * w * w * w) with (a * (w * w * w * w * w)) by ring.
  apply Rmult_le_compat_l; assumption.
Qed.

Lemma round_trip_neg (a p : R) :
  a <= 0 -> to_power rnd (Battery.e_kwh params) a <= p <= 0 ->
  a * (1 + 8 * u) <= to_fraction rnd (Battery.e_kwh params) p <= 0.
Proof.
  intros Ha [Hp Hp0].
  pose proof th_bounds as [Ht1 Ht2].
  set (e := Battery.e_kwh params) in *.
  set (th := timestep_hours_rounded rnd) in *.
  assert (Hth : 0 < th) by nra.
  unfold to_power in Hp. unfold to_fraction. fold e th in Hp |- *.
  pose proof (rnd_neg a Ha) as [H1 _].
  assert (H1p : rnd a <= 0) by (apply rnd_sign_neg; assumption).
  assert (H2a : rnd a * e <= 0) by nra.
  pose proof (rnd_neg _ H2a) as [H2 _].
  assert (H2p : rnd (rnd a * e) <= 0) by (apply rnd_sign_neg; assumption).
  assert (H3a : rnd (rnd a * e) / th <= 0).
  { assert (0 <= - rnd (rnd a * e) / th).
    { apply Rmult_le_pos; [lra | left; apply Rinv_0_lt_compat; assumption]. }
    replace (rnd (rnd a * e) / th) with (- (- rnd (rnd a * e) / th)) by (field; lra). lra. }
  pose proof (rnd_neg _ H3a) as [H3 _].
  assert (H4a : p * th <= 0) by nra.
  pose proof (rnd_neg _ H4a) as [H4 _].
  assert (H4p : rnd (p * th) <= 0) by (apply rnd_sign_neg; assumption).
  assert (H5a : rnd (p * th) / e <= 0).
  { assert (0 <= - rnd (p * th) / e).
    { apply Rmult_le_pos; [lra | left; apply Rinv_0_lt_compat; assumption]. }
    replace (rnd (p * th) / e) with (- (- rnd (p * th) / e)) by (field; lra). lra. }
  pose proof (rnd_neg _ H5a) as [H5 _].
  split; [ | apply rnd_sign_neg; assumption].
  set (w := 1 + u) in *.
  assert (Hw : 1 <= w) by (unfold w; lra).
  assert (E1 : a * w * e <= rnd a * e) by (apply Rmult_le_compat_r; lra).
  assert (E2 : a * w * e * w <= rnd (rnd a * e)).
  { etransitivity; [ | exact H2]. apply Rmult_le_compat_r; lra. }
  assert (E3 : rnd (rnd a * e) * w <= p * th).
  { replace (rnd (rnd a * e) * w) with (rnd (rnd a * e) / th * w * th) by (field; lra).
    apply Rmult_le_compat_r; lra. }
  assert (E4 : a * w * e * w * w <= p * th).
  { etransitivity; [ | exact E3]. apply Rmult_le_compat_r; lra. }
  assert (E5 : a * w * e * w * w * w <= rnd (p * th)).
  { etransitivity; [ | exact H4]. apply Rmult_le_compat_r; lra. }
  assert (E6 : a * w * w * w * w <= rnd (p * th) / e).
  { apply (Rmult_le_reg_r e); [assumption | ].
    replace (rnd (p * th) / e * e) with (rnd (p * th)) by (field; lra). lra. }
  assert (E7 : a * w * w * w * w * w <= rnd (rnd (p * th) / e)).
  { etransitivity; [ | exact H5]. apply Rmult_le_compat_r; lra. }
  assert (K4 : w * w * w * w * w <= 1 + 8 * u).
  { unfold w.
    assert (Huu : u * u <= u / 100) by nra.
    assert (P2 : (1 + u) * (1 + u) <= 1 + 3 * u) by nra.
    assert (P3 : (1 + u) * (1 + u) * (1 + u) <= 1 + 5 * u) by nra.
    assert (P4 : (1 + u) * (1 + u) * (1 + u) * (1 + u) <= 1 + 7 * u) by nra.
    nra. }
  etransitivity; [ | exact E7].
  replace (a * w * w * w * w * w) with (a * (w * w * w * w * w)) by ring.
  assert (- a * (w * w * w * w * w) <= - a * (1 + 8 * u)).
  { apply Rmult_le_compat_l; [lra | assumption]. }
  lra.
Qed.
Lemma battery_apply_rounded_within (soc requestedPower : R) :
  soc_within rnd u params soc ->
  let '(powerOutput, soc') := battery_apply_rounded rnd params soc requestedPower in
  soc_within rnd u params soc'
  /\ (0 < requestedPower ->
      0 <= powerOutput <= requestedPower
      /\ powerOutput <= Math_max 0 (Battery.p_dis_kw params)
      /\ soc' <= soc)
  /\ (requestedPower < 0 ->
      - powerOutput <= - requestedPower
      /\ - powerOutput <= Battery.p_ch_kw params
      /\ (soc <= 1 -> soc <= soc')).
Proof using All.
  unfold soc_within. intros [Hrep Hsoc]. unfold battery_apply_rounded.
  set (reserve := Battery.soc_reserve params) in *.
  fold (timestep_hours_rounded rnd).
  pose proof th_bounds as [Ht1 Ht2].
  assert (Hth : 0 < timestep_hours_rounded rnd) by nra.
  destruct (Rltb_spec 0 requestedPower) as [Hd | Hd].
  - (* discharge *)
    fold (to_power rnd (Battery.e_kwh params) (soc - reserve)).
    set (maxDischarge := Math_min (Battery.p_dis_kw params) (to_power rnd (Battery.e_kwh params) (soc - reserve))).
    set (powerOutput := Math_min requestedPower (Math_max 0 maxDischarge)).
    fold (to_fraction rnd (Battery.e_kwh params) powerOutput).
    assert (Hout : 0 <= powerOutput <= requestedPower
                   /\ powerOutput <= Math_max 0 (Battery.p_dis_kw params)
                   /\ powerOutput <= Math_max 0 (to_power rnd (Battery.e_kwh params) (soc - reserve))).
    { unfold powerOutput, maxDischarge. minmax; lra. }
    destruct Hout as (Ho1 & Ho2 & Ho3).
    assert (Hfrac : 0 <= to_fraction rnd (Battery.e_kwh params) powerOutput
                    /\ (reserve <= soc ->
                        to_fraction rnd (Battery.e_kwh params) powerOutput <= (soc - reserve) * (1 + 8 * u))
                    /\ (soc <= reserve -> to_fraction rnd (Battery.e_kwh params) powerOutput = 0)).
    { destruct (Rle_dec reserve soc) as [Hge | Hlt].
      - assert (Hp : 0 <= powerOutput <= to_power rnd (Battery.e_kwh params) (soc - reserve)).
        { split; [lra | ].
          assert (0 <= to_power rnd (Battery.e_kwh params) (soc - reserve)).
          { unfold to_power. repeat apply rnd_sign_pos.
            apply Rmult_le_pos; [ | left; apply Rinv_0_lt_compat; assumption].
            apply rnd_sign_pos.
            apply Rmult_le_pos; [ | lra].
            apply rnd_sign_pos. lra. }
          revert Ho3. minmax; lra. }
        pose proof (round_trip_pos
                      (soc - reserve) powerOutput ltac:(lra) Hp) as [F1 F2].
        split; [exact F1 | ]. split; [intros _; exact F2 | ].
        intros Hle. assert (soc - reserve = 0) as Hz by lra.
        rewrite Hz in F2. lra.
      - assert (Hneg : to_power rnd (Battery.e_kwh params) (soc - reserve) <= 0).
        { unfold to_power. apply rnd_sign_neg.
          assert (Hx : rnd (rnd (soc - reserve) * Battery.e_kwh params) <= 0).
          { apply rnd_sign_neg.
            assert (rnd (soc - reserve) <= 0)
              by (apply rnd_sign_neg; lra).
            nra. }
          assert (0 <= - rnd (rnd (soc - reserve) * Battery.e_kwh params) / timestep_hours_rounded rnd).
          { apply Rmult_le_pos; [lra | left; apply Rinv_0_lt_compat; assumption]. }
          replace (rnd (rnd (soc - reserve) * Battery.e_kwh params) / timestep_hours_rounded rnd)
            with (- (- rnd (rnd (soc - reserve) * Battery.e_kwh params) / timestep_hours_rounded rnd)) by (field; lra).
          lra. }
        assert (Hz : powerOutput = 0).
        { revert Ho3. minmax; lra. }
        assert (Hf : to_fraction rnd (Battery.e_kwh params) powerOutput = 0).
        { unfold to_fraction. rewrite Hz, Rmult_0_l.
          rewrite rnd_zero.
          replace (0 / Battery.e_kwh params) with 0 by (field; lra).
          apply rnd_zero. }
        rewrite Hf. split; [lra | ]. split; [intros; lra | reflexivity]. }
    destruct Hfrac as (F0 & F1 & F2).
    assert (Hle : rnd (soc - to_fraction rnd (Battery.e_kwh params) powerOutput) <= soc).
    { apply Rle_trans with (rnd soc); [apply rnd_monotone; lra | rewrite Hrep; lra]. }
    split; [ | split; [intros _; repeat split; lra | intros; lra]].
    split; [apply rnd_idempotent | ].
    split; [ | lra].
    destruct (Rle_dec reserve soc) as [Hge | Hlt].
    + specialize (F1 Hge).
      set (x := soc - to_fraction rnd (Battery.e_kwh params) powerOutput) in *.
      assert (Hx1 : reserve - 8 * u * (soc - reserve) <= x) by (unfold x; nra).
      assert (Hx2 : x <= soc) by (unfold x; lra).
      pose proof (rnd_error x) as Herr. apply Rabs_le_bounds in Herr.
      assert (Habs : Rabs x <= 1 + 10 * u).
      { apply Rabs_le. split; [ | lra]. nra. }
      nra.
    + rewrite F2 by lra. rewrite Rminus_0_r, Hrep. lra.
  - destruct (Rltb_spec requestedPower 0) as [Hc | Hc].
    + (* charge *)
      fold (to_power rnd (Battery.e_kwh params) (1 - soc)).
      set (maxCharge := Math_min (Battery.p_ch_kw params) (to_power rnd (Battery.e_kwh params) (1 - soc))).
      set (chargeRate := Math_min (- requestedPower) maxCharge).
      fold (to_fraction rnd (Battery.e_kwh params) chargeRate).
      assert (Hrate : chargeRate <= - requestedPower
                      /\ chargeRate <= Battery.p_ch_kw params
                      /\ chargeRate <= to_power rnd (Battery.e_kwh params) (1 - soc)).
      { unfold chargeRate, maxCharge. minmax; lra. }
      destruct Hrate as (Hr1 & Hr2 & Hr3).
      split; [ | split; [intros; lra | ]].
      2:{ intros _. split; [lra | ]. split; [lra | ].
          intros Hfull.
          assert (Hp0 : 0 <= to_power rnd (Battery.e_kwh params) (1 - soc)).
          { unfold to_power. repeat apply rnd_sign_pos.
            apply Rmult_le_pos; [ | left; apply Rinv_0_lt_compat; assumption].
            apply rnd_sign_pos.
            apply Rmult_le_pos; [ | lra].
            apply rnd_sign_pos. lra. }
          assert (Hc0 : 0 <= chargeRate).
          { unfold chargeRate, maxCharge. minmax; lra. }
          pose proof (round_trip_pos
                        (1 - soc) chargeRate ltac:(lra) (conj Hc0 Hr3)) as [F1 _].
          apply Rle_trans with (rnd soc); [rewrite Hrep; lra | apply rnd_monotone; lra]. }
      split; [apply rnd_idempotent | ].
      destruct (Rle_dec soc 1) as [Hfull | Hover].
      * assert (Hp0 : 0 <= to_power rnd (Battery.e_kwh params) (1 - soc)).
        { unfold to_power. repeat apply rnd_sign_pos.
          apply Rmult_le_pos; [ | left; apply Rinv_0_lt_compat; assumption].
          apply rnd_sign_pos.
          apply Rmult_le_pos; [ | lra].
          apply rnd_sign_pos. lra. }
        assert (Hc0 : 0 <= chargeRate).
        { unfold chargeRate, maxCharge. minmax; lra. }
        pose proof (round_trip_pos
                      (1 - soc) chargeRate ltac:(lra) (conj Hc0 Hr3)) as [F1 F2].
        set (x := soc + to_fraction rnd (Battery.e_kwh params) chargeRate) in *.
        assert (Hlow : soc <= rnd x).
        { apply Rle_trans with (rnd soc);
            [rewrite Hrep; lra | apply rnd_monotone; unfold x; lra]. }
        split; [lra | ].
        assert (Hx2 : x <= 1 + 8 * u * (1 - soc)) by (unfold x; nra).
        assert (Hx1 : soc <= x) by (unfold x; lra).
        pose proof (rnd_error x) as Herr. apply Rabs_le_bounds in Herr.
        assert (Habs : Rabs x <= 1 + 10 * u).
        { apply Rabs_le. split; [ | nra]. nra. }
        nra.
      * assert (Hover' : 1 - soc <= 0) by lra.
        assert (Hneg : to_power rnd (Battery.e_kwh params) (1 - soc) <= 0).
        { unfold to_power. apply rnd_sign_neg.
          assert (Hx : rnd (rnd (1 - soc) * Battery.e_kwh params) <= 0).
          { apply rnd_sign_neg.
            assert (rnd (1 - soc) <= 0)
              by (apply rnd_sign_neg; lra).
            nra. }
          assert (0 <= - rnd (rnd (1 - soc) * Battery.e_kwh params) / timestep_hours_rounded rnd).
          { apply Rmult_le_pos; [lra | left; apply Rinv_0_lt_compat; assumption]. }
          replace (rnd (rnd (1 - soc) * Battery.e_kwh params) / timestep_hours_rounded rnd)
            with (- (- rnd (rnd (1 - soc) * Battery.e_kwh params) / timestep_hours_rounded rnd)) by (field; lra).
          lra. }
        assert (Heq : chargeRate = to_power rnd (Battery.e_kwh params) (1 - soc)).
        { unfold chargeRate, maxCharge. minmax; lra. }
        pose proof (round_trip_neg
                      (1 - soc) chargeRate Hover' ltac:(lra)) as [F1 F2].
        set (x := soc + to_fraction rnd (Battery.e_kwh params) chargeRate) in *.
        assert (Hup : rnd x <= soc).
        { apply Rle_trans with (rnd soc);
            [apply rnd_monotone; unfold x; lra | rewrite Hrep; lra]. }
        split; [ | lra].
        assert (Hx1 : 1 - 8 * u * (soc - 1) <= x) by (unfold x; nra).
        assert (Hx2 : x <= soc) by (unfold x; lra).
        pose proof (rnd_error x) as Herr. apply Rabs_le_bounds in Herr.
        assert (Habs : Rabs x <= 1 + 10 * u).
        { apply Rabs_le. split; [ | lra]. nra. }
        nra.
    + split; [split; [exact Hrep | exact Hsoc] | ]. split; intros; lra.
Qed.

End RoundedBattery.

Lemma battery_step_rounded_within (rnd : R -> R) (u : R) (asset : Battery.BatteryResi)
    (command : option Battery.BatteryCommand) (config : ScenarioConfig) (g : Rng) :
  0 <= u <= / 100 -> rounding rnd u ->
  0 < Battery.e_kwh (Battery.params asset) ->
  0 <= Battery.p_ch_kw (Battery.params asset) ->
  0 <= Battery.soc_reserve (Battery.params asset) <= 1 ->
  soc_within rnd u (Battery.params asset) (Battery.soc (Battery.state asset)) ->
  let asset' := fst (fst (updateBatteryResi_rounded rnd asset command config g)) in
  Battery.params asset' = Battery.params asset
  /\ soc_within rnd u (Battery.params asset) (Battery.soc (Battery.state asset')).
Proof.
  intros Hu (Herr & Hmono & Hidem) He Hch Hres Hsoc.
  unfold updateBatteryResi_rounded.
  destruct (Battery.dropped (Battery.state asset)) eqn:Hdrop.
  { simpl. split; [reflexivity | assumption]. }
  destruct command as [c | ].
  - unfold bind, ret, honoured, rollNoncompliance, Math_random,
      updateBaselineDrift_rounded, applyMeasurementNoise_rounded. simpl.
    destruct (g 0%nat <? probability (noncompliance config)).
    + simpl. split; [reflexivity | assumption].
    + pose proof (battery_apply_rounded_within rnd u Hu Herr Hmono Hidem
                    (Battery.params asset) He Hch Hres
                    (Battery.soc (Battery.state asset)) (Battery.power_kw c) Hsoc) as Hb.
      destruct (battery_apply_rounded rnd (Battery.params asset)
                  (Battery.soc (Battery.state asset)) (Battery.power_kw c)) as [out soc'].
      simpl. split; [reflexivity | apply Hb].
  - unfold bind, ret, honoured, Math_random,
      updateBaselineDrift_rounded, applyMeasurementNoise_rounded. simpl.
    split; [reflexivity | assumption].
Qed.

Lemma battery_steps_rounded_within (rnd : R -> R) (u : R)
    (commands : list (option Battery.BatteryCommand)) (config : ScenarioConfig) :
  0 <= u <= / 100 -> rounding rnd u ->
  forall (asset : Battery.BatteryResi) (g : Rng),
  0 < Battery.e_kwh (Battery.params asset) ->
  0 <= Battery.p_ch_kw (Battery.params asset) ->
  0 <= Battery.soc_reserve (Battery.params asset) <= 1 ->
  soc_within rnd u (Battery.params asset) (Battery.soc (Battery.state asset)) ->
  let final := fst (battery_steps_rounded rnd asset commands config g) in
  Battery.params final = Battery.params asset
  /\ soc_within rnd u (Battery.params asset) (Battery.soc (Battery.state final)).
Proof.
  intros Hu Hrnd.
  induction commands as [| c rest IH]; intros asset g He Hch Hres Hsoc.
  - simpl. split; [reflexivity | assumption].
  - simpl. unfold bind.
    pose proof (battery_step_rounded_within rnd u asset c config g Hu Hrnd He Hch Hres Hsoc)
      as (Hp & Hs).
    destruct (updateBatteryResi_rounded rnd asset c config g) as [[a' pd] g'].
    simpl in Hp, Hs. simpl fst.
    specialize (IH a' g'). rewrite Hp in IH.
    destruct (IH He Hch Hres Hs) as [IHp IHs].
    split; [congruence | assumption].
Qed.

(** With a rounding that changes nothing, the rounded model is the model in
    exact arithmetic. *)
Lemma battery_apply_rounded_exact (params : Battery.BatteryResiParams)
    (soc requestedPower : R) :
  battery_apply_rounded (fun x => x) params soc requestedPower
  = battery_apply params soc requestedPower.
Proof. reflexivity. Qed.

Lemma exact_rounding (u : R) : 0 <= u -> rounding (fun x => x) u.
Proof.
  intros Hu. split; [ | split]; [ | intros; assumption | reflexivity].
  intros x. rewrite Rminus_diag, Rabs_R0.
  apply Rmult_le_pos; [assumption | apply Rabs_pos].
Qed.

(** C4, as the source implements it.  For a battery with a positive
    capacity [e_kwh], a maximum charge power [p_ch_kw >= 0] and a reserve
    [soc_reserve >= 0], in arithmetic that rounds every operation with a
    relative error of at most [u] (2^-53 for the doubles of JavaScript): a
    state of charge that starts within [soc_reserve, 1] stays within
    [soc_reserve - 10 u, 1 + 10 u] after every [updateBatteryResi] step,
    whatever the commands and the random outcomes.  In one step a discharge
    delivers at most the request and at most [p_dis_kw] and never raises the
    state of charge, and a charge takes at most the request and at most
    [p_ch_kw] and never lowers the state of charge of a battery that is not
    over-full. *)
Theorem battery_soc_within_reserve_and_full (rnd : R -> R) (u : R)
    (asset : Battery.BatteryResi) (config : ScenarioConfig) :
  0 <= u <= / 100 ->
  rounding rnd u ->
  0 < Battery.e_kwh (Battery.params asset) ->
  0 <= Battery.p_ch_kw (Battery.params asset) ->
  0 <= Battery.soc_reserve (Battery.params asset) ->
  rnd (Battery.soc (Battery.state asset)) = Battery.soc (Battery.state asset) ->
  Battery.soc_reserve (Battery.params asset) <= Battery.soc (Battery.state asset) <= 1 ->
  (forall (commands : list (option Battery.BatteryCommand)) (g : Rng),
     let final := fst (battery_steps_rounded rnd asset commands config g) in
     Battery.soc_reserve (Battery.params final) - 10 * u
     <= Battery.soc (Battery.state final) <= 1 + 10 * u)
  /\ (forall (soc requestedPower : R),
        soc_within rnd u (Battery.params asset) soc ->
        let '(powerOutput, soc') :=
          battery_apply_rounded rnd (Battery.params asset) soc requestedPower in
        soc_within rnd u (Battery.params asset) soc'
        /\ (0 < requestedPower ->
            0 <= powerOutput <= requestedPower
            /\ powerOutput <= Math_max 0 (Battery.p_dis_kw (Battery.params asset))
            /\ soc' <= soc)
        /\ (requestedPower < 0 ->
            - powerOutput <= - requestedPower
            /\ - powerOutput <= Battery.p_ch_kw (Battery.params asset)
            /\ (soc <= 1 -> soc <= soc'))).
Proof.
  intros Hu Hrnd He Hch Hres Hrep Hsoc.
  assert (Hres' : 0 <= Battery.soc_reserve (Battery.params asset) <= 1) by lra.
  assert (Hin : soc_within rnd u (Battery.params asset) (Battery.soc (Battery.state asset))).
  { split; [exact Hrep | lra]. }
  split.
  - intros commands g.
    pose proof (battery_steps_rounded_within rnd u commands config Hu Hrnd asset g
                  He Hch Hres' Hin) as [Hp [_ Hs]].
    simpl. rewrite Hp. exact Hs.
  - intros soc requestedPower Hs.
    destruct Hrnd as (Herr & Hmono & Hidem).
    exact (battery_apply_rounded_within rnd u Hu Herr Hmono Hidem
             (Battery.params asset) He Hch Hres' soc requestedPower Hs).
Qed.

Lemma battery_soc_within_reserve_and_full_witness :
  let final := fst (battery_steps_rounded (fun x => x) sample_battery
                      sample_battery_commands sample_config sample_rng) in
  Battery.soc_reserve (Battery.params final) - 10 * / 1000
  <= Battery.soc (Battery.state final) <= 1 + 10 * / 1000.
Proof.
  refine (proj1 (battery_soc_within_reserve_and_full (fun x => x) (/ 1000)
                   sample_battery sample_config _ _ _ _ _ _ _)
            sample_battery_commands sample_rng);
    try (simpl; lra).
  apply exact_rounding. lra.
Defined.

Lemma sagging_battery_step :
  fst (fst (updateBatteryResi sample_battery_sagging (Some {| Battery.power_kw := -10 |})
              sample_config sample_rng))
  = {| Battery.id := "battery_2";
       Battery.params := Battery.params sample_battery_sagging;
       Battery.state := {| Battery.soc := -0.5; Battery.dropped := false;
                           Battery.baseline_bias := 0; Battery.baseline_drift := 0 |} |}.
Proof.
  unfold updateBatteryResi, battery_apply, sample_rng.
  cbn -[Rltb Rleb Math_min Math_max IZR Rmult Rplus Rminus Rdiv Ropp Rinv TIMESTEP_HOURS].
  run_rand. rewrite TIMESTEP_HOURS_val. eval_R.
  repeat f_equal; lra.
Qed.

(** C4 as stated fails in two ways.  In the double arithmetic of JavaScript
    a discharge limited by the energy above the reserve can end one rounding
    error below the reserve: for [e_kwh = 5], [p_dis_kw = 10],
    [soc_reserve = 0.2] and a request of 10 kW at [soc = 0.34], the state of
    charge becomes 0.19999999999999998.  And a battery whose [p_ch_kw] is
    negative is discharged by a charging command, below any reserve: from
    0.5 to -0.5 for [p_ch_kw = -60]. *)
Lemma battery_soc_leaves_the_range :
  PrimFloat.ltb (snd (battery_apply_double 5 10 5 0.2 0.34 10)) 0.2 = true
  /\ ~ (forall (asset : Battery.BatteryResi) (command : option Battery.BatteryCommand)
               (config : ScenarioConfig) (g : Rng),
          Battery.soc_reserve (Battery.params asset)
          <= Battery.soc (Battery.state asset) <= 1 ->
          let next := fst (fst (updateBatteryResi asset command config g)) in
          Battery.soc_reserve (Battery.params next)
          <= Battery.soc (Battery.state next) <= 1).
Proof.
  split; [reflexivity | ].
  intros H.
  specialize (H sample_battery_sagging (Some {| Battery.power_kw := -10 |})
                sample_config sample_rng).
  cbv zeta in H. rewrite sagging_battery_step in H. simpl in H. lra.
Qed.

(** ** C&I building: fatigue and the drop flag *)

Lemma ci_step_props (asset : Ci.CiBuilding) (command : option CiCmd.CiBuildingCommand)
    (t : Z) (startHour : R) (config : ScenarioConfig) (g : Rng) :
  let next := fst (fst (updateCiBuilding asset command t startHour config g)) in
  (0 <= Ci.fatigue (Ci.state asset) -> 0 <= Ci.fatigue (Ci.state next))
  /\ (Ci.dropped (Ci.state asset) = false -> 0 <= Ci.fatigue (Ci.state next))
  /\ (2 < Ci.fatigue (Ci.state next) -> Ci.dropped (Ci.state next) = true)
  /\ (Ci.dropped (Ci.state asset) = true -> Ci.dropped (Ci.state next) = true).
Proof.
  intros next.
  remember (updateCiBuilding asset command t startHour config g) as r eqn:Hr.
  unfold updateCiBuilding in Hr.
  destruct (Ci.dropped (Ci.state asset)) eqn:Hdrop.
  { run_rand. subst r next. simpl. rewrite Hdrop. repeat split; auto; discriminate. }
  unfold bind at 1 in Hr.
  destruct (honoured command config g) as [applied g1].
  match type of Hr with
  | context [if ?f >? 2 then _ else _] =>
      set (fatigue' := f) in Hr; destruct (Rltb_spec 2 fatigue') as [Hhigh | Hlow]
  end;
    assert (0 <= fatigue') by (unfold fatigue'; apply Math_max_ge_l);
    run_rand; subst r next; simpl.
  - repeat split; intros; try reflexivity; assumption.
  - repeat split; intros; try assumption; try lra; discriminate.
Qed.

Lemma ci_step_recursion (asset : Ci.CiBuilding) (command : option CiCmd.CiBuildingCommand)
    (t : Z) (startHour : R) (config : ScenarioConfig) (g : Rng) :
  Ci.dropped (Ci.state asset) = false ->
  let next := fst (fst (updateCiBuilding asset command t startHour config g)) in
  let shed := Ci.hvac_shed_kw (Ci.state next) in
  shed <= Ci.smax_hvac_kw (Ci.params asset)
          * Math_exp (- Ci.fatigue_k (Ci.params asset) * Ci.fatigue (Ci.state asset))
  /\ Ci.fatigue (Ci.state next)
     = Math_max 0 (Ci.fatigue (Ci.state asset)
                   + Ci.fatigue_a (Ci.params asset) * (shed / Ci.smax_hvac_kw (Ci.params asset))
                   - Ci.fatigue_b (Ci.params asset)
                     * (1 - shed / Ci.smax_hvac_kw (Ci.params asset))).
Proof.
  intros Hdrop next shed.
  remember (updateCiBuilding asset command t startHour config g) as r eqn:Hr.
  unfold updateCiBuilding in Hr. rewrite Hdrop in Hr.
  unfold bind at 1 in Hr.
  destruct (honoured command config g) as [applied g1].
  match type of Hr with
  | context [if ?f >? 2 then _ else _] => destruct (f >? 2)
  end; run_rand; subst r shed next; simpl; (split; [apply Rmin_r | reflexivity]).
Qed.

Lemma ci_steps_params (commands : list (option CiCmd.CiBuildingCommand))
    (startHour : R) (config : ScenarioConfig) :
  forall (asset : Ci.CiBuilding) (t : Z) (g : Rng),
  Ci.params (fst (ci_steps asset commands t startHour config g)) = Ci.params asset.
Proof.
  induction commands as [| c rest IH]; intros asset t g; simpl; [reflexivity | ].
  unfold bind.
  assert (Hp : Ci.params (fst (fst (updateCiBuilding asset c t startHour config g)))
               = Ci.params asset).
  { unfold updateCiBuilding.
    destruct (Ci.dropped (Ci.state asset)); [reflexivity | ].
    unfold bind at 1. destruct (honoured c config g) as [applied g1].
    match goal with |- context [if ?f >? 2 then _ else _] => destruct (f >? 2) end;
      run_rand; reflexivity. }
  destruct (updateCiBuilding asset c t startHour config g) as [[a' pd] g'].
  simpl in Hp. simpl. rewrite IH. exact Hp.
Qed.

Lemma ci_steps_dropped (commands : list (option CiCmd.CiBuildingCommand))
    (startHour : R) (config : ScenarioConfig) :
  forall (asset : Ci.CiBuilding) (t : Z) (g : Rng),
  Ci.dropped (Ci.state asset) = true ->
  Ci.dropped (Ci.state (fst (ci_steps asset commands t startHour config g))) = true.
Proof.
  induction commands as [| c rest IH]; intros asset t g Hd; simpl.
  - assumption.
  - unfold bind.
    pose proof (ci_step_props asset c t startHour config g) as (_ & _ & _ & Hkeep).
    destruct (updateCiBuilding asset c t startHour config g) as [[a' pd] g'].
    apply IH. apply Hkeep. assumption.
Qed.

Lemma ci_steps_fatigue (commands : list (option CiCmd.CiBuildingCommand))
    (startHour : R) (config : ScenarioConfig) :
  forall (asset : Ci.CiBuilding) (t : Z) (g : Rng),
  0 <= Ci.fatigue (Ci.state asset) ->
  0 <= Ci.fatigue (Ci.state (fst (ci_steps asset commands t startHour config g))).
Proof.
  induction commands as [| c rest IH]; intros asset t g Hf; simpl.
  - assumption.
  - unfold bind.
    pose proof (ci_step_props asset c t startHour config g) as (Hnn & _).
    destruct (updateCiBuilding asset c t startHour config g) as [[a' pd] g'].
    apply IH. apply Hnn. assumption.
Qed.

(** C5, as the source implements it.  For a C&I building whose
    [smax_hvac_kw] is not 0 and whose fatigue starts at a value >= 0: after
    any number of updates the fatigue is >= 0; each further update of a
    building that has not dropped stores the shed of the tick, which is at
    most the fatigue-limited capacity, and sets the fatigue to
    [max 0 (f + a * shedRatio - b * (1 - shedRatio))], where [shedRatio] is
    that shed over [smax_hvac_kw]; and whenever the fatigue after an update
    exceeds 2 the building is dropped, and stays dropped over all subsequent
    ticks. *)
Theorem ci_fatigue_floor_and_permanent_drop (asset : Ci.CiBuilding)
    (startHour : R) (config : ScenarioConfig) :
  Ci.smax_hvac_kw (Ci.params asset) <> 0 ->
  0 <= Ci.fatigue (Ci.state asset) ->
  forall (commands : list (option CiCmd.CiBuildingCommand)) (t : Z) (g : Rng),
  let current := fst (ci_steps asset commands t startHour config g) in
  Ci.smax_hvac_kw (Ci.params current) <> 0
  /\ 0 <= Ci.fatigue (Ci.state current)
  /\ forall (c : option CiCmd.CiBuildingCommand) (t' : Z) (g' : Rng),
     let next := fst (fst (updateCiBuilding current c t' startHour config g')) in
     let shedRatio := Ci.hvac_shed_kw (Ci.state next) / Ci.smax_hvac_kw (Ci.params current) in
     0 <= Ci.fatigue (Ci.state next)
     /\ (Ci.dropped (Ci.state current) = false ->
         Ci.hvac_shed_kw (Ci.state next)
         <= Ci.smax_hvac_kw (Ci.params current)
            * Math_exp (- Ci.fatigue_k (Ci.params current) * Ci.fatigue (Ci.state current))
         /\ Ci.fatigue (Ci.state next)
            = Math_max 0
                (Ci.fatigue (Ci.state current)
                 + Ci.fatigue_a (Ci.params current) * shedRatio
                 - Ci.fatigue_b (Ci.params current) * (1 - shedRatio)))
     /\ (2 < Ci.fatigue (Ci.state next) ->
         Ci.dropped (Ci.state next) = true
         /\ forall (later : list (option CiCmd.CiBuildingCommand)) (t'' : Z) (g'' : Rng),
            Ci.dropped (Ci.state (fst (ci_steps next later t'' startHour config g''))) = true).
Proof.
  intros Hsmax Hf commands t g current.
  assert (Hcur : 0 <= Ci.fatigue (Ci.state current))
    by (apply ci_steps_fatigue; assumption).
  split.
  { unfold current. rewrite ci_steps_params. exact Hsmax. }
  split; [assumption | ].
  intros c t' g' next shedRatio.
  pose proof (ci_step_props current c t' startHour config g') as (Hnn & _ & Hhigh & _).
  fold next in Hnn, Hhigh.
  split; [auto | ]. split.
  - intros Hnd.
    exact (ci_step_recursion current c t' startHour config g' Hnd).
  - intros H2. split; [auto | ].
    intros later t'' g''. apply ci_steps_dropped. auto.
Qed.

Lemma ci_fatigue_floor_and_permanent_drop_witness :
  let current := fst (ci_steps sample_ci sample_ci_commands 0 14 sample_config sample_rng) in
  Ci.smax_hvac_kw (Ci.params current) <> 0
  /\ 0 <= Ci.fatigue (Ci.state current).
Proof.
  pose proof (ci_fatigue_floor_and_permanent_drop sample_ci 14 sample_config
                ltac:(simpl; lra) ltac:(simpl; lra) sample_ci_commands 0%Z sample_rng) as H.
  split; [exact (proj1 H) | exact (proj1 (proj2 H))].
Defined.

(** C5 as stated fails in two ways.  For a building whose [smax_hvac_kw] is
    0 the shed ratio of a tick without shed is 0 / 0: in the double
    arithmetic of JavaScript the fatigue becomes [NaN], which is neither
    >= 0 nor > 2, so the floor does not hold and the building never drops.
    And the update returns a building that has already dropped as it is,
    with whatever fatigue it has on record, be it negative. *)
Lemma ci_fatigue_not_floored :
  (let fatigue' := ci_fatigue_double 0 0.2 0.1 0 0 in
   PrimFloat.is_nan fatigue' = true
   /\ PrimFloat.leb 0 fatigue' = false
   /\ PrimFloat.ltb 2 fatigue' = false)
  /\ Ci.fatigue (Ci.state (fst (fst (updateCiBuilding sample_ci_dropped None 0 14
                                       sample_config sample_rng)))) < 0.
Proof.
  split; [repeat split; reflexivity | ].
  simpl. lra.
Qed.

(** ** EV: deadline override and departure *)

Lemma ev_override_step (asset : Ev.EvResi) (command : option Ev.EvCommand)
    (t : Z) (config : ScenarioConfig) (g : Rng) :
  Ev.dropped (Ev.state asset) = false ->
  (Ev.plugged (Ev.state asset) = true \/ (Ev.t_arrival (Ev.params asset) <= t)%Z) ->
  (t < Ev.t_depart (Ev.params asset))%Z ->
  (Ev.override_active (Ev.state asset) = true
   \/ (0 < Ev.e_req_kwh (Ev.params asset) - Ev.e_kwh (Ev.state asset)
       /\ Ev.p_max_kw (Ev.params asset) * IZR (Ev.t_depart (Ev.params asset) - t)
          * TIMESTEP_HOURS
          <= (Ev.e_req_kwh (Ev.params asset) - Ev.e_kwh (Ev.state asset)) * 1.1)) ->
  updateEvResi asset command t config g = ev_override_result asset config g.
Proof.
  intros Hdrop Hplug Ht Hover.
  unfold updateEvResi, ev_override_result. rewrite Hdrop.
  assert (Hdep : (Ev.t_depart (Ev.params asset) <=? t)%Z = false) by (apply Z.leb_gt; lia).
  rewrite Hdep.
  assert (Hp1 : (if (Ev.t_arrival (Ev.params asset) <=? t)%Z && negb (Ev.plugged (Ev.state asset))
                 then true else Ev.plugged (Ev.state asset)) = true).
  { destruct (Ev.plugged (Ev.state asset)) eqn:Hp.
    - destruct (Ev.t_arrival (Ev.params asset) <=? t)%Z; reflexivity.
    - destruct Hplug as [Hc | Ha]; [discriminate | ].
      apply Z.leb_le in Ha. rewrite Ha. reflexivity. }
  rewrite Hp1. simpl negb. cbv iota.
  assert (Hov : (if (Ev.e_req_kwh (Ev.params asset) - Ev.e_kwh (Ev.state asset) >? 0)
                    && (Ev.p_max_kw (Ev.params asset)
                        * IZR (Ev.t_depart (Ev.params asset) - t) * TIMESTEP_HOURS
                        <=? (Ev.e_req_kwh (Ev.params asset) - Ev.e_kwh (Ev.state asset)) * 1.1)
                 then true else Ev.override_active (Ev.state asset)) = true).
  { destruct Hover as [Ho | [Hrem Hmax]].
    - rewrite Ho.
      match goal with |- (if ?b then true else true) = true => destruct b; reflexivity end.
    - rewrite (Rltb_true _ _ Hrem), (Rleb_true _ _ Hmax). reflexivity. }
  rewrite Hov. unfold ev_chargePower. run_rand. reflexivity.
Qed.

Lemma ev_step_override_kept (asset : Ev.EvResi) (command : option Ev.EvCommand)
    (t : Z) (config : ScenarioConfig) (g : Rng) :
  Ev.override_active (Ev.state asset) = true ->
  Ev.override_active (Ev.state (fst (fst (updateEvResi asset command t config g)))) = true.
Proof.
  intros Ho. unfold updateEvResi.
  destruct (Ev.dropped (Ev.state asset)); [exact Ho | ].
  destruct (Ev.t_depart (Ev.params asset) <=? t)%Z; [exact Ho | ].
  match goal with |- context [if negb ?b then _ else _] => destruct b end;
    [ | exact Ho].
  simpl negb. cbv iota. rewrite Ho.
  match goal with |- context [if ?b then true else true] =>
    replace (if b then true else true) with true by (destruct b; reflexivity) end.
  unfold ev_chargePower. run_rand. reflexivity.
Qed.

Lemma ev_steps_override_kept (commands : list (option Ev.EvCommand)) (config : ScenarioConfig) :
  forall (asset : Ev.EvResi) (t : Z) (g : Rng),
  Ev.override_active (Ev.state asset) = true ->
  Ev.override_active (Ev.state (fst (ev_steps asset commands t config g))) = true.
Proof.
  induction commands as [| c rest IH]; intros asset t g Ho; simpl.
  - assumption.
  - unfold bind.
    pose proof (ev_step_override_kept asset c t config g Ho) as Hk.
    destruct (updateEvResi asset c t config g) as [[a' pd] g'].
    apply IH. exact Hk.
Qed.

Lemma ev_step_gone (asset : Ev.EvResi) (command : option Ev.EvCommand)
    (t : Z) (config : ScenarioConfig) (g : Rng) :
  ev_gone asset -> fst (fst (updateEvResi asset command t config g)) = asset.
Proof.
  intros [Hd Hp]. unfold updateEvResi. rewrite Hd. reflexivity.
Qed.

Lemma ev_steps_gone (commands : list (option Ev.EvCommand)) (config : ScenarioConfig) :
  forall (asset : Ev.EvResi) (t : Z) (g : Rng),
  ev_gone asset -> fst (ev_steps asset commands t config g) = asset.
Proof.
  induction commands as [| c rest IH]; intros asset t g Hg; simpl.
  - reflexivity.
  - unfold bind.
    pose proof (ev_step_gone asset c t config g Hg) as Hk.
    destruct (updateEvResi asset c t config g) as [[a' pd] g'].
    simpl in Hk. subst a'. apply IH. exact Hg.
Qed.

Lemma ev_step_departure (asset : Ev.EvResi) (command : option Ev.EvCommand)
    (t : Z) (config : ScenarioConfig) (g : Rng) :
  Ev.dropped (Ev.state asset) = false ->
  (Ev.t_depart (Ev.params asset) <= t)%Z ->
  ev_gone (fst (fst (updateEvResi asset command t config g))).
Proof.
  intros Hd Ht. unfold updateEvResi. rewrite Hd.
  apply Z.leb_le in Ht. rewrite Ht. split; reflexivity.
Qed.

Lemma ev_override_result_fields (asset : Ev.EvResi) (config : ScenarioConfig) (g : Rng) :
  let next := fst (fst (ev_override_result asset config g)) in
  Ev.override_active (Ev.state next) = true
  /\ Ev.e_kwh (Ev.state next)
     = Math_min (Ev.e_kwh (Ev.state asset) + Ev.p_max_kw (Ev.params asset) * TIMESTEP_HOURS)
                (Ev.e_capacity_kwh (Ev.params asset)).
Proof. unfold ev_override_result. run_rand. split; reflexivity. Qed.

Lemma deadline_condition_triggers (p rem : R) (n : Z) :
  0 < p -> (0 < n)%Z -> IZR n * p <= 1.1 * rem ->
  0 < rem /\ p * IZR n * TIMESTEP_HOURS <= rem * 1.1.
Proof.
  intros Hp Hn Hc. rewrite TIMESTEP_HOURS_val.
  assert (1 <= IZR n) by (apply IZR_le; lia).
  assert (0 < IZR n * p) by nra.
  split; nra.
Qed.

(** C3, as the source implements it.  For an EV that has not dropped and
    whose charger has a positive maximum rate:
    - at a tick before departure at which the EV is on site (already plugged,
      or arrived), once [(t_depart - t) * p_max_kw <= 1.1 * (e_req - e_kwh)]
      holds the update sets [override_active], charges at [p_max_kw] and
      ignores the command, and the flag stays set over all later ticks;
    - whenever [override_active] is set and the EV is on site before its
      departure, the update charges at [p_max_kw] whatever the command;
    - the update at any tick [t >= t_depart] leaves the EV dropped and
      unplugged, and no later update changes it. *)
Theorem ev_override_when_on_site_and_departure (asset : Ev.EvResi) (config : ScenarioConfig) :
  0 < Ev.p_max_kw (Ev.params asset) ->
  Ev.dropped (Ev.state asset) = false ->
  (forall (command : option Ev.EvCommand) (t : Z) (g : Rng),
     Ev.plugged (Ev.state asset) = true \/ (Ev.t_arrival (Ev.params asset) <= t)%Z ->
     (t < Ev.t_depart (Ev.params asset))%Z ->
     IZR (Ev.t_depart (Ev.params asset) - t) * Ev.p_max_kw (Ev.params asset)
     <= 1.1 * (Ev.e_req_kwh (Ev.params asset) - Ev.e_kwh (Ev.state asset)) ->
     let next := fst (fst (updateEvResi asset command t config g)) in
     Ev.override_active (Ev.state next) = true
     /\ Ev.e_kwh (Ev.state next)
        = Math_min (Ev.e_kwh (Ev.state asset) + Ev.p_max_kw (Ev.params asset) * TIMESTEP_HOURS)
                   (Ev.e_capacity_kwh (Ev.params asset))
     /\ updateEvResi asset command t config g = updateEvResi asset None t config g
     /\ forall (later : list (option Ev.EvCommand)) (t' : Z) (g' : Rng),
        Ev.override_active (Ev.state (fst (ev_steps next later t' config g'))) = true)
  /\ (forall (command : option Ev.EvCommand) (t : Z) (g : Rng),
       Ev.override_active (Ev.state asset) = true ->
       Ev.plugged (Ev.state asset) = true \/ (Ev.t_arrival (Ev.params asset) <= t)%Z ->
       (t < Ev.t_depart (Ev.params asset))%Z ->
       let next := fst (fst (updateEvResi asset command t config g)) in
       Ev.e_kwh (Ev.state next)
       = Math_min (Ev.e_kwh (Ev.state asset) + Ev.p_max_kw (Ev.params asset) * TIMESTEP_HOURS)
                  (Ev.e_capacity_kwh (Ev.params asset))
       /\ updateEvResi asset command t config g = updateEvResi asset None t config g)
  /\ (forall (command : option Ev.EvCommand) (t : Z) (g : Rng),
       (Ev.t_depart (Ev.params asset) <= t)%Z ->
       let next := fst (fst (updateEvResi asset command t config g)) in
       Ev.dropped (Ev.state next) = true
       /\ Ev.plugged (Ev.state next) = false
       /\ forall (later : list (option Ev.EvCommand)) (t' : Z) (g' : Rng),
          fst (ev_steps next later t' config g') = next).
Proof.
  intros Hp Hdrop. split; [ | split].
  - intros command t g Hsite Ht Hcond next.
    assert (Hn : (0 < Ev.t_depart (Ev.params asset) - t)%Z) by lia.
    destruct (deadline_condition_triggers _ _ _ Hp Hn Hcond) as [Hrem Hmax].
    assert (Hstep : forall c, updateEvResi asset c t config g = ev_override_result asset config g).
    { intros c. apply ev_override_step; auto. }
    pose proof (ev_override_result_fields asset config g) as [Ho He].
    unfold next. rewrite !Hstep. repeat split; auto.
    intros later t' g'. apply ev_steps_override_kept. exact Ho.
  - intros command t g Hover Hsite Ht next.
    assert (Hstep : forall c, updateEvResi asset c t config g = ev_override_result asset config g).
    { intros c. apply ev_override_step; auto. }
    pose proof (ev_override_result_fields asset config g) as [Ho He].
    unfold next. rewrite !Hstep. split; auto.
  - intros command t g Ht next.
    pose proof (ev_step_departure asset command t config g Hdrop Ht) as Hgone.
    fold next in Hgone. destruct Hgone as [Hd Hpl]. repeat split; auto.
    intros later t' g'. apply ev_steps_gone. split; assumption.
Qed.

Lemma ev_override_when_on_site_and_departure_witness :
  let next := fst (fst (updateEvResi sample_ev_home None 0 sample_config sample_rng)) in
  Ev.override_active (Ev.state next) = true.
Proof.
  refine (proj1 (proj1 (ev_override_when_on_site_and_departure sample_ev_home sample_config
                          _ _) None 0%Z sample_rng _ _ _)); simpl;
    try lra; try lia; auto.
  change (5 - 0)%Z with 5%Z. lra.
Defined.

(** C3 as stated fails before the arrival of the EV: at tick 0 the deadline
    condition holds for [sample_ev_away], which arrives at tick 3, and the
    update leaves [override_active] unset. *)
Lemma ev_override_not_set_before_arrival :
  ~ (forall (asset : Ev.EvResi) (command : option Ev.EvCommand) (t : Z)
            (config : ScenarioConfig) (g : Rng),
       Ev.dropped (Ev.state asset) = false ->
       (t < Ev.t_depart (Ev.params asset))%Z ->
       IZR (Ev.t_depart (Ev.params asset) - t) * Ev.p_max_kw (Ev.params asset)
       <= 1.1 * (Ev.e_req_kwh (Ev.params asset) - Ev.e_kwh (Ev.state asset)) ->
       Ev.override_active
         (Ev.state (fst (fst (updateEvResi asset command t config g)))) = true).
Proof.
  intros H.
  specialize (H sample_ev_away None 0%Z sample_config sample_rng).
  simpl in H.
  assert (Hfalse : false = true)
    by (apply H; [reflexivity | lia | change (5 - 0)%Z with 5%Z; lra]).
  discriminate.
Qed.

(** ** The power delta of every asset model is >= 0 *)





Lemma fleet_plug_succeeds (vehicles : list Fleet.FleetVehicle) (t : Z) :
  forall vs : gmap string Fleet.FleetVehicleState,
  Forall (fun v => is_Some (vs !! Fleet.vid v)) vehicles ->
  is_Some (fleet_plug vehicles t vs).
Proof.
  induction vehicles as [| v rest IH]; intros vs Hall; simpl.
  - eauto.
  - inversion Hall as [| ? ? [s Hs] Hrest]; subst. rewrite Hs.
    apply IH. eapply Forall_impl; [exact Hrest | ].
    intros w Hw. simpl in Hw. apply lookup_insert_is_Some.
    destruct (decide (Fleet.vid v = Fleet.vid w)); [left | right]; auto.
Qed.


Lemma lift_result_eq {A : Type} (inj : A -> Asset) (m : Rand (A * R)) (g : Rng) :
  lift_result inj m g = Some (Updated (inj (fst (fst (m g)))) (snd (fst (m g))), snd (m g)).
Proof. unfold lift_result. destruct (m g) as [[a p] g']. reflexivity. Qed.

(** A result of a model that was handed a command it cannot read: the
    asset as it was for a dropped asset, the result of the update without
    command when the roll refuses the command, not a number otherwise. *)
Lemma unreadable_command_cases {A : Type} (inj : A -> Asset) (asset : A) (dropped : bool)
    (drift : R) (config : ScenarioConfig) (uncommanded : Rand (A * R)) (g : Rng) :
  exists (r : UpdateResult) (g' : Rng),
    unreadable_command inj asset dropped drift config uncommanded g = Some (r, g')
    /\ ((dropped = true /\ r = Updated (inj asset) 0 /\ g' = g)
        \/ (dropped = false
            /\ exists g1 : Rng,
                 r = Updated (inj (fst (fst (uncommanded g1)))) (snd (fst (uncommanded g1))))
        \/ (dropped = false /\ r = NotNumeric (inj asset))).
Proof.
  unfold unreadable_command.
  destruct dropped; [eauto 10 | ].
  destruct (rollNoncompliance (probability (noncompliance config)) g) as [refused g1].
  destruct refused.
  - rewrite lift_result_eq. eauto 10.
  - unfold not_numeric. run_rand. eauto 10.
Qed.

Lemma fleet_update_returns (asset : Fleet.FleetSite) (command : option Fleet.FleetCommand)
    (t : Z) (config : ScenarioConfig) (g : Rng) :
  vehicle_states_present (AFleet asset) ->
  is_Some (updateFleetSite asset command t config g).
Proof.
  intros Hpresent. unfold updateFleetSite.
  destruct (Fleet.dropped (Fleet.state asset)); [eauto | ].
  destruct (fleet_plug_succeeds (Fleet.vehicles (Fleet.params asset)) t
              (Fleet.vehicle_state (Fleet.state asset)) Hpresent) as [vs1 Hvs].
  rewrite Hvs. eauto.
Qed.

Lemma fleet_unreadable_cases (asset : Fleet.FleetSite) (t : Z) (config : ScenarioConfig)
    (g : Rng) (r : UpdateResult) (g' : Rng) :
  updateFleetSite_unreadable asset t config g = Some (r, g') ->
  (Fleet.dropped (Fleet.state asset) = true /\ r = Updated (AFleet asset) 0 /\ g' = g)
  \/ (Fleet.dropped (Fleet.state asset) = false
      /\ exists (g1 g2 : Rng) (r1 : Fleet.FleetSite * R),
           updateFleetSite asset None t config g1 = Some (r1, g2)
           /\ r = Updated (AFleet (fst r1)) (snd r1))
  \/ (Fleet.dropped (Fleet.state asset) = false /\ r = NotNumeric (AFleet asset)).
Proof.
  unfold updateFleetSite_unreadable.
  destruct (Fleet.dropped (Fleet.state asset)) eqn:Hd.
  { intros [= <- <-]. auto. }
  destruct (fleet_plug _ _ _) as [vs1 | ]; [ | discriminate].
  destruct (rollNoncompliance (probability (noncompliance config)) g) as [refused g1].
  match goal with |- context [if ?b then _ else _] => destruct b end.
  - destruct (updateFleetSite asset None t config g1) as [[r1 g2] | ] eqn:Hf;
      [ | discriminate].
    simpl. intros [= <- <-]. right; left. eauto 10.
  - unfold not_numeric. run_rand. intros [= <- <-]. auto.
Qed.

Lemma fleet_unreadable_returns (asset : Fleet.FleetSite) (t : Z) (config : ScenarioConfig)
    (g : Rng) :
  vehicle_states_present (AFleet asset) ->
  is_Some (updateFleetSite_unreadable asset t config g).
Proof.
  intros Hpresent. unfold updateFleetSite_unreadable.
  destruct (Fleet.dropped (Fleet.state asset)); [eauto | ].
  destruct (fleet_plug_succeeds (Fleet.vehicles (Fleet.params asset)) t
              (Fleet.vehicle_state (Fleet.state asset)) Hpresent) as [vs1 Hvs].
  rewrite Hvs.
  destruct (rollNoncompliance (probability (noncompliance config)) g) as [refused g1].
  match goal with |- context [if ?b then _ else _] => destruct b end.
  - destruct (fleet_update_returns asset None t config g1 Hpresent) as [[r1 g2] Hf].
    rewrite Hf. simpl. eauto.
  - eauto.
Qed.

(** [updateAsset] returns a result for every asset and every command,
    unless a vehicle of a fleet site has no state. *)
Lemma updateAsset_returns (asset : Asset) (command : option AssetCommand)
    (t : Z) (outdoorTemp startHour : R) (config : ScenarioConfig) (g : Rng) :
  vehicle_states_present asset ->
  is_Some (updateAsset asset command t outdoorTemp startHour config g).
Proof.
  intros Hpresent. unfold updateAsset.
  destruct asset as [a | a | a | a | a].
  - destruct (cast_command as_HvacCommand command) as [c | ].
    + rewrite lift_result_eq. eauto.
    + destruct (unreadable_command_cases AHvac a (Hvac.dropped (Hvac.state a))
                  (Hvac.baseline_drift (Hvac.state a)) config
                  (updateHvacResi a None outdoorTemp config) g) as (r & g' & Hr & _).
      rewrite Hr. eauto.
  - rewrite lift_result_eq. eauto.
  - destruct (cast_command as_EvCommand command) as [c | ].
    + rewrite lift_result_eq. eauto.
    + unfold updateEvResi_unreadable.
      destruct (ev_reads_command a t).
      * destruct (unreadable_command_cases AEv a false
                    (Ev.baseline_drift (Ev.state a)) config
                    (updateEvResi a None t config) g) as (r & g' & Hr & _).
        rewrite Hr. eauto.
      * rewrite lift_result_eq. eauto.
  - destruct (cast_command as_FleetCommand command) as [c | ].
    + destruct (fleet_update_returns a c t config g Hpresent) as [[r1 g1] Hf].
      rewrite Hf. simpl. eauto.
    + apply fleet_unreadable_returns. exact Hpresent.
  - destruct (cast_command as_CiBuildingCommand command) as [c | ].
    + rewrite lift_result_eq. eauto.
    + destruct (unreadable_command_cases ACi a (Ci.dropped (Ci.state a))
                  (Ci.baseline_drift (Ci.state a)) config
                  (updateCiBuilding a None t startHour config) g) as (r & g' & Hr & _).
      rewrite Hr. eauto.
Qed.






(** ** [updateAsset]: what every result keeps *)

Lemma hvac_static (a : Hvac.HvacResi) c outdoorTemp config g :
  let a' := fst (fst (updateHvacResi a c outdoorTemp config g)) in
  Hvac.id a' = Hvac.id a /\ Hvac.params a' = Hvac.params a.
Proof.
  unfold updateHvacResi.
  destruct (Hvac.dropped (Hvac.state a)); [simpl; auto | ].
  unfold bind. destruct (honoured c config g) as [applied g1].
  run_rand. auto.
Qed.

Lemma battery_static (a : Battery.BatteryResi) c config g :
  let a' := fst (fst (updateBatteryResi a c config g)) in
  Battery.id a' = Battery.id a /\ Battery.params a' = Battery.params a.
Proof.
  unfold updateBatteryResi.
  destruct (Battery.dropped (Battery.state a)); [simpl; auto | ].
  unfold bind. destruct (honoured c config g) as [applied g1].
  destruct applied as [cmd | ]; [destruct (battery_apply _ _ _) as [out soc'] | ];
    run_rand; auto.
Qed.

Lemma ev_static (a : Ev.EvResi) c t config g :
  let a' := fst (fst (updateEvResi a c t config g)) in
  Ev.id a' = Ev.id a /\ Ev.params a' = Ev.params a.
Proof.
  unfold updateEvResi.
  destruct (Ev.dropped (Ev.state a)); [simpl; auto | ].
  destruct (Ev.t_depart (Ev.params a) <=? t)%Z; [simpl; auto | ].
  match goal with |- context [if negb ?b then _ else _] => destruct b end;
    cbn [negb]; [ | simpl; auto].
  unfold bind.
  match goal with |- context [ev_chargePower ?a ?b ?c ?d g] =>
    destruct (ev_chargePower a b c d g) as [chargePower g1] end.
  run_rand. auto.
Qed.

Lemma ci_static (a : Ci.CiBuilding) c t startHour config g :
  let a' := fst (fst (updateCiBuilding a c t startHour config g)) in
  Ci.id a' = Ci.id a /\ Ci.params a' = Ci.params a.
Proof.
  unfold updateCiBuilding.
  destruct (Ci.dropped (Ci.state a)); [simpl; auto | ].
  unfold bind. destruct (honoured c config g) as [applied g1].
  match goal with |- context [if ?f >? 2 then _ else _] => destruct (f >? 2) end;
    run_rand; auto.
Qed.

Lemma fold_left_invariant {A B : Type} (P : A -> Prop) (f : A -> B -> A) (l : list B) :
  forall a : A, P a -> (forall a x, P a -> P (f a x)) -> P (fold_left f l a).
Proof.
  induction l as [| x l IH]; intros a Ha Hstep; simpl; [exact Ha | ].
  apply IH; [apply Hstep; exact Ha | exact Hstep].
Qed.

Lemma fleet_plug_dom (vehicles : list Fleet.FleetVehicle) (t : Z) :
  forall vs vs' : gmap string Fleet.FleetVehicleState,
  fleet_plug vehicles t vs = Some vs' -> dom vs' = dom vs.
Proof.
  induction vehicles as [| v rest IH]; intros vs vs'; simpl.
  - intros [= <-]. reflexivity.
  - destruct (vs !! Fleet.vid v) as [s | ] eqn:Hs; [ | discriminate].
    intros H. apply IH in H. rewrite H. apply dom_insert_lookup_L. eauto.
Qed.

Lemma fleet_allocate_dom (cap : R) (urgencies : gmap string R) (total : R)
    (pv : list Fleet.FleetVehicle) (vs : gmap string Fleet.FleetVehicleState) :
  dom (fst (fleet_allocate cap urgencies total pv vs)) = dom vs.
Proof.
  unfold fleet_allocate.
  apply (fold_left_invariant
           (fun acc : gmap string Fleet.FleetVehicleState * R => dom (fst acc) = dom vs)).
  - reflexivity.
  - intros [m s] v Hm. simpl in *.
    destruct (m !! Fleet.vid v) as [st | ] eqn:Hs; [ | exact Hm].
    rewrite <- Hm. apply dom_insert_lookup_L. eauto.
Qed.

Lemma fleet_static (a : Fleet.FleetSite) c t config g r g' :
  updateFleetSite a c t config g = Some (r, g') ->
  Fleet.id (fst r) = Fleet.id a /\ Fleet.params (fst r) = Fleet.params a
  /\ dom (Fleet.vehicle_state (Fleet.state (fst r))) = dom (Fleet.vehicle_state (Fleet.state a)).
Proof.
  unfold updateFleetSite.
  destruct (Fleet.dropped (Fleet.state a)).
  { intros [= <- _]. simpl. auto. }
  destruct (fleet_plug _ _ _) as [vs1 | ] eqn:Hplug; [ | discriminate].
  apply fleet_plug_dom in Hplug.
  unfold bind. destruct (honoured c config g) as [applied g1].
  destruct (fleet_urgencies _ _ _) as [urgencies totalUrgency].
  match goal with |- context [fleet_allocate ?cap ?u ?tot ?pv ?vs] =>
    pose proof (fleet_allocate_dom cap u tot pv vs) as Hd;
    destruct (fleet_allocate cap u tot pv vs) as [vs2 actualSitePower] end.
  run_rand. intros [= <- _]. simpl. split; [reflexivity | split; [reflexivity | ]].
  rewrite <- Hplug. exact Hd.
Qed.

Lemma updateAsset_dropped_result (asset : Asset) (command : option AssetCommand)
    (t : Z) (outdoorTemp startHour : R) (config : ScenarioConfig) (g : Rng) :
  asset_dropped asset = true ->
  updateAsset asset command t outdoorTemp startHour config g = Some (Updated asset 0, g).
Proof.
  intros Hd. unfold updateAsset.
  destruct asset as [a | a | a | a | a]; simpl in Hd.
  - destruct (cast_command as_HvacCommand command) as [c | ].
    + unfold lift_result, updateHvacResi. rewrite Hd. reflexivity.
    + unfold unreadable_command. rewrite Hd. reflexivity.
  - unfold lift_result, updateBatteryResi. rewrite Hd. reflexivity.
  - destruct (cast_command as_EvCommand command) as [c | ].
    + unfold lift_result, updateEvResi. rewrite Hd. reflexivity.
    + unfold updateEvResi_unreadable, ev_reads_command. rewrite Hd. simpl.
      unfold lift_result, updateEvResi. rewrite Hd. reflexivity.
  - destruct (cast_command as_FleetCommand command) as [c | ].
    + unfold updateFleetSite. rewrite Hd. reflexivity.
    + unfold updateFleetSite_unreadable. rewrite Hd. reflexivity.
  - destruct (cast_command as_CiBuildingCommand command) as [c | ].
    + unfold lift_result, updateCiBuilding. rewrite Hd. reflexivity.
    + unfold unreadable_command. rewrite Hd. reflexivity.
Qed.

Lemma fleet_states_kept (a a' : Fleet.FleetSite) :
  Fleet.params a' = Fleet.params a ->
  dom (Fleet.vehicle_state (Fleet.state a')) = dom (Fleet.vehicle_state (Fleet.state a)) ->
  vehicle_states_present (AFleet a) -> vehicle_states_present (AFleet a').
Proof.
  intros H2 H3 Hall. simpl in *. rewrite H2.
  eapply Forall_impl; [exact Hall | ].
  intros v Hv. simpl in Hv. apply elem_of_dom. rewrite H3. apply elem_of_dom. exact Hv.
Qed.

Lemma updateAsset_static (asset : Asset) (command : option AssetCommand)
    (t : Z) (outdoorTemp startHour : R) (config : ScenarioConfig) (g : Rng)
    (r : UpdateResult) (g' : Rng) :
  updateAsset asset command t outdoorTemp startHour config g = Some (r, g') ->
  asset_ident (result_asset r) = asset_ident asset
  /\ asset_type (result_asset r) = asset_type asset
  /\ asset_params (result_asset r) = asset_params asset
  /\ (vehicle_states_present asset -> vehicle_states_present (result_asset r)).
Proof.
  unfold updateAsset.
  destruct asset as [a | a | a | a | a].
  - assert (Hm : forall c g1,
              let a' := fst (fst (updateHvacResi a c outdoorTemp config g1)) in
              asset_ident (AHvac a') = asset_ident (AHvac a)
              /\ asset_type (AHvac a') = asset_type (AHvac a)
              /\ asset_params (AHvac a') = asset_params (AHvac a)
              /\ (vehicle_states_present (AHvac a) -> vehicle_states_present (AHvac a'))).
    { intros c g1. pose proof (hvac_static a c outdoorTemp config g1) as [H1 H2].
      simpl in *. rewrite H1, H2. auto. }
    destruct (cast_command as_HvacCommand command) as [c | ].
    + rewrite lift_result_eq. intros [= <- _]. apply Hm.
    + destruct (unreadable_command_cases AHvac a (Hvac.dropped (Hvac.state a))
                  (Hvac.baseline_drift (Hvac.state a)) config
                  (updateHvacResi a None outdoorTemp config) g) as (r0 & g0 & Hr & Hc).
      rewrite Hr. intros [= <- _].
      destruct Hc as [(_ & -> & _) | [(_ & g2 & ->) | (_ & ->)]];
        [simpl; auto | apply Hm | simpl; auto].
  - rewrite lift_result_eq. intros [= <- _].
    pose proof (battery_static a (as_BatteryCommand <$> command) config g) as [H1 H2].
    simpl in *. rewrite H1, H2. auto.
  - assert (Hm : forall c g1,
              let a' := fst (fst (updateEvResi a c t config g1)) in
              asset_ident (AEv a') = asset_ident (AEv a)
              /\ asset_type (AEv a') = asset_type (AEv a)
              /\ asset_params (AEv a') = asset_params (AEv a)
              /\ (vehicle_states_present (AEv a) -> vehicle_states_present (AEv a'))).
    { intros c g1. pose proof (ev_static a c t config g1) as [H1 H2].
      simpl in *. rewrite H1, H2. auto. }
    destruct (cast_command as_EvCommand command) as [c | ].
    + rewrite lift_result_eq. intros [= <- _]. apply Hm.
    + unfold updateEvResi_unreadable. destruct (ev_reads_command a t).
      * destruct (unreadable_command_cases AEv a false
                    (Ev.baseline_drift (Ev.state a)) config
                    (updateEvResi a None t config) g) as (r0 & g0 & Hr & Hc).
        rewrite Hr. intros [= <- _].
        destruct Hc as [(_ & -> & _) | [(_ & g2 & ->) | (_ & ->)]];
          [simpl; auto | apply Hm | simpl; auto].
      * rewrite lift_result_eq. intros [= <- _]. apply Hm.
  - assert (Hm : forall c g1 r1 g2,
              updateFleetSite a c t config g1 = Some (r1, g2) ->
              asset_ident (AFleet (fst r1)) = asset_ident (AFleet a)
              /\ asset_type (AFleet (fst r1)) = asset_type (AFleet a)
              /\ asset_params (AFleet (fst r1)) = asset_params (AFleet a)
              /\ (vehicle_states_present (AFleet a) ->
                  vehicle_states_present (AFleet (fst r1)))).
    { intros c g1 r1 g2 Hf. apply fleet_static in Hf. destruct Hf as (H1 & H2 & H3).
      split; [exact H1 | ]. split; [reflexivity | ].
      split; [simpl; rewrite H2; reflexivity | ].
      apply fleet_states_kept; assumption. }
    destruct (cast_command as_FleetCommand command) as [c | ].
    + destruct (updateFleetSite a c t config g) as [[r1 g1] | ] eqn:Hf; [ | discriminate].
      simpl. intros [= <- _]. eapply Hm. exact Hf.
    + intros Hr. apply fleet_unreadable_cases in Hr.
      destruct Hr as [(_ & -> & _) | [(_ & g1 & g2 & r1 & Hf & ->) | (_ & ->)]];
        [simpl; auto | eapply Hm; exact Hf | simpl; auto].
  - assert (Hm : forall c g1,
              let a' := fst (fst (updateCiBuilding a c t startHour config g1)) in
              asset_ident (ACi a') = asset_ident (ACi a)
              /\ asset_type (ACi a') = asset_type (ACi a)
              /\ asset_params (ACi a') = asset_params (ACi a)
              /\ (vehicle_states_present (ACi a) -> vehicle_states_present (ACi a'))).
    { intros c g1. pose proof (ci_static a c t startHour config g1) as [H1 H2].
      simpl in *. rewrite H1, H2. auto. }
    destruct (cast_command as_CiBuildingCommand command) as [c | ].
    + rewrite lift_result_eq. intros [= <- _]. apply Hm.
    + destruct (unreadable_command_cases ACi a (Ci.dropped (Ci.state a))
                  (Ci.baseline_drift (Ci.state a)) config
                  (updateCiBuilding a None t startHour config) g) as (r0 & g0 & Hr & Hc).
      rewrite Hr. intros [= <- _].
      destruct Hc as [(_ & -> & _) | [(_ & g2 & ->) | (_ & ->)]];
        [simpl; auto | apply Hm | simpl; auto].
Qed.

(** A result is not numeric only for an asset that has not dropped, handed
    a command that its model cannot read, when the roll accepts the
    command. *)
Lemma updateAsset_not_numeric (asset : Asset) (command : option AssetCommand)
    (t : Z) (outdoorTemp startHour : R) (config : ScenarioConfig) (g : Rng)
    (asset' : Asset) (g' : Rng) :
  updateAsset asset command t outdoorTemp startHour config g
  = Some (NotNumeric asset', g') ->
  asset' = asset
  /\ asset_dropped asset = false
  /\ ~ command_readable asset command
  /\ (g 0%nat <? probability (noncompliance config)) = false.
Proof.
  assert (Hun : forall {A : Type} (inj : A -> Asset) (a : A) (dropped : bool) (drift : R)
                       (m : Rand (A * R)),
            unreadable_command inj a dropped drift config m g = Some (NotNumeric asset', g') ->
            asset' = inj a /\ dropped = false
            /\ (g 0%nat <? probability (noncompliance config)) = false).
  { intros A inj a dropped drift m. unfold unreadable_command.
    destruct dropped; [discriminate | ].
    unfold rollNoncompliance, bind, ret, Math_random.
    destruct (g 0%nat <? probability (noncompliance config)).
    - rewrite lift_result_eq. discriminate.
    - unfold not_numeric. run_rand. intros [= <- _]. auto. }
  unfold updateAsset.
  destruct asset as [a | a | a | a | a].
  - destruct (cast_command as_HvacCommand command) as [c | ] eqn:Hc.
    + rewrite lift_result_eq. discriminate.
    + intros Hr. apply Hun in Hr. destruct Hr as (-> & Hd & Hroll).
      repeat split; auto. simpl. rewrite Hc. intros [x Hx]. discriminate.
  - rewrite lift_result_eq. discriminate.
  - destruct (cast_command as_EvCommand command) as [c | ] eqn:Hc.
    + rewrite lift_result_eq. discriminate.
    + unfold updateEvResi_unreadable.
      destruct (ev_reads_command a t) eqn:Hreads.
      * intros Hr. apply Hun in Hr. destruct Hr as (-> & _ & Hroll).
        split; [reflexivity | ]. split.
        { unfold ev_reads_command in Hreads. simpl.
          destruct (Ev.dropped (Ev.state a)); [discriminate | reflexivity]. }
        split; [ | exact Hroll].
        simpl. rewrite Hc. intros [x Hx]. discriminate.
      * rewrite lift_result_eq. discriminate.
  - destruct (cast_command as_FleetCommand command) as [c | ] eqn:Hc.
    + destruct (updateFleetSite a c t config g) as [[r1 g1] | ]; simpl; discriminate.
    + unfold updateFleetSite_unreadable.
      destruct (Fleet.dropped (Fleet.state a)) eqn:Hd; [discriminate | ].
      destruct (fleet_plug _ _ _) as [vs1 | ]; [ | discriminate].
      unfold rollNoncompliance, bind, ret, Math_random.
      destruct (g 0%nat <? probability (noncompliance config)).
      * simpl. destruct (updateFleetSite a None t config _) as [[r1 g2] | ];
          simpl; discriminate.
      * simpl.
        match goal with |- context [if ?b then _ else _] => destruct b end.
        -- destruct (updateFleetSite a None t config _) as [[r1 g2] | ];
             simpl; discriminate.
        -- unfold not_numeric. run_rand. intros [= <- _].
           repeat split; auto. simpl. rewrite Hc. intros [x Hx]. discriminate.
  - destruct (cast_command as_CiBuildingCommand command) as [c | ] eqn:Hc.
    + rewrite lift_result_eq. discriminate.
    + intros Hr. apply Hun in Hr. destruct Hr as (-> & Hd & Hroll).
      repeat split; auto. simpl. rewrite Hc. intros [x Hx]. discriminate.
Qed.

(** ** [updateAsset] and commands of another variant *)

(** C8, as the source implements it.  [updateAsset] selects the model by the
    type of the asset alone and never inspects the variant of the command;
    there is no "inapplicable" result.  For every asset and every command,
    of whatever variant, it returns a result for the same asset (same id,
    type and params), provided every vehicle of a fleet site has a state; a
    dropped asset is returned as it is, with a power delta of 0.  A command
    of another variant is handed to the model as if it matched: a battery
    command handed to an EV is applied as the EV command with the same
    [power_kw], an EV command handed to a battery as the battery command
    with the same [power_kw], and a battery handed a command without
    [power_kw] idles as for a command of 0 kW.  In the other mismatched
    pairs the model computes with [undefined] and its result is not numeric,
    but only for an asset that has not dropped and when the noncompliance
    roll accepts the command. *)
Theorem updateAsset_ignores_command_variant :
  (forall (asset : Asset) (command : option AssetCommand) (t : Z)
          (outdoorTemp startHour : R) (config : ScenarioConfig) (g : Rng),
     vehicle_states_present asset ->
     exists (r : UpdateResult) (g' : Rng),
       updateAsset asset command t outdoorTemp startHour config g = Some (r, g')
       /\ asset_ident (result_asset r) = asset_ident asset
       /\ asset_type (result_asset r) = asset_type asset
       /\ asset_params (result_asset r) = asset_params asset)
  /\ (forall (asset : Asset) (command : option AssetCommand) (t : Z)
             (outdoorTemp startHour : R) (config : ScenarioConfig) (g : Rng),
        asset_dropped asset = true ->
        updateAsset asset command t outdoorTemp startHour config g
        = Some (Updated asset 0, g))
  /\ (forall (a : Ev.EvResi) (b : Battery.BatteryCommand) (t : Z) (outdoorTemp startHour : R)
             (config : ScenarioConfig) (g : Rng),
        updateAsset (AEv a) (Some (CBattery b)) t outdoorTemp startHour config g
        = updateAsset (AEv a) (Some (CEv {| Ev.power_kw := Battery.power_kw b |}))
            t outdoorTemp startHour config g)
  /\ (forall (a : Battery.BatteryResi) (e : Ev.EvCommand) (t : Z) (outdoorTemp startHour : R)
             (config : ScenarioConfig) (g : Rng),
        updateAsset (ABattery a) (Some (CEv e)) t outdoorTemp startHour config g
        = updateAsset (ABattery a) (Some (CBattery {| Battery.power_kw := Ev.power_kw e |}))
            t outdoorTemp startHour config g)
  /\ (forall (a : Battery.BatteryResi) (c : AssetCommand) (t : Z) (outdoorTemp startHour : R)
             (config : ScenarioConfig) (g : Rng),
        command_kind c <> battery_resi -> command_kind c <> ev_resi ->
        updateAsset (ABattery a) (Some c) t outdoorTemp startHour config g
        = updateAsset (ABattery a) (Some (CBattery {| Battery.power_kw := 0 |}))
            t outdoorTemp startHour config g)
  /\ (forall (asset : Asset) (command : option AssetCommand) (t : Z)
             (outdoorTemp startHour : R) (config : ScenarioConfig) (g : Rng)
             (asset' : Asset) (g' : Rng),
        updateAsset asset command t outdoorTemp startHour config g
        = Some (NotNumeric asset', g') ->
        asset_dropped asset = false
        /\ ~ command_readable asset command
        /\ (g 0%nat <? probability (noncompliance config)) = false).
Proof.
  split; [ | split; [ | split; [ | split; [ | split]]]].
  - intros asset command t outdoorTemp startHour config g Hpresent.
    destruct (updateAsset_returns asset command t outdoorTemp startHour config g Hpresent)
      as [[r g'] Hr].
    exists r, g'. split; [exact Hr | ].
    destruct (updateAsset_static asset command t outdoorTemp startHour config g r g' Hr)
      as (H1 & H2 & H3 & _).
    auto.
  - intros. apply updateAsset_dropped_result. assumption.
  - intros. reflexivity.
  - intros. reflexivity.
  - intros a c t outdoorTemp startHour config g Hb He.
    destruct c; simpl in Hb, He; try contradiction; reflexivity.
  - intros asset command t outdoorTemp startHour config g asset' g' Hr.
    apply updateAsset_not_numeric in Hr. tauto.
Qed.

Lemma sample_ev_charges_at_three :
  updateAsset (AEv sample_ev_flexible) (Some (CBattery {| Battery.power_kw := 3 |}))
    0 90 14 sample_config sample_rng
  = Some (Updated (AEv sample_ev_charged) 4, sample_rng).
Proof.
  assert (Hrun : updateEvResi sample_ev_flexible (Some {| Ev.power_kw := 3 |}) 0
                   sample_config sample_rng
                 = ((sample_ev_charged, 4), sample_rng)).
  { unfold updateEvResi, ev_chargePower, sample_ev_charged.
    cbn -[Rltb Rleb Math_min Math_max IZR Rmult Rplus Rminus Rdiv TIMESTEP_HOURS].
    unfold sample_rng. rewrite TIMESTEP_HOURS_val. eval_Z. eval_R.
    run_rand. eval_R. repeat f_equal; lra. }
  change (updateAsset (AEv sample_ev_flexible)
            (Some (CBattery {| Battery.power_kw := 3 |})) 0 90 14 sample_config sample_rng)
    with (lift_result AEv
            (updateEvResi sample_ev_flexible (Some {| Ev.power_kw := 3 |}) 0 sample_config)
            sample_rng).
  unfold lift_result. rewrite Hrun. reflexivity.
Qed.

Lemma updateAsset_ignores_command_variant_witness :
  exists (r : UpdateResult) (g' : Rng),
    updateAsset (AEv sample_ev_flexible) (Some (CBattery {| Battery.power_kw := 3 |}))
      0 90 14 sample_config sample_rng = Some (r, g')
    /\ asset_ident (result_asset r) = asset_ident (AEv sample_ev_flexible)
    /\ asset_type (result_asset r) = asset_type (AEv sample_ev_flexible)
    /\ asset_params (result_asset r) = asset_params (AEv sample_ev_flexible).
Proof.
  refine (proj1 updateAsset_ignores_command_variant (AEv sample_ev_flexible)
            (Some (CBattery {| Battery.power_kw := 3 |})) 0%Z 90 14 sample_config
            sample_rng _).
  exact I.
Defined.

(** C8 as stated fails: a battery command delivered to an EV is neither
    rejected nor ignored.  The EV charges at the 3 kW of the battery command
    (its energy goes from 20 to 20.25 kWh) and reports a power delta of
    4 kW, exactly as for the EV command with the same field. *)
Lemma battery_command_applied_to_ev :
  exists (a' : Ev.EvResi) (g' : Rng),
    updateAsset (AEv sample_ev_flexible) (Some (CBattery {| Battery.power_kw := 3 |}))
      0 90 14 sample_config sample_rng
    = Some (Updated (AEv a') 4, g')
    /\ Ev.e_kwh (Ev.state a') = 20.25
    /\ Ev.e_kwh (Ev.state a') <> Ev.e_kwh (Ev.state sample_ev_flexible)
    /\ updateAsset (AEv sample_ev_flexible) (Some (CEv {| Ev.power_kw := 3 |}))
         0 90 14 sample_config sample_rng
       = Some (Updated (AEv a') 4, g').
Proof.
  exists sample_ev_charged, sample_rng.
  split; [exact sample_ev_charges_at_three | ].
  split; [reflexivity | ].
  split; [simpl; lra | ].
  exact sample_ev_charges_at_three.
Qed.

(** ** HVAC commands: whole degrees, at most 2 *)



Lemma div_unit_interval (a b : R) : 0 < b -> 0 <= a <= b -> 0 <= a / b <= 1.
Proof.
  intros Hb [Ha0 Hab]. assert (0 < / b) by (apply Rinv_0_lt_compat; assumption).
  unfold Rdiv. split.
  - apply Rmult_le_pos; lra.
  - replace 1 with (b * / b) by (field; lra). apply Rmult_le_compat_r; lra.
Qed.







Lemma insert_by_Permutation {A : Type} (cmp : A -> A -> R) (x : A) (l : list A) :
  insert_by cmp x l ≡ₚ x :: l.
Proof.
  induction l as [| y l IH]; simpl; [reflexivity | ].
  destruct (cmp x y <=? 0); [reflexivity | ].
  rewrite IH. apply Permutation_swap.
Qed.

Lemma sort_by_Permutation {A : Type} (cmp : A -> A -> R) (l : list A) :
  sort_by cmp l ≡ₚ l.
Proof.
  unfold sort_by. induction l as [| x l IH]; simpl; [reflexivity | ].
  rewrite insert_by_Permutation, IH. reflexivity.
Qed.

Lemma filter_partition_Permutation {A : Type} (p : A -> bool) (l : list A) :
  List.filter p l ++ List.filter (fun x => negb (p x)) l ≡ₚ l.
Proof.
  induction l as [| x l IH]; simpl; [reflexivity | ].
  destruct (p x); simpl.
  - rewrite IH. reflexivity.
  - rewrite <- Permutation_middle, IH. reflexivity.
Qed.




(** *** What the selection returns *)

Lemma score_asset_fields (context : Ctx.StrategyContext) (a : Asset)
    (sa : Scored.ScoredAsset) :
  score_asset context a = Some sa ->
  Scored.asset sa = a
  /\ Scored.capacity sa = getAvailableCapacity a (Ctx.currentTimestep context).
Proof.
  unfold score_asset.
  destruct (calculateOrderingScore a _ context) as [score | ]; [ | discriminate].
  simpl. intros [= <-]. auto.
Qed.

Lemma scored_entries (context : Ctx.StrategyContext) (l : list Asset)
    (scored : list Scored.ScoredAsset) :
  mapM (score_asset context) l = Some scored ->
  Scored.asset <$> scored = l
  /\ Forall (fun sa => Scored.capacity sa
                       = getAvailableCapacity (Scored.asset sa) (Ctx.currentTimestep context))
            scored.
Proof.
  intros Hm. split.
  - eapply mapM_fmap_Some_inv; [exact Hm | ].
    intros a sa Hsa. apply score_asset_fields in Hsa. tauto.
  - apply mapM_Some_1 in Hm.
    induction Hm as [| a sa l scored Hsa _ IH]; constructor; [ | exact IH].
    apply score_asset_fields in Hsa. destruct Hsa as [-> ->]. reflexivity.
Qed.

(** The score is computed whenever the context carries [dispatchIntensity]. *)
Lemma score_asset_present (context : Ctx.StrategyContext) (a : Asset) :
  is_Some (Ctx.dispatchIntensity context) -> is_Some (score_asset context a).
Proof.
  intros [settings Hs]. unfold score_asset, calculateOrderingScore. rewrite Hs. simpl.
  destruct (ordering_totals a _ context 0 0 0) as [totalScore weightSum]. simpl. eauto.
Qed.

Lemma score_asset_absent (context : Ctx.StrategyContext) (a : Asset) :
  Ctx.dispatchIntensity context = None -> score_asset context a = None.
Proof.
  intros Hs. unfold score_asset, calculateOrderingScore. rewrite Hs. reflexivity.
Qed.

Lemma selectAndOrderAssets_scored (context : Ctx.StrategyContext)
    (selected : list Scored.ScoredAsset) :
  selectAndOrderAssets context = Some selected ->
  exists scored : list Scored.ScoredAsset,
    mapM (score_asset context)
      (List.filter (fun a => negb (asset_dropped a)) (Ctx.assets context)) = Some scored
    /\ selected = selection_of context scored.
Proof.
  unfold selectAndOrderAssets.
  destruct (mapM (score_asset context) _) as [scored | ]; [ | discriminate].
  simpl. intros [= <-]. exists scored. split; reflexivity.
Qed.

Lemma selectAndOrderAssets_present (context : Ctx.StrategyContext) :
  is_Some (Ctx.dispatchIntensity context) -> is_Some (selectAndOrderAssets context).
Proof.
  intros Hs. unfold selectAndOrderAssets.
  destruct (mapM_is_Some_2 (score_asset context)
              (List.filter (fun a => negb (asset_dropped a)) (Ctx.assets context)))
    as [scored Hm].
  { apply Forall_forall. intros a _. apply score_asset_present. exact Hs. }
  rewrite Hm. simpl. eauto.
Qed.

(** Without [dispatchIntensity] the selection raises a [TypeError] as soon
    as an asset has not dropped, and is empty otherwise. *)
Lemma selectAndOrderAssets_absent (context : Ctx.StrategyContext) :
  Ctx.dispatchIntensity context = None ->
  selectAndOrderAssets context
  = if forallb asset_dropped (Ctx.assets context) then Some [] else None.
Proof.
  intros Hs. unfold selectAndOrderAssets.
  assert (Hm : mapM (score_asset context)
                 (List.filter (fun a => negb (asset_dropped a)) (Ctx.assets context))
               = if forallb asset_dropped (Ctx.assets context) then Some [] else None).
  { induction (Ctx.assets context) as [| a rest IH]; [reflexivity | ].
    simpl. destruct (asset_dropped a); simpl; [exact IH | ].
    rewrite (score_asset_absent context a Hs). reflexivity. }
  rewrite Hm. destruct (forallb asset_dropped (Ctx.assets context)); [ | reflexivity].
  simpl. rewrite take_nil. reflexivity.
Qed.




(** *** What the frameworks return *)

Lemma dispatchToTarget_present (context : Ctx.StrategyContext)
    (riskParams : RiskPostureParams) (assets : list Scored.ScoredAsset) :
  is_Some (Ctx.dispatchIntensity context) ->
  forall remainingTarget : R,
  is_Some (dispatchToTarget assets remainingTarget context riskParams).
Proof.
  intros [settings Hs].
  induction assets as [| sa rest IH]; intros remaining; simpl; [eauto | ].
  destruct (remaining <=? 0); [eauto | ].
  rewrite Hs. simpl.
  destruct (createDispatchCommand _ _ _ _) as [cmd | ]; [ | apply IH].
  destruct (IH (remaining - getCommandContribution (Scored.asset sa) cmd riskParams))
    as [more Hmore].
  rewrite Hmore. simpl. eauto.
Qed.

(** The commands of [executeComposableStrategy] are those of
    [maintainPreviousDispatch] or of [dispatchToTarget] on a rearrangement of
    the selection. *)
Lemma executeComposableStrategy_cases (context : Ctx.StrategyContext) (g : Rng)
    (commands : list DispatchCommand) (g' : Rng) :
  executeComposableStrategy context g = Some (commands, g') ->
  exists selected : list Scored.ScoredAsset,
    selectAndOrderAssets context = Some selected
    /\ (commands = maintainPreviousDispatch context selected
        \/ exists (assets : list Scored.ScoredAsset) (target : R),
             assets ≡ₚ selected
             /\ dispatchToTarget assets target context
                  (getRiskParams (Strategy.riskPosture (Ctx.strategyConfig context)))
                = Some commands).
Proof.
  unfold executeComposableStrategy.
  destruct (Strategy.decisionFramework (Ctx.strategyConfig context)).
  - unfold deterministicDispatch.
    destruct (selectAndOrderAssets context) as [selected | ]; [ | discriminate].
    simpl. exists selected. split; [reflexivity | ].
    match type of H with context [if ?b then _ else _] => destruct b end.
    + simpl in H. injection H as <- _. left. reflexivity.
    + destruct (dispatchToTarget selected _ context _) as [cmds | ] eqn:Hd;
        [ | discriminate].
      simpl in H. injection H as <- _. right. eauto.
  - unfold greedyDispatch.
    destruct (selectAndOrderAssets context) as [selected | ]; [ | discriminate].
    simpl. exists selected. split; [reflexivity | ].
    destruct (dispatchToTarget _ _ context _) as [cmds | ] eqn:Hd; [ | discriminate].
    simpl in H. injection H as <- _. right.
    eexists _, _. split; [ | exact Hd].
    destruct (Strategy.frameworkSubtype (Ctx.strategyConfig context));
      try reflexivity; apply sort_by_Permutation.
  - unfold stochasticDispatch.
    destruct (selectAndOrderAssets context) as [selected | ]; [ | discriminate].
    simpl. exists selected. split; [reflexivity | ].
    destruct (stochastic_targetMultiplier context selected g) as [mult g1].
    destruct (dispatchToTarget selected _ context _) as [cmds | ] eqn:Hd;
      [ | discriminate].
    simpl in H. injection H as <- _. right. eauto.
  - unfold feedbackControlDispatch.
    destruct (selectAndOrderAssets context) as [selected | ]; [ | discriminate].
    simpl. exists selected. split; [reflexivity | ].
    destruct (dispatchToTarget selected _ context _) as [cmds | ] eqn:Hd;
      [ | discriminate].
    simpl in H. injection H as <- _. right. eauto.
Qed.

(** [executeComposableStrategy] returns whenever the context carries
    [dispatchIntensity]. *)
Lemma executeComposableStrategy_present (context : Ctx.StrategyContext) (g : Rng) :
  is_Some (Ctx.dispatchIntensity context) ->
  is_Some (executeComposableStrategy context g).
Proof.
  intros Hs.
  destruct (selectAndOrderAssets_present context Hs) as [selected Hsel].
  pose proof (dispatchToTarget_present context
                (getRiskParams (Strategy.riskPosture (Ctx.strategyConfig context)))) as Hd.
  unfold executeComposableStrategy.
  destruct (Strategy.decisionFramework (Ctx.strategyConfig context)).
  - unfold deterministicDispatch. rewrite Hsel. simpl.
    match goal with |- context [if ?b then _ else _] => destruct b end; [simpl; eauto | ].
    match goal with |- context [dispatchToTarget ?a ?t _ _] =>
      destruct (Hd a Hs t) as [cmds ->] end. simpl. eauto.
  - unfold greedyDispatch. rewrite Hsel. simpl.
    match goal with |- context [dispatchToTarget ?a ?t _ _] =>
      destruct (Hd a Hs t) as [cmds ->] end. simpl. eauto.
  - unfold stochasticDispatch. rewrite Hsel. simpl.
    destruct (stochastic_targetMultiplier context selected g) as [mult g1].
    match goal with |- context [dispatchToTarget ?a ?t _ _] =>
      destruct (Hd a Hs t) as [cmds ->] end. simpl. eauto.
  - unfold feedbackControlDispatch. rewrite Hsel. simpl.
    match goal with |- context [dispatchToTarget ?a ?t _ _] =>
      destruct (Hd a Hs t) as [cmds ->] end. simpl. eauto.
Qed.





(** ** Zero target, zero capacity: no command *)




Lemma no_selection_raises (context : Ctx.StrategyContext) (g : Rng) :
  selectAndOrderAssets context = None -> executeComposableStrategy context g = None.
Proof.
  intros Hsel.
  unfold executeComposableStrategy, deterministicDispatch, greedyDispatch,
    stochasticDispatch, feedbackControlDispatch.
  rewrite Hsel. destruct (Strategy.decisionFramework (Ctx.strategyConfig context));
    reflexivity.
Qed.

Lemma empty_selection_no_commands (context : Ctx.StrategyContext) (g : Rng) :
  selectAndOrderAssets context = Some [] ->
  exists g' : Rng, executeComposableStrategy context g = Some ([], g').
Proof.
  intros Hsel. unfold executeComposableStrategy.
  destruct (Strategy.decisionFramework (Ctx.strategyConfig context)).
  - unfold deterministicDispatch. rewrite Hsel. cbn [mbind option_bind].
    cbv zeta. cbn [maintainPreviousDispatch dispatchToTarget].
    match goal with |- context [if ?b then _ else _] => destruct b end;
      cbn [mbind option_bind]; eauto.
  - unfold greedyDispatch. rewrite Hsel. cbn [mbind option_bind]. cbv zeta.
    destruct (Strategy.frameworkSubtype (Ctx.strategyConfig context));
      cbn [sort_by foldr dispatchToTarget mbind option_bind]; eauto.
  - unfold stochasticDispatch. rewrite Hsel. cbn [mbind option_bind].
    destruct (stochastic_targetMultiplier context [] g) as [mult g1].
    cbn [dispatchToTarget mbind option_bind]. eauto.
  - unfold feedbackControlDispatch. rewrite Hsel.
    cbn [dispatchToTarget mbind option_bind]. eauto.
Qed.





(** ** The tick of the engine *)

(** The context of a tick has no [dispatchIntensity]: the selection raises a
    [TypeError] unless every asset has dropped. *)
Lemma tick_selection (e : Engine.SimulationEngine) :
  selectAndOrderAssets (tick_context e) = if all_dropped e then Some [] else None.
Proof. apply selectAndOrderAssets_absent. reflexivity. Qed.

Lemma tick_commands_dropped (e : Engine.SimulationEngine) (g : Rng) :
  all_dropped e = true -> exists g' : Rng, tick_commands e g = Some ([], g').
Proof.
  intros Hall. apply empty_selection_no_commands.
  rewrite tick_selection, Hall. reflexivity.
Qed.

Lemma tick_commands_live (e : Engine.SimulationEngine) (g : Rng) :
  all_dropped e = false -> tick_commands e g = None.
Proof.
  intros Hall. apply no_selection_raises.
  rewrite tick_selection, Hall. reflexivity.
Qed.

Lemma tick_commands_Some (e : Engine.SimulationEngine) (g : Rng)
    (commands : list DispatchCommand) (g' : Rng) :
  tick_commands e g = Some (commands, g') -> all_dropped e = true /\ commands = [].
Proof.
  intros Htc. destruct (all_dropped e) eqn:Hall.
  - destruct (tick_commands_dropped e g Hall) as [g'' Hg].
    rewrite Hg in Htc. injection Htc as <- _. auto.
  - rewrite (tick_commands_live e g Hall) in Htc. discriminate.
Qed.

Lemma update_scores_none (assets : list Asset) (scores : gmap string R) :
  update_scores assets ∅ scores = scores.
Proof.
  unfold update_scores. revert scores.
  induction assets as [| a rest IH]; intros scores; simpl; [reflexivity | ].
  rewrite decide_False by set_solver. apply IH.
Qed.

(** Dropped assets are returned as they are, with a power delta of 0. *)
Lemma update_assets_dropped (commandMap : gmap string DispatchCommand) (t : Z)
    (outdoorTemp startHour : R) (config : ScenarioConfig) (rv : R) (assets : list Asset) :
  forallb asset_dropped assets = true ->
  forall g : Rng,
  exists (results : list (UpdateResult * R)) (g' : Rng),
    update_assets assets commandMap t outdoorTemp startHour config rv g = Some (results, g')
    /\ (fun r => result_asset (fst r)) <$> results = assets
    /\ forall a : R, achieved_power results a = Some a.
Proof.
  induction assets as [| asset rest IH]; intros Hall g.
  - exists [], g. simpl. auto.
  - simpl in Hall. apply andb_true_iff in Hall. destruct Hall as [Hd Hrest].
    cbn [update_assets].
    rewrite (updateAsset_dropped_result asset _ t outdoorTemp startHour config g Hd).
    cbn [mbind option_bind]. unfold Math_random.
    destruct (IH Hrest (fun n => g (S n))) as (results & g' & Hu & Ha & Hp).
    rewrite Hu. cbn [mbind option_bind].
    eexists _, g'. split; [reflexivity | ]. split.
    + rewrite fmap_cons. cbn [fst result_asset]. rewrite Ha. reflexivity.
    + intros a. cbn [achieved_power].
      match goal with |- achieved_power results ?x = _ => replace x with a by lra end.
      apply Hp.
Qed.

Lemma apply_commands_dropped (e : Engine.SimulationEngine) (g : Rng) :
  all_dropped e = true ->
  exists g' : Rng, apply_commands e [] g = Some (inert_tick e, g').
Proof.
  intros Hall. unfold apply_commands. cbv zeta.
  match goal with |- context [update_assets ?a ?b ?c ?d ?e0 ?f ?h g] =>
    destruct (update_assets_dropped b c d e0 f h a Hall g)
      as (results & g' & Hu & Ha & Hp) end.
  rewrite Hu. cbn [mbind option_bind]. rewrite (Hp 0). cbn [mbind option_bind].
  rewrite Ha. exists g'. unfold inert_tick, inert_result. simpl.
  rewrite update_scores_none. reflexivity.
Qed.

Lemma advanceTimestep_over (e : Engine.SimulationEngine) (g : Rng) :
  event_over e = true -> advanceTimestep e g = Some (finished e, g).
Proof.
  unfold event_over, advanceTimestep. intros ->. reflexivity.
Qed.

Lemma advanceTimestep_dropped (e : Engine.SimulationEngine) (g : Rng) :
  event_over e = false -> all_dropped e = true ->
  exists g' : Rng, advanceTimestep e g = Some (inert_tick e, g').
Proof.
  unfold event_over, advanceTimestep. intros -> Hall.
  destruct (tick_commands_dropped e g Hall) as [g1 Htc]. rewrite Htc.
  cbn [mbind option_bind]. apply apply_commands_dropped. exact Hall.
Qed.

Lemma advanceTimestep_live (e : Engine.SimulationEngine) (g : Rng) :
  event_over e = false -> all_dropped e = false -> advanceTimestep e g = None.
Proof.
  unfold event_over, advanceTimestep. intros -> Hall.
  rewrite (tick_commands_live e g Hall). reflexivity.
Qed.

(** Every call of [advanceTimestep] that returns either found the event
    over or recorded an inert tick. *)
Lemma advanceTimestep_Some (e e' : Engine.SimulationEngine) (g g' : Rng) :
  advanceTimestep e g = Some (e', g') ->
  (event_over e = true /\ e' = finished e /\ g' = g)
  \/ (event_over e = false /\ all_dropped e = true /\ e' = inert_tick e).
Proof.
  intros Hadv. destruct (event_over e) eqn:Hover.
  - rewrite (advanceTimestep_over e g Hover) in Hadv. injection Hadv as <- <-. auto.
  - destruct (all_dropped e) eqn:Hall.
    + destruct (advanceTimestep_dropped e g Hover Hall) as [g1 Hg].
      rewrite Hg in Hadv. injection Hadv as <- _. auto.
    + rewrite (advanceTimestep_live e g Hover Hall) in Hadv. discriminate.
Qed.

(** Whether a call of [advanceTimestep], of [step], returns does not depend
    on the random outcomes, and neither does the engine it leaves. *)
Lemma step_replay (e e1 : Engine.SimulationEngine) (g g1 : Rng) :
  step e g = Some (e1, g1) ->
  forall g2 : Rng, exists g2' : Rng, step e g2 = Some (e1, g2').
Proof.
  unfold step. intros Hstep g2.
  destruct (Sim.is_complete (Engine.state e)).
  - injection Hstep as <- _. eauto.
  - destruct (advanceTimestep_Some e e1 g g1 Hstep)
      as [(Hover & -> & _) | (Hover & Hall & ->)].
    + rewrite (advanceTimestep_over e g2 Hover). eauto.
    + apply advanceTimestep_dropped; assumption.
Qed.

Lemma steps_replay (n : nat) :
  forall (e e1 : Engine.SimulationEngine) (g g1 : Rng),
  steps n e g = Some (e1, g1) ->
  forall g2 : Rng, exists g2' : Rng, steps n e g2 = Some (e1, g2').
Proof.
  induction n as [| n IH]; intros e e1 g g1 Hs g2; cbn [steps] in *.
  - injection Hs as <- _. eauto.
  - destruct (step e g) as [[e' g'] | ] eqn:Hstep; [ | discriminate].
    cbn [mbind option_bind] in Hs.
    destruct (step_replay e e' g g' Hstep g2) as [g2' Hstep2].
    rewrite Hstep2. cbn [mbind option_bind].
    exact (IH e' e1 g' g1 Hs g2').
Qed.

Lemma step_all_dropped (e e' : Engine.SimulationEngine) (g g' : Rng) :
  step e g = Some (e', g') ->
  Sim.assets (Engine.state e') = Sim.assets (Engine.state e)
  /\ Sim.scenario (Engine.state e') = Sim.scenario (Engine.state e)
  /\ Engine.strategyConfig e' = Engine.strategyConfig e
  /\ Engine.difficulty e' = Engine.difficulty e
  /\ Engine.assetPerformanceScores e' = Engine.assetPerformanceScores e.
Proof.
  unfold step. intros Hstep.
  destruct (Sim.is_complete (Engine.state e)).
  - injection Hstep as <- _. auto.
  - destruct (advanceTimestep_Some e e' g g' Hstep)
      as [(_ & -> & _) | (_ & _ & ->)]; simpl; auto.
Qed.

Lemma steps_config (n : nat) :
  forall (e e' : Engine.SimulationEngine) (g g' : Rng),
  steps n e g = Some (e', g') ->
  Sim.assets (Engine.state e') = Sim.assets (Engine.state e)
  /\ Sim.scenario (Engine.state e') = Sim.scenario (Engine.state e)
  /\ Engine.strategyConfig e' = Engine.strategyConfig e
  /\ Engine.difficulty e' = Engine.difficulty e
  /\ Engine.assetPerformanceScores e' = Engine.assetPerformanceScores e.
Proof.
  induction n as [| n IH]; intros e e' g g' Hs; cbn [steps] in Hs.
  - injection Hs as <- _. auto.
  - destruct (step e g) as [[e1 g1] | ] eqn:Hstep; [ | discriminate].
    cbn [mbind option_bind] in Hs.
    destruct (IH _ _ _ _ Hs) as (H1 & H2 & H3 & H4 & H5).
    destruct (step_all_dropped _ _ _ _ Hstep) as (K1 & K2 & K3 & K4 & K5).
    repeat split; congruence.
Qed.

(** When every asset has dropped, every call returns. *)
Lemma step_dropped (e : Engine.SimulationEngine) (g : Rng) :
  all_dropped e = true ->
  exists (e' : Engine.SimulationEngine) (g' : Rng),
    step e g = Some (e', g') /\ all_dropped e' = true.
Proof.
  intros Hall. unfold step.
  destruct (Sim.is_complete (Engine.state e)); [eauto | ].
  destruct (event_over e) eqn:Hover.
  - rewrite (advanceTimestep_over e g Hover). eauto.
  - destruct (advanceTimestep_dropped e g Hover Hall) as [g' Hg].
    rewrite Hg. eauto.
Qed.

Lemma steps_dropped (n : nat) :
  forall (e : Engine.SimulationEngine) (g : Rng),
  all_dropped e = true ->
  exists (e' : Engine.SimulationEngine) (g' : Rng), steps n e g = Some (e', g').
Proof.
  induction n as [| n IH]; intros e g Hall; cbn [steps]; [eauto | ].
  destruct (step_dropped e g Hall) as (e1 & g1 & Hstep & Hall1).
  rewrite Hstep. cbn [mbind option_bind]. apply IH. exact Hall1.
Qed.

(** ** The first tick of the sample engine, from the empty command list on *)

Lemma sample_hvac_update (g : Rng) :
  updateHvacResi sample_hvac None 90 sample_config g
  = ((sample_hvac_after g, sample_delta g), fun n => g (S (S n))).
Proof.
  unfold updateHvacResi, sample_hvac_after, sample_delta, sample_drift.
  cbn -[Rltb Rleb Math_min Math_max IZR Rmult Rplus Rminus Rdiv Ropp Rinv].
  eval_R. run_rand. eval_R.
  repeat f_equal; lra.
Qed.

Lemma sample_updateAsset (g : Rng) :
  updateAsset (AHvac sample_hvac) None 0 90 14 sample_config g
  = Some (Updated (AHvac (sample_hvac_after g)) (sample_delta g), fun n => g (S (S n))).
Proof.
  change (updateAsset (AHvac sample_hvac) None 0 90 14 sample_config g)
    with (lift_result AHvac (updateHvacResi sample_hvac None 90 sample_config) g).
  rewrite lift_result_eq, sample_hvac_update. reflexivity.
Qed.



(** ** What the tick records from the command list on *)

Lemma apply_commands_records (e e' : Engine.SimulationEngine)
    (commands : list DispatchCommand) (g g' : Rng) :
  apply_commands e commands g = Some (e', g') ->
  exists (results : list (UpdateResult * R)) (achievedKw : R) (r : Tick.TimestepResult),
    let st := Engine.state e in
    let config := Scn.scenario (Sim.scenario st) in
    let preset := DIFFICULTY_PRESETS (Engine.difficulty e) in
    update_assets (Sim.assets st) (build_commandMap commands) (Sim.current_timestep st)
      (default 75 (outdoor_temp_f (weather config) !! Z.to_nat (Sim.current_timestep st)))
      (start_hour config) config (response_variability preset) g
    = Some (results, g')
    /\ achieved_power results 0 = Some achievedKw
    /\ Sim.history (Engine.state e') = Sim.history st ++ [r]
    /\ Tick.timestep r = Sim.current_timestep st
    /\ Tick.target_kw r = tick_targetKw e
    /\ Tick.achieved_kw r = Math_round (achievedKw * 10) / 10
    /\ Tick.penalty r = recorded_penalty preset (tick_targetKw e) achievedKw
    /\ Sim.total_penalty (Engine.state e')
       = Sim.total_penalty st + tick_penalty preset (tick_targetKw e) achievedKw
    /\ Sim.assets (Engine.state e') = (fun r => result_asset (fst r)) <$> results
    /\ Sim.current_timestep (Engine.state e') = (Sim.current_timestep st + 1)%Z
    /\ Sim.scenario (Engine.state e') = Sim.scenario st
    /\ Engine.strategyConfig e' = Engine.strategyConfig e
    /\ Engine.difficulty e' = Engine.difficulty e
    /\ Engine.previouslyDispatchedAssets e' = dispatched_ids commands
    /\ Engine.accumulatedError e' = tick_accumulatedError e
    /\ Engine.assetPerformanceScores e'
       = update_scores ((fun r => result_asset (fst r)) <$> results)
           (dispatched_ids commands) (Engine.assetPerformanceScores e).
Proof.
  unfold apply_commands. cbv zeta. intros Happ.
  match type of Happ with
  | context [update_assets ?a ?b ?c ?d ?e0 ?f ?h g] =>
      destruct (update_assets a b c d e0 f h g) as [[results g2] | ] eqn:Hu;
        [ | discriminate]
  end.
  cbn [mbind option_bind] in Happ.
  destruct (achieved_power results 0) as [achievedKw | ] eqn:Hach; [ | discriminate].
  cbn [mbind option_bind] in Happ. injection Happ as <- <-.
  eexists results, achievedKw, _. simpl.
  repeat split; first [exact Hu | exact Hach | reflexivity].
Qed.



(** ** The penalty *)



















Lemma sample_dropped_tick (target : R) (strategyConfig : Strategy.StrategyConfig) (g : Rng) :
  exists g' : Rng,
    advanceTimestep (sample_engine_dropped target strategyConfig) g
    = Some (inert_tick (sample_engine_dropped target strategyConfig), g').
Proof. apply advanceTimestep_dropped; reflexivity. Qed.


(** ** Reset and replay *)

Lemma reset_after_run (scenario : Scn.Scenario) (strategyConfig : Strategy.StrategyConfig)
    (difficulty : DifficultyLevel) (n : nat) (g g1 : Rng) (e1 : Engine.SimulationEngine) :
  steps n (SimulationEngine_new scenario strategyConfig difficulty) g = Some (e1, g1) ->
  reset e1 = SimulationEngine_new scenario strategyConfig difficulty.
Proof.
  intros Hrun. destruct (steps_config n _ _ _ _ Hrun) as (_ & Hs & Hc & Hd & _).
  unfold reset. rewrite Hs, Hc, Hd. reflexivity.
Qed.

Lemma sample_rng_low_ok : rng_ok sample_rng_low.
Proof.
  intros n. unfold sample_rng_low.
  destruct n as [| [| [| n]]]; lra.
Qed.

(** The update of the idle sample HVAC unit, then the same update again:
    4 kW, then 3.96 kW. *)
Lemma sample_update_twice :
  updateAsset (AHvac sample_hvac) None 0 90 14 sample_config sample_rng_low
  = Some (Updated (AHvac (sample_hvac_after sample_rng_low)) 4,
          fun n => sample_rng_low (S (S n)))
  /\ updateAsset (AHvac sample_hvac) None 0 90 14 sample_config
       (fun n => sample_rng_low (S (S n)))
     = Some (Updated (AHvac (sample_hvac_after (fun n => sample_rng_low (S (S n))))) 3.96,
             fun n => sample_rng_low (S (S (S (S n))))).
Proof.
  split; rewrite sample_updateAsset; repeat f_equal;
    unfold sample_delta, sample_drift, sample_rng_low;
    rewrite Math_max_r by lra; lra.
Qed.

(** C2, as the source implements it.  A run of the engine that completes is
    reproduced by the replay after [reset], history included: [reset]
    restores the engine that the constructor builds from the same scenario,
    strategy configuration and difficulty, and the engine that a completed
    run leaves does not depend on the outcomes of [Math.random()]; on a
    scenario whose assets have all dropped every run completes.  The
    stochastic draws themselves are not reproducible: they come from the
    global [Math.random()], which takes no seed and which [reset] does not
    rewind, so that the same update of the same asset, called again, can
    return another result. *)
Theorem reset_and_replay_reproduce_the_run :
  (forall (scenario : Scn.Scenario) (strategyConfig : Strategy.StrategyConfig)
          (difficulty : DifficultyLevel) (n : nat) (g g1 : Rng)
          (e1 : Engine.SimulationEngine),
     steps n (SimulationEngine_new scenario strategyConfig difficulty) g = Some (e1, g1) ->
     reset e1 = SimulationEngine_new scenario strategyConfig difficulty
     /\ forall g2 : Rng,
          exists (e2 : Engine.SimulationEngine) (g2' : Rng),
            steps n (reset e1) g2 = Some (e2, g2')
            /\ e2 = e1
            /\ Sim.history (Engine.state e2) = Sim.history (Engine.state e1))
  /\ (forall (scenario : Scn.Scenario) (strategyConfig : Strategy.StrategyConfig)
             (difficulty : DifficultyLevel) (n : nat) (g : Rng),
        forallb asset_dropped (Scn.assets scenario) = true ->
        is_Some (steps n (SimulationEngine_new scenario strategyConfig difficulty) g))
  /\ (exists (asset : Asset) (t : Z) (outdoorTemp startHour : R) (config : ScenarioConfig)
             (g g1 g2 : Rng) (r1 r2 : UpdateResult),
        rng_ok g
        /\ updateAsset asset None t outdoorTemp startHour config g = Some (r1, g1)
        /\ updateAsset asset None t outdoorTemp startHour config g1 = Some (r2, g2)
        /\ r1 <> r2).
Proof.
  split; [ | split].
  - intros scenario strategyConfig difficulty n g g1 e1 Hrun.
    pose proof (reset_after_run scenario strategyConfig difficulty n g g1 e1 Hrun) as Hreset.
    split; [exact Hreset | ].
    intros g2. rewrite Hreset.
    destruct (steps_replay n _ _ _ _ Hrun g2) as [g2' Hrun2].
    exists e1, g2'. auto.
  - intros scenario strategyConfig difficulty n g Hall.
    destruct (steps_dropped n (SimulationEngine_new scenario strategyConfig difficulty) g Hall)
      as (e' & g' & Hrun).
    rewrite Hrun. eauto.
  - destruct sample_update_twice as [H1 H2].
    eexists (AHvac sample_hvac), 0%Z, 90, 14, sample_config, sample_rng_low, _, _, _, _.
    split; [exact sample_rng_low_ok | ].
    split; [exact H1 | ]. split; [exact H2 | ].
    intros Heq. injection Heq as _ Heq. lra.
Qed.

Lemma reset_and_replay_reproduce_the_run_witness :
  exists (e1 : Engine.SimulationEngine) (g1 : Rng),
    steps 3 (sample_engine_dropped 100 DEFAULT_STRATEGY_CONFIG) sample_rng = Some (e1, g1)
    /\ reset e1 = sample_engine_dropped 100 DEFAULT_STRATEGY_CONFIG
    /\ exists (e2 : Engine.SimulationEngine) (g2' : Rng),
         steps 3 (reset e1) sample_rng_low = Some (e2, g2')
         /\ e2 = e1
         /\ Sim.history (Engine.state e2) = Sim.history (Engine.state e1).
Proof.
  destruct (proj1 (proj2 reset_and_replay_reproduce_the_run)
              (sample_scenario_dropped 100) DEFAULT_STRATEGY_CONFIG medium 3%nat sample_rng
              eq_refl) as [[e1 g1] Hrun].
  exists e1, g1. split; [exact Hrun | ].
  destruct (proj1 reset_and_replay_reproduce_the_run
              (sample_scenario_dropped 100) DEFAULT_STRATEGY_CONFIG medium 3%nat
              sample_rng g1 e1 Hrun) as [Hreset Hreplay].
  split; [exact Hreset | exact (Hreplay sample_rng_low)].
Defined.

(** C2 as stated fails on the random source: no draw comes from a generator
    that can be seeded.  The update of the idle sample HVAC unit reports
    4 kW; the same call again, on the same asset with the same arguments,
    reports 3.96 kW, [Math.random()] having moved on (outcomes 1/2, 1/2, then
    0, 1/2). *)
Lemma asset_update_is_not_replayable :
  exists (a1 a2 : Asset) (g1 g2 : Rng),
    updateAsset (AHvac sample_hvac) None 0 90 14 sample_config sample_rng_low
    = Some (Updated a1 4, g1)
    /\ updateAsset (AHvac sample_hvac) None 0 90 14 sample_config g1
       = Some (Updated a2 3.96, g2).
Proof.
  destruct sample_update_twice as [H1 H2].
  eexists _, _, _, _. split; [exact H1 | exact H2].
Qed.

(** ** Strategy configurations are not validated *)

(** What each framework does when the subtype is not one of its own. *)
Lemma foreign_subtype_falls_through (context : Ctx.StrategyContext) (g : Rng) :
  isValidSubtypeForFramework (Strategy.decisionFramework (Ctx.strategyConfig context))
    (Strategy.frameworkSubtype (Ctx.strategyConfig context)) = false ->
  let riskParams := getRiskParams (Strategy.riskPosture (Ctx.strategyConfig context)) in
  let target := adjustTargetForObjective context (Ctx.targetKw context) in
  executeComposableStrategy context g
  = (selected ← selectAndOrderAssets context;
     commands ← dispatchToTarget selected
                  match Strategy.decisionFramework (Ctx.strategyConfig context) with
                  | deterministic_policy | greedy_myopic => target
                  | stochastic => target * 1
                  | feedback_control => Math_max 0 (Math_min target (Ctx.targetKw context * 2))
                  end context riskParams;
     Some (commands, g)).
Proof.
  intros Hinvalid. unfold executeComposableStrategy.
  destruct (Strategy.decisionFramework (Ctx.strategyConfig context)) eqn:Hf;
    destruct (Strategy.frameworkSubtype (Ctx.strategyConfig context)) eqn:Hs;
    try discriminate Hinvalid; cbv zeta.
  all: try (unfold deterministicDispatch; rewrite Hs;
            destruct (selectAndOrderAssets context); reflexivity).
  all: try (unfold greedyDispatch; rewrite Hs;
            destruct (selectAndOrderAssets context); reflexivity).
  all: try (unfold stochasticDispatch, stochastic_targetMultiplier, ret; rewrite Hs;
            destruct (selectAndOrderAssets context); reflexivity).
  all: unfold feedbackControlDispatch; rewrite Hs;
    destruct (selectAndOrderAssets context); [ | reflexivity];
    destruct (Ctx.previousAchievedKw context); reflexivity.
Qed.

Lemma sample_dropped_step (target : R) (strategyConfig : Strategy.StrategyConfig) (g : Rng) :
  exists g' : Rng,
    step (sample_engine_dropped target strategyConfig) g
    = Some (inert_tick (sample_engine_dropped target strategyConfig), g').
Proof. unfold step. simpl Sim.is_complete. cbv iota. apply sample_dropped_tick. Qed.

(** C7, as the source implements it.  The engine does not validate a
    strategy configuration: a run leaves the engine with the configuration
    that the constructor was given, or with the merge that
    [updateStrategyConfig] made of it with the update, whatever they are, and
    ticks are executed under it: on a scenario of at least one tick whose
    assets have all dropped, the first [step] of a new engine records a tick.
    The dispatch engine, given a context that carries the dispatch intensity
    settings, returns its commands whatever the configuration.  A subtype
    that is not one of the chosen framework's makes the framework skip its
    refinement (the target is only adjusted for the objective, and clamped
    under feedback control), and with an empty ordering list the weights that
    [calculateOrderingScore] divides by add up to 0. *)
Theorem strategy_configuration_is_not_validated :
  (forall (scenario : Scn.Scenario) (strategyConfig : Strategy.StrategyConfig)
          (difficulty : DifficultyLevel) (n : nat) (g g' : Rng)
          (e' : Engine.SimulationEngine),
     steps n (SimulationEngine_new scenario strategyConfig difficulty) g = Some (e', g') ->
     Engine.strategyConfig e' = strategyConfig)
  /\ (forall (e e' : Engine.SimulationEngine) (config : Partial.StrategyConfig)
             (n : nat) (g g' : Rng),
        steps n (updateStrategyConfig e config) g = Some (e', g') ->
        Strategy.decisionFramework (Engine.strategyConfig e')
        = default (Strategy.decisionFramework (Engine.strategyConfig e))
                  (Partial.decisionFramework config)
        /\ Strategy.frameworkSubtype (Engine.strategyConfig e')
           = default (Strategy.frameworkSubtype (Engine.strategyConfig e))
                     (Partial.frameworkSubtype config)
        /\ Strategy.selectionOrderings (Engine.strategyConfig e')
           = default (Strategy.selectionOrderings (Engine.strategyConfig e))
                     (Partial.selectionOrderings config))
  /\ (forall (scenario : Scn.Scenario) (strategyConfig : Strategy.StrategyConfig)
             (difficulty : DifficultyLevel) (g : Rng),
        forallb asset_dropped (Scn.assets scenario) = true ->
        (0 < timesteps (Scn.scenario scenario))%Z ->
        exists (e' : Engine.SimulationEngine) (g' : Rng) (r : Tick.TimestepResult),
          step (SimulationEngine_new scenario strategyConfig difficulty) g = Some (e', g')
          /\ Sim.history (Engine.state e') = [r]
          /\ Engine.strategyConfig e' = strategyConfig)
  /\ (forall (context : Ctx.StrategyContext) (g : Rng),
        is_Some (Ctx.dispatchIntensity context) ->
        is_Some (executeComposableStrategy context g))
  /\ (forall (context : Ctx.StrategyContext) (g : Rng),
        isValidSubtypeForFramework (Strategy.decisionFramework (Ctx.strategyConfig context))
          (Strategy.frameworkSubtype (Ctx.strategyConfig context)) = false ->
        executeComposableStrategy context g
        = (selected ← selectAndOrderAssets context;
           commands ← dispatchToTarget selected
                        match Strategy.decisionFramework (Ctx.strategyConfig context) with
                        | deterministic_policy | greedy_myopic =>
                            adjustTargetForObjective context (Ctx.targetKw context)
                        | stochastic =>
                            adjustTargetForObjective context (Ctx.targetKw context) * 1
                        | feedback_control =>
                            Math_max 0
                              (Math_min (adjustTargetForObjective context (Ctx.targetKw context))
                                        (Ctx.targetKw context * 2))
                        end context
                        (getRiskParams (Strategy.riskPosture (Ctx.strategyConfig context)));
           Some (commands, g)))
  /\ (forall (asset : Asset) (context : Ctx.StrategyContext),
        ordering_totals asset [] context 0 0 0 = (0, 0)).
Proof.
  split; [ | split; [ | split; [ | split; [ | split]]]].
  - intros scenario strategyConfig difficulty n g g' e' Hrun.
    destruct (steps_config n _ _ _ _ Hrun) as (_ & _ & Hc & _). exact Hc.
  - intros e e' config n g g' Hrun.
    destruct (steps_config n _ _ _ _ Hrun) as (_ & _ & Hc & _). rewrite Hc.
    repeat split; reflexivity.
  - intros scenario strategyConfig difficulty g Hall Hpos.
    unfold step. simpl Sim.is_complete. cbv iota.
    destruct (advanceTimestep_dropped
                (SimulationEngine_new scenario strategyConfig difficulty) g) as [g' Hadv].
    + unfold event_over. simpl. apply Z.leb_gt. exact Hpos.
    + exact Hall.
    + rewrite Hadv. eexists _, g', _. split; [reflexivity | ]. split; reflexivity.
  - intros context g Hs. apply executeComposableStrategy_present. exact Hs.
  - intros context g Hinvalid. apply foreign_subtype_falls_through. exact Hinvalid.
  - intros asset context. reflexivity.
Qed.

Lemma strategy_configuration_is_not_validated_witness :
  exists (e' : Engine.SimulationEngine) (g' : Rng) (r : Tick.TimestepResult),
    step (sample_engine_dropped 100 sample_invalid_config) sample_rng = Some (e', g')
    /\ Sim.history (Engine.state e') = [r]
    /\ Engine.strategyConfig e' = sample_invalid_config.
Proof.
  refine (proj1 (proj2 (proj2 strategy_configuration_is_not_validated))
            (sample_scenario_dropped 100) sample_invalid_config medium sample_rng _ _).
  - reflexivity.
  - simpl. lia.
Defined.

(** C7 as stated fails: the engine is constructed with, and updated to, a
    configuration whose subtype does not belong to its framework and whose
    ordering list is empty, and [step] then executes a tick under it; and
    the dispatch engine, given a context with that configuration, a live HVAC
    unit and the intensity settings, returns its commands, the score of the
    unit being the quotient of a zero total by a zero sum of weights. *)
Lemma invalid_configuration_runs_a_tick :
  isValidSubtypeForFramework (Strategy.decisionFramework sample_invalid_config)
    (Strategy.frameworkSubtype sample_invalid_config) = false
  /\ Strategy.selectionOrderings sample_invalid_config = []
  /\ Engine.strategyConfig (sample_engine_dropped 100 sample_invalid_config)
     = sample_invalid_config
  /\ Engine.strategyConfig
       (updateStrategyConfig (sample_engine_dropped 100 DEFAULT_STRATEGY_CONFIG)
          sample_invalid_update)
     = sample_invalid_config
  /\ (exists (e' : Engine.SimulationEngine) (g' : Rng),
        step (sample_engine_dropped 100 sample_invalid_config) sample_rng = Some (e', g')
        /\ Engine.strategyConfig e' = sample_invalid_config
        /\ Sim.current_timestep (Engine.state e') = 1%Z
        /\ length (Sim.history (Engine.state e')) = 1%nat)
  /\ is_Some (executeComposableStrategy sample_invalid_context sample_rng)
  /\ ordering_totals (AHvac sample_hvac)
       (Strategy.selectionOrderings (Ctx.strategyConfig sample_invalid_context))
       sample_invalid_context 0 0 0 = (0, 0).
Proof.
  split; [reflexivity | ].
  split; [reflexivity | ].
  split; [reflexivity | ].
  split; [reflexivity | ].
  split; [ | split; [ | reflexivity]].
  - destruct (sample_dropped_step 100 sample_invalid_config sample_rng) as [g' Hstep].
    exists (inert_tick (sample_engine_dropped 100 sample_invalid_config)), g'.
    split; [exact Hstep | ]. repeat split; reflexivity.
  - apply executeComposableStrategy_present. simpl. eauto.
Qed.

(** * Further properties *)

(** ** Asset models: dropped assets *)

(** X1.  A dropped asset is inert: for an asset whose state has
    dropped = true, updateAsset returns that asset unchanged with a power
    delta of 0 and draws nothing from Math.random(), whatever the command,
    a command built for another type of asset included. *)
Theorem updateAsset_dropped_is_inert (asset : Asset) (command : option AssetCommand)
    (t : Z) (outdoorTemp startHour : R) (config : ScenarioConfig) (g : Rng) :
  asset_dropped asset = true ->
  updateAsset asset command t outdoorTemp startHour config g = Some (Updated asset 0, g).
Proof. apply updateAsset_dropped_result. Qed.

Lemma updateAsset_dropped_is_inert_witness :
  updateAsset (ABattery sample_battery_dropped) (Some (CHvac {| Hvac.delta_setpoint_f := 2 |}))
    0 90 14 sample_config sample_rng
  = Some (Updated (ABattery sample_battery_dropped) 0, sample_rng).
Proof.
  refine (updateAsset_dropped_is_inert (ABattery sample_battery_dropped)
            (Some (CHvac {| Hvac.delta_setpoint_f := 2 |})) 0%Z 90 14
            sample_config sample_rng _).
  reflexivity.
Defined.

(** *** EV: stored energy *)






(** *** C&I building: process toggles *)

Lemma ci_step_toggles (asset : Ci.CiBuilding) (command : option CiCmd.CiBuildingCommand)
    (t : Z) (startHour : R) (config : ScenarioConfig) (g : Rng) :
  let next := fst (fst (updateCiBuilding asset command t startHour config g)) in
  let used := Ci.process_toggles_used (Ci.state asset) in
  let used' := Ci.process_toggles_used (Ci.state next) in
  let currentHour := js_rem (startHour + IZR t * (TIMESTEP_MINUTES / 60)) 24 in
  Ci.params next = Ci.params asset
  /\ ((Ci.process_on (Ci.state next) = Ci.process_on (Ci.state asset) /\ used' = used)
      \/ (Ci.process_on (Ci.state next) = negb (Ci.process_on (Ci.state asset))
          /\ used' = (used + 1)%Z
          /\ (used < Ci.max_process_toggles (Ci.params asset))%Z))
  /\ (Ci.start_hour (Ci.business_hours (Ci.params asset)) <= currentHour
        < Ci.end_hour (Ci.business_hours (Ci.params asset)) ->
      (used <= 0)%Z ->
      Ci.process_on (Ci.state next) = Ci.process_on (Ci.state asset) /\ used' = used).
Proof.
  intros next used used' currentHour.
  remember (updateCiBuilding asset command t startHour config g) as r eqn:Hr.
  unfold updateCiBuilding in Hr.
  destruct (Ci.dropped (Ci.state asset)) eqn:Hdrop.
  { run_rand. subst r next used used'. simpl. auto. }
  unfold bind at 1 in Hr.
  destruct (honoured command config g) as [applied g1].
  match type of Hr with
  | context [if ?f >? 2 then _ else _] => destruct (f >? 2)
  end.
  { run_rand. subst r next used used'. simpl. auto. }
  fold currentHour in Hr.
  match type of Hr with
  | context [if ?b then (_ + 1)%Z else _] => destruct b eqn:Htog
  end.
  - run_rand. subst r next used used'. simpl.
    apply andb_prop in Htog. destruct Htog as [Htog Hbh].
    apply andb_prop in Htog. destruct Htog as [Hne Hlt].
    apply Z.ltb_lt in Hlt.
    assert (Hflip : match applied with
                    | Some c => CiCmd.process_on c
                    | None => Ci.process_on (Ci.state asset)
                    end = negb (Ci.process_on (Ci.state asset))).
    { destruct (match applied with
                | Some c => CiCmd.process_on c
                | None => Ci.process_on (Ci.state asset)
                end), (Ci.process_on (Ci.state asset)); simpl in Hne;
        (reflexivity || discriminate). }
    split; [reflexivity | ]. split.
    + right. auto.
    + intros [Hlo Hhi] Hzero. exfalso.
      apply orb_prop in Hbh. destruct Hbh as [Hbh | Hbh].
      * apply negb_true_iff in Hbh. apply andb_false_iff in Hbh.
        destruct Hbh as [Hbh | Hbh].
        -- destruct (Rleb_spec (Ci.start_hour (Ci.business_hours (Ci.params asset)))
                       currentHour); [discriminate | lra].
        -- destruct (Rltb_spec currentHour
                       (Ci.end_hour (Ci.business_hours (Ci.params asset))));
             [discriminate | lra].
      * apply Z.ltb_lt in Hbh. lia.
  - run_rand. subst r next used used'. simpl. auto.
Qed.

Lemma ci_steps_toggles (commands : list (option CiCmd.CiBuildingCommand))
    (startHour : R) (config : ScenarioConfig) :
  forall (asset : Ci.CiBuilding) (t : Z) (g : Rng),
  let final := fst (ci_steps asset commands t startHour config g) in
  Ci.params final = Ci.params asset
  /\ (Ci.process_toggles_used (Ci.state asset)
      <= Ci.process_toggles_used (Ci.state final))%Z
  /\ (Ci.process_toggles_used (Ci.state final)
      <= Z.max (Ci.process_toggles_used (Ci.state asset))
               (Ci.max_process_toggles (Ci.params asset)))%Z.
Proof.
  induction commands as [| c rest IH]; intros asset t g.
  - simpl. repeat split; lia.
  - cbn [ci_steps]. unfold bind.
    pose proof (ci_step_toggles asset c t startHour config g) as (Hp & Hch & _).
    destruct (updateCiBuilding asset c t startHour config g) as [[a' pd] g'].
    simpl in Hp, Hch. simpl fst.
    specialize (IH a' (t + 1)%Z g'). cbv zeta in IH. rewrite Hp in IH.
    destruct IH as (I0 & I1 & I2).
    cbv zeta. split; [congruence | ].
    destruct Hch as [[_ Hu] | (_ & Hu & Hlt)]; rewrite Hu in *; split; lia.
Qed.

Lemma js_rem_small (x m : R) : 0 <= x < m -> js_rem x m = x.
Proof.
  intros [H0 Hm]. unfold js_rem, js_trunc.
  assert (Hq : 0 <= x / m < 1).
  { assert (0 < / m) by (apply Rinv_0_lt_compat; lra). unfold Rdiv. split; [nra | ].
    apply (Rmult_lt_reg_r m); [lra | ]. rewrite Rmult_assoc, Rinv_l by lra. lra. }
  rewrite Rleb_true by lra.
  replace (Int_part (x / m)) with 0%Z by (apply Int_part_spec; simpl; lra).
  simpl. lra.
Qed.

(** X3.  updateCiBuilding counts the process toggles: one step either leaves
    process_on and process_toggles_used as they were, or flips process_on
    and adds 1 to process_toggles_used. Over any run the counter never
    decreases and, started at or below max_process_toggles, never exceeds
    it; and during business hours a building that has used no toggle yet
    keeps its process_on, whatever the command. *)
Theorem ci_process_toggles_are_counted_and_capped (asset : Ci.CiBuilding)
    (startHour : R) (config : ScenarioConfig) :
  (Ci.process_toggles_used (Ci.state asset) <= Ci.max_process_toggles (Ci.params asset))%Z ->
  (forall (commands : list (option CiCmd.CiBuildingCommand)) (t : Z) (g : Rng),
     let final := fst (ci_steps asset commands t startHour config g) in
     (Ci.process_toggles_used (Ci.state asset)
      <= Ci.process_toggles_used (Ci.state final)
      <= Ci.max_process_toggles (Ci.params final))%Z)
  /\ (forall (command : option CiCmd.CiBuildingCommand) (t : Z) (g : Rng),
        let next := fst (fst (updateCiBuilding asset command t startHour config g)) in
        (Ci.process_on (Ci.state next) = Ci.process_on (Ci.state asset)
         /\ Ci.process_toggles_used (Ci.state next) = Ci.process_toggles_used (Ci.state asset))
        \/ (Ci.process_on (Ci.state next) = negb (Ci.process_on (Ci.state asset))
            /\ Ci.process_toggles_used (Ci.state next)
               = (Ci.process_toggles_used (Ci.state asset) + 1)%Z))
  /\ (forall (command : option CiCmd.CiBuildingCommand) (t : Z) (g : Rng),
        let next := fst (fst (updateCiBuilding asset command t startHour config g)) in
        let currentHour := js_rem (startHour + IZR t * (TIMESTEP_MINUTES / 60)) 24 in
        Ci.start_hour (Ci.business_hours (Ci.params asset)) <= currentHour
          < Ci.end_hour (Ci.business_hours (Ci.params asset)) ->
        (Ci.process_toggles_used (Ci.state asset) <= 0)%Z ->
        Ci.process_on (Ci.state next) = Ci.process_on (Ci.state asset)).
Proof.
  intros Hcap. split; [ | split].
  - intros commands t g.
    pose proof (ci_steps_toggles commands startHour config asset t g) as (Hp & H1 & H2).
    cbv zeta in *. rewrite Hp. lia.
  - intros command t g.
    pose proof (ci_step_toggles asset command t startHour config g) as (_ & H & _).
    cbv zeta in *. destruct H as [H | (H1 & H2 & _)]; [left; exact H | right; auto].
  - intros command t g next currentHour Hbh Hzero.
    pose proof (ci_step_toggles asset command t startHour config g) as (_ & _ & H).
    cbv zeta in H. destruct (H Hbh Hzero) as [Hon _]. exact Hon.
Qed.

Lemma ci_process_toggles_are_counted_and_capped_witness :
  (let final := fst (ci_steps sample_ci sample_ci_commands 0 14 sample_config sample_rng) in
   (Ci.process_toggles_used (Ci.state sample_ci)
    <= Ci.process_toggles_used (Ci.state final)
    <= Ci.max_process_toggles (Ci.params final))%Z)
  /\ (let next :=
        fst (fst (updateCiBuilding sample_ci
                    (Some {| CiCmd.hvac_shed_kw := 0; CiCmd.process_on := false |})
                    0 14 sample_config sample_rng)) in
      Ci.process_on (Ci.state next) = Ci.process_on (Ci.state sample_ci)).
Proof.
  assert (Hcap : (Ci.process_toggles_used (Ci.state sample_ci)
                  <= Ci.max_process_toggles (Ci.params sample_ci))%Z) by (simpl; lia).
  pose proof (ci_process_toggles_are_counted_and_capped sample_ci 14 sample_config Hcap)
    as (H1 & _ & H3).
  split.
  - exact (H1 sample_ci_commands 0%Z sample_rng).
  - apply (H3 (Some {| CiCmd.hvac_shed_kw := 0; CiCmd.process_on := false |}) 0%Z sample_rng).
    + rewrite js_rem_small by (unfold TIMESTEP_MINUTES; lra).
      simpl. unfold TIMESTEP_MINUTES. lra.
    + simpl. lia.
Defined.

(** *** Battery: the reduction reported *)

Lemma battery_apply_output (params : Battery.BatteryResiParams) (soc requested : R) :
  0 < Battery.e_kwh params -> 0 <= Battery.p_ch_kw params ->
  Battery.soc_reserve params <= soc <= 1 ->
  let out := fst (battery_apply params soc requested) in
  out <= Math_max 0 requested
  /\ out <= Math_max 0 (Battery.p_dis_kw params)
  /\ (soc = Battery.soc_reserve params -> out <= 0).
Proof.
  intros He Hch Hsoc. unfold battery_apply. rewrite TIMESTEP_HOURS_val.
  assert (Hcap : 0 <= (soc - Battery.soc_reserve params) * Battery.e_kwh params / / 12).
  { replace ((soc - Battery.soc_reserve params) * Battery.e_kwh params / / 12)
      with ((soc - Battery.soc_reserve params) * Battery.e_kwh params * 12) by (field; lra).
    nra. }
  assert (Hroom : 0 <= (1 - soc) * Battery.e_kwh params / / 12).
  { replace ((1 - soc) * Battery.e_kwh params / / 12)
      with ((1 - soc) * Battery.e_kwh params * 12) by (field; lra).
    nra. }
  destruct (Rltb_spec 0 requested) as [Hd | Hd].
  - simpl. repeat split.
    + minmax; lra.
    + minmax; lra.
    + intros ->.
      replace ((Battery.soc_reserve params - Battery.soc_reserve params)
               * Battery.e_kwh params / / 12) with 0 in * by (field; lra).
      minmax; lra.
  - destruct (Rltb_spec requested 0) as [Hc | Hc]; simpl.
    + repeat split; try intros _; minmax; lra.
    + repeat split; try intros _; minmax; lra.
Qed.

(** X4.  The power delta that updateBatteryResi reports is never negative
    and is at most (1 + pct_uniform) times the requested power (0 without a
    command) and at most (1 + pct_uniform) times p_dis_kw; a battery whose
    soc is exactly at its reserve reports 0. Assumes outcomes of
    Math.random() in [0, 1), 0 <= pct_uniform <= 1, e_kwh > 0, p_ch_kw >= 0
    and soc within [soc_reserve, 1]. *)
Theorem battery_reduction_is_bounded_by_request_and_rating (asset : Battery.BatteryResi)
    (command : option Battery.BatteryCommand) (config : ScenarioConfig) (g : Rng) :
  rng_ok g ->
  0 <= pct_uniform (measurement_noise config) <= 1 ->
  0 < Battery.e_kwh (Battery.params asset) ->
  0 <= Battery.p_ch_kw (Battery.params asset) ->
  Battery.soc_reserve (Battery.params asset) <= Battery.soc (Battery.state asset) <= 1 ->
  let delta := snd (fst (updateBatteryResi asset command config g)) in
  let requested := match command with Some c => Battery.power_kw c | None => 0 end in
  let bound := 1 + pct_uniform (measurement_noise config) in
  0 <= delta
  /\ delta <= Math_max 0 requested * bound
  /\ delta <= Math_max 0 (Battery.p_dis_kw (Battery.params asset)) * bound
  /\ (Battery.soc (Battery.state asset) = Battery.soc_reserve (Battery.params asset) ->
      delta = 0).
Proof.
  intros Hg Hpct He Hch Hsoc.
  assert (Hnoise : forall (x y : R) (n : nat), 0 <= x <= y ->
            0 <= x * (1 + (g n * 2 - 1) * pct_uniform (measurement_noise config))
            <= y * (1 + pct_uniform (measurement_noise config))).
  { intros x y n Hx. specialize (Hg n). split; [apply Rmult_le_pos; nra | ].
    apply Rmult_le_compat; nra. }
  assert (Hm0 : forall x, 0 <= Math_max 0 x) by (intros x; apply Math_max_ge_l).
  unfold updateBatteryResi.
  destruct (Battery.dropped (Battery.state asset)).
  { simpl. pose proof (Hm0 (match command with Some c => Battery.power_kw c | None => 0 end)).
    pose proof (Hm0 (Battery.p_dis_kw (Battery.params asset))).
    repeat split; try nra. }
  assert (Hzero : forall n : nat,
            let d := 0 * (1 + (g n * 2 - 1) * pct_uniform (measurement_noise config)) in
            0 <= d
            /\ d <= Math_max 0 (match command with Some c => Battery.power_kw c | None => 0 end)
                    * (1 + pct_uniform (measurement_noise config))
            /\ d <= Math_max 0 (Battery.p_dis_kw (Battery.params asset))
                    * (1 + pct_uniform (measurement_noise config))
            /\ (Battery.soc (Battery.state asset) = Battery.soc_reserve (Battery.params asset) ->
                d = 0)).
  { intros n. cbv zeta.
    pose proof (Hm0 (match command with Some c => Battery.power_kw c | None => 0 end)).
    pose proof (Hm0 (Battery.p_dis_kw (Battery.params asset))).
    repeat split; try intros _; nra. }
  destruct command as [c | ]; run_rand.
  - destruct (g 0%nat <? probability (noncompliance config)); simpl.
    + rewrite (Rltb_false 0 0) by lra. apply Hzero.
    + pose proof (battery_apply_output (Battery.params asset)
                    (Battery.soc (Battery.state asset)) (Battery.power_kw c) He Hch Hsoc)
        as (H1 & H2 & H3).
      destruct (battery_apply _ _ _) as [out soc']. simpl in *.
      destruct (Rltb_spec 0 out) as [Hpos | Hneg].
      * pose proof (Hnoise out (Math_max 0 (Battery.power_kw c)) 2%nat).
        pose proof (Hnoise out (Math_max 0 (Battery.p_dis_kw (Battery.params asset))) 2%nat).
        repeat split; try lra; intros Heq; specialize (H3 Heq); lra.
      * apply Hzero.
  - rewrite (Rltb_false 0 0) by lra. apply Hzero.
Qed.

Lemma battery_reduction_is_bounded_by_request_and_rating_witness :
  let delta :=
    snd (fst (updateBatteryResi sample_battery (Some {| Battery.power_kw := 3 |})
                sample_config sample_rng)) in
  0 <= delta
  /\ delta <= Math_max 0 3 * (1 + 0.05)
  /\ delta <= Math_max 0 5 * (1 + 0.05)
  /\ (Battery.soc (Battery.state sample_battery)
      = Battery.soc_reserve (Battery.params sample_battery) -> delta = 0).
Proof.
  refine (battery_reduction_is_bounded_by_request_and_rating sample_battery
            (Some {| Battery.power_kw := 3 |}) sample_config sample_rng _ _ _ _ _).
  - intros n. unfold sample_rng. lra.
  - simpl. lra.
  - simpl. lra.
  - simpl. lra.
  - simpl. lra.
Defined.

(** *** Fleet site: the power allocated stays under the cap *)

Lemma fold_left_Rplus (l : list R) (a : R) : fold_left Rplus l a = a + Rsum l.
Proof.
  unfold Rsum. revert a. induction l as [| x l IH]; intros a; simpl.
  - lra.
  - rewrite (IH (a + x)), (IH (0 + x)). lra.
Qed.

Lemma Rsum_cons (x : R) (l : list R) : Rsum (x :: l) = x + Rsum l.
Proof. unfold Rsum at 1. simpl. rewrite fold_left_Rplus. lra. Qed.





Lemma Rsum_ext {A : Type} (f h : A -> R) (l : list A) :
  Forall (fun x => f x = h x) l -> Rsum (map f l) = Rsum (map h l).
Proof.
  induction 1 as [| x l Hx _ IH]; simpl; [reflexivity | ].
  rewrite !Rsum_cons, Hx, IH. reflexivity.
Qed.


(** A loop that stores [val x] under [key x] in the first component. *)
Lemma fold_left_fst_other {A B V : Type} (f : gmap string V * A -> B -> gmap string V * A)
    (key : B -> string) (val : B -> V) (l : list B) :
  (forall acc x, fst (f acc x) = <[key x := val x]> (fst acc)) ->
  forall a k, k ∉ key <$> l -> fst (fold_left f l a) !! k = fst a !! k.
Proof.
  intros Hf. induction l as [| x l IH]; intros a k Hk; simpl; [reflexivity | ].
  rewrite fmap_cons in Hk. apply not_elem_of_cons in Hk. destruct Hk as [Hne Hk].
  rewrite IH by exact Hk. rewrite Hf. apply lookup_insert_ne. congruence.
Qed.

Lemma fold_left_fst_lookup {A B V : Type} (f : gmap string V * A -> B -> gmap string V * A)
    (key : B -> string) (val : B -> V) (l : list B) :
  (forall acc x, fst (f acc x) = <[key x := val x]> (fst acc)) ->
  NoDup (key <$> l) ->
  forall a, Forall (fun x => fst (fold_left f l a) !! key x = Some (val x)) l.
Proof.
  intros Hf. induction l as [| x l IH]; intros Hnd a; simpl; [constructor | ].
  rewrite fmap_cons in Hnd. apply NoDup_cons in Hnd. destruct Hnd as [Hx Hnd].
  constructor.
  - rewrite (fold_left_fst_other f key val l Hf _ _ Hx), Hf.
    apply lookup_insert_eq.
  - apply IH. exact Hnd.
Qed.






(** ** Dispatch strategies *)

Lemma scored_assets_eligible (context : Ctx.StrategyContext) (l : list Asset) :
  forall scored : list Scored.ScoredAsset,
  mapM (score_asset context) (List.filter (fun a => negb (asset_dropped a)) l)
  = Some scored ->
  Scored.asset <$> List.filter (fun sa => Scored.capacity sa >? 0) scored
  = List.filter (eligible (Ctx.currentTimestep context)) l.
Proof.
  induction l as [| a l IH]; intros scored.
  - simpl. intros [= <-]. reflexivity.
  - cbn [List.filter]. unfold eligible at 1.
    destruct (asset_dropped a); cbn [negb andb]; [apply IH | ].
    cbn [mapM].
    destruct (score_asset context a) as [sa | ] eqn:Hsa; [ | discriminate].
    cbn [mbind option_bind].
    destruct (mapM (score_asset context) _) as [rest | ] eqn:Hrest; [ | discriminate].
    cbn [mbind option_bind mret option_ret]. intros [= <-].
    apply score_asset_fields in Hsa. destruct Hsa as [Ha Hc].
    cbn [List.filter]. rewrite Hc.
    destruct (getAvailableCapacity a (Ctx.currentTimestep context) >? 0).
    + rewrite fmap_cons, Ha. f_equal. apply IH. reflexivity.
    + apply IH. reflexivity.
Qed.

Lemma selection_of_submseteq (context : Ctx.StrategyContext)
    (scored : list Scored.ScoredAsset) :
  selection_of context scored ⊆+ List.filter (fun sa => Scored.capacity sa >? 0) scored.
Proof.
  unfold selection_of.
  match goal with |- context [sort_by ?cmp ?l] =>
    pose proof (sort_by_Permutation cmp l) as Hperm; set (sorted := sort_by cmp l) in * end.
  transitivity sorted; [ | apply Permutation_submseteq; exact Hperm].
  transitivity (List.filter (previously_dispatched context) sorted
                ++ List.filter (fun sa => negb (previously_dispatched context sa)) sorted);
    [ | apply Permutation_submseteq, filter_partition_Permutation].
  apply submseteq_app; [reflexivity | ].
  apply sublist_submseteq, sublist_take.
Qed.

Lemma selectAndOrderAssets_submseteq (context : Ctx.StrategyContext)
    (selected : list Scored.ScoredAsset) :
  selectAndOrderAssets context = Some selected ->
  Scored.asset <$> selected
  ⊆+ List.filter (eligible (Ctx.currentTimestep context)) (Ctx.assets context).
Proof.
  intros Hsel. destruct (selectAndOrderAssets_scored context selected Hsel)
    as (scored & Hm & ->).
  rewrite <- (scored_assets_eligible context _ scored Hm).
  apply fmap_submseteq, selection_of_submseteq.
Qed.

Lemma createDispatchCommand_for_asset (asset : Asset) (targetKw : R)
    (riskParams : RiskPostureParams) (intensity : R) (cmd : DispatchCommand) :
  createDispatchCommand asset targetKw riskParams intensity = Some cmd ->
  command_address cmd = asset_address asset.
Proof.
  unfold createDispatchCommand.
  destruct asset as [a | a | a | a | a]; try (intros [= <-]; reflexivity).
  destruct (negb (Ev.plugged (Ev.state a)) || Ev.override_active (Ev.state a));
    [discriminate | ].
  intros [= <-]; reflexivity.
Qed.

Lemma dispatchToTarget_sublist (context : Ctx.StrategyContext)
    (riskParams : RiskPostureParams) (assets : list Scored.ScoredAsset) :
  forall (target : R) (commands : list DispatchCommand),
  dispatchToTarget assets target context riskParams = Some commands ->
  command_address <$> commands `sublist_of` asset_address <$> (Scored.asset <$> assets).
Proof.
  induction assets as [| sa rest IH]; intros target commands; cbn [dispatchToTarget].
  - intros [= <-]. constructor.
  - rewrite !fmap_cons.
    destruct (target <=? 0); [intros [= <-]; apply sublist_nil_l | ].
    destruct (Ctx.dispatchIntensity context) as [settings | ]; [ | discriminate].
    cbn [mbind option_bind].
    destruct (createDispatchCommand _ _ _ _) as [cmd | ] eqn:Hc.
    + destruct (dispatchToTarget rest _ context riskParams) as [more | ] eqn:Hmore;
        [ | discriminate].
      cbn [mbind option_bind]. intros [= <-].
      apply createDispatchCommand_for_asset in Hc.
      rewrite fmap_cons, Hc. apply sublist_skip. eapply IH. exact Hmore.
    + intros Hrest. apply sublist_cons. eapply IH. exact Hrest.
Qed.

Lemma maintainPreviousDispatch_sublist (context : Ctx.StrategyContext)
    (assets : list Scored.ScoredAsset) :
  command_address <$> maintainPreviousDispatch context assets
  `sublist_of` asset_address <$> (Scored.asset <$> assets).
Proof.
  induction assets as [| sa rest IH]; cbn [maintainPreviousDispatch].
  - constructor.
  - rewrite !fmap_cons.
    destruct (previously_dispatched context sa); [ | apply sublist_cons; exact IH].
    destruct (createDispatchCommand _ _ _ _) as [cmd | ] eqn:Hc.
    + apply createDispatchCommand_for_asset in Hc.
      rewrite fmap_cons, Hc. apply sublist_skip. exact IH.
    + apply sublist_cons. exact IH.
Qed.

Lemma executeComposableStrategy_addresses (context : Ctx.StrategyContext) (g : Rng)
    (commands : list DispatchCommand) (g' : Rng) :
  executeComposableStrategy context g = Some (commands, g') ->
  command_address <$> commands
  ⊆+ asset_address <$> List.filter (eligible (Ctx.currentTimestep context))
                         (Ctx.assets context).
Proof.
  intros Hrun.
  destruct (executeComposableStrategy_cases context g commands g' Hrun)
    as (selected & Hsel & [-> | (assets & target & Hperm & Hd)]).
  - transitivity (asset_address <$> (Scored.asset <$> selected));
      [apply sublist_submseteq, maintainPreviousDispatch_sublist
      | apply fmap_submseteq, selectAndOrderAssets_submseteq; exact Hsel].
  - transitivity (asset_address <$> (Scored.asset <$> assets));
      [apply sublist_submseteq; eapply dispatchToTarget_sublist; exact Hd | ].
    apply fmap_submseteq.
    transitivity (Scored.asset <$> selected);
      [apply fmap_submseteq, Permutation_submseteq, Hperm
      | apply selectAndOrderAssets_submseteq; exact Hsel].
Qed.

(** ** What an update never changes *)

Lemma NoDup_fmap_eq {A B : Type} (f : A -> B) (l : list A) (x y : A) :
  NoDup (f <$> l) -> x ∈ l -> y ∈ l -> f x = f y -> x = y.
Proof.
  induction l as [| z l IH]; intros Hnd Hx Hy Hf; [inversion Hx | ].
  rewrite fmap_cons in Hnd. apply NoDup_cons in Hnd. destruct Hnd as [Hz Hnd].
  apply elem_of_cons in Hx. apply elem_of_cons in Hy.
  destruct Hx as [-> | Hx], Hy as [-> | Hy].
  - reflexivity.
  - exfalso. apply Hz. rewrite Hf. apply list_elem_of_fmap_2. exact Hy.
  - exfalso. apply Hz. rewrite <- Hf. apply list_elem_of_fmap_2. exact Hx.
  - apply IH; assumption.
Qed.

Lemma build_commandMap_lookup (commands : list DispatchCommand) (k : string)
    (c : DispatchCommand) :
  build_commandMap commands !! k = Some c -> c ∈ commands /\ asset_id c = k.
Proof.
  unfold build_commandMap.
  assert (Hgen : forall (l : list DispatchCommand) (m : gmap string DispatchCommand),
            fold_left (fun (m : gmap string DispatchCommand) c => <[asset_id c := c]> m) l m
              !! k = Some c ->
            m !! k = Some c \/ (c ∈ l /\ asset_id c = k)).
  { induction l as [| x l IH]; intros m; simpl; [auto | ].
    intros H. apply IH in H. destruct H as [H | [H1 H2]].
    - destruct (decide (asset_id x = k)) as [Heq | Hne].
      + rewrite <- Heq, lookup_insert_eq in H. injection H as <-.
        right. split; [apply list_elem_of_here | exact Heq].
      + rewrite lookup_insert_ne in H by exact Hne. auto.
    - right. split; [apply list_elem_of_further; exact H1 | exact H2]. }
  intros H. apply Hgen in H. destruct H as [H | H]; [ | exact H].
  rewrite lookup_empty in H. discriminate.
Qed.

Lemma update_assets_static (commandMap : gmap string DispatchCommand) (t : Z)
    (outdoorTemp startHour : R) (config : ScenarioConfig) (rv : R) (assets : list Asset) :
  forall (g g' : Rng) (results : list (UpdateResult * R)),
  update_assets assets commandMap t outdoorTemp startHour config rv g
  = Some (results, g') ->
  let updated := (fun r => result_asset (fst r)) <$> results in
  asset_address <$> updated = asset_address <$> assets
  /\ asset_params <$> updated = asset_params <$> assets
  /\ (Forall vehicle_states_present assets -> Forall vehicle_states_present updated).
Proof.
  induction assets as [| a rest IH]; intros g g' results; cbn [update_assets].
  - intros [= <- _]. simpl. auto.
  - destruct (updateAsset a _ t outdoorTemp startHour config g) as [[r g1] | ] eqn:Hu;
      [ | discriminate].
    cbn [mbind option_bind]. unfold Math_random.
    match goal with |- context [update_assets rest ?a1 ?a2 ?a3 ?a4 ?a5 ?a6 ?a7] =>
      destruct (update_assets rest a1 a2 a3 a4 a5 a6 a7) as [[rest' g3] | ] eqn:Hr;
        [ | discriminate] end.
    cbn [mbind option_bind]. intros [= <- _].
    apply updateAsset_static in Hu. destruct Hu as (H1 & H2 & H3 & H4).
    apply IH in Hr. cbv zeta in Hr. destruct Hr as (I1 & I2 & I3).
    cbv zeta. rewrite !fmap_cons. cbn [fst].
    unfold asset_address at 1 3. rewrite H1, H2, H3, I1, I2.
    repeat split; try reflexivity.
    intros Hall. inversion Hall; subst. constructor; auto.
Qed.

Lemma update_assets_returns (commandMap : gmap string DispatchCommand) (t : Z)
    (outdoorTemp startHour : R) (config : ScenarioConfig) (rv : R) (assets : list Asset) :
  Forall vehicle_states_present assets ->
  forall g : Rng,
  is_Some (update_assets assets commandMap t outdoorTemp startHour config rv g).
Proof.
  induction assets as [| a rest IH]; intros Hall g; cbn [update_assets]; [eauto | ].
  inversion Hall as [| ? ? Hp Hrest]; subst.
  destruct (updateAsset_returns a (command <$> commandMap !! asset_ident a) t outdoorTemp
              startHour config g Hp) as [[r g1] Hr].
  rewrite Hr. cbn [mbind option_bind]. unfold Math_random.
  destruct (IH Hrest (fun n => g1 (S n))) as [[results g'] Hu].
  rewrite Hu. cbn [mbind option_bind]. eauto.
Qed.

Lemma asset_address_ident (assets : list Asset) :
  asset_ident <$> assets = fst <$> (asset_address <$> assets).
Proof.
  induction assets as [| a l IH]; [reflexivity | ].
  rewrite !fmap_cons, IH. reflexivity.
Qed.

Lemma asset_address_type (assets : list Asset) :
  asset_type <$> assets = snd <$> (asset_address <$> assets).
Proof.
  induction assets as [| a l IH]; [reflexivity | ].
  rewrite !fmap_cons, IH. reflexivity.
Qed.

(** X6.  updateAsset never changes the id, the type or the params of an
    asset, whatever the command, and it returns, with a fleet site that
    still has a vehicle_state entry for each of its vehicles, whenever a
    fleet site has one. Hence the loop of a tick over the assets returns on
    such assets, whatever the commands, and the asset list it builds has the
    same ids, types and params as before, in the same order. *)
Theorem updates_keep_id_type_and_parameters :
  (forall (asset : Asset) (command : option AssetCommand) (t : Z)
          (outdoorTemp startHour : R) (config : ScenarioConfig) (g g' : Rng)
          (r : UpdateResult),
     updateAsset asset command t outdoorTemp startHour config g = Some (r, g') ->
     asset_ident (result_asset r) = asset_ident asset
     /\ asset_type (result_asset r) = asset_type asset
     /\ asset_params (result_asset r) = asset_params asset)
  /\ (forall (asset : Asset) (command : option AssetCommand) (t : Z)
             (outdoorTemp startHour : R) (config : ScenarioConfig) (g : Rng),
        vehicle_states_present asset ->
        exists (r : UpdateResult) (g' : Rng),
          updateAsset asset command t outdoorTemp startHour config g = Some (r, g')
          /\ vehicle_states_present (result_asset r))
  /\ (forall (assets : list Asset) (commandMap : gmap string DispatchCommand)
             (t : Z) (outdoorTemp startHour : R) (config : ScenarioConfig)
             (responseVariability : R) (g : Rng),
        Forall vehicle_states_present assets ->
        exists (results : list (UpdateResult * R)) (g' : Rng),
          let updated := (fun r => result_asset (fst r)) <$> results in
          update_assets assets commandMap t outdoorTemp startHour config
            responseVariability g = Some (results, g')
          /\ asset_ident <$> updated = asset_ident <$> assets
          /\ asset_type <$> updated = asset_type <$> assets
          /\ asset_params <$> updated = asset_params <$> assets
          /\ Forall vehicle_states_present updated).
Proof.
  split; [ | split].
  - intros asset command t outdoorTemp startHour config g g' r Hr.
    destruct (updateAsset_static asset command t outdoorTemp startHour config g r g' Hr)
      as (H1 & H2 & H3 & _).
    auto.
  - intros asset command t outdoorTemp startHour config g Hp.
    destruct (updateAsset_returns asset command t outdoorTemp startHour config g Hp)
      as [[r g'] Hr].
    exists r, g'. split; [exact Hr | ].
    destruct (updateAsset_static asset command t outdoorTemp startHour config g r g' Hr)
      as (_ & _ & _ & H4).
    exact (H4 Hp).
  - intros assets commandMap t outdoorTemp startHour config rv g Hall.
    destruct (update_assets_returns commandMap t outdoorTemp startHour config rv assets
                Hall g) as [[results g'] Hu].
    exists results, g'. cbv zeta. split; [exact Hu | ].
    apply update_assets_static in Hu. cbv zeta in Hu. destruct Hu as (Ha & Hp & Hv).
    split; [rewrite !asset_address_ident, Ha; reflexivity | ].
    split; [rewrite !asset_address_type, Ha; reflexivity | ].
    split; [exact Hp | exact (Hv Hall)].
Qed.

Lemma updates_keep_id_type_and_parameters_witness :
  exists (r : UpdateResult) (g' : Rng),
    updateAsset (AFleet sample_fleet) (Some (CHvac {| Hvac.delta_setpoint_f := 2 |}))
      0 90 14 sample_config sample_rng = Some (r, g')
    /\ vehicle_states_present (result_asset r).
Proof.
  refine (proj1 (proj2 updates_keep_id_type_and_parameters) (AFleet sample_fleet)
            (Some (CHvac {| Hvac.delta_setpoint_f := 2 |})) 0%Z 90 14 sample_config
            sample_rng _).
  simpl. repeat constructor. rewrite lookup_singleton_eq. eauto.
Defined.

(** ** The engine: when a tick returns *)

Lemma step_cases (e e' : Engine.SimulationEngine) (g g' : Rng) :
  step e g = Some (e', g') ->
  e' = e \/ e' = finished e
  \/ (Sim.is_complete (Engine.state e) = false /\ event_over e = false
      /\ all_dropped e = true /\ e' = inert_tick e).
Proof.
  unfold step. intros Hstep.
  destruct (Sim.is_complete (Engine.state e)) eqn:Hc.
  - injection Hstep as <- _. auto.
  - destruct (advanceTimestep_Some e e' g g' Hstep)
      as [(_ & -> & _) | (Hover & Hall & ->)]; [auto | ].
    right. right. auto.
Qed.

Lemma steps_invariant (P : Engine.SimulationEngine -> Prop) :
  (forall e, P e -> P (finished e)) ->
  (forall e, all_dropped e = true -> P e -> P (inert_tick e)) ->
  forall (n : nat) (e e' : Engine.SimulationEngine) (g g' : Rng),
  P e -> steps n e g = Some (e', g') -> P e'.
Proof.
  intros Hfin Htick. induction n as [| n IH]; intros e e' g g' HP Hs; cbn [steps] in Hs.
  - injection Hs as <- _. exact HP.
  - destruct (step e g) as [[e1 g1] | ] eqn:H1; [ | discriminate].
    cbn [mbind option_bind] in Hs. eapply IH; [ | exact Hs].
    destruct (step_cases e e1 g g1 H1) as [-> | [-> | (_ & _ & Hall & ->)]]; auto.
Qed.

Lemma step_raises (e : Engine.SimulationEngine) (g : Rng) :
  step e g = None
  <-> Sim.is_complete (Engine.state e) = false
      /\ event_over e = false /\ all_dropped e = false.
Proof.
  unfold step. split.
  - destruct (Sim.is_complete (Engine.state e)); [discriminate | ].
    intros Hadv. split; [reflexivity | ].
    destruct (event_over e) eqn:Hover.
    + rewrite (advanceTimestep_over e g Hover) in Hadv. discriminate.
    + split; [reflexivity | ].
      destruct (all_dropped e) eqn:Hall; [ | reflexivity].
      destruct (advanceTimestep_dropped e g Hover Hall) as [g' Hg].
      rewrite Hg in Hadv. discriminate.
  - intros (-> & Hover & Hall). apply advanceTimestep_live; assumption.
Qed.

(** X7.  A call of step() raises a TypeError exactly when the run is not
    complete, the event is not over and an asset of the engine has not
    dropped: the context that advanceTimestep hands to the dispatch engine
    has no dispatchIntensity, which the scoring reads for every asset that
    has not dropped. So the first step() of a new engine raises it on every
    scenario of at least one timestep with such an asset, and when all the
    assets have dropped any number of step() calls returns, whatever the
    strategy configuration, the difficulty and the random outcomes, the
    assets staying as they are, also after updateStrategyConfig and after
    reset. *)
Theorem step_raises_unless_every_asset_has_dropped :
  (forall (e : Engine.SimulationEngine) (g : Rng),
     step e g = None
     <-> Sim.is_complete (Engine.state e) = false
         /\ event_over e = false /\ all_dropped e = false)
  /\ (forall (scenario : Scn.Scenario) (strategyConfig : Strategy.StrategyConfig)
             (difficulty : DifficultyLevel) (g : Rng),
        (0 < timesteps (Scn.scenario scenario))%Z ->
        forallb asset_dropped (Scn.assets scenario) = false ->
        step (SimulationEngine_new scenario strategyConfig difficulty) g = None)
  /\ (forall (scenario : Scn.Scenario) (strategyConfig : Strategy.StrategyConfig)
             (difficulty : DifficultyLevel) (n : nat) (g : Rng),
        forallb asset_dropped (Scn.assets scenario) = true ->
        exists (e' : Engine.SimulationEngine) (g' : Rng),
          steps n (SimulationEngine_new scenario strategyConfig difficulty) g = Some (e', g')
          /\ Sim.assets (Engine.state e') = Scn.assets scenario
          /\ (forall (config : Partial.StrategyConfig) (m : nat) (g2 : Rng),
                is_Some (steps m (updateStrategyConfig e' config) g2))
          /\ (forall (m : nat) (g2 : Rng), is_Some (steps m (reset e') g2))).
Proof.
  split; [exact step_raises | ]. split.
  - intros scenario strategyConfig difficulty g Hpos Hlive.
    apply step_raises. split; [reflexivity | ]. split; [ | exact Hlive].
    unfold event_over. simpl. apply Z.leb_gt. exact Hpos.
  - intros scenario strategyConfig difficulty n g Hall.
    destruct (steps_dropped n (SimulationEngine_new scenario strategyConfig difficulty) g
                Hall) as (e' & g' & Hrun).
    destruct (steps_config n _ _ _ _ Hrun) as (Ha & Hs & _).
    exists e', g'. split; [exact Hrun | ]. split; [exact Ha | ]. split.
    + intros config m g2.
      destruct (steps_dropped m (updateStrategyConfig e' config) g2) as (e2 & g3 & H2).
      { unfold all_dropped. simpl. rewrite Ha. exact Hall. }
      rewrite H2. eauto.
    + intros m g2.
      destruct (steps_dropped m (reset e') g2) as (e2 & g3 & H2).
      { unfold all_dropped. simpl. rewrite Hs. exact Hall. }
      rewrite H2. eauto.
Qed.

Lemma step_raises_unless_every_asset_has_dropped_witness :
  step (SimulationEngine_new sample_scenario sample_invalid_config hard) sample_rng = None.
Proof.
  refine (proj1 (proj2 step_raises_unless_every_asset_has_dropped) sample_scenario
            sample_invalid_config hard sample_rng _ _).
  - simpl. lia.
  - reflexivity.
Defined.

(** ** The engine: what a run records *)

Lemma steps_after_completion (n : nat) (e : Engine.SimulationEngine) (g : Rng) :
  Sim.is_complete (Engine.state e) = true -> steps n e g = Some (e, g).
Proof.
  intros Hc. induction n as [| n IH]; cbn [steps]; [reflexivity | ].
  unfold step. rewrite Hc. cbn [mbind option_bind]. exact IH.
Qed.

(** The ticks of a run that has not reached the end of the event. *)
Lemma steps_running (n : nat) :
  forall (e : Engine.SimulationEngine) (g : Rng),
  all_dropped e = true ->
  Sim.is_complete (Engine.state e) = false ->
  (Sim.current_timestep (Engine.state e) + Z.of_nat n
   <= timesteps (Scn.scenario (Sim.scenario (Engine.state e))))%Z ->
  exists (e' : Engine.SimulationEngine) (g' : Rng) (rs : list Tick.TimestepResult),
    steps n e g = Some (e', g')
    /\ all_dropped e' = true
    /\ Sim.scenario (Engine.state e') = Sim.scenario (Engine.state e)
    /\ Sim.is_complete (Engine.state e') = false
    /\ Sim.current_timestep (Engine.state e')
       = (Sim.current_timestep (Engine.state e) + Z.of_nat n)%Z
    /\ Sim.history (Engine.state e') = Sim.history (Engine.state e) ++ rs
    /\ Tick.timestep <$> rs = seqZ (Sim.current_timestep (Engine.state e)) (Z.of_nat n)
    /\ Forall (fun r => Tick.achieved_kw r = 0 /\ Tick.dispatches_by_type r = no_counts) rs.
Proof.
  induction n as [| n IH]; intros e g Hall Hc Hle; cbn [steps].
  - exists e, g, []. rewrite app_nil_r, Z.add_0_r.
    split; [reflexivity | ]. split; [exact Hall | ]. repeat split; auto.
  - assert (Hover : event_over e = false) by (unfold event_over; apply Z.leb_gt; lia).
    destruct (advanceTimestep_dropped e g Hover Hall) as [g1 Hadv].
    unfold step. rewrite Hc, Hadv. cbn [mbind option_bind].
    destruct (IH (inert_tick e) g1) as (e' & g' & rs & Hsteps & Hall' & Hscn' & Hc' & Hcur'
                                       & Hh' & Hts & Hrs).
    { exact Hall. }
    { exact Hc. }
    { simpl. lia. }
    exists e', g', (inert_result e :: rs). split; [exact Hsteps | ].
    split; [exact Hall' | ]. split; [exact Hscn' | ]. split; [exact Hc' | ].
    split; [rewrite Hcur'; simpl; lia | ].
    split; [rewrite Hh'; simpl; rewrite <- app_assoc; reflexivity | ].
    split.
    + rewrite fmap_cons, Hts. simpl Tick.timestep.
      rewrite (seqZ_cons (Sim.current_timestep (Engine.state e)) (Z.of_nat (S n))) by lia.
      simpl Sim.current_timestep.
      f_equal. f_equal; lia.
    + constructor; [ | exact Hrs]. split; [ | reflexivity].
      simpl. rewrite (Math_round_eval (0 * 10) 0) by lra. lra.
Qed.

Lemma steps_add (n m : nat) :
  forall (e : Engine.SimulationEngine) (g : Rng),
  steps (n + m) e g = '(e1, g1) ← steps n e g; steps m e1 g1.
Proof.
  induction n as [| n IH]; intros e g; cbn [steps Nat.add]; [reflexivity | ].
  destruct (step e g) as [[e1 g1] | ]; cbn [mbind option_bind]; [apply IH | reflexivity].
Qed.

(** X8.  A new engine on a scenario of T >= 0 timesteps whose assets have
    all dropped records one history entry per step() call for the first T
    calls, numbered 0, 1, ... in order, each with an achieved power of 0 and
    no dispatch, and is_complete is still false after the T-th call. The
    call after that sets is_complete and clears is_running without adding a
    history entry, and every later call changes nothing. *)
Theorem run_reaches_completion_one_call_after_the_last_tick
    (scenario : Scn.Scenario) (strategyConfig : Strategy.StrategyConfig)
    (difficulty : DifficultyLevel) (g : Rng) :
  forallb asset_dropped (Scn.assets scenario) = true ->
  (0 <= timesteps (Scn.scenario scenario))%Z ->
  let e0 := SimulationEngine_new scenario strategyConfig difficulty in
  let total := Z.to_nat (timesteps (Scn.scenario scenario)) in
  (forall n : nat, (n <= total)%nat ->
     exists (e' : Engine.SimulationEngine) (g' : Rng),
       steps n e0 g = Some (e', g')
       /\ Sim.is_complete (Engine.state e') = false
       /\ Sim.current_timestep (Engine.state e') = Z.of_nat n
       /\ Tick.timestep <$> Sim.history (Engine.state e') = seqZ 0 (Z.of_nat n)
       /\ Forall (fun r => Tick.achieved_kw r = 0 /\ Tick.dispatches_by_type r = no_counts)
                 (Sim.history (Engine.state e')))
  /\ (forall k : nat,
        exists (e' : Engine.SimulationEngine) (g' : Rng),
          steps (total + 1 + k) e0 g = Some (e', g')
          /\ steps (total + 1) e0 g = Some (e', g')
          /\ Sim.is_complete (Engine.state e') = true
          /\ Sim.is_running (Engine.state e') = false
          /\ Sim.current_timestep (Engine.state e') = timesteps (Scn.scenario scenario)
          /\ Tick.timestep <$> Sim.history (Engine.state e')
             = seqZ 0 (timesteps (Scn.scenario scenario))).
Proof.
  intros Hall Hpos e0 total.
  assert (Hrun : forall n : nat, (n <= total)%nat ->
            exists (e' : Engine.SimulationEngine) (g' : Rng),
              steps n e0 g = Some (e', g')
              /\ Sim.is_complete (Engine.state e') = false
              /\ Sim.current_timestep (Engine.state e') = Z.of_nat n
              /\ Tick.timestep <$> Sim.history (Engine.state e') = seqZ 0 (Z.of_nat n)
              /\ Forall (fun r => Tick.achieved_kw r = 0
                                  /\ Tick.dispatches_by_type r = no_counts)
                        (Sim.history (Engine.state e'))
              /\ Sim.scenario (Engine.state e') = scenario).
  { intros n Hn.
    destruct (steps_running n e0 g)
      as (e' & g' & rs & Hs & _ & Hscn & Hc & Hcur & Hh & Hts & Hrs).
    - exact Hall.
    - reflexivity.
    - simpl. unfold total in Hn. lia.
    - exists e', g'. simpl in Hcur, Hh, Hts, Hscn.
      split; [exact Hs | ]. split; [exact Hc | ]. split; [rewrite Hcur; lia | ].
      split; [rewrite Hh; exact Hts | ]. split; [rewrite Hh; exact Hrs | exact Hscn]. }
  split.
  - intros n Hn. destruct (Hrun n Hn) as (e' & g' & H1 & H2 & H3 & H4 & H5 & _).
    exists e', g'. repeat split; assumption.
  - intros k.
    destruct (Hrun total (le_n _)) as (e1 & g1 & Hs & Hc & Hcur & Hh & _ & Hscn).
    assert (Hover : event_over e1 = true).
    { unfold event_over. rewrite Hscn, Hcur. apply Z.leb_le. unfold total. lia. }
    assert (Hlast : steps (total + 1) e0 g = Some (finished e1, g1)).
    { rewrite steps_add, Hs. cbn [mbind option_bind steps]. unfold step.
      rewrite Hc, (advanceTimestep_over e1 g1 Hover). reflexivity. }
    exists (finished e1), g1. split.
    + rewrite steps_add, Hlast. cbn [mbind option_bind].
      apply steps_after_completion. reflexivity.
    + split; [exact Hlast | ]. split; [reflexivity | ]. split; [reflexivity | ].
      unfold total in Hcur, Hh. rewrite Z2Nat.id in Hcur, Hh by exact Hpos.
      split; [exact Hcur | exact Hh].
Qed.

Lemma run_reaches_completion_one_call_after_the_last_tick_witness :
  exists (e' : Engine.SimulationEngine) (g' : Rng),
    steps 2 (SimulationEngine_new (sample_scenario_dropped 100) DEFAULT_STRATEGY_CONFIG medium)
      sample_rng = Some (e', g')
    /\ Sim.is_complete (Engine.state e') = false
    /\ Sim.current_timestep (Engine.state e') = Z.of_nat 2
    /\ Tick.timestep <$> Sim.history (Engine.state e') = seqZ 0 (Z.of_nat 2)
    /\ Forall (fun r => Tick.achieved_kw r = 0 /\ Tick.dispatches_by_type r = no_counts)
              (Sim.history (Engine.state e')).
Proof.
  refine (proj1 (run_reaches_completion_one_call_after_the_last_tick
                   (sample_scenario_dropped 100) DEFAULT_STRATEGY_CONFIG medium sample_rng
                   _ _) 2%nat _).
  - reflexivity.
  - simpl. lia.
  - simpl. lia.
Defined.

(** ** The engine: invariants of a run *)

(** *** The penalty *)

Lemma Math_pow_nonneg (x y : R) : 0 <= x -> 0 <= Math_pow x y.
Proof.
  intros Hx. unfold Math_pow. destruct (y =? 0); [lra | ].
  destruct (0 <? x); [left; apply exp_pos | ].
  rewrite (Rltb_false x 0) by lra. simpl. lra.
Qed.







(** *** The performance scores *)

Lemma initial_scores_spec (assets : list Asset) :
  map_Forall (fun _ s => 0 <= s <= 1) (initial_scores assets)
  /\ Forall (fun a => is_Some (initial_scores assets !! asset_ident a)) assets.
Proof.
  unfold initial_scores.
  assert (Hgen : forall (l : list Asset) (m : gmap string R),
            map_Forall (fun _ s => 0 <= s <= 1) m ->
            let m' := fold_left (fun (m : gmap string R) a => <[asset_ident a := 0.5]> m) l m in
            map_Forall (fun _ s => 0 <= s <= 1) m'
            /\ (forall k, is_Some (m !! k) -> is_Some (m' !! k))
            /\ Forall (fun a => is_Some (m' !! asset_ident a)) l).
  { induction l as [| a l IH]; intros m Hm; cbn [fold_left]; cbv zeta.
    - split; [exact Hm | ]. split; [auto | constructor].
    - destruct (IH (<[asset_ident a := 0.5]> m)) as (H1 & H2 & H3).
      { apply map_Forall_insert_2; [lra | exact Hm]. }
      cbv zeta in H1, H2, H3. split; [exact H1 | ]. split.
      + intros k Hk. apply H2. apply lookup_insert_is_Some.
        destruct (decide (asset_ident a = k)); [left | right]; auto.
      + constructor; [ | exact H3].
        apply H2. rewrite lookup_insert_eq. eauto. }
  destruct (Hgen assets ∅) as (H1 & _ & H3); [apply map_Forall_empty | ].
  split; assumption.
Qed.

Lemma update_scores_spec (updatedAssets : list Asset) (currentlyDispatched : gset string)
    (scores : gmap string R) :
  map_Forall (fun _ s => 0 <= s <= 1) scores ->
  map_Forall (fun _ s => 0 <= s <= 1)
    (update_scores updatedAssets currentlyDispatched scores)
  /\ (forall k, is_Some (scores !! k) ->
        is_Some (update_scores updatedAssets currentlyDispatched scores !! k)).
Proof.
  intros Hm. unfold update_scores.
  apply (fold_left_invariant
           (fun m : gmap string R =>
              map_Forall (fun _ s => 0 <= s <= 1) m
              /\ (forall k, is_Some (scores !! k) -> is_Some (m !! k)))).
  - split; auto.
  - intros m a [H1 H2].
    assert (Hcur : 0 <= default 0.5 (m !! asset_ident a) <= 1).
    { destruct (m !! asset_ident a) as [s | ] eqn:Hs; simpl; [ | lra].
      exact (H1 _ _ Hs). }
    assert (Hkeep : forall (v : R) (k : string),
              is_Some (scores !! k) -> is_Some (<[asset_ident a := v]> m !! k)).
    { intros v k Hk. apply lookup_insert_is_Some.
      destruct (decide (asset_ident a = k)); [left | right]; auto. }
    destruct (decide (asset_ident a ∈ currentlyDispatched)); [ | split; assumption].
    destruct (asset_dropped a); (split; [ | apply Hkeep]);
      (apply map_Forall_insert_2; [minmax; lra | exact H1]).
Qed.

(** X10.  The update of the performance scores at the end of a tick keeps
    every score within [0, 1] and drops none, whatever the commands of the
    tick. At every point of a run of a new engine each asset performance
    score lies in [0, 1], and every asset of the engine has a score. *)
Theorem performance_scores_stay_within_unit_interval :
  (forall (e e' : Engine.SimulationEngine) (commands : list DispatchCommand) (g g' : Rng),
     (forall (id : string) (s : R),
        Engine.assetPerformanceScores e !! id = Some s -> 0 <= s <= 1) ->
     apply_commands e commands g = Some (e', g') ->
     (forall (id : string) (s : R),
        Engine.assetPerformanceScores e' !! id = Some s -> 0 <= s <= 1)
     /\ (forall id : string,
           is_Some (Engine.assetPerformanceScores e !! id) ->
           is_Some (Engine.assetPerformanceScores e' !! id)))
  /\ (forall (scenario : Scn.Scenario) (strategyConfig : Strategy.StrategyConfig)
             (difficulty : DifficultyLevel) (n : nat) (e' : Engine.SimulationEngine)
             (g g' : Rng),
        steps n (SimulationEngine_new scenario strategyConfig difficulty) g = Some (e', g') ->
        (forall (id : string) (s : R),
           Engine.assetPerformanceScores e' !! id = Some s -> 0 <= s <= 1)
        /\ Forall (fun a => is_Some (Engine.assetPerformanceScores e' !! asset_ident a))
                  (Sim.assets (Engine.state e'))).
Proof.
  split.
  - intros e e' commands g g' Hrange Happ.
    destruct (apply_commands_records e e' commands g g' Happ)
      as (results & a & r & _ & _ & _ & _ & _ & _ & _ & _ & _ & _ & _ & _ & _ & _ & _ & Hsc).
    rewrite Hsc.
    match goal with |- context [update_scores ?u ?c ?m] =>
      destruct (update_scores_spec u c m) as [K1 K2] end.
    { intros id s Hid. exact (Hrange id s Hid). }
    split; [ | exact K2].
    intros id s Hid. exact (K1 id s Hid).
  - intros scenario strategyConfig difficulty n e' g g' Hs.
    destruct (steps_config n _ _ _ _ Hs) as (Ha & _ & _ & _ & Hsc).
    rewrite Hsc, Ha. simpl.
    destruct (initial_scores_spec (Scn.assets scenario)) as [K1 K2].
    split; [ | exact K2].
    intros id s Hid. exact (K1 id s Hid).
Qed.

Lemma performance_scores_stay_within_unit_interval_witness :
  exists (e' : Engine.SimulationEngine) (g' : Rng),
    steps 1 (sample_engine_dropped 100 DEFAULT_STRATEGY_CONFIG) sample_rng = Some (e', g')
    /\ (forall (id : string) (s : R),
          Engine.assetPerformanceScores e' !! id = Some s -> 0 <= s <= 1)
    /\ Forall (fun a => is_Some (Engine.assetPerformanceScores e' !! asset_ident a))
              (Sim.assets (Engine.state e')).
Proof.
  destruct (sample_dropped_step 100 DEFAULT_STRATEGY_CONFIG sample_rng) as [g' Hstep].
  exists (inert_tick (sample_engine_dropped 100 DEFAULT_STRATEGY_CONFIG)), g'.
  assert (Hrun : steps 1 (sample_engine_dropped 100 DEFAULT_STRATEGY_CONFIG) sample_rng
                 = Some (inert_tick (sample_engine_dropped 100 DEFAULT_STRATEGY_CONFIG), g')).
  { cbn [steps]. rewrite Hstep. reflexivity. }
  split; [exact Hrun | ].
  exact (proj2 performance_scores_stay_within_unit_interval (sample_scenario_dropped 100)
           DEFAULT_STRATEGY_CONFIG medium 1%nat _ sample_rng g' Hrun).
Defined.

(** *** The accumulated error *)

Lemma clamp_abs (T x : R) :
  Rabs (Math_max (- T * 5) (Math_min (T * 5) x)) <= 5 * Rabs T.
Proof.
  unfold Rabs at 2. destruct (Rcase_abs T); apply Rabs_le; minmax; lra.
Qed.

Lemma tick_accumulatedError_bounded (e : Engine.SimulationEngine) :
  Rabs (Engine.accumulatedError e) <= 5 * Rabs (tick_targetKw e) ->
  Rabs (tick_accumulatedError e) <= 5 * Rabs (tick_targetKw e).
Proof.
  intros Hacc. unfold tick_accumulatedError.
  destruct (previous_achieved e); [apply clamp_abs | exact Hacc].
Qed.

(** X11.  The accumulated error that a tick hands to the dispatch strategy
    and stores is at most 5 times the target in absolute value as soon as a
    tick has been recorded before. At every point of a run of a new engine
    the accumulated error is at most 5 times the target in absolute value,
    and so is the accumulated error handed to the dispatch strategy in the
    next tick. *)
Theorem accumulated_error_is_bounded :
  (forall e : Engine.SimulationEngine,
     Sim.history (Engine.state e) <> [] ->
     Rabs (Ctx.accumulatedError (tick_context e)) <= 5 * Rabs (tick_targetKw e))
  /\ (forall (scenario : Scn.Scenario) (strategyConfig : Strategy.StrategyConfig)
             (difficulty : DifficultyLevel) (n : nat) (e' : Engine.SimulationEngine)
             (g g' : Rng),
        steps n (SimulationEngine_new scenario strategyConfig difficulty) g = Some (e', g') ->
        Rabs (Engine.accumulatedError e')
        <= 5 * Rabs (default 0 (target_kw (objective (Scn.scenario scenario))))
        /\ Rabs (Ctx.accumulatedError (tick_context e'))
           <= 5 * Rabs (default 0 (target_kw (objective (Scn.scenario scenario))))).
Proof.
  split.
  - intros e Hne. simpl. unfold tick_accumulatedError, previous_achieved.
    destruct (last (Sim.history (Engine.state e))) as [r | ] eqn:Hlast.
    + simpl. apply clamp_abs.
    + apply last_None in Hlast. contradiction.
  - intros scenario strategyConfig difficulty n e' g g' Hs.
    set (target := default 0 (target_kw (objective (Scn.scenario scenario)))).
    assert (Hinv : tick_targetKw e' = target
                   /\ Rabs (Engine.accumulatedError e') <= 5 * Rabs (tick_targetKw e')).
    { apply (steps_invariant
               (fun x => tick_targetKw x = target
                         /\ Rabs (Engine.accumulatedError x) <= 5 * Rabs (tick_targetKw x)))
        with n (SimulationEngine_new scenario strategyConfig difficulty) g g';
        [ | | | exact Hs].
      - intros e1 [H1 H2]. split; assumption.
      - intros e1 _ [H1 H2]. split; [exact H1 | ].
        change (tick_targetKw (inert_tick e1)) with (tick_targetKw e1).
        change (Engine.accumulatedError (inert_tick e1)) with (tick_accumulatedError e1).
        apply tick_accumulatedError_bounded. exact H2.
      - split; [reflexivity | ]. simpl. rewrite Rabs_R0.
        pose proof (Rabs_pos (tick_targetKw
          (SimulationEngine_new scenario strategyConfig difficulty))). lra. }
    destruct Hinv as [Ht Hacc]. rewrite <- Ht.
    split; [exact Hacc | ].
    change (Ctx.accumulatedError (tick_context e')) with (tick_accumulatedError e').
    apply tick_accumulatedError_bounded. exact Hacc.
Qed.

Lemma accumulated_error_is_bounded_witness :
  exists (e' : Engine.SimulationEngine) (g' : Rng),
    steps 1 (sample_engine_dropped 100 DEFAULT_STRATEGY_CONFIG) sample_rng = Some (e', g')
    /\ Rabs (Engine.accumulatedError e') <= 5 * Rabs 100
    /\ Rabs (Ctx.accumulatedError (tick_context e')) <= 5 * Rabs 100.
Proof.
  destruct (sample_dropped_step 100 DEFAULT_STRATEGY_CONFIG sample_rng) as [g' Hstep].
  exists (inert_tick (sample_engine_dropped 100 DEFAULT_STRATEGY_CONFIG)), g'.
  assert (Hrun : steps 1 (sample_engine_dropped 100 DEFAULT_STRATEGY_CONFIG) sample_rng
                 = Some (inert_tick (sample_engine_dropped 100 DEFAULT_STRATEGY_CONFIG), g')).
  { cbn [steps]. rewrite Hstep. reflexivity. }
  split; [exact Hrun | ].
  exact (proj2 accumulated_error_is_bounded (sample_scenario_dropped 100)
           DEFAULT_STRATEGY_CONFIG medium 1%nat _ sample_rng g' Hrun).
Defined.

(** ** Dispatch strategies: ranges *)

(** X12.  estimateDropRisk returns a value in [0, 1] for every asset and
    every risk posture parameters, provided the fatigue of a C&I building is
    not negative. *)
Theorem estimateDropRisk_is_a_probability (asset : Asset) (riskParams : RiskPostureParams) :
  match asset with
  | ACi ci => 0 <= Ci.fatigue (Ci.state ci)
  | _ => True
  end ->
  0 <= estimateDropRisk asset riskParams <= 1.
Proof.
  intros Hf. unfold estimateDropRisk.
  destruct asset as [a | a | a | a | a].
  - minmax; lra.
  - minmax; lra.
  - destruct (Ev.override_active (Ev.state a)); [lra | ].
    repeat match goal with |- context [if ?b then _ else _] => destruct b end; lra.
  - lra.
  - minmax; lra.
Qed.

Lemma estimateDropRisk_is_a_probability_witness :
  0 <= estimateDropRisk (ACi sample_ci) (getRiskParams neutral) <= 1.
Proof.
  apply (estimateDropRisk_is_a_probability (ACi sample_ci) (getRiskParams neutral)).
  simpl. lra.
Defined.

Lemma progress_nonneg (t total : Z) : (0 <= t)%Z -> (0 < total)%Z -> 0 <= IZR t / IZR total.
Proof.
  intros Ht Htot. apply IZR_le in Ht. apply IZR_lt in Htot.
  apply Rmult_le_pos; [lra | ]. left. apply Rinv_0_lt_compat. lra.
Qed.

(** X13.  For 0 <= currentTimestep and totalTimesteps > 0,
    calculateRampUpPercentage lies between the rampUpSpeed of the risk
    posture and 1; for every posture but deadline_aware it is exactly 1 once
    the ramp duration (0.7 of the event for risk_averse, 0.4 for
    opportunity_seeking, 0.5 otherwise) has passed. *)
Theorem ramp_up_percentage_range (context : Ctx.StrategyContext) :
  (0 <= Ctx.currentTimestep context)%Z ->
  (0 < Ctx.totalTimesteps context)%Z ->
  let posture := Strategy.riskPosture (Ctx.strategyConfig context) in
  let rampDuration :=
    match posture with
    | risk_averse => 0.7
    | opportunity_seeking => 0.4
    | _ => 0.5
    end in
  rampUpSpeed (RISK_POSTURE_PARAMS posture) <= calculateRampUpPercentage context <= 1
  /\ (posture <> deadline_aware ->
      rampDuration * IZR (Ctx.totalTimesteps context) <= IZR (Ctx.currentTimestep context) ->
      calculateRampUpPercentage context = 1).
Proof.
  intros Ht Htot posture rampDuration.
  pose proof (progress_nonneg _ _ Ht Htot) as Hp.
  assert (Htot' : 0 < IZR (Ctx.totalTimesteps context)) by (apply IZR_lt in Htot; lra).
  unfold calculateRampUpPercentage, getRiskParams. fold posture.
  set (progress := IZR (Ctx.currentTimestep context) / IZR (Ctx.totalTimesteps context)) in *.
  assert (Hfull : forall d : R, 0 < d ->
            d * IZR (Ctx.totalTimesteps context) <= IZR (Ctx.currentTimestep context) ->
            1 <= progress / d).
  { intros d Hd Hle. unfold progress.
    apply (Rmult_le_reg_r (d * IZR (Ctx.totalTimesteps context))); [nra | ].
    replace (IZR (Ctx.currentTimestep context) / IZR (Ctx.totalTimesteps context) / d
             * (d * IZR (Ctx.totalTimesteps context)))
      with (IZR (Ctx.currentTimestep context)) by (field; lra).
    lra. }
  assert (Hdiv : forall d : R, 0 < d -> 0 <= progress / d).
  { intros d Hd. apply Rmult_le_pos; [exact Hp | ]. left. apply Rinv_0_lt_compat. exact Hd. }
  destruct posture eqn:Hposture; subst rampDuration; cbn [RISK_POSTURE_PARAMS rampUpSpeed].
  - pose proof (Hdiv 0.7 ltac:(lra)). split.
    + minmax; nra.
    + intros _ Hle. pose proof (Hfull 0.7 ltac:(lra) Hle). minmax; lra.
  - pose proof (Hdiv 0.5 ltac:(lra)). split.
    + minmax; nra.
    + intros _ Hle. pose proof (Hfull 0.5 ltac:(lra) Hle). minmax; lra.
  - pose proof (Hdiv 0.4 ltac:(lra)). split.
    + minmax; nra.
    + intros _ Hle. pose proof (Hfull 0.4 ltac:(lra) Hle). minmax; lra.
  - pose proof (Math_pow_nonneg progress 0.5). split.
    + minmax; nra.
    + intros Hne. contradiction.
Qed.

Lemma ramp_up_percentage_range_witness :
  rampUpSpeed (RISK_POSTURE_PARAMS neutral) <= calculateRampUpPercentage sample_context <= 1.
Proof.
  refine (proj1 (ramp_up_percentage_range sample_context _ _)); simpl; lia.
Defined.

(** X14.  adjustTargetForObjective returns between 0.9 and 1.6 times a base
    target >= 0; only the learning_oriented objective can lower the target,
    and the efficiency objective returns the base target unchanged. *)
Theorem objective_scales_the_target_between_090_and_160 (context : Ctx.StrategyContext)
    (baseTarget : R) :
  0 <= baseTarget ->
  0.9 * baseTarget <= adjustTargetForObjective context baseTarget <= 1.6 * baseTarget
  /\ (Strategy.objective (Ctx.strategyConfig context) <> learning_oriented ->
      baseTarget <= adjustTargetForObjective context baseTarget)
  /\ (Strategy.objective (Ctx.strategyConfig context) = efficiency ->
      adjustTargetForObjective context baseTarget = baseTarget).
Proof.
  intros Hb. unfold adjustTargetForObjective, getRiskParams.
  assert (Hm : 0.15 <= reserveMargin
                         (RISK_POSTURE_PARAMS (Strategy.riskPosture (Ctx.strategyConfig context)))
               <= 0.4).
  { destruct (Strategy.riskPosture (Ctx.strategyConfig context)); simpl; lra. }
  destruct (Strategy.objective (Ctx.strategyConfig context)).
  - repeat split; try discriminate; try intros _; nra.
  - repeat split; try discriminate; try intros _; nra.
  - repeat split; try discriminate; try intros _; nra.
  - repeat split; try discriminate; try intros _; nra.
  - pose proof (SIN_bound (IZR (Ctx.currentTimestep context) * 0.5)) as Hs.
    unfold Math_sin. split; [split; nra | ]. split; [intros H; contradiction | discriminate].
Qed.

Lemma objective_scales_the_target_between_090_and_160_witness :
  0.9 * 3 <= adjustTargetForObjective sample_context 3 <= 1.6 * 3.
Proof.
  refine (proj1 (objective_scales_the_target_between_090_and_160 sample_context 3 _)). lra.
Defined.

(** ** Dispatch strategies: the commands built *)





(** ** Dispatch strategies: who is selected, who is commanded *)

(** [dispatchToTarget] raises a [TypeError] exactly when it reaches an
    asset while the context has no [dispatchIntensity]. *)
Lemma dispatchToTarget_raises (context : Ctx.StrategyContext)
    (riskParams : RiskPostureParams) (assets : list Scored.ScoredAsset) (target : R) :
  dispatchToTarget assets target context riskParams = None
  <-> Ctx.dispatchIntensity context = None /\ assets <> [] /\ 0 < target.
Proof.
  split.
  - intros Hnone.
    destruct (Ctx.dispatchIntensity context) as [settings | ] eqn:Hs.
    + destruct (dispatchToTarget_present context riskParams assets) with (remainingTarget := target)
        as [commands Hc]; [rewrite Hs; eauto | ].
      rewrite Hc in Hnone. discriminate.
    + destruct assets as [| sa rest]; [discriminate | ].
      cbn [dispatchToTarget] in Hnone.
      destruct (Rleb_spec target 0); [discriminate | ].
      split; [reflexivity | ]. split; [discriminate | lra].
  - intros (Hs & Hne & Ht). destruct assets as [| sa rest]; [contradiction | ].
    cbn [dispatchToTarget]. rewrite (Rleb_false target 0) by lra.
    rewrite Hs. reflexivity.
Qed.

(** X16.  dispatchToTarget and maintainPreviousDispatch command each of the
    assets they are given at most once and in the given order: the (asset
    id, type) pairs of their commands form a sublist of those of the assets,
    so there are never more commands than assets. dispatchToTarget raises a
    TypeError, instead of returning commands, exactly when the context has
    no dispatchIntensity while the asset list is not empty and the target
    is > 0. *)
Theorem dispatch_loops_command_each_asset_at_most_once_in_order
    (context : Ctx.StrategyContext) (riskParams : RiskPostureParams)
    (assets : list Scored.ScoredAsset) (target : R) :
  let maintained := maintainPreviousDispatch context assets in
  (forall commands : list DispatchCommand,
     dispatchToTarget assets target context riskParams = Some commands ->
     command_address <$> commands `sublist_of` asset_address <$> (Scored.asset <$> assets)
     /\ (length commands <= length assets)%nat)
  /\ (dispatchToTarget assets target context riskParams = None
      <-> Ctx.dispatchIntensity context = None /\ assets <> [] /\ 0 < target)
  /\ command_address <$> maintained `sublist_of` asset_address <$> (Scored.asset <$> assets)
  /\ (length maintained <= length assets)%nat.
Proof.
  intros maintained.
  pose proof (maintainPreviousDispatch_sublist context assets) as H2.
  split; [ | split; [apply dispatchToTarget_raises | ]].
  - intros commands Hc.
    pose proof (dispatchToTarget_sublist context riskParams assets target commands Hc) as H1.
    split; [exact H1 | ].
    apply sublist_length in H1. rewrite !length_fmap in H1. exact H1.
  - split; [exact H2 | ].
    apply sublist_length in H2. rewrite !length_fmap in H2. exact H2.
Qed.

Lemma dispatch_loops_command_each_asset_at_most_once_in_order_witness :
  exists commands : list DispatchCommand,
    dispatchToTarget [{| Scored.asset := AHvac sample_hvac; Scored.capacity := 4;
                         Scored.score := 1 |}] 3 sample_context (getRiskParams neutral)
    = Some commands
    /\ (length commands <= 1)%nat.
Proof.
  destruct (dispatchToTarget_present sample_context (getRiskParams neutral)
              [{| Scored.asset := AHvac sample_hvac; Scored.capacity := 4;
                  Scored.score := 1 |}]) with (remainingTarget := 3) as [commands Hc];
    [simpl; eauto | ].
  exists commands. split; [exact Hc | ].
  exact (proj2 (proj1 (dispatch_loops_command_each_asset_at_most_once_in_order
                         sample_context (getRiskParams neutral) _ 3) commands Hc)).
Defined.

Lemma scored_entry_selected (context : Ctx.StrategyContext) (a : Asset)
    (selected : list Scored.ScoredAsset) :
  selectAndOrderAssets context = Some selected ->
  a ∈ Ctx.assets context ->
  eligible (Ctx.currentTimestep context) a = true ->
  asset_ident a ∈ Ctx.previouslyDispatchedAssetIds context ->
  a ∈ Scored.asset <$> selected.
Proof.
  intros Hsel Ha Hel Hprev. unfold eligible in Hel.
  apply andb_prop in Hel. destruct Hel as [Hnd Hcap].
  destruct (selectAndOrderAssets_scored context selected Hsel) as (scored & Hm & ->).
  destruct (scored_entries context _ scored Hm) as [Hassets Hcaps].
  assert (Hin : a ∈ Scored.asset <$> scored).
  { rewrite Hassets. apply list_elem_of_In, List.filter_In.
    split; [apply list_elem_of_In; exact Ha | exact Hnd]. }
  apply list_elem_of_fmap in Hin. destruct Hin as (sa & -> & Hsa).
  apply list_elem_of_fmap_2.
  rewrite Forall_forall in Hcaps. pose proof (Hcaps sa Hsa) as Hc.
  unfold selection_of.
  match goal with |- context [sort_by ?cmp ?l] =>
    pose proof (sort_by_Permutation cmp l) as Hperm; set (sorted := sort_by cmp l) in * end.
  apply elem_of_app. left.
  apply list_elem_of_In, List.filter_In. split.
  - apply list_elem_of_In. rewrite Hperm.
    apply list_elem_of_In, List.filter_In. split; [apply list_elem_of_In; exact Hsa | ].
    rewrite Hc. exact Hcap.
  - unfold previously_dispatched. apply bool_decide_eq_true. exact Hprev.
Qed.

Lemma selection_of_nonempty (context : Ctx.StrategyContext)
    (scored : list Scored.ScoredAsset) :
  List.filter (fun sa => Scored.capacity sa >? 0) scored <> [] ->
  selection_of context scored <> [].
Proof.
  intros Hne. unfold selection_of.
  match goal with |- context [sort_by ?cmp ?l] =>
    pose proof (sort_by_Permutation cmp l) as Hperm; set (sorted := sort_by cmp l) in * end.
  assert (Hsorted : sorted <> []).
  { intros Hnil. rewrite Hnil in Hperm. symmetry in Hperm.
    apply Permutation_nil_r in Hperm. contradiction. }
  destruct (List.filter (previously_dispatched context) sorted) as [| p ps] eqn:Hprev.
  - cbn [app length].
    pose proof (filter_partition_Permutation (previously_dispatched context) sorted) as Hpart.
    rewrite Hprev in Hpart. cbn [app] in Hpart.
    destruct (List.filter (fun sa => negb (previously_dispatched context sa)) sorted)
      as [| q qs] eqn:Hnot.
    + apply Permutation_nil_l in Hpart. congruence.
    + match goal with |- take ?k _ <> [] => destruct k eqn:Hk end.
      * exfalso. lia.
      * cbn [take]. discriminate.
  - discriminate.
Qed.

(** X17.  selectAndOrderAssets returns only assets that are not dropped and
    have available capacity > 0, none more often than it occurs in the asset
    list, and it keeps every such asset that was dispatched in the previous
    tick. For 0 <= currentTimestep and totalTimesteps > 0, which make the
    ramp-up percentage a number, it returns the empty list only when there
    is no such asset at all. It returns whenever the context carries
    dispatchIntensity. *)
Theorem selection_keeps_previous_dispatches_and_is_never_empty
    (context : Ctx.StrategyContext) :
  (is_Some (Ctx.dispatchIntensity context) -> is_Some (selectAndOrderAssets context))
  /\ (forall selected : list Scored.ScoredAsset,
        selectAndOrderAssets context = Some selected ->
        let candidates :=
          List.filter (eligible (Ctx.currentTimestep context)) (Ctx.assets context) in
        let chosen := Scored.asset <$> selected in
        chosen ⊆+ candidates
        /\ (forall a : Asset,
              a ∈ candidates ->
              asset_ident a ∈ Ctx.previouslyDispatchedAssetIds context ->
              a ∈ chosen)
        /\ ((0 <= Ctx.currentTimestep context)%Z ->
            (0 < Ctx.totalTimesteps context)%Z ->
            (chosen = [] <-> candidates = []))).
Proof.
  split; [apply selectAndOrderAssets_present | ].
  intros selected Hsel candidates chosen.
  pose proof (selectAndOrderAssets_submseteq context selected Hsel) as Hsub.
  split; [exact Hsub | ]. split.
  - intros a Ha Hprev. apply list_elem_of_In, List.filter_In in Ha. destruct Ha as [Ha Hel].
    apply (scored_entry_selected context a selected Hsel);
      [apply list_elem_of_In; exact Ha | exact Hel | exact Hprev].
  - intros _ _. split.
    + intros Hnil. destruct (decide (candidates = [])) as [Hc | Hc]; [exact Hc | ].
      exfalso.
      destruct (selectAndOrderAssets_scored context selected Hsel) as (scored & Hm & ->).
      apply (selection_of_nonempty context scored).
      * intros Hempty. apply Hc. unfold candidates.
        rewrite <- (scored_assets_eligible context _ scored Hm), Hempty. reflexivity.
      * unfold chosen in Hnil. apply fmap_nil_inv in Hnil. exact Hnil.
    + intros Hnil. fold candidates in Hsub. rewrite Hnil in Hsub.
      apply submseteq_nil_r in Hsub. exact Hsub.
Qed.

Lemma selection_keeps_previous_dispatches_and_is_never_empty_witness :
  exists selected : list Scored.ScoredAsset,
    selectAndOrderAssets sample_context = Some selected
    /\ Scored.asset <$> selected <> [].
Proof.
  destruct (selection_keeps_previous_dispatches_and_is_never_empty sample_context)
    as [Hreturns Hsel].
  destruct Hreturns as [selected Hs]; [simpl; eauto | ].
  exists selected. split; [exact Hs | ].
  destruct (Hsel selected Hs) as (_ & _ & Hempty).
  intros Hnil. apply Hempty in Hnil; [ | simpl; lia | simpl; lia].
  revert Hnil. unfold eligible. simpl.
  rewrite (Rltb_true 0 4) by lra. discriminate.
Defined.

(** X18.  Whatever the strategy configuration and the random outcomes, every
    command of executeComposableStrategy is addressed, by id and type, to an
    asset of the context that is not dropped and has available capacity > 0;
    no such asset is commanded more often than it occurs in the asset list,
    so there are at most as many commands as such assets.
    executeComposableStrategy returns its commands whenever the context
    carries dispatchIntensity. *)
Theorem dispatch_commands_only_eligible_assets (context : Ctx.StrategyContext) (g : Rng) :
  (is_Some (Ctx.dispatchIntensity context) ->
   is_Some (executeComposableStrategy context g))
  /\ (forall (commands : list DispatchCommand) (g' : Rng),
        executeComposableStrategy context g = Some (commands, g') ->
        let candidates :=
          List.filter (eligible (Ctx.currentTimestep context)) (Ctx.assets context) in
        command_address <$> commands ⊆+ asset_address <$> candidates
        /\ Forall (fun cmd =>
                     exists a : Asset,
                       a ∈ Ctx.assets context
                       /\ asset_ident a = asset_id cmd
                       /\ asset_type a = command_kind (command cmd)
                       /\ asset_dropped a = false
                       /\ 0 < getAvailableCapacity a (Ctx.currentTimestep context))
                  commands
        /\ (length commands <= length candidates)%nat).
Proof.
  split; [apply executeComposableStrategy_present | ].
  intros commands g' Hrun candidates.
  pose proof (executeComposableStrategy_addresses context g commands g' Hrun) as Hsub.
  fold candidates in Hsub.
  split; [exact Hsub | ]. split.
  - apply Forall_forall. intros cmd Hcmd.
    assert (Haddr : command_address cmd ∈ asset_address <$> candidates).
    { eapply elem_of_submseteq; [ | exact Hsub]. apply list_elem_of_fmap_2. exact Hcmd. }
    apply list_elem_of_fmap in Haddr. destruct Haddr as (a & Heq & Ha).
    apply list_elem_of_In, List.filter_In in Ha. destruct Ha as [Ha Hel].
    unfold eligible in Hel. apply andb_prop in Hel. destruct Hel as [Hnd Hcap].
    unfold command_address, asset_address in Heq. injection Heq as Hid Hkind.
    exists a. split; [apply list_elem_of_In; exact Ha | ].
    split; [congruence | ]. split; [congruence | ].
    split; [apply negb_true_iff; exact Hnd | ].
    destruct (Rltb_spec 0 (getAvailableCapacity a (Ctx.currentTimestep context)));
      [assumption | discriminate].
  - apply submseteq_length in Hsub. rewrite !length_fmap in Hsub. exact Hsub.
Qed.

Lemma dispatch_commands_only_eligible_assets_witness :
  exists (commands : list DispatchCommand) (g' : Rng),
    executeComposableStrategy sample_context sample_rng = Some (commands, g')
    /\ (length commands <= 1)%nat.
Proof.
  destruct (dispatch_commands_only_eligible_assets sample_context sample_rng)
    as [Hreturns Hcommands].
  destruct Hreturns as [[commands g'] Hrun]; [simpl; eauto | ].
  exists commands, g'. split; [exact Hrun | ].
  destruct (Hcommands commands g' Hrun) as (_ & _ & Hlen).
  revert Hlen. unfold eligible. simpl. rewrite (Rltb_true 0 4) by lra. simpl. auto.
Defined.

Lemma build_commandMap_complete (commands : list DispatchCommand) :
  NoDup (asset_id <$> commands) ->
  Forall (fun c => build_commandMap commands !! asset_id c = Some c) commands.
Proof.
  intros Hnd. unfold build_commandMap.
  pose proof (fold_left_fst_lookup
                (fun (acc : gmap string DispatchCommand * unit) c =>
                   (<[asset_id c := c]> (fst acc), tt))
                asset_id (fun c => c) commands (fun _ _ => eq_refl) Hnd (∅, tt)) as H.
  assert (Hfst : forall (l : list DispatchCommand) (m : gmap string DispatchCommand),
            fst (fold_left (fun (acc : gmap string DispatchCommand * unit) c =>
                              (<[asset_id c := c]> (fst acc), tt)) l (m, tt))
            = fold_left (fun (m : gmap string DispatchCommand) c => <[asset_id c := c]> m) l m).
  { induction l as [| x l IH]; intros m; simpl; [reflexivity | apply IH]. }
  rewrite Hfst in H. exact H.
Qed.

Lemma NoDup_of_submseteq {A : Type} (l k : list A) : l ⊆+ k -> NoDup k -> NoDup l.
Proof.
  intros Hsub Hk. apply submseteq_Permutation in Hsub. destruct Hsub as [k' Hperm].
  rewrite Hperm in Hk. apply NoDup_app in Hk. tauto.
Qed.

(** X19.  When the asset ids of the context are pairwise distinct, the
    commands of executeComposableStrategy have pairwise distinct asset ids:
    the command map that the engine builds from them holds every command
    under its asset id, and an asset that finds a command under its id finds
    a command of its own type. executeComposableStrategy returns its
    commands whenever the context carries dispatchIntensity. *)
Theorem distinct_ids_give_each_asset_its_own_command (context : Ctx.StrategyContext)
    (g : Rng) :
  NoDup (asset_ident <$> Ctx.assets context) ->
  (is_Some (Ctx.dispatchIntensity context) ->
   is_Some (executeComposableStrategy context g))
  /\ (forall (commands : list DispatchCommand) (g' : Rng),
        executeComposableStrategy context g = Some (commands, g') ->
        let commandMap := build_commandMap commands in
        NoDup (asset_id <$> commands)
        /\ Forall (fun cmd => commandMap !! asset_id cmd = Some cmd) commands
        /\ Forall (fun a =>
                     match commandMap !! asset_ident a with
                     | Some cmd =>
                         cmd ∈ commands /\ command_kind (command cmd) = asset_type a
                     | None => True
                     end)
                  (Ctx.assets context)).
Proof.
  intros Hnd. split; [apply executeComposableStrategy_present | ].
  intros commands g' Hrun commandMap.
  pose proof (executeComposableStrategy_addresses context g commands g' Hrun) as Hsub.
  assert (Hids : NoDup (asset_id <$> commands)).
  { assert (Hfst : asset_id <$> commands ⊆+ asset_ident <$> Ctx.assets context).
    { replace (asset_id <$> commands) with (fst <$> (command_address <$> commands))
        by (rewrite <- list_fmap_compose; reflexivity).
      rewrite asset_address_ident.
      apply fmap_submseteq. etransitivity; [exact Hsub | ].
      apply fmap_submseteq, sublist_submseteq.
      clear. induction (Ctx.assets context) as [| a l IH]; simpl; [constructor | ].
      destruct (eligible _ a); [apply sublist_skip | apply sublist_cons]; exact IH. }
    eapply NoDup_of_submseteq; [exact Hfst | exact Hnd]. }
  split; [exact Hids | ]. split; [apply build_commandMap_complete; exact Hids | ].
  apply Forall_forall. intros a Ha.
  destruct (commandMap !! asset_ident a) as [c | ] eqn:Hc; [ | exact I].
  apply build_commandMap_lookup in Hc. destruct Hc as [Hin Hid].
  split; [exact Hin | ].
  assert (Haddr : command_address c
                  ∈ asset_address <$> List.filter (eligible (Ctx.currentTimestep context))
                                        (Ctx.assets context)).
  { eapply elem_of_submseteq; [ | exact Hsub]. apply list_elem_of_fmap_2. exact Hin. }
  apply list_elem_of_fmap in Haddr. destruct Haddr as (a' & Heq & Ha').
  apply list_elem_of_In, List.filter_In in Ha'. destruct Ha' as [Ha' _].
  apply list_elem_of_In in Ha'.
  unfold command_address, asset_address in Heq. injection Heq as Hid' Hkind.
  assert (a' = a).
  { apply (NoDup_fmap_eq asset_ident (Ctx.assets context)); try assumption. congruence. }
  subst a'. exact Hkind.
Qed.

Lemma distinct_ids_give_each_asset_its_own_command_witness :
  exists (commands : list DispatchCommand) (g' : Rng),
    executeComposableStrategy sample_context sample_rng = Some (commands, g')
    /\ NoDup (asset_id <$> commands).
Proof.
  assert (Hnd : NoDup (asset_ident <$> Ctx.assets sample_context))
    by (simpl; apply NoDup_singleton).
  destruct (distinct_ids_give_each_asset_its_own_command sample_context sample_rng Hnd)
    as [Hreturns Hcommands].
  destruct Hreturns as [[commands g'] Hrun]; [simpl; eauto | ].
  exists commands, g'. split; [exact Hrun | ].
  exact (proj1 (Hcommands commands g' Hrun)).
Defined.

(** ** The final score *)

Lemma Math_round_between (a b : Z) (x : R) :
  IZR a <= x <= IZR b -> IZR a <= Math_round x <= IZR b.
Proof.
  intros [Hlo Hhi]. unfold Math_round.
  destruct (base_Int_part (x + / 2)) as [Hle Hgt].
  split.
  - assert (H : IZR (a - 1) < IZR (Int_part (x + / 2))) by (rewrite minus_IZR; lra).
    apply lt_IZR in H. apply IZR_le. lia.
  - assert (H : IZR (Int_part (x + / 2)) < IZR (b + 1)) by (rewrite plus_IZR; lra).
    apply lt_IZR in H. apply IZR_le. lia.
Qed.

Lemma grade_of_position (p : R) :
  exists i : nat,
    grade_scale !! i = Some (grade_of p)
    /\ match i with
       | 0%nat => p < 0.01
       | 1%nat => 0.01 <= p < 0.03
       | 2%nat => 0.03 <= p < 0.05
       | 3%nat => 0.05 <= p < 0.10
       | 4%nat => 0.10 <= p < 0.15
       | 5%nat => 0.15 <= p < 0.25
       | _ => 0.25 <= p
       end.
Proof.
  unfold grade_of.
  destruct (Rltb_spec p 0.01); [exists 0%nat; split; [reflexivity | lra] | ].
  destruct (Rltb_spec p 0.03); [exists 1%nat; split; [reflexivity | lra] | ].
  destruct (Rltb_spec p 0.05); [exists 2%nat; split; [reflexivity | lra] | ].
  destruct (Rltb_spec p 0.10); [exists 3%nat; split; [reflexivity | lra] | ].
  destruct (Rltb_spec p 0.15); [exists 4%nat; split; [reflexivity | lra] | ].
  destruct (Rltb_spec p 0.25); [exists 5%nat; split; [reflexivity | lra] | ].
  exists 6%nat; split; [reflexivity | lra].
Qed.

Lemma length_filter_le {A : Type} (p : A -> bool) (l : list A) :
  (length (List.filter p l) <= length l)%nat.
Proof.
  induction l as [| x l IH]; simpl; [lia | ]. destruct (p x); simpl; lia.
Qed.

(** X20.  calculateFinalScore of an empty history is all zeros with 100
    percent of the target met and the grade N/A. Otherwise the grade is the
    one of the average penalty per tick, one of A+, A, B+, B, C, D, F; it is
    A+ when the total penalty is <= 0; the number of dropped assets is at
    most the number of assets; and a larger average penalty never gives a
    better grade. *)
Theorem final_score_grades (state : Sim.SimulationState) :
  let score := calculateFinalScore state in
  (Sim.history state = [] ->
   score = {| Score.totalPenalty := 0; Score.averagePenalty := 0;
              Score.percentTargetMet := 100; Score.assetsDropped := 0;
              Score.grade := "N/A" |})
  /\ (Sim.history state <> [] ->
      Score.grade score
      = grade_of (Sim.total_penalty state / INR (length (Sim.history state)))
      /\ Score.grade score ∈ grade_scale
      /\ (Sim.total_penalty state <= 0 -> Score.grade score = "A+"%string)
      /\ (Score.assetsDropped score <= length (Sim.assets state))%nat)
  /\ (forall p q : R,
        p <= q ->
        exists i j : nat,
          grade_scale !! i = Some (grade_of p)
          /\ grade_scale !! j = Some (grade_of q)
          /\ (i <= j)%nat).
Proof.
  intros score. subst score. unfold calculateFinalScore.
  split; [intros ->; reflexivity | ]. split.
  - intros Hne.
    destruct (Sim.history state) as [| r rs] eqn:Hh; [contradiction | ].
    cbn [length Nat.eqb Score.grade Score.assetsDropped].
    split; [reflexivity | ]. split; [ | split].
    + destruct (grade_of_position (Sim.total_penalty state / INR (S (length rs))))
        as (i & Hi & _).
      eapply list_elem_of_lookup_2. exact Hi.
    + intros Hz. unfold grade_of.
      assert (Hn : 0 < INR (S (length rs))) by (apply lt_0_INR; lia).
      assert (Hq : Sim.total_penalty state / INR (S (length rs)) <= 0).
      { unfold Rdiv. assert (0 < / INR (S (length rs))) by (apply Rinv_0_lt_compat; exact Hn).
        nra. }
      rewrite Rltb_true by lra. reflexivity.
    + apply length_filter_le.
  - intros p q Hpq.
    destruct (grade_of_position p) as (i & Hi & Hpi).
    destruct (grade_of_position q) as (j & Hj & Hqj).
    exists i, j. split; [exact Hi | ]. split; [exact Hj | ].
    destruct i as [| [| [| [| [| [| i]]]]]], j as [| [| [| [| [| [| j]]]]]];
      try lia; try lra.
    apply lookup_lt_Some in Hi, Hj. simpl in Hi, Hj. lia.
Qed.

(** ** The enhanced score *)

Lemma count_of_bump (t u : AssetType) (c : TypeCounts) :
  count_of t (bump u c) = if decide (t = u) then S (count_of t c) else count_of t c.
Proof. destruct t, u; reflexivity. Qed.

Lemma total_count_bump (u : AssetType) (c : TypeCounts) :
  sum_list ((fun t => count_of t (bump u c)) <$> allAssetTypes)
  = S (sum_list ((fun t => count_of t c) <$> allAssetTypes)).
Proof. destruct u; simpl; lia. Qed.

Lemma assetsByType_spec (assets : list Asset) :
  let stats := assetsByType assets in
  sum_list ((fun t => count_of t (fst stats)) <$> allAssetTypes) = length assets
  /\ sum_list ((fun t => count_of t (snd stats)) <$> allAssetTypes)
     = length (List.filter asset_dropped assets)
  /\ (forall t, (count_of t (snd stats) <= count_of t (fst stats))%nat).
Proof.
  unfold assetsByType.
  assert (Hgen : forall (l : list Asset) (acc : TypeCounts * TypeCounts),
            let stats :=
              fold_left
                (fun (acc : TypeCounts * TypeCounts) a =>
                   (bump (asset_type a) (fst acc),
                    if asset_dropped a then bump (asset_type a) (snd acc) else snd acc))
                l acc in
            sum_list ((fun t => count_of t (fst stats)) <$> allAssetTypes)
            = (sum_list ((fun t => count_of t (fst acc)) <$> allAssetTypes) + length l)%nat
            /\ sum_list ((fun t => count_of t (snd stats)) <$> allAssetTypes)
               = (sum_list ((fun t => count_of t (snd acc)) <$> allAssetTypes)
                  + length (List.filter asset_dropped l))%nat
            /\ ((forall t, (count_of t (snd acc) <= count_of t (fst acc))%nat) ->
                forall t, (count_of t (snd stats) <= count_of t (fst stats))%nat)).
  { induction l as [| a l IH]; intros acc; cbn [fold_left]; cbv zeta.
    - cbn [length List.filter]. repeat split; try lia. auto.
    - specialize (IH (bump (asset_type a) (fst acc),
                      if asset_dropped a then bump (asset_type a) (snd acc) else snd acc)).
      cbv zeta in IH. destruct IH as (I1 & I2 & I3). cbn [fst snd] in I1, I2, I3.
      rewrite I1, I2, total_count_bump. cbn [length List.filter].
      split; [lia | ]. split.
      + destruct (asset_dropped a); [rewrite total_count_bump; cbn [length]; lia | lia].
      + intros Hle. apply I3. intros t. specialize (Hle t).
        rewrite count_of_bump.
        destruct (asset_dropped a); [rewrite count_of_bump | ];
          destruct (decide (t = asset_type a)); lia. }
  destruct (Hgen assets (no_counts, no_counts)) as (H1 & H2 & H3).
  cbv zeta. split; [exact H1 | ]. split; [exact H2 | ].
  apply H3. intros t. destruct t; simpl; lia.
Qed.

Lemma filter_complement_length {A : Type} (p : A -> bool) (l : list A) :
  (length (List.filter (fun x => negb (p x)) l) + length (List.filter p l))%nat = length l.
Proof.
  induction l as [| x l IH]; simpl; [reflexivity | ].
  destruct (p x); simpl; lia.
Qed.

Lemma compliance_range (total dropped : nat) :
  (dropped <= total)%nat ->
  0 <= Math_round ((if (0 <? total)%nat
                    then (INR total - INR dropped) / INR total * 100 else 100) * 10) / 10
    <= 100.
Proof.
  intros Hle.
  assert (Hr : 0 <= (if (0 <? total)%nat
                     then (INR total - INR dropped) / INR total * 100 else 100) <= 100).
  { destruct (0 <? total)%nat eqn:Hpos; [ | lra].
    apply Nat.ltb_lt in Hpos. apply lt_0_INR in Hpos. apply le_INR in Hle.
    pose proof (pos_INR dropped).
    destruct (div_unit_interval (INR total - INR dropped) (INR total) Hpos ltac:(lra)).
    lra. }
  match goal with |- context [Math_round ?x] =>
    pose proof (Math_round_between 0 1000 x ltac:(lra)) end.
  lra.
Qed.

Lemma performance_of_range (stats : TypeCounts * TypeCounts) (n : nat) (t : AssetType) :
  (forall t, (count_of t (snd stats) <= count_of t (fst stats))%nat) ->
  let p := performance_of stats n t in
  (Perf.totalDropped p <= Perf.totalDispatched p)%nat /\ 0 <= Perf.complianceRate p <= 100.
Proof.
  intros Hle. cbn [performance_of Perf.totalDropped Perf.totalDispatched Perf.complianceRate].
  split; [apply Hle | apply compliance_range, Hle].
Qed.

(** X21.  For a non-empty history calculateEnhancedFinalScore counts every
    asset exactly once: performed plus dropped assets is the number of
    assets; the per-type table has one row per asset type in a fixed order;
    its totalDispatched column sums to the number of assets and its
    totalDropped column to totalAssetsDropped; and in each row dropped <=
    dispatched and the compliance rate lies in [0, 100]. *)
Theorem enhanced_score_counts_every_asset_once (state : Sim.SimulationState) :
  Sim.history state <> [] ->
  let score := calculateEnhancedFinalScore state in
  let performance := Enhanced.assetTypePerformance score in
  (Enhanced.totalAssetsPerformed score + Enhanced.totalAssetsDropped score)%nat
  = length (Sim.assets state)
  /\ Perf.assetType <$> performance = allAssetTypes
  /\ sum_list (Perf.totalDispatched <$> performance) = length (Sim.assets state)
  /\ sum_list (Perf.totalDropped <$> performance) = Enhanced.totalAssetsDropped score
  /\ Forall (fun p => (Perf.totalDropped p <= Perf.totalDispatched p)%nat
                      /\ 0 <= Perf.complianceRate p <= 100)
            performance.
Proof.
  intros Hne score performance. subst performance score.
  unfold calculateEnhancedFinalScore.
  destruct (Sim.history state) as [| r rs] eqn:Hh; [contradiction | ].
  cbn [length Nat.eqb Enhanced.totalAssetsPerformed Enhanced.totalAssetsDropped
       Enhanced.assetTypePerformance].
  destruct (assetsByType_spec (Sim.assets state)) as (H1 & H2 & H3). cbv zeta in H1, H2, H3.
  split; [apply filter_complement_length | ].
  split; [reflexivity | ].
  split; [exact H1 | ]. split; [exact H2 | ].
  apply Forall_forall. intros p Hp.
  apply list_elem_of_In, in_map_iff in Hp. destruct Hp as (t & <- & _).
  apply performance_of_range. exact H3.
Qed.

Lemma enhanced_score_counts_every_asset_once_witness :
  let score :=
    calculateEnhancedFinalScore
      (Engine.state (sample_engine_after DEFAULT_STRATEGY_CONFIG sample_rng)) in
  let performance := Enhanced.assetTypePerformance score in
  (Enhanced.totalAssetsPerformed score + Enhanced.totalAssetsDropped score)%nat = 1%nat
  /\ Perf.assetType <$> performance = allAssetTypes
  /\ sum_list (Perf.totalDispatched <$> performance) = 1%nat
  /\ sum_list (Perf.totalDropped <$> performance) = Enhanced.totalAssetsDropped score
  /\ Forall (fun p => (Perf.totalDropped p <= Perf.totalDispatched p)%nat
                      /\ 0 <= Perf.complianceRate p <= 100)
            performance.
Proof.
  refine (enhanced_score_counts_every_asset_once
            (Engine.state (sample_engine_after DEFAULT_STRATEGY_CONFIG sample_rng)) _).
  simpl. discriminate.
Defined.

(** A [reduce] that keeps, of two entries, the one the order prefers, the
    later one on ties: its result is an entry of the array that every entry
    is below. *)
Lemma fold_left_pick {A : Type} (le : A -> A -> Prop) (pick : A -> A -> A) :
  (forall a, le a a) ->
  (forall a b c, le a b -> le b c -> le a c) ->
  (forall a b, (pick a b = a /\ le b a) \/ (pick a b = b /\ le a b)) ->
  forall (l : list A) (x : A),
  fold_left pick l x ∈ x :: l /\ Forall (fun y => le y (fold_left pick l x)) (x :: l).
Proof.
  intros Hrefl Htrans Hpick. induction l as [| y l IH]; intros x; cbn [fold_left].
  - split; [apply list_elem_of_here | constructor; [apply Hrefl | constructor]].
  - destruct (IH (pick x y)) as [Hin Hall].
    inversion Hall as [| ? ? Hp Hrest]; subst.
    destruct (Hpick x y) as [[Heq Hle] | [Heq Hle]]; rewrite Heq in *.
    + split.
      * apply elem_of_cons in Hin. destruct Hin as [-> | Hin];
          [apply list_elem_of_here | do 2 apply list_elem_of_further; exact Hin].
      * constructor; [exact Hp | ]. constructor; [ | exact Hrest].
        eapply Htrans; [exact Hle | exact Hp].
    + split.
      * apply list_elem_of_further. exact Hin.
      * constructor; [ | constructor; [exact Hp | exact Hrest]].
        eapply Htrans; [exact Hle | exact Hp].
Qed.

Lemma pick_type_spec (le : Perf.AssetTypePerformance -> Perf.AssetTypePerformance -> Prop)
    (pick : Perf.AssetTypePerformance -> Perf.AssetTypePerformance
            -> Perf.AssetTypePerformance)
    (active : list Perf.AssetTypePerformance) :
  (forall a, le a a) ->
  (forall a b c, le a b -> le b c -> le a c) ->
  (forall a b, (pick a b = a /\ le b a) \/ (pick a b = b /\ le a b)) ->
  active <> [] ->
  exists p, p ∈ active /\ Perf.assetType p = pick_type pick active
            /\ Forall (fun q => le q p) active.
Proof.
  intros Hrefl Htrans Hpick Hne. unfold pick_type, reduce1.
  destruct active as [| x l]; [contradiction | ].
  destruct (fold_left_pick le pick Hrefl Htrans Hpick l x) as [Hin Hall].
  exists (fold_left pick l x). split; [exact Hin | split; [reflexivity | exact Hall]].
Qed.

(** X22.  For a non-empty history and a non-empty asset list, the most
    dispatched, best performing and worst performing asset types named by
    calculateEnhancedFinalScore are types with at least one asset: the most
    dispatched has the largest asset count of all types, and the best and
    the worst have the largest and the smallest compliance rate among the
    types with assets. *)
Theorem enhanced_score_picks_extreme_asset_types (state : Sim.SimulationState) :
  Sim.history state <> [] ->
  Sim.assets state <> [] ->
  let score := calculateEnhancedFinalScore state in
  let active :=
    List.filter (fun p => (0 <? Perf.totalDispatched p)%nat)
                (Enhanced.assetTypePerformance score) in
  exists most best worst : Perf.AssetTypePerformance,
    most ∈ active /\ best ∈ active /\ worst ∈ active
    /\ Perf.assetType most = Enhanced.mostDispatchedAssetType score
    /\ Perf.assetType best = Enhanced.bestPerformingAssetType score
    /\ Perf.assetType worst = Enhanced.worstPerformingAssetType score
    /\ Forall (fun p => (Perf.totalDispatched p <= Perf.totalDispatched most)%nat)
              (Enhanced.assetTypePerformance score)
    /\ Forall (fun p => Perf.complianceRate worst <= Perf.complianceRate p
                        <= Perf.complianceRate best)
              active.
Proof.
  intros Hh Ha score active.
  assert (Hscore : Enhanced.assetTypePerformance score
                   = List.map (performance_of (assetsByType (Sim.assets state))
                                 (length (Sim.history state))) allAssetTypes
                   /\ Enhanced.mostDispatchedAssetType score
                      = pick_type (fun a b => if (Perf.totalDispatched b
                                                  <? Perf.totalDispatched a)%nat
                                              then a else b) active
                   /\ Enhanced.bestPerformingAssetType score
                      = pick_type (fun a b => if Perf.complianceRate a >? Perf.complianceRate b
                                              then a else b) active
                   /\ Enhanced.worstPerformingAssetType score
                      = pick_type (fun a b => if Perf.complianceRate a <? Perf.complianceRate b
                                              then a else b) active).
  { subst active score. unfold calculateEnhancedFinalScore.
    destruct (Sim.history state) as [| r rs]; [contradiction | ].
    cbn [length Nat.eqb Enhanced.assetTypePerformance Enhanced.mostDispatchedAssetType
         Enhanced.bestPerformingAssetType Enhanced.worstPerformingAssetType].
    repeat split; reflexivity. }
  destruct Hscore as (Hperf & Hmost & Hbest & Hworst).
  assert (Hactive : active <> []).
  { destruct (assetsByType_spec (Sim.assets state)) as (H1 & _). cbv zeta in H1.
    intros Hnil. subst active. rewrite Hperf in Hnil.
    assert (Hlen : (0 < length (Sim.assets state))%nat)
      by (destruct (Sim.assets state); [contradiction | simpl; lia]).
    rewrite <- H1 in Hlen. unfold allAssetTypes in Hnil, Hlen.
    cbn [List.map List.filter performance_of Perf.totalDispatched] in Hnil.
    cbn [fmap list_fmap sum_list sum_list_with] in Hlen. unfold Datatypes.id in Hlen.
    repeat match type of Hnil with
           | context [(0 <? ?n)%nat] =>
               destruct (Nat.ltb_spec 0 n); [discriminate | ]
           end.
    lia. }
  destruct (pick_type_spec
              (fun a b => (Perf.totalDispatched a <= Perf.totalDispatched b)%nat)
              (fun a b => if (Perf.totalDispatched b <? Perf.totalDispatched a)%nat
                          then a else b) active) as (most & Hm1 & Hm2 & Hm3);
    [intros; lia | intros; lia | | exact Hactive | ].
  { intros a b. destruct (Nat.ltb_spec (Perf.totalDispatched b) (Perf.totalDispatched a));
      [left | right]; split; try reflexivity; lia. }
  destruct (pick_type_spec
              (fun a b => Perf.complianceRate a <= Perf.complianceRate b)
              (fun a b => if Perf.complianceRate a >? Perf.complianceRate b
                          then a else b) active) as (best & Hb1 & Hb2 & Hb3);
    [intros; lra | intros; lra | | exact Hactive | ].
  { intros a b. destruct (Rltb_spec (Perf.complianceRate b) (Perf.complianceRate a));
      [left | right]; split; try reflexivity; lra. }
  destruct (pick_type_spec
              (fun a b => Perf.complianceRate b <= Perf.complianceRate a)
              (fun a b => if Perf.complianceRate a <? Perf.complianceRate b
                          then a else b) active) as (worst & Hw1 & Hw2 & Hw3);
    [intros; lra | intros; lra | | exact Hactive | ].
  { intros a b. destruct (Rltb_spec (Perf.complianceRate a) (Perf.complianceRate b));
      [left | right]; split; try reflexivity; lra. }
  exists most, best, worst.
  split; [exact Hm1 | ]. split; [exact Hb1 | ]. split; [exact Hw1 | ].
  split; [congruence | ]. split; [congruence | ]. split; [congruence | ]. split.
  - apply Forall_forall. intros p Hp.
    destruct (Nat.ltb_spec 0 (Perf.totalDispatched p)) as [Hpos | Hzero]; [ | lia].
    assert (Hin : p ∈ active).
    { subst active. apply list_elem_of_In, filter_In. split.
      - apply list_elem_of_In. exact Hp.
      - apply Nat.ltb_lt. exact Hpos. }
    rewrite Forall_forall in Hm3. apply Hm3. exact Hin.
  - apply Forall_forall. intros p Hp.
    rewrite Forall_forall in Hb3, Hw3. split; [apply Hw3 | apply Hb3]; exact Hp.
Qed.

Lemma enhanced_score_picks_extreme_asset_types_witness :
  let score :=
    calculateEnhancedFinalScore
      (Engine.state (sample_engine_after DEFAULT_STRATEGY_CONFIG sample_rng)) in
  let active :=
    List.filter (fun p => (0 <? Perf.totalDispatched p)%nat)
                (Enhanced.assetTypePerformance score) in
  exists most best worst : Perf.AssetTypePerformance,
    most ∈ active /\ best ∈ active /\ worst ∈ active
    /\ Perf.assetType most = Enhanced.mostDispatchedAssetType score
    /\ Perf.assetType best = Enhanced.bestPerformingAssetType score
    /\ Perf.assetType worst = Enhanced.worstPerformingAssetType score
    /\ Forall (fun p => (Perf.totalDispatched p <= Perf.totalDispatched most)%nat)
              (Enhanced.assetTypePerformance score)
    /\ Forall (fun p => Perf.complianceRate worst <= Perf.complianceRate p
                        <= Perf.complianceRate best)
              active.
Proof.
  refine (enhanced_score_picks_extreme_asset_types
            (Engine.state (sample_engine_after DEFAULT_STRATEGY_CONFIG sample_rng)) _ _);
    simpl; discriminate.
Defined.

(** ** Scenario generator: identifiers *)

Lemma digits_value_app (s1 s2 : string) :
  forall acc, digits_value (s1 +:+ s2) acc = digits_value s2 (digits_value s1 acc).
Proof.
  induction s1 as [| c s1 IH]; intros acc; simpl; [reflexivity | ].
  destruct (_ && _); apply IH.
Qed.

Lemma digits_value_digit (x : N) (s : string) (acc : option Z) :
  (x < 10)%N ->
  digits_value (String (pretty_N_char x) s) acc
  = digits_value s (Some (10 * default 0%Z acc + Z.of_N x)%Z).
Proof.
  intros Hx.
  assert (Hc : (x = 0 \/ x = 1 \/ x = 2 \/ x = 3 \/ x = 4 \/ x = 5 \/ x = 6 \/ x = 7
                \/ x = 8 \/ x = 9)%N) by lia.
  destruct Hc as [-> | [-> | [-> | [-> | [-> | [-> | [-> | [-> | [-> | ->]]]]]]]]];
    reflexivity.
Qed.

Lemma N_decimal_step (x : N) :
  (0 < x)%N ->
  (x `mod` 10 < 10)%N /\ (x `div` 10 < x)%N
  /\ Z.of_N x = (10 * Z.of_N (x `div` 10) + Z.of_N (x `mod` 10))%Z.
Proof.
  intros Hx. split; [apply N.mod_lt; lia | ].
  split; [apply N.div_lt; lia | ].
  pose proof (N.div_mod x 10 ltac:(lia)) as Hdm. lia.
Qed.

Lemma digits_value_pretty_go (x : N) :
  forall (s : string) (acc : option Z),
  (0 < x)%N -> default 0%Z acc = 0%Z ->
  digits_value (pretty_N_go x s) acc = digits_value s (Some (Z.of_N x)).
Proof.
  induction (N.lt_wf_0 x) as [x _ IH]. intros s acc Hx Hacc.
  rewrite pretty_N_go_step by exact Hx.
  destruct (N_decimal_step x Hx) as (Hmod & Hlt & Hval).
  destruct (decide (x `div` 10 = 0)%N) as [Hz | Hnz].
  - rewrite Hz, pretty_N_go_0, digits_value_digit by exact Hmod.
    rewrite Hacc, Hval, Hz. reflexivity.
  - assert (Hpos : (0 < x `div` 10)%N) by (apply N.neq_0_lt_0; exact Hnz).
    rewrite (IH _ Hlt _ _ Hpos Hacc).
    rewrite digits_value_digit by exact Hmod. cbn [default].
    rewrite Hval. reflexivity.
Qed.

Lemma digits_value_pretty (n : nat) (acc : option Z) :
  default 0%Z acc = 0%Z -> digits_value (pretty n) acc = Some (Z.of_nat n).
Proof.
  intros Hacc. unfold pretty, pretty_nat, pretty, pretty_N.
  destruct (decide (N.of_nat n = 0%N)) as [Hz | Hnz].
  - assert (n = 0%nat) by lia. subst n. simpl. rewrite Hacc. reflexivity.
  - rewrite digits_value_pretty_go by (first [lia | exact Hacc]).
    simpl. f_equal. lia.
Qed.

Lemma digits_value_zeros (k : nat) :
  forall acc : option Z,
  default 0%Z acc = 0%Z -> default 0%Z (digits_value (repeat_char k char_0) acc) = 0%Z.
Proof.
  induction k as [| k IH]; intros acc Hacc; [exact Hacc | ].
  cbn [repeat_char]. unfold char_0 at 1.
  change (digits_value (String (Ascii.ascii_of_nat 48) (repeat_char k char_0)) acc)
    with (digits_value (repeat_char k char_0) (Some (10 * default 0%Z acc + (48 - 48))%Z)).
  apply IH. simpl. lia.
Qed.

Lemma generateId_digits (prefix : string) (index : nat) :
  digits_value prefix None = None ->
  digits_value (generateId prefix index) None = Some (Z.of_nat index).
Proof.
  intros Hp. unfold generateId, padStart.
  rewrite !digits_value_app, Hp.
  change (digits_value "_" None) with (@None Z).
  apply digits_value_pretty. apply digits_value_zeros. reflexivity.
Qed.

(** X23.  generateId writes the index after the prefix and an underscore,
    padded with zeros to at least 4 characters. For a prefix without digits,
    the number read back from the digits of the id (as the round_robin
    ordering does) is the index, so ids generated for different indexes
    differ, whatever their prefixes. *)
Theorem generated_ids_carry_their_index (prefix prefix' : string) (index index' : nat) :
  digits_value prefix None = None ->
  digits_value prefix' None = None ->
  digits_value (generateId prefix index) None = Some (Z.of_nat index)
  /\ (generateId prefix index = generateId prefix' index' -> index = index')
  /\ (4 <= String.length (padStart (pretty index) 4 char_0))%nat.
Proof.
  intros Hp Hp'. split; [apply generateId_digits; exact Hp | ]. split.
  - intros Heq.
    pose proof (generateId_digits prefix index Hp) as H1.
    pose proof (generateId_digits prefix' index' Hp') as H2.
    rewrite Heq, H2 in H1. injection H1 as H1. lia.
  - unfold padStart.
    assert (Hlen : forall (k : nat) (s : string),
              String.length (repeat_char k char_0 +:+ s) = (k + String.length s)%nat).
    { induction k as [| k IH]; intros s; simpl; [reflexivity | rewrite IH; reflexivity]. }
    rewrite Hlen. lia.
Qed.

Lemma generated_ids_carry_their_index_witness :
  digits_value (generateId "hvac" 17) None = Some (Z.of_nat 17)
  /\ (generateId "hvac" 17 = generateId "bat" 3 -> 17%nat = 3%nat)
  /\ (4 <= String.length (padStart (pretty 17%nat) 4 char_0))%nat.
Proof.
  apply (generated_ids_carry_their_index "hvac" "bat" 17 3); reflexivity.
Defined.

(** ** Scenario generator: the random helpers *)

Lemma yields_ret {A : Type} (a : A) (P : A -> Prop) : P a -> yields (ret a) P.
Proof. intros H g Hg. split; assumption. Qed.

Lemma yields_bind {A B : Type} (m : Rand A) (k : A -> Rand B)
    (P : A -> Prop) (Q : B -> Prop) :
  yields m P -> (forall a, P a -> yields (k a) Q) -> yields (bind m k) Q.
Proof.
  intros Hm Hk g Hg. unfold bind. destruct (Hm g Hg) as [Hp Hg'].
  destruct (m g) as [a g']. apply Hk; assumption.
Qed.

Lemma yields_weaken {A : Type} (m : Rand A) (P Q : A -> Prop) :
  yields m P -> (forall a, P a -> Q a) -> yields m Q.
Proof. intros Hm Hpq g Hg. destruct (Hm g Hg). split; auto. Qed.

Lemma yields_random : yields Math_random (fun u => 0 <= u < 1).
Proof. intros g Hg. split; [apply Hg | intros n; apply Hg]. Qed.

Lemma yields_randomBetween (min max : R) :
  min < max -> yields (randomBetween min max) (fun x => min <= x < max).
Proof.
  intros Hlt. unfold randomBetween.
  eapply yields_bind; [apply yields_random | intros u Hu].
  apply yields_ret. simpl. nra.
Qed.

Lemma yields_randomBetween_any (min max : R) :
  yields (randomBetween min max) (fun _ => True).
Proof.
  unfold randomBetween.
  eapply yields_bind; [apply yields_random | intros u _].
  apply yields_ret. exact I.
Qed.

Lemma Int_part_range (x : R) (a b : Z) :
  IZR a <= x -> x < IZR b + 1 -> (a <= Int_part x <= b)%Z.
Proof.
  intros Ha Hb. destruct (base_Int_part x) as [H1 H2]. split.
  - assert (H : (a < Int_part x + 1)%Z); [ | lia].
    apply lt_IZR. rewrite plus_IZR. lra.
  - assert (H : (Int_part x < b + 1)%Z); [ | lia].
    apply lt_IZR. rewrite plus_IZR. lra.
Qed.

Lemma yields_randomInt (min max : Z) :
  yields (randomInt min max)
    (fun z => (Z.min min (max + 1) <= z <= Z.max min max)%Z).
Proof.
  intros g Hg. split; [ | intros n; apply Hg].
  unfold randomInt, randomBetween, bind, ret, Math_random. cbn [fst].
  pose proof (Hg 0%nat) as Hu. set (u := g 0%nat) in *.
  destruct (Z_le_gt_dec min max) as [Hle | Hgt].
  - apply IZR_le in Hle.
    assert (H : (min <= Int_part (u * (IZR max + 1 - IZR min) + IZR min) <= max)%Z)
      by (apply Int_part_range; nra).
    lia.
  - assert (Hgt' : IZR max + 1 <= IZR min)
      by (rewrite <- (plus_IZR max 1); apply IZR_le; lia).
    assert (H : (max + 1 <= Int_part (u * (IZR max + 1 - IZR min) + IZR min) <= min)%Z)
      by (apply Int_part_range; [rewrite plus_IZR | ]; nra).
    lia.
Qed.

Lemma yields_randomInt_range (min max : Z) :
  (min <= max)%Z -> yields (randomInt min max) (fun z => (min <= z <= max)%Z).
Proof.
  intros Hle. eapply yields_weaken; [apply yields_randomInt | ].
  intros z Hz. cbv beta in Hz. lia.
Qed.

Lemma yields_normalRandom (mean std : R) : yields (normalRandom mean std) (fun _ => True).
Proof.
  unfold normalRandom.
  eapply yields_bind; [apply yields_random | intros u1 _].
  eapply yields_bind; [apply yields_random | intros u2 _].
  apply yields_ret. exact I.
Qed.

Lemma yields_randomChoice {T : Type} (arr : list T) :
  arr <> [] -> yields (randomChoice arr) (fun o => exists x, o = Some x /\ x ∈ arr).
Proof.
  intros Hne. unfold randomChoice.
  eapply yields_bind; [apply yields_random | intros u Hu].
  apply yields_ret.
  assert (Hlen : 0 < INR (length arr)).
  { apply lt_0_INR. destruct arr; [congruence | simpl; lia]. }
  assert (Hi : (0 <= Int_part (u * INR (length arr)) <= Z.of_nat (length arr) - 1)%Z).
  { apply Int_part_range; [nra | ].
    rewrite minus_IZR, <- INR_IZR_INZ. nra. }
  destruct (Z.ltb_spec (Int_part (u * INR (length arr))) 0) as [Hneg | _]; [lia | ].
  destruct (lookup_lt_is_Some_2 arr (Z.to_nat (Int_part (u * INR (length arr)))))
    as [x Hx]; [lia | ].
  exists x. split; [exact Hx | ]. eapply list_elem_of_lookup_2. exact Hx.
Qed.

Lemma rng_ok_sample : rng_ok sample_rng.
Proof. intros n. unfold sample_rng. lra. Qed.

(** ** Scenario generator: the assets *)

Lemma generateBatteryResi_spec (id : string) :
  yields (generateBatteryResi id)
    (fun b => Battery.id b = id
              /\ 7 <= Battery.e_kwh (Battery.params b) < 13.5
              /\ 3 <= Battery.p_dis_kw (Battery.params b) < 5
              /\ Battery.p_ch_kw (Battery.params b) = Battery.p_dis_kw (Battery.params b)
              /\ Battery.soc_reserve (Battery.params b) = 0.2
              /\ 0.4 <= Battery.soc (Battery.state b) < 0.9
              /\ Battery.dropped (Battery.state b) = false).
Proof.
  unfold generateBatteryResi.
  eapply yields_bind; [apply (yields_randomBetween 7 13.5); lra | intros capacity Hc].
  eapply yields_bind; [apply (yields_randomBetween 3 5); lra | intros maxPower Hp].
  eapply yields_bind; [apply (yields_randomBetween 0.4 0.9); lra | intros soc Hs].
  eapply yields_bind; [apply yields_normalRandom | intros bias _].
  apply yields_ret. simpl. repeat split; try lra.
Qed.

Lemma generateHvacResi_spec (id : string) (mode : Hvac.Mode) (outdoorTemp : option R) :
  yields (generateHvacResi id mode outdoorTemp)
    (fun h => Hvac.id h = id
              /\ Hvac.mode (Hvac.params h) = mode
              /\ Hvac.comfort_min_f (Hvac.params h) + 2 <= Hvac.pref_setpoint_f (Hvac.params h)
                 <= Hvac.comfort_max_f (Hvac.params h) - 2
              /\ Hvac.setpoint_f (Hvac.state h) = Hvac.pref_setpoint_f (Hvac.params h)
              /\ 0.03 <= Hvac.alpha (Hvac.params h) < 0.08
              /\ 0.3 <= Rabs (Hvac.beta (Hvac.params h)) < 0.7
              /\ (Hvac.beta (Hvac.params h) < 0 <-> mode = Hvac.cooling)
              /\ 2 <= Hvac.hvac_kw (Hvac.params h) < 6
              /\ Hvac.dropped (Hvac.state h) = false).
Proof.
  unfold generateHvacResi.
  eapply (yields_bind _ _
            (fun p => match mode with
                      | Hvac.cooling => 72 <= p < 76
                      | Hvac.heating => 68 <= p < 72
                      end)).
  { destruct mode; apply yields_randomBetween; lra. }
  intros prefSetpoint Hp.
  eapply yields_bind; [apply (yields_randomBetween 0.03 0.08); lra | intros alpha Ha].
  eapply yields_bind; [apply (yields_randomBetween 0.3 0.7); lra | intros b Hb].
  eapply yields_bind; [apply (yields_randomBetween 2 6); lra | intros hvac_kw Hk].
  eapply yields_bind; [apply yields_normalRandom | intros dtin _].
  eapply yields_bind; [apply yields_random | intros u _].
  eapply yields_bind; [apply yields_normalRandom | intros bias _].
  apply yields_ret. cbn [Hvac.id Hvac.params Hvac.state Hvac.mode Hvac.comfort_min_f
    Hvac.pref_setpoint_f Hvac.comfort_max_f Hvac.setpoint_f Hvac.alpha Hvac.beta
    Hvac.hvac_kw Hvac.dropped].
  split; [reflexivity | ]. split; [reflexivity | ].
  split; [destruct mode; simpl; lra | ]. split; [reflexivity | ].
  split; [lra | ].
  split; [destruct mode; simpl; [rewrite Rabs_left | rewrite Rabs_right]; lra | ].
  split; [destruct mode; simpl; split; intros H; first [reflexivity | discriminate | lra] | ].
  split; [lra | reflexivity].
Qed.

Lemma generateCiBuilding_spec (id : string) :
  yields (generateCiBuilding id)
    (fun c => Ci.id c = id
              /\ 20 <= Ci.smax_hvac_kw (Ci.params c) < 150
              /\ 0.5 <= Ci.fatigue_k (Ci.params c) < 1.5
              /\ 50 <= Ci.process_load_kw (Ci.params c) < 200
              /\ (1 <= Ci.max_process_toggles (Ci.params c) <= 3)%Z
              /\ Ci.fatigue (Ci.state c) = 0
              /\ Ci.process_on (Ci.state c) = true
              /\ Ci.process_toggles_used (Ci.state c) = 0%Z
              /\ Ci.dropped (Ci.state c) = false).
Proof.
  unfold generateCiBuilding.
  eapply yields_bind; [apply (yields_randomBetween 20 150); lra | intros smax Hs].
  eapply yields_bind; [apply (yields_randomBetween 0.5 1.5); lra | intros k Hk].
  eapply yields_bind; [apply (yields_randomBetween 0.1 0.3); lra | intros a Ha].
  eapply yields_bind; [apply (yields_randomBetween 0.05 0.15); lra | intros b Hb].
  eapply yields_bind; [apply (yields_randomBetween 50 200); lra | intros load Hl].
  eapply yields_bind; [apply (yields_randomInt_range 1 3); lia | intros toggles Ht].
  eapply yields_bind; [apply yields_normalRandom | intros bias _].
  apply yields_ret. cbv beta in *. simpl. repeat split; try reflexivity; try lra; try lia.
Qed.

Lemma floor_of_le (T : Z) (x : R) (z : Z) :
  IZR z <= IZR T * x -> (z <= floor_of T x)%Z.
Proof.
  intros Hz. unfold floor_of. destruct (base_Int_part (IZR T * x)) as [H1 H2].
  assert (H : (z < Int_part (IZR T * x) + 1)%Z); [ | lia].
  apply lt_IZR. rewrite plus_IZR. lra.
Qed.

Lemma floor_of_lt (T : Z) (x : R) (z : Z) :
  IZR T * x < IZR z -> (floor_of T x < z)%Z.
Proof.
  intros Hz. unfold floor_of. destruct (base_Int_part (IZR T * x)) as [H1 H2].
  apply lt_IZR. lra.
Qed.

Lemma floor_of_mono (T : Z) (x y : R) :
  (0 <= T)%Z -> x <= y -> (floor_of T x <= floor_of T y)%Z.
Proof.
  intros HT Hxy. apply floor_of_le.
  destruct (base_Int_part (IZR T * x)) as [H1 _]. fold (floor_of T x) in H1.
  apply IZR_le in HT. nra.
Qed.

Lemma generateEvResi_spec (id : string) (T : Z) :
  (5 <= T)%Z ->
  yields (generateEvResi id T)
    (fun o => exists ev : Ev.EvResi,
       o = Some ev
       /\ Ev.id ev = id
       /\ (0 <= Ev.t_arrival (Ev.params ev) <= floor_of T 0.75)%Z
       /\ (Ev.t_arrival (Ev.params ev) < Ev.t_depart (Ev.params ev)
           <= Z.max (T - 1) (Ev.t_arrival (Ev.params ev) + 12))%Z
       /\ Ev.plugged (Ev.state ev) = (Ev.t_arrival (Ev.params ev) =? 0)%Z
       /\ 3 <= Ev.e_req_kwh (Ev.params ev) < 30
       /\ Ev.p_max_kw (Ev.params ev)
          ∈ match Ev.charger_level (Ev.params ev) with
            | Ev.L2 => [6.6; 7.2; 9.6]
            | Ev.L1 => [1.4]
            end
       /\ 50 <= Ev.e_capacity_kwh (Ev.params ev) < 80
       /\ 0.40 * Ev.e_capacity_kwh (Ev.params ev) <= Ev.e_kwh (Ev.state ev)
          < 0.65 * Ev.e_capacity_kwh (Ev.params ev)
       /\ Ev.dropped (Ev.state ev) = false
       /\ Ev.override_active (Ev.state ev) = false).
Proof.
  intros HT.
  assert (HTr : 5 <= IZR T) by (apply IZR_le in HT; exact HT).
  assert (H25 : (1 <= floor_of T 0.25)%Z) by (apply floor_of_le; lra).
  assert (H50 : (floor_of T 0.25 <= floor_of T 0.5)%Z) by (apply floor_of_mono; [lia | lra]).
  assert (H75 : (floor_of T 0.5 <= floor_of T 0.75)%Z) by (apply floor_of_mono; [lia | lra]).
  assert (H75' : (floor_of T 0.75 < T - 1)%Z)
    by (apply floor_of_lt; rewrite minus_IZR; lra).
  assert (H80 : (floor_of T 0.8 < T)%Z) by (apply floor_of_lt; lra).
  assert (H60 : (floor_of T 0.6 < T)%Z) by (apply floor_of_lt; lra).
  unfold generateEvResi.
  eapply yields_bind; [apply yields_random | intros arrivalPattern _].
  eapply (yields_bind _ _ (fun tA => (0 <= tA <= floor_of T 0.75)%Z)).
  { destruct (arrivalPattern <? 0.40); [apply yields_ret; lia | ].
    destruct (arrivalPattern <? 0.70);
      [eapply yields_weaken; [apply yields_randomInt | intros z Hz; cbv beta in Hz; lia] | ].
    destruct (arrivalPattern <? 0.88);
      eapply yields_weaken; try apply yields_randomInt; intros z Hz; cbv beta in Hz; lia. }
  intros tArrival HtA.
  eapply yields_bind; [apply yields_random | intros departPattern _].
  eapply (yields_bind _ _ (fun tD => (tArrival < tD <= Z.max (T - 1) (tArrival + 12))%Z)).
  { destruct (departPattern <? 0.88); [apply yields_ret; lia | ].
    destruct (departPattern <? 0.96);
      eapply yields_weaken; try apply yields_randomInt; intros z Hz; cbv beta in Hz; lia. }
  intros tDepart HtD.
  eapply yields_bind; [apply yields_random | intros needPattern _].
  eapply (yields_bind _ _ (fun e => 3 <= e < 30)).
  { destruct (needPattern <? 0.40);
      [eapply yields_weaken; [apply (yields_randomBetween 3 8); lra | intros e He; cbv beta in He; lra] | ].
    destruct (needPattern <? 0.85);
      (eapply yields_weaken; [apply yields_randomBetween; lra | intros e He; cbv beta in He; lra]). }
  intros eReq He.
  eapply yields_bind; [apply yields_random | intros u _].
  eapply (yields_bind _ _
            (fun o => exists p : R,
               o = Some p /\ p ∈ (if u >? 0.25 then [6.6; 7.2; 9.6] else [1.4]))).
  { destruct (u >? 0.25).
    - apply yields_randomChoice. discriminate.
    - apply yields_ret. exists 1.4. split; [reflexivity | apply list_elem_of_here]. }
  intros pMax (p & -> & Hp).
  eapply yields_bind; [apply (yields_randomBetween 50 80); lra | intros capacity Hc].
  eapply yields_bind; [apply (yields_randomBetween (capacity * 0.40) (capacity * 0.65)); lra
                      | intros initialCharge Hi].
  eapply yields_bind; [apply yields_normalRandom | intros bias _].
  apply yields_ret. eexists. split; [reflexivity | ].
  cbn [Ev.id Ev.params Ev.state Ev.t_arrival Ev.t_depart Ev.plugged Ev.e_req_kwh
       Ev.p_max_kw Ev.charger_level Ev.e_capacity_kwh Ev.e_kwh Ev.dropped
       Ev.override_active].
  split; [reflexivity | ]. split; [exact HtA | ]. split; [exact HtD | ].
  split; [reflexivity | ]. split; [exact He | ].
  split; [destruct (u >? 0.25); exact Hp | ].
  split; [exact Hc | ]. split; [lra | ]. split; reflexivity.
Qed.

Lemma vehicle_id_inj (id : string) (i j : nat) :
  id +:+ "_v" +:+ pretty i = id +:+ "_v" +:+ pretty j -> i = j.
Proof.
  intros H. apply String.app_inj in H. apply String.app_inj in H.
  apply pretty_nat_inj in H. exact H.
Qed.

Lemma fleet_vehicles_from_present (id : string) (T : Z) (n : nat) :
  forall (i : nat) (vehicles : list Fleet.FleetVehicle)
         (vs : gmap string Fleet.FleetVehicleState),
  Forall (fun v => is_Some (vs !! Fleet.vid v)) vehicles ->
  yields (fleet_vehicles_from n i id T vehicles vs)
    (fun r => Forall (fun v => is_Some (snd r !! Fleet.vid v)) (fst r)
              /\ length (fst r) = (length vehicles + n)%nat).
Proof.
  induction n as [| n IH]; intros i vehicles vs Hall; cbn [fleet_vehicles_from].
  - apply yields_ret. split; [exact Hall | simpl; lia].
  - eapply yields_bind; [apply yields_randomInt | intros tArr _].
    eapply yields_bind; [apply yields_randomInt | intros tDep _].
    eapply yields_bind; [apply yields_randomBetween_any | intros capacity _].
    eapply yields_bind; [apply yields_randomBetween_any | intros p_max _].
    eapply yields_bind; [apply yields_randomBetween_any | intros e_req _].
    eapply yields_bind; [apply yields_randomBetween_any | intros e0 _].
    eapply yields_weaken.
    + apply IH. apply Forall_app. split.
      * eapply Forall_impl; [exact Hall | ]. intros v Hv. cbv beta.
        apply lookup_insert_is_Some. destruct (decide (id +:+ "_v" +:+ pretty i = Fleet.vid v));
          [left; assumption | right; split; assumption].
      * constructor; [ | constructor]. cbn [Fleet.vid].
        rewrite lookup_insert_eq. eauto.
    + intros r [H1 H2]. split; [exact H1 | ]. rewrite H2, length_app. simpl. lia.
Qed.

Lemma vehicle_generated_insert (T : Z) (vs : gmap string Fleet.FleetVehicleState)
    (k : string) (st : Fleet.FleetVehicleState) (v : Fleet.FleetVehicle) :
  k <> Fleet.vid v -> vehicle_generated T vs v -> vehicle_generated T (<[k := st]> vs) v.
Proof.
  intros Hne (H1 & H2 & H3 & H4 & H5 & st' & Hst & H6).
  repeat (split; [assumption | ]). exists st'.
  rewrite lookup_insert_ne by exact Hne. split; assumption.
Qed.

Lemma fleet_vehicles_from_spec (id : string) (T : Z) (n : nat) :
  (3 <= T)%Z ->
  forall (i : nat) (vehicles : list Fleet.FleetVehicle)
         (vs : gmap string Fleet.FleetVehicleState),
  Fleet.vid <$> vehicles = (fun j : nat => id +:+ "_v" +:+ pretty j) <$> seq 0 i ->
  Forall (vehicle_generated T vs) vehicles ->
  yields (fleet_vehicles_from n i id T vehicles vs)
    (fun r => Fleet.vid <$> fst r
              = (fun j : nat => id +:+ "_v" +:+ pretty j) <$> seq 0 (i + n)
              /\ Forall (vehicle_generated T (snd r)) (fst r)).
Proof.
  intros HT.
  assert (HTr : 3 <= IZR T) by (apply IZR_le in HT; exact HT).
  assert (H30 : (0 <= floor_of T 0.3)%Z) by (apply floor_of_le; lra).
  assert (H70 : (floor_of T 0.7 < T)%Z) by (apply floor_of_lt; lra).
  induction n as [| n IH]; intros i vehicles vs Hids Hall; cbn [fleet_vehicles_from].
  - apply yields_ret. rewrite Nat.add_0_r. split; assumption.
  - eapply yields_bind; [apply (yields_randomInt_range 0 (floor_of T 0.3)); lia
                        | intros tArr HtA].
    eapply yields_bind; [apply (yields_randomInt_range (floor_of T 0.7) (T - 1)); lia
                        | intros tDep HtD].
    eapply yields_bind; [apply (yields_randomBetween 60 150); lra | intros capacity Hc].
    eapply yields_bind; [apply (yields_randomBetween 7 19); lra | intros p_max Hp].
    eapply yields_bind; [apply (yields_randomBetween 30 100); lra | intros e_req He].
    eapply yields_bind; [apply (yields_randomBetween (capacity * 0.1) (capacity * 0.4)); lra
                        | intros e0 He0].
    cbv beta in *. replace (i + S n)%nat with (S i + n)%nat by lia.
    apply IH.
    + rewrite fmap_app, Hids, seq_S, fmap_app. reflexivity.
    + apply Forall_app. split.
      * apply Forall_forall. intros v Hv.
        apply vehicle_generated_insert; [ | revert v Hv; apply Forall_forall; exact Hall].
        intros Heq.
        assert (Hin : Fleet.vid v ∈ Fleet.vid <$> vehicles)
          by (apply list_elem_of_fmap_2; exact Hv).
        rewrite Hids in Hin. apply list_elem_of_fmap in Hin as (j & Hj & Hjin).
        rewrite <- Heq in Hj. apply vehicle_id_inj in Hj. subst j.
        apply elem_of_seq in Hjin. lia.
      * constructor; [ | constructor].
        unfold vehicle_generated.
        cbn [Fleet.vid Fleet.t_arrival Fleet.t_depart Fleet.e_capacity_kwh
             Fleet.p_max_kw Fleet.e_req_kwh].
        repeat (split; [first [assumption | lia | lra] | ]).
        eexists. rewrite lookup_insert_eq. split; [reflexivity | ].
        cbn [Fleet.e_kwh Fleet.plugged]. split; [lra | reflexivity].
Qed.

Lemma generateFleetSite_present (id : string) (T : Z) :
  yields (generateFleetSite id T)
    (fun f => Fleet.id f = id
              /\ vehicle_states_present (AFleet f)
              /\ (10 <= length (Fleet.vehicles (Fleet.params f)) <= 60)%nat
              /\ 50 <= Fleet.u_site_max_kw (Fleet.params f) < 300
              /\ Fleet.dropped (Fleet.state f) = false).
Proof.
  unfold generateFleetSite.
  eapply yields_bind; [apply (yields_randomInt_range 10 60); lia | intros numVehicles Hn].
  eapply yields_bind; [apply (yields_randomBetween 50 300); lra | intros siteMaxPower Hs].
  eapply yields_bind;
    [apply (fleet_vehicles_from_present id T (Z.to_nat numVehicles) 0 [] ∅); constructor
    | intros vs [Hpres Hlen]].
  eapply yields_bind; [apply yields_normalRandom | intros bias _].
  apply yields_ret. cbv beta in *.
  cbn [Fleet.id Fleet.params Fleet.state Fleet.vehicles Fleet.u_site_max_kw
       Fleet.dropped vehicle_states_present Fleet.vehicle_state].
  split; [reflexivity | ]. split; [exact Hpres | ].
  split; [rewrite Hlen; simpl; lia | ]. split; [exact Hs | reflexivity].
Qed.

Lemma generateFleetSite_spec (id : string) (T : Z) :
  (3 <= T)%Z ->
  yields (generateFleetSite id T)
    (fun f => Fleet.vid <$> Fleet.vehicles (Fleet.params f)
              = (fun j : nat => id +:+ "_v" +:+ pretty j)
                  <$> seq 0 (length (Fleet.vehicles (Fleet.params f)))
              /\ Forall (vehicle_generated T (Fleet.vehicle_state (Fleet.state f)))
                        (Fleet.vehicles (Fleet.params f))).
Proof.
  intros HT. unfold generateFleetSite.
  eapply yields_bind; [apply (yields_randomInt_range 10 60); lia | intros numVehicles Hn].
  eapply yields_bind; [apply (yields_randomBetween 50 300); lra | intros siteMaxPower Hs].
  eapply yields_bind;
    [apply (fleet_vehicles_from_spec id T (Z.to_nat numVehicles) HT 0 [] ∅);
       [reflexivity | constructor]
    | intros vs [Hids Hall]].
  eapply yields_bind; [apply yields_normalRandom | intros bias _].
  apply yields_ret. cbv beta in *.
  cbn [Fleet.params Fleet.state Fleet.vehicles Fleet.vehicle_state].
  split; [ | exact Hall].
  assert (Hlen : length (fst vs) = (0 + Z.to_nat numVehicles)%nat).
  { rewrite <- (length_fmap Fleet.vid), Hids, length_fmap, length_seq. reflexivity. }
  rewrite Hlen. exact Hids.
Qed.

Lemma weather_from_length (n : nat) :
  forall (t : Z) (startHour : R) (isCooling : bool),
  yields (weather_from n t startHour isCooling) (fun temps => length temps = n).
Proof.
  induction n as [| n IH]; intros t startHour isCooling; cbn [weather_from].
  - apply yields_ret. reflexivity.
  - eapply yields_bind; [apply yields_normalRandom | intros noise _].
    eapply yields_bind; [apply IH | intros temps Hlen].
    apply yields_ret. simpl. rewrite Hlen. reflexivity.
Qed.

(** ** Scenario generator: the scenario *)

Lemma total_gen_spec {A : Type} (inj : A -> Asset) (m : Rand A) (P : A -> Prop) (g : Rng) :
  yields m P -> rng_ok g ->
  exists (a : A) (g' : Rng), total_gen inj m g = Some (inj a, g') /\ rng_ok g' /\ P a.
Proof.
  intros Hm Hg. destruct (Hm g Hg) as [Hp Hg']. unfold total_gen.
  destruct (m g) as [a g']. exists a, g'. auto.
Qed.

Lemma generate_assets_spec (gen : string -> Rng -> option (Asset * Rng))
    (prefix : string) (t : AssetType) :
  (forall (id : string) (g : Rng), rng_ok g ->
     exists (a : Asset) (g' : Rng),
       gen id g = Some (a, g') /\ rng_ok g' /\ asset_ident a = id /\ asset_type a = t
       /\ vehicle_states_present a /\ asset_dropped a = false) ->
  forall (n i : nat) (g : Rng), rng_ok g ->
  exists (l : list Asset) (g' : Rng),
    generate_assets n prefix i gen g = Some (l, g') /\ rng_ok g'
    /\ asset_ident <$> l = generateId prefix <$> seq i n
    /\ asset_type <$> l = replicate n t
    /\ Forall vehicle_states_present l
    /\ Forall (fun a => asset_dropped a = false) l.
Proof.
  intros Hgen. induction n as [| n IH]; intros i g Hg; cbn [generate_assets].
  - exists [], g. split; [reflexivity | ]. split; [exact Hg | ].
    split; [reflexivity | ]. split; [reflexivity | split; constructor].
  - destruct (Hgen (generateId prefix i) g Hg)
      as (a & g1 & Ha & Hg1 & Hid & Hty & Hpres & Hlive).
    rewrite Ha. cbn [mbind option_bind].
    destruct (IH (S i) g1 Hg1) as (l & g2 & Hl & Hg2 & Hids & Htys & Hall & Hlives).
    rewrite Hl. cbn [mbind option_bind].
    exists (a :: l), g2. split; [reflexivity | ]. split; [exact Hg2 | ].
    split; [cbn [seq]; rewrite !fmap_cons, Hid, Hids; reflexivity | ].
    split; [cbn [replicate]; rewrite fmap_cons, Hty, Htys; reflexivity | ].
    split; constructor; assumption.
Qed.

Lemma generateEvResi_some (id : string) (T : Z) :
  yields (generateEvResi id T)
    (fun o => exists ev : Ev.EvResi,
       o = Some ev /\ Ev.id ev = id
       /\ Ev.plugged (Ev.state ev) = (Ev.t_arrival (Ev.params ev) =? 0)%Z
       /\ Ev.dropped (Ev.state ev) = false
       /\ Ev.override_active (Ev.state ev) = false).
Proof.
  unfold generateEvResi.
  eapply yields_bind; [apply yields_random | intros arrivalPattern _].
  eapply (yields_bind _ _ (fun _ => True)).
  { destruct (arrivalPattern <? 0.40); [apply yields_ret; exact I | ].
    destruct (arrivalPattern <? 0.70);
      [eapply yields_weaken; [apply yields_randomInt | auto] | ].
    destruct (arrivalPattern <? 0.88);
      (eapply yields_weaken; [apply yields_randomInt | auto]). }
  intros tArrival _.
  eapply yields_bind; [apply yields_random | intros departPattern _].
  eapply (yields_bind _ _ (fun _ => True)).
  { destruct (departPattern <? 0.88); [apply yields_ret; exact I | ].
    destruct (departPattern <? 0.96);
      (eapply yields_weaken; [apply yields_randomInt | auto]). }
  intros tDepart _.
  eapply yields_bind; [apply yields_random | intros needPattern _].
  eapply (yields_bind _ _ (fun _ => True)).
  { destruct (needPattern <? 0.40); [apply yields_randomBetween_any | ].
    destruct (needPattern <? 0.85); apply yields_randomBetween_any. }
  intros eReq _.
  eapply yields_bind; [apply yields_random | intros u _].
  eapply (yields_bind _ _ (fun o => exists p : R, o = Some p)).
  { destruct (u >? 0.25).
    - eapply yields_weaken; [apply yields_randomChoice; discriminate | ].
      intros o (p & Hp & _). eauto.
    - apply yields_ret. eauto. }
  intros pMax (p & ->).
  eapply yields_bind; [apply yields_randomBetween_any | intros capacity _].
  eapply yields_bind; [apply yields_randomBetween_any | intros initialCharge _].
  eapply yields_bind; [apply yields_normalRandom | intros bias _].
  apply yields_ret. eexists. repeat split; reflexivity.
Qed.

Lemma generateScenario_spec (config : Gen.ScenarioGeneratorConfig) (g : Rng) :
  rng_ok g ->
  let counts := scenario_assetCounts config in
  let n1 := passes (counts hvac_resi) in
  let n2 := passes (counts battery_resi) in
  let n3 := passes (counts ev_resi) in
  let n4 := passes (counts fleet_site) in
  let n5 := passes (counts ci_building) in
  let preset := DIFFICULTY_PRESETS (Gen.difficulty config) in
  exists (s : Scn.Scenario) (g' : Rng),
    generateScenario config g = Some (s, g') /\ rng_ok g'
    /\ asset_ident <$> Scn.assets s
       = (generateId "hvac" <$> seq 0 n1) ++ (generateId "bat" <$> seq n1 n2)
         ++ (generateId "ev" <$> seq (n1 + n2) n3)
         ++ (generateId "fleet" <$> seq (n1 + n2 + n3) n4)
         ++ (generateId "ci" <$> seq (n1 + n2 + n3 + n4) n5)
    /\ asset_type <$> Scn.assets s
       = replicate n1 hvac_resi ++ replicate n2 battery_resi ++ replicate n3 ev_resi
         ++ replicate n4 fleet_site ++ replicate n5 ci_building
    /\ Forall vehicle_states_present (Scn.assets s)
    /\ timesteps (Scn.scenario s) = (default 4 (Gen.eventDurationHours config) * 12)%Z
    /\ length (outdoor_temp_f (weather (Scn.scenario s)))
       = Z.to_nat (timesteps (Scn.scenario s))
    /\ target_kw (objective (Scn.scenario s)) = Some (Math_round (target_mw preset * 1000))
    /\ probability (noncompliance (Scn.scenario s)) = preset_noncompliance preset
    /\ Forall (fun a => asset_dropped a = false) (Scn.assets s).
Proof.
  intros Hg counts n1 n2 n3 n4 n5 preset. unfold generateScenario.
  fold counts. fold n1 n2 n3 n4 n5. fold preset.
  unfold generateWeatherTimeSeries.
  match goal with |- context [weather_from ?n ?t ?h ?c g] =>
    destruct (weather_from_length n t h c g Hg) as [Hlen Hg0];
    destruct (weather_from n t h c g) as [outdoor g0] end.
  cbn [fst snd] in Hlen, Hg0.
  match goal with |- context [generate_assets n1 "hvac" 0 ?gen g0] =>
    destruct (generate_assets_spec gen "hvac" hvac_resi) with (n := n1) (i := 0%nat) (g := g0)
      as (hvacs & g1 & -> & Hg1 & Hi1 & Ht1 & Hp1 & Hl1); [ | exact Hg0 | ] end.
  { intros id g' Hg'.
    cbv beta.
    match goal with |- context [generateHvacResi id ?m ?o] =>
      destruct (total_gen_spec AHvac _ _ g' (generateHvacResi_spec id m o) Hg')
        as (a & g'' & -> & Hok & Hid & _ & _ & _ & _ & _ & _ & _ & Hd) end.
    exists (AHvac a), g''. split; [reflexivity | ]. split; [exact Hok | ].
    split; [exact Hid | ]. split; [reflexivity | ]. split; [simpl; exact I | exact Hd]. }
  cbn [mbind option_bind].
  match goal with |- context [generate_assets n2 "bat" n1 ?gen g1] =>
    destruct (generate_assets_spec gen "bat" battery_resi) with (n := n2) (i := n1) (g := g1)
      as (batteries & g2 & -> & Hg2 & Hi2 & Ht2 & Hp2 & Hl2); [ | exact Hg1 | ] end.
  { intros id g' Hg'.
    destruct (total_gen_spec ABattery _ _ g' (generateBatteryResi_spec id) Hg')
      as (a & g'' & -> & Hok & Hid & _ & _ & _ & _ & _ & Hd).
    exists (ABattery a), g''. split; [reflexivity | ]. split; [exact Hok | ].
    split; [exact Hid | ]. split; [reflexivity | ]. split; [simpl; exact I | exact Hd]. }
  cbn [mbind option_bind].
  match goal with |- context [generate_assets n3 "ev" ?idx ?gen g2] =>
    destruct (generate_assets_spec gen "ev" ev_resi) with (n := n3) (i := idx) (g := g2)
      as (evs & g3 & -> & Hg3 & Hi3 & Ht3 & Hp3 & Hl3); [ | exact Hg2 | ] end.
  { intros id g' Hg'.
    cbv beta.
    match goal with |- context [generateEvResi id ?T g'] =>
      destruct (generateEvResi_some id T g' Hg') as [(ev & Hev & Hid & _ & Hd & _) Hok];
      destruct (generateEvResi id T g') as [o g''] end.
    cbn [fst snd] in Hev, Hok. subst o. cbn [mbind option_bind].
    exists (AEv ev), g''. split; [reflexivity | ]. split; [exact Hok | ].
    split; [exact Hid | ]. split; [reflexivity | ]. split; [simpl; exact I | exact Hd]. }
  cbn [mbind option_bind].
  match goal with |- context [generate_assets n4 "fleet" ?idx ?gen g3] =>
    destruct (generate_assets_spec gen "fleet" fleet_site) with (n := n4) (i := idx) (g := g3)
      as (fleets & g4 & -> & Hg4 & Hi4 & Ht4 & Hp4 & Hl4); [ | exact Hg3 | ] end.
  { intros id g' Hg'.
    cbv beta.
    match goal with |- context [generateFleetSite id ?T] =>
      destruct (total_gen_spec AFleet _ _ g' (generateFleetSite_present id T) Hg')
        as (a & g'' & -> & Hok & Hid & Hpres & _ & _ & Hd) end.
    exists (AFleet a), g''. split; [reflexivity | ]. split; [exact Hok | ].
    split; [exact Hid | ]. split; [reflexivity | ]. split; [exact Hpres | exact Hd]. }
  cbn [mbind option_bind].
  match goal with |- context [generate_assets n5 "ci" ?idx ?gen g4] =>
    destruct (generate_assets_spec gen "ci" ci_building) with (n := n5) (i := idx) (g := g4)
      as (cis & g5 & -> & Hg5 & Hi5 & Ht5 & Hp5 & Hl5); [ | exact Hg4 | ] end.
  { intros id g' Hg'.
    destruct (total_gen_spec ACi _ _ g' (generateCiBuilding_spec id) Hg')
      as (a & g'' & -> & Hok & Hid & _ & _ & _ & _ & _ & _ & _ & Hd).
    exists (ACi a), g''. split; [reflexivity | ]. split; [exact Hok | ].
    split; [exact Hid | ]. split; [reflexivity | ]. split; [simpl; exact I | exact Hd]. }
  cbn [mbind option_bind].
  eexists. exists g5. split; [reflexivity | ]. split; [exact Hg5 | ].
  cbn [Scn.assets Scn.scenario timesteps weather outdoor_temp_f objective target_kw
       noncompliance probability].
  split; [rewrite !fmap_app, Hi1, Hi2, Hi3, Hi4, Hi5; reflexivity | ].
  split; [rewrite !fmap_app, Ht1, Ht2, Ht3, Ht4, Ht5; reflexivity | ].
  split; [rewrite !Forall_app; auto | ].
  split; [reflexivity | ]. split; [exact Hlen | ]. split; [reflexivity | ].
  split; [reflexivity | ]. rewrite !Forall_app. auto.
Qed.

Lemma digits_of_generated (prefix : string) (i n : nat) :
  digits_value prefix None = None ->
  (fun s => digits_value s None) <$> (generateId prefix <$> seq i n)
  = (fun k : nat => Some (Z.of_nat k)) <$> seq i n.
Proof.
  intros Hp. rewrite <- list_fmap_compose. apply list_fmap_ext.
  intros k x _. cbn. apply generateId_digits. exact Hp.
Qed.

Lemma numbered_NoDup (l : list string) (n : nat) :
  (fun s => digits_value s None) <$> l = (fun k : nat => Some (Z.of_nat k)) <$> seq 0 n ->
  NoDup l.
Proof.
  intros H. apply (NoDup_fmap_1 (fun s => digits_value s None)). rewrite H.
  apply NoDup_fmap_2_strong; [ | apply NoDup_seq].
  intros x y _ _ Hxy. injection Hxy as Hxy. lia.
Qed.

Lemma generated_ids_numbered (l : list Asset) (n1 n2 n3 n4 n5 : nat) :
  asset_ident <$> l
  = (generateId "hvac" <$> seq 0 n1) ++ (generateId "bat" <$> seq n1 n2)
    ++ (generateId "ev" <$> seq (n1 + n2) n3)
    ++ (generateId "fleet" <$> seq (n1 + n2 + n3) n4)
    ++ (generateId "ci" <$> seq (n1 + n2 + n3 + n4) n5) ->
  length l = (n1 + n2 + n3 + n4 + n5)%nat
  /\ (fun a => digits_value (asset_ident a) None) <$> l
     = (fun k : nat => Some (Z.of_nat k)) <$> seq 0 (length l).
Proof.
  intros H.
  assert (Hlen : length l = (n1 + n2 + n3 + n4 + n5)%nat).
  { rewrite <- (length_fmap asset_ident), H.
    rewrite !length_app, !length_fmap, !length_seq. lia. }
  split; [exact Hlen | ].
  rewrite (list_fmap_compose asset_ident (fun s => digits_value s None)), H, Hlen.
  rewrite !fmap_app, !digits_of_generated by reflexivity.
  rewrite <- !fmap_app.
  replace (n1 + n2 + n3 + n4 + n5)%nat with (n1 + (n2 + (n3 + (n4 + n5))))%nat by lia.
  rewrite !seq_app. cbn [Nat.add].
  replace (n1 + n2 + n3)%nat with (n1 + (n2 + n3))%nat by lia.
  replace (n1 + n2 + n3 + n4)%nat with (n1 + (n2 + (n3 + n4)))%nat by lia.
  replace (n1 + (n2 + n3 + n4))%nat with (n1 + (n2 + (n3 + n4)))%nat by lia.
  reflexivity.
Qed.

(** X24.  For outcomes of Math.random() in [0, 1), generateScenario returns
    a scenario whose asset ids are pairwise distinct, the k-th asset (from
    0) carrying the number k in its id. The assets come grouped by type in
    the order HVAC, battery, EV, fleet site, C&I building, as many of each
    as its count rounded up; every fleet site has a vehicle_state entry for
    each vehicle; timesteps is 12 times the event duration in hours (4 by
    default); the weather series has one temperature per timestep; and
    target_kw is the preset's target_mw times 1000, rounded. *)
Theorem generated_scenario_is_well_formed (config : Gen.ScenarioGeneratorConfig) (g : Rng) :
  rng_ok g ->
  let counts := scenario_assetCounts config in
  exists (s : Scn.Scenario) (g' : Rng),
    generateScenario config g = Some (s, g') /\ rng_ok g'
    /\ NoDup (asset_ident <$> Scn.assets s)
    /\ (fun a => digits_value (asset_ident a) None) <$> Scn.assets s
       = (fun k : nat => Some (Z.of_nat k)) <$> seq 0 (length (Scn.assets s))
    /\ asset_type <$> Scn.assets s
       = replicate (passes (counts hvac_resi)) hvac_resi
         ++ replicate (passes (counts battery_resi)) battery_resi
         ++ replicate (passes (counts ev_resi)) ev_resi
         ++ replicate (passes (counts fleet_site)) fleet_site
         ++ replicate (passes (counts ci_building)) ci_building
    /\ Forall vehicle_states_present (Scn.assets s)
    /\ timesteps (Scn.scenario s) = (default 4 (Gen.eventDurationHours config) * 12)%Z
    /\ length (outdoor_temp_f (weather (Scn.scenario s)))
       = Z.to_nat (timesteps (Scn.scenario s))
    /\ target_kw (objective (Scn.scenario s))
       = Some (Math_round (target_mw (DIFFICULTY_PRESETS (Gen.difficulty config)) * 1000)).
Proof.
  intros Hg counts.
  destruct (generateScenario_spec config g Hg)
    as (s & g' & Hs & Hg' & Hids & Htys & Hpres & Hts & Hlen & Htarget & _).
  destruct (generated_ids_numbered _ _ _ _ _ _ Hids) as [_ Hnum].
  exists s, g'. split; [exact Hs | ]. split; [exact Hg' | ].
  split.
  { eapply numbered_NoDup.
    rewrite <- (list_fmap_compose asset_ident (fun s => digits_value s None)).
    exact Hnum. }
  split; [exact Hnum | ]. split; [exact Htys | ]. split; [exact Hpres | ].
  split; [exact Hts | ]. split; [exact Hlen | exact Htarget].
Qed.

Lemma generated_scenario_is_well_formed_witness :
  let counts := scenario_assetCounts sample_generator_config in
  exists (s : Scn.Scenario) (g' : Rng),
    generateScenario sample_generator_config sample_rng = Some (s, g') /\ rng_ok g'
    /\ NoDup (asset_ident <$> Scn.assets s)
    /\ (fun a => digits_value (asset_ident a) None) <$> Scn.assets s
       = (fun k : nat => Some (Z.of_nat k)) <$> seq 0 (length (Scn.assets s))
    /\ asset_type <$> Scn.assets s
       = replicate (passes (counts hvac_resi)) hvac_resi
         ++ replicate (passes (counts battery_resi)) battery_resi
         ++ replicate (passes (counts ev_resi)) ev_resi
         ++ replicate (passes (counts fleet_site)) fleet_site
         ++ replicate (passes (counts ci_building)) ci_building
    /\ Forall vehicle_states_present (Scn.assets s)
    /\ timesteps (Scn.scenario s)
       = (default 4 (Gen.eventDurationHours sample_generator_config) * 12)%Z
    /\ length (outdoor_temp_f (weather (Scn.scenario s)))
       = Z.to_nat (timesteps (Scn.scenario s))
    /\ target_kw (objective (Scn.scenario s))
       = Some (Math_round
                 (target_mw (DIFFICULTY_PRESETS (Gen.difficulty sample_generator_config))
                  * 1000)).
Proof.
  exact (generated_scenario_is_well_formed sample_generator_config sample_rng rng_ok_sample).
Defined.

Lemma live_assets_not_all_dropped (assets : list Asset) :
  assets <> [] ->
  Forall (fun a => asset_dropped a = false) assets ->
  forallb asset_dropped assets = false.
Proof.
  intros Hne Hall. destruct Hall as [| a rest Ha _]; [contradiction | ].
  simpl. rewrite Ha. reflexivity.
Qed.

(** X25.  No asset of a scenario that generateScenario returns (outcomes of
    Math.random() in [0, 1)) has dropped. So on a generated scenario that
    has an asset and at least one timestep the first step() of a new
    SimulationEngine raises a TypeError, whatever the strategy
    configuration, the difficulty and the later random outcomes; on a
    generated scenario without assets any number of step() calls returns. *)
Theorem engine_raises_on_every_generated_asset
    (config : Gen.ScenarioGeneratorConfig) (g : Rng) :
  rng_ok g ->
  exists (s : Scn.Scenario) (g' : Rng),
    generateScenario config g = Some (s, g')
    /\ Forall (fun a => asset_dropped a = false) (Scn.assets s)
    /\ forall (strategyConfig : Strategy.StrategyConfig) (difficulty : DifficultyLevel)
              (g2 : Rng),
         let e0 := SimulationEngine_new s strategyConfig difficulty in
         (Scn.assets s <> [] -> (0 < timesteps (Scn.scenario s))%Z -> step e0 g2 = None)
         /\ (Scn.assets s = [] -> forall n : nat, is_Some (steps n e0 g2)).
Proof.
  intros Hg.
  destruct (generateScenario_spec config g Hg)
    as (s & g' & Hs & _ & _ & _ & _ & _ & _ & _ & _ & Hlive).
  exists s, g'. split; [exact Hs | ]. split; [exact Hlive | ].
  intros strategyConfig difficulty g2 e0. split.
  - intros Hne Hpos. apply step_raises. split; [reflexivity | ]. split.
    + unfold event_over. simpl. apply Z.leb_gt. exact Hpos.
    + unfold all_dropped. simpl. apply live_assets_not_all_dropped; assumption.
  - intros Hnil n.
    destruct (steps_dropped n e0 g2) as (e' & g3 & Hrun).
    { unfold all_dropped. simpl. rewrite Hnil. reflexivity. }
    rewrite Hrun. eauto.
Qed.

Lemma engine_raises_on_every_generated_asset_witness :
  exists (s : Scn.Scenario) (g' : Rng),
    generateScenario sample_generator_config sample_rng = Some (s, g')
    /\ Forall (fun a => asset_dropped a = false) (Scn.assets s)
    /\ forall (strategyConfig : Strategy.StrategyConfig) (difficulty : DifficultyLevel)
              (g2 : Rng),
         let e0 := SimulationEngine_new s strategyConfig difficulty in
         (Scn.assets s <> [] -> (0 < timesteps (Scn.scenario s))%Z -> step e0 g2 = None)
         /\ (Scn.assets s = [] -> forall n : nat, is_Some (steps n e0 g2)).
Proof.
  exact (engine_raises_on_every_generated_asset sample_generator_config sample_rng
           rng_ok_sample).
Defined.

(** X26.  A battery from generateBatteryResi (outcomes of Math.random() in
    [0, 1)) has the given id, e_kwh in [7, 13.5], equal charge and discharge
    ratings in [3, 5], a soc_reserve of 0.2 and a state of charge in
    [0.4, 0.9]. Over any run of updateBatteryResi steps whose arithmetic
    operations are rounded with a relative error of at most u <= 1/100, from
    a generated state of charge that the rounding leaves as it is, its state
    of charge stays within [0.2 - 10 u, 1 + 10 u]. *)
Theorem generated_battery_never_leaves_its_reserve (id : string) (g : Rng) :
  rng_ok g ->
  let b := fst (generateBatteryResi id g) in
  Battery.id b = id
  /\ 7 <= Battery.e_kwh (Battery.params b) <= 13.5
  /\ 3 <= Battery.p_dis_kw (Battery.params b) <= 5
  /\ Battery.p_ch_kw (Battery.params b) = Battery.p_dis_kw (Battery.params b)
  /\ Battery.soc_reserve (Battery.params b) = 0.2
  /\ 0.4 <= Battery.soc (Battery.state b) <= 0.9
  /\ forall (rnd : R -> R) (u : R) (commands : list (option Battery.BatteryCommand))
            (config : ScenarioConfig) (g2 : Rng),
       0 <= u <= / 100 ->
       rounding rnd u ->
       rnd (Battery.soc (Battery.state b)) = Battery.soc (Battery.state b) ->
       0.2 - 10 * u
       <= Battery.soc (Battery.state (fst (battery_steps_rounded rnd b commands config g2)))
       <= 1 + 10 * u.
Proof.
  intros Hg b.
  destruct (generateBatteryResi_spec id g Hg) as [(Hid & He & Hp & Hch & Hr & Hsoc & _) _].
  fold b in Hid, He, Hp, Hch, Hr, Hsoc.
  split; [exact Hid | ]. split; [lra | ]. split; [lra | ]. split; [exact Hch | ].
  split; [exact Hr | ]. split; [lra | ].
  intros rnd u commands config g2 Hu Hrnd Hrep.
  destruct (battery_steps_rounded_within rnd u commands config Hu Hrnd b g2)
    as [_ [_ Hin]].
  - lra.
  - rewrite Hch. lra.
  - rewrite Hr. lra.
  - split; [exact Hrep | ]. rewrite Hr. lra.
  - rewrite Hr in Hin. exact Hin.
Qed.

Lemma generated_battery_never_leaves_its_reserve_witness :
  let b := fst (generateBatteryResi "bat_0003" sample_rng) in
  Battery.id b = "bat_0003"
  /\ 7 <= Battery.e_kwh (Battery.params b) <= 13.5
  /\ 3 <= Battery.p_dis_kw (Battery.params b) <= 5
  /\ Battery.p_ch_kw (Battery.params b) = Battery.p_dis_kw (Battery.params b)
  /\ Battery.soc_reserve (Battery.params b) = 0.2
  /\ 0.4 <= Battery.soc (Battery.state b) <= 0.9
  /\ forall (rnd : R -> R) (u : R) (commands : list (option Battery.BatteryCommand))
            (config : ScenarioConfig) (g2 : Rng),
       0 <= u <= / 100 ->
       rounding rnd u ->
       rnd (Battery.soc (Battery.state b)) = Battery.soc (Battery.state b) ->
       0.2 - 10 * u
       <= Battery.soc (Battery.state (fst (battery_steps_rounded rnd b commands config g2)))
       <= 1 + 10 * u.
Proof.
  exact (generated_battery_never_leaves_its_reserve "bat_0003" sample_rng rng_ok_sample).
Defined.

(** X27.  For an event of at least 9 timesteps, an EV from generateEvResi
    (outcomes of Math.random() in [0, 1)) arrives at a tick in [0,
    floor(0.75 timesteps) + 1] and departs strictly later, at the latest at
    tick max(timesteps, t_arrival + 12). It is plugged exactly when it
    arrives at tick 0; it needs between 3 and 30 kWh; its p_max_kw is 1.4
    for an L1 charger and 6.6, 7.2 or 9.6 for an L2 charger; its capacity is
    in [50, 80] and its initial energy between 40 and 65 percent of it. The
    bounds are those that also hold of the values computed in binary64
    arithmetic, where randomBetween reaches its upper bound and randomInt
    the whole number after its upper bound. *)
Theorem generated_ev_arrives_before_it_departs (id : string) (T : Z) (g : Rng) :
  rng_ok g ->
  (9 <= T)%Z ->
  exists ev : Ev.EvResi,
    fst (generateEvResi id T g) = Some ev
    /\ Ev.id ev = id
    /\ (0 <= Ev.t_arrival (Ev.params ev) <= floor_of T 0.75 + 1)%Z
    /\ (Ev.t_arrival (Ev.params ev) < Ev.t_depart (Ev.params ev)
        <= Z.max T (Ev.t_arrival (Ev.params ev) + 12))%Z
    /\ Ev.plugged (Ev.state ev) = (Ev.t_arrival (Ev.params ev) =? 0)%Z
    /\ 3 <= Ev.e_req_kwh (Ev.params ev) <= 30
    /\ Ev.p_max_kw (Ev.params ev)
       ∈ match Ev.charger_level (Ev.params ev) with
         | Ev.L2 => [6.6; 7.2; 9.6]
         | Ev.L1 => [1.4]
         end
    /\ 50 <= Ev.e_capacity_kwh (Ev.params ev) <= 80
    /\ 0.40 * Ev.e_capacity_kwh (Ev.params ev) <= Ev.e_kwh (Ev.state ev)
       <= 0.65 * Ev.e_capacity_kwh (Ev.params ev)
    /\ Ev.dropped (Ev.state ev) = false
    /\ Ev.override_active (Ev.state ev) = false.
Proof.
  intros Hg HT.
  destruct (generateEvResi_spec id T) with (g := g)
    as [(ev & Hev & Hid & Harr & Hdep & Hpl & Hreq & Hp & Hcap & He & Hd & Ho) _];
    [lia | exact Hg | ].
  exists ev. split; [exact Hev | ]. split; [exact Hid | ]. split; [lia | ].
  split; [lia | ]. split; [exact Hpl | ]. split; [lra | ]. split; [exact Hp | ].
  split; [lra | ]. split; [lra | ]. split; assumption.
Qed.

Lemma generated_ev_arrives_before_it_departs_witness :
  exists ev : Ev.EvResi,
    fst (generateEvResi "ev_0007" 48 sample_rng) = Some ev
    /\ Ev.id ev = "ev_0007"
    /\ (0 <= Ev.t_arrival (Ev.params ev) <= floor_of 48 0.75 + 1)%Z
    /\ (Ev.t_arrival (Ev.params ev) < Ev.t_depart (Ev.params ev)
        <= Z.max 48 (Ev.t_arrival (Ev.params ev) + 12))%Z
    /\ Ev.plugged (Ev.state ev) = (Ev.t_arrival (Ev.params ev) =? 0)%Z
    /\ 3 <= Ev.e_req_kwh (Ev.params ev) <= 30
    /\ Ev.p_max_kw (Ev.params ev)
       ∈ match Ev.charger_level (Ev.params ev) with
         | Ev.L2 => [6.6; 7.2; 9.6]
         | Ev.L1 => [1.4]
         end
    /\ 50 <= Ev.e_capacity_kwh (Ev.params ev) <= 80
    /\ 0.40 * Ev.e_capacity_kwh (Ev.params ev) <= Ev.e_kwh (Ev.state ev)
       <= 0.65 * Ev.e_capacity_kwh (Ev.params ev)
    /\ Ev.dropped (Ev.state ev) = false
    /\ Ev.override_active (Ev.state ev) = false.
Proof.
  apply (generated_ev_arrives_before_it_departs "ev_0007" 48 sample_rng rng_ok_sample).
  lia.
Defined.

Lemma floor_of_03_below_07 (T : Z) : (3 <= T)%Z -> (floor_of T 0.3 < floor_of T 0.7)%Z.
Proof.
  intros HT.
  assert (HTr : 3 <= IZR T) by (apply IZR_le in HT; exact HT).
  assert (H : (floor_of T 0.3 + 1 <= floor_of T 0.7)%Z); [ | lia].
  apply floor_of_le. rewrite plus_IZR.
  destruct (base_Int_part (IZR T * 0.3)) as [H1 _]. fold (floor_of T 0.3) in H1.
  lra.
Qed.

(** X28.  For an event of at least 5 timesteps, a fleet site from
    generateFleetSite (outcomes of Math.random() in [0, 1)) has between 10
    and 61 vehicles with the pairwise distinct ids <id>_v0, <id>_v1, ..., a
    site limit in [50, 300], and for every vehicle a vehicle_state entry
    whose energy is between 10 and 40 percent of the vehicle's capacity and
    whose plugged flag tells whether it arrives at tick 0. Every vehicle
    arrives by tick floor(0.3 timesteps) + 1 and departs later, between
    floor(0.7 timesteps) - 1 and timesteps. The bounds are those that also
    hold of the values computed in binary64 arithmetic. *)
Theorem generated_fleet_site_tracks_every_vehicle (id : string) (T : Z) (g : Rng) :
  rng_ok g ->
  (5 <= T)%Z ->
  let f := fst (generateFleetSite id T g) in
  let vehicles := Fleet.vehicles (Fleet.params f) in
  Fleet.id f = id
  /\ (10 <= length vehicles <= 61)%nat
  /\ 50 <= Fleet.u_site_max_kw (Fleet.params f) <= 300
  /\ Fleet.vid <$> vehicles
     = (fun j : nat => id +:+ "_v" +:+ pretty j) <$> seq 0 (length vehicles)
  /\ NoDup (Fleet.vid <$> vehicles)
  /\ Forall (vehicle_within_ranges T (Fleet.vehicle_state (Fleet.state f))) vehicles.
Proof.
  intros Hg HT f vehicles.
  destruct (generateFleetSite_present id T g Hg) as [(Hid & _ & Hlen & Hmax & _) _].
  destruct (generateFleetSite_spec id T) with (g := g) as [(Hids & Hall) _];
    [lia | exact Hg | ].
  fold f in Hid, Hlen, Hmax, Hids, Hall. fold vehicles in Hlen, Hids, Hall.
  split; [exact Hid | ]. split; [lia | ]. split; [lra | ].
  split; [exact Hids | ]. split.
  - rewrite Hids. apply NoDup_fmap_2_strong; [ | apply NoDup_seq].
    intros x y _ _ Hxy. apply vehicle_id_inj in Hxy. exact Hxy.
  - eapply Forall_impl; [exact Hall | ].
    intros v (Ha & Hd & Hcap & Hp & Hreq & st & Hst & He & Hpl).
    pose proof (floor_of_03_below_07 T ltac:(lia)) as Hlt.
    split; [lia | ]. split; [lia | ]. split; [lia | ].
    split; [lra | ]. split; [lra | ]. split; [lra | ].
    exists st. split; [exact Hst | ]. split; [lra | exact Hpl].
Qed.

Lemma generated_fleet_site_tracks_every_vehicle_witness :
  let f := fst (generateFleetSite "fleet_0009" 48 sample_rng) in
  let vehicles := Fleet.vehicles (Fleet.params f) in
  Fleet.id f = "fleet_0009"
  /\ (10 <= length vehicles <= 61)%nat
  /\ 50 <= Fleet.u_site_max_kw (Fleet.params f) <= 300
  /\ Fleet.vid <$> vehicles
     = (fun j : nat => "fleet_0009" +:+ "_v" +:+ pretty j) <$> seq 0 (length vehicles)
  /\ NoDup (Fleet.vid <$> vehicles)
  /\ Forall (vehicle_within_ranges 48 (Fleet.vehicle_state (Fleet.state f))) vehicles.
Proof.
  apply (generated_fleet_site_tracks_every_vehicle "fleet_0009" 48 sample_rng rng_ok_sample).
  lia.
Defined.

(** X29.  The available capacity (getAvailableCapacity) of a freshly
    generated asset, at any tick: an HVAC unit offers its hvac_kw, in
    [2, 6]; a battery its full p_dis_kw; an EV its p_max_kw if it arrives at
    tick 0 and nothing otherwise; a fleet site 70 percent of its site limit,
    in [35, 210]; a C&I building its whole HVAC shed capacity plus its
    process load, in [70, 350]. Assumes outcomes of Math.random() in [0, 1);
    the ranges are closed because randomBetween reaches its upper bound in
    binary64 arithmetic. *)
Theorem generated_assets_offer_their_capacity_at_once
    (id : string) (mode : Hvac.Mode) (outdoorTemp : option R) (T t : Z) (g : Rng) :
  rng_ok g ->
  2 <= getAvailableCapacity (AHvac (fst (generateHvacResi id mode outdoorTemp g))) t <= 6
  /\ (let b := fst (generateBatteryResi id g) in
      getAvailableCapacity (ABattery b) t = Battery.p_dis_kw (Battery.params b))
  /\ (exists ev : Ev.EvResi,
        fst (generateEvResi id T g) = Some ev
        /\ getAvailableCapacity (AEv ev) t
           = if (Ev.t_arrival (Ev.params ev) =? 0)%Z then Ev.p_max_kw (Ev.params ev) else 0)
  /\ 35 <= getAvailableCapacity (AFleet (fst (generateFleetSite id T g))) t <= 210
  /\ (let c := fst (generateCiBuilding id g) in
      getAvailableCapacity (ACi c) t
      = Ci.smax_hvac_kw (Ci.params c) + Ci.process_load_kw (Ci.params c)
      /\ 70 <= getAvailableCapacity (ACi c) t <= 350).
Proof.
  intros Hg. split; [ | split; [ | split; [ | split]]].
  - destruct (generateHvacResi_spec id mode outdoorTemp g Hg)
      as [(_ & _ & _ & _ & _ & _ & _ & Hkw & Hd) _].
    cbn [getAvailableCapacity]. rewrite Hd. lra.
  - intros b.
    destruct (generateBatteryResi_spec id g Hg) as [(_ & He & Hp & _ & Hr & Hsoc & Hd) _].
    fold b in He, Hp, Hr, Hsoc, Hd.
    cbn [getAvailableCapacity]. rewrite Hd, Hr. apply Math_min_l. nra.
  - destruct (generateEvResi_some id T g Hg) as [(ev & Hev & _ & Hpl & Hd & Ho) _].
    exists ev. split; [exact Hev | ].
    cbn [getAvailableCapacity]. rewrite Hd, Ho, Hpl.
    destruct (Ev.t_arrival (Ev.params ev) =? 0)%Z; reflexivity.
  - destruct (generateFleetSite_present id T g Hg) as [(_ & _ & _ & Hmax & Hd) _].
    cbn [getAvailableCapacity]. rewrite Hd. lra.
  - intros c.
    destruct (generateCiBuilding_spec id g Hg)
      as [(_ & Hs & _ & Hl & _ & Hf & Hon & _ & Hd) _].
    fold c in Hs, Hl, Hf, Hon, Hd.
    cbn [getAvailableCapacity]. rewrite Hd, Hf, Hon.
    unfold Math_exp. rewrite Rmult_0_r, exp_0. split; lra.
Qed.

Lemma generated_assets_offer_their_capacity_at_once_witness :
  2 <= getAvailableCapacity
         (AHvac (fst (generateHvacResi "a_0001" Hvac.cooling None sample_rng))) 0 <= 6
  /\ (let b := fst (generateBatteryResi "a_0001" sample_rng) in
      getAvailableCapacity (ABattery b) 0 = Battery.p_dis_kw (Battery.params b))
  /\ (exists ev : Ev.EvResi,
        fst (generateEvResi "a_0001" 48 sample_rng) = Some ev
        /\ getAvailableCapacity (AEv ev) 0
           = if (Ev.t_arrival (Ev.params ev) =? 0)%Z then Ev.p_max_kw (Ev.params ev) else 0)
  /\ 35 <= getAvailableCapacity (AFleet (fst (generateFleetSite "a_0001" 48 sample_rng))) 0
     <= 210
  /\ (let c := fst (generateCiBuilding "a_0001" sample_rng) in
      getAvailableCapacity (ACi c) 0
      = Ci.smax_hvac_kw (Ci.params c) + Ci.process_load_kw (Ci.params c)
      /\ 70 <= getAvailableCapacity (ACi c) 0 <= 350).
Proof.
  exact (generated_assets_offer_their_capacity_at_once "a_0001" Hvac.cooling None 48 0
           sample_rng rng_ok_sample).
Defined.

(** ** Scenario generator: the asset counts *)

Lemma fold_left_assign {K V : Type} `{EqDecision K} (f : K -> V) (l : list K) :
  forall (init : K -> V) (t : K),
  fold_left (fun (m : K -> V) k => fun t' => if decide (t' = k) then f k else m t') l init t
  = if decide (t ∈ l) then f t else init t.
Proof.
  induction l as [| k l IH]; intros init t; cbn [fold_left].
  - destruct (decide (t ∈ [])) as [Hin | _]; [inversion Hin | reflexivity].
  - rewrite IH.
    destruct (decide (t ∈ l)) as [Hin | Hnin].
    + rewrite decide_True by (apply list_elem_of_further; exact Hin). reflexivity.
    + destruct (decide (t = k)) as [-> | Hne].
      * rewrite decide_True by apply list_elem_of_here. reflexivity.
      * rewrite decide_False; [reflexivity | ].
        intros Hin. apply elem_of_cons in Hin as [? | ?]; contradiction.
Qed.

Lemma Int_part_IZR (z : Z) : Int_part (IZR z) = z.
Proof. symmetry. apply Int_part_spec. lra. Qed.

Lemma passes_whole (z : Z) : passes (IZR z) = Z.to_nat z.
Proof.
  unfold passes, Zceil. rewrite <- opp_IZR, Int_part_IZR. f_equal. lia.
Qed.

(** X30.  In generateScenario the count of an asset type that is not among
    the selected assetTypes is 0, so no asset of it is generated; a selected
    type with a count in the configuration gets that count; a selected type
    without one gets a whole count of at least 1, and the generation loop
    makes exactly that many passes. *)
Theorem asset_counts_cover_exactly_the_selected_types
    (config : Gen.ScenarioGeneratorConfig) (t : AssetType) :
  let counts := scenario_assetCounts config in
  (t ∉ Gen.assetTypes config -> counts t = 0 /\ passes (counts t) = 0%nat)
  /\ (t ∈ Gen.assetTypes config ->
      forall c : R, Gen.assetCounts config t = Some c -> counts t = c)
  /\ (t ∈ Gen.assetTypes config -> Gen.assetCounts config t = None ->
      1 <= counts t /\ INR (passes (counts t)) = counts t).
Proof.
  intros counts. unfold counts, scenario_assetCounts. cbv zeta.
  rewrite fold_left_assign.
  split; [ | split].
  - intros Hnin. rewrite decide_False by exact Hnin.
    split; [reflexivity | ]. apply (passes_whole 0).
  - intros Hin c Hc. rewrite decide_True by exact Hin. rewrite Hc. reflexivity.
  - intros Hin Hc. rewrite decide_True by exact Hin. rewrite Hc.
    unfold Math_ceil.
    match goal with |- context [Zceil ?x] => set (z := Zceil x) end.
    assert (Hmax : Math_max 1 (IZR z) = IZR (Z.max 1 z)).
    { destruct (Z_le_gt_dec z 1) as [Hle | Hgt].
      - rewrite Z.max_l by lia. apply Math_max_l. apply IZR_le. exact Hle.
      - rewrite Z.max_r by lia. apply Math_max_r. apply IZR_le. lia. }
    rewrite Hmax, passes_whole. split; [apply IZR_le; lia | ].
    rewrite INR_IZR_INZ. f_equal. lia.
Qed.

(** ** Checks of the model on concrete inputs *)

Example Math_round_half_up : Math_round 2.5 = 3 /\ Math_round (-1.5) = -1.
Proof.
  split.
  - apply (Math_round_eval _ 3). lra.
  - apply (Math_round_eval _ (-1)). lra.
Qed.

Example sort_by_ascending : sort_by (fun a b => a - b) [3; 1; 2] = [1; 2; 3].
Proof. unfold sort_by. simpl. eval_R. reflexivity. Qed.

Example sort_by_is_stable :
  sort_by (fun a b : R * nat => fst b - fst a) [(1, 0%nat); (2, 1%nat); (1, 2%nat); (2, 3%nat)]
  = [(2, 1%nat); (2, 3%nat); (1, 0%nat); (1, 2%nat)].
Proof. unfold sort_by. simpl. eval_R. reflexivity. Qed.

Example digits_value_of_id : digits_value "hvac_017" None = Some 17%Z.
Proof. reflexivity. Qed.

Example subtype_validity :
  isValidSubtypeForFramework feedback_control pid_like_control = true
  /\ isValidSubtypeForFramework greedy_myopic pid_like_control = false.
Proof. split; reflexivity. Qed.

(** A 3 kW discharge of the sample battery for one tick takes
    [3 * (5/60) / 10] off its state of charge. *)
Example battery_discharge_step :
  battery_apply (Battery.params sample_battery) 0.5 3 = (3, 0.475).
Proof.
  unfold battery_apply. simpl. rewrite TIMESTEP_HOURS_val. eval_R.
  f_equal. lra.
Qed.

(** A charge request is limited by the headroom to full. *)
Example battery_charge_step :
  battery_apply (Battery.params sample_battery) 0.99 (-5) = (-1.2, 1).
Proof.
  unfold battery_apply. simpl. rewrite TIMESTEP_HOURS_val. eval_R.
  f_equal; lra.
Qed.
